(* ===== verification/_CoqProject ===== *)
-Q . S2P
Prelude.v
Text.v
Files.v
Types.v
Merkle.v
Streaming.v
Proposal.v
Metadata.v
BlobStore.v
BlobEngine.v
Serde.v
Store.v
Keys.v
Proto.v
Votes.v
State.v
Archival.v
BlobProposal.v
Commit.v
Decide.v
Sync.v
Client.v
Transport.v
Archiver.v
Metrics.v
App.v
AppLog.v
AppSafety.v
Messages.v
Startup.v
Genesis.v
Commands.v
Spam.v
Netgen.v
Bundle.v
