(* ===== verification/Prelude.v ===== *)
(** * Ultramarine: a verification of the Load Network consensus client

    Ultramarine is a BFT consensus client, written in Rust, for an Ethereum
    execution layer.  A node agrees with its peers, height by height, on an
    execution payload and on the blobs that go with it.  This library models the
    part of it that decides what is stored, accepted, promoted, served and
    deleted, and proves that this part does what it means to.

    ** The program and the files

    - [crates/types]: heights, rounds, validator sets, values, blobs, sidecars,
      archive notices, and the beacon-chain structures that make blobs provable.
      [Types.v] has the data, constructors and hashes; [Merkle.v] the body roots
      and KZG inclusion proofs of [ethereum_compat]; [Metadata.v] the permanent
      per-height record of [blob_metadata.rs]; [Proto.v] the conversions to and
      from protobuf messages of what is stored or streamed; [Votes.v] votes,
      proposals and the signing provider; [Messages.v] the messages consensus and
      sync exchange.
    - [crates/consensus/src/streaming.rs]: proposals travel as numbered messages
      and are reassembled per peer and stream ([Streaming.v]).
    - [crates/blob_engine]: the RocksDB store of sidecars, with an undecided and
      a decided column family ([BlobStore.v]), and the engine that verifies
      KZG proofs before storing ([BlobEngine.v]).  [Serde.v] has the loading of the
      trusted setup, in the nodes and in the load generator, and the other
      hand-written readers of texts: commitments, proofs and the sync aggregate.
    - [crates/consensus/src/store.rs]: the redb store of values, certificates,
      payloads and metadata ([Store.v]); its keys, and the sorted tables of bytes
      they make ([Keys.v]).
    - [crates/consensus/src/state.rs]: the node's state and its handlers.
      [Proposal.v] has the pure parts of proposing and checking a proposal;
      [State.v] the state, serving, archival, pruning, start-up and round
      clean-up; [Archival.v] what these guarantee; [BlobProposal.v] proposing
      with blobs and receiving proposals; [Commit.v] the commit; [Decide.v] the
      handling of a decided certificate, with the execution layer of
      [crates/execution/src/notifier.rs]; [Sync.v] the import of values from
      peers.
    - [crates/execution]: the client of the execution layer, [client.rs] over the
      Engine API of [engine_api] ([Client.v]).  It builds blocks, and it is the
      notifier that [Decide.v] waits for.  [Transport.v] has the requests over HTTP
      and a Unix socket, and the cache of bearer tokens as a step relation over
      concurrent requests.
    - [crates/node/src/archiver.rs]: the worker that uploads the blobs of decided
      heights to a provider and signs the receipts ([Archiver.v]).
    - [crates/consensus/src/archive_metrics.rs] and [metrics.rs]: the metrics of
      archiving and of the database, and the worker and handlers that update them
      ([Metrics.v]).
    - [crates/node/src/app.rs]: the loop that receives the messages of the
      consensus engine and the receipts of the archiver, and answers them with
      the handlers above.  [App.v] has a definition per message and the loop as a
      function of the sequence of events; [AppLog.v] the abstract log a node is
      and the refinement; [AppSafety.v] proposing, voting and serving.
    - [crates/node/src/node.rs]: starting a node, from its configuration
      ([crates/cli/src/config_wrapper.rs]) to the loop ([Startup.v]).  The channels
      over which start-up hands recovered archive jobs to the worker are a step
      relation there (module [Recovery]).
    - [crates/genesis]: the execution genesis and its file ([Genesis.v]), which
      the nodes of [Startup.v] read.
    - [crates/cli] and [bin/ultramarine]: the layout of a home directory and the
      commands that fill it, and the start of a node on it ([Commands.v]), over
      the file system of [Files.v].
    - [crates/utils]: the load generator, with its blob transactions, the sender
      and the tracker of results ([Spam.v]).
    - [infra/gen/netgen]: the generator of network deployments, with the
      validation of a manifest and the allocation of ports and peers
      ([Netgen.v]), and the bundle of files it writes ([Bundle.v], over
      [Files.v] with the modes of files).
    - [Text.v] has what these use of strings: trimming, prefixes, replacing,
      decimal and hexadecimal.

    The parts meet in the loop: a [Node] is the consensus state with its two
    stores, the execution layer, the parts published, the replies sent and the
    jobs submitted, and a message runs one handler on it.

    The state is generic over the blob engine.  So are the theorems about it:
    they are proved for every engine with [BlobEngineLaws], and [BlobEngine.v]
    shows that the implementation over RocksDB has these laws, whatever the
    database does.

    ** How code is represented

    A fallible pure function returns an [outcome]: [Ok], [Err], or [Panic] for an
    [assert], an [expect] or an index out of range.  A method is a computation
    [M S E A] from a state to a new state and an outcome; what it has written
    when it fails stays written, and a [?] in the source is a [bind].  [attempt]
    is [match] on a result.  Log lines are left out, and so are metrics, which
    nothing reads; [Metrics.v] runs the code of archiving with its metrics and
    shows that this changes nothing else.

    Machine integers are [Z] with their wrap-around ([add64], [sub64]),
    saturation or checked conversion ([try_u16], [try_u32]) written out.  Hashes,
    keys and signatures are byte lists.  Tables are [gmap]s, which [Keys.v] relates
    to tables of encoded keys; a [BTreeSet] is a [gset] that is iterated in
    ascending order.

    Both databases can fail at any call: their models carry the list of failures
    to come, and theorems quantify over it.  A redb transaction that fails leaves
    its tables alone; a RocksDB call that fails changes nothing, but the writes
    before it stay.

    Code outside the repository is a parameter: hashing and signatures
    ([Crypto]), the Merkle libraries ([MerkleTreeLib], [TreeHashLib]), KZG
    ([KzgLib] in [BlobEngine.v], [SetupLib] in [Serde.v]), redb ([Redb] in
    [Keys.v]), the protobuf and SSZ codecs ([Codec],
    [ProstMessage], [PayloadSsz]), the stream type of the consensus engine
    ([StreamApi]), the JSON-RPC transport and its format ([Transport],
    [EngineJson]), the clocks ([Timer]), the archive provider ([ArchiveHttp]), the
    execution layer's genesis file ([ExecutionGenesisLib], [GenesisJson],
    [WalletLib]), sockets, the HTTP client and the token library ([Socket],
    [HttpClient], [JwtLib], [RpcJson]), peer identities ([PeerIdLib]), random
    numbers, file formats and addresses of the commands ([Random], [FileFormats],
    [AddressLib]), what the load generator calls ([CKzg], [SignerLib],
    [SpamHttp]), and the inputs, formats, settings and keys of the network
    generator ([InputFormats], [BundleFormats], [Settings], [P2pKeys]).  What the program
    relies on is stated as a class of laws: encoding round trips, the Merkle
    libraries compute SSZ merkleization, signatures verify with their own key, a
    clock does not go back.  [Client.v] shows that the client over any such
    transport has the laws [Decide.v] asks of an execution layer.  The examples
    instantiate the parameters with concrete functions that have the laws.

    ** What the theorems show

    - A node is a replicated log.  For every sequence of events and every failure
      of the stores, the execution layer and the network, the application loop
      refines the log of [AppLog.v]: only decisions change it, nothing leaves it,
      the height after a decision starts only once the decision is in it, a
      decision is always answered, a restart resumes above its tip, and what a
      peer imports is what the log has ([AppLog], [AppSafety], [Startup]).
    - A node that starts is configured to do its part, keeps every decision it
      finds, and hands its archiver exactly the jobs it still owes ([Startup]).
    - A node proposes at most one value per round, across restarts, and hands a
      proposal to consensus only while the execution layer is at its head
      ([AppSafety]).
    - Decided data is safe.  No sequence of store operations removes decided
      records ([Store]); a commit, a sync import and a stale-round clean-up lose
      nothing decided ([Commit], [Sync], [Archival]); promoting a round
      loses none of its blobs wherever RocksDB fails ([BlobStore]).  The maps of the store are what its
      tables of bytes are to it, for every sequence of accesses ([Keys]).
    - Blobs are deleted only when archived and final, and a receipt counts only
      when the right validator signed it for the right blob ([Archival]).
    - Only what is verified gets in: blobs pass the KZG check ([BlobEngine]); a
      proposal is signed, current, well dated, with sidecars included in its
      body and chained to the decided parent ([BlobProposal]); a full package of a
      synced value has complete and verified sidecars ([Sync]); an inclusion proof
      binds its commitment to its index unless the node hash collides ([Merkle]).
    - What honest nodes do is accepted: a streamed proposal is recovered in any
      order of arrival and at most once ([Streaming], [Proposal]), the sidecars a
      proposer prepares or restreams are those a follower accepts
      ([BlobProposal]), generated inclusion proofs verify ([Merkle]), messages
      and records survive encoding ([Proto]), what a validator signs its peers
      read and verify, and a sync response carries the decisions of the log and
      nothing else ([Messages]).
    - Bytes of a peer do not make the decoders of consensus and sync messages
      panic, and what they give can be sent on unchanged ([Messages]), and two conflicting certificates convict validators
      with more than a third of the voting power ([Votes]).
    - The node advances: finalizing a certificate leaves it at the next height
      with the payload as head, and the executed height moves only when the
      execution layer made the payload its head ([Decide]); every wait for the
      execution layer ends; a build starts exactly when the execution layer is
      ready within the retries, and the block it gives extends the head, at a time
      the followers take once their clocks reach it, with a complete bundle
      ([Client]).  A request to the execution layer ends within its timeouts and
      carries a token that is still good ([Transport]).
    - Archival makes progress: the worker loses no job, tries every failed one
      again within a minute, and the receipts it signs pass the node's checks
      ([Archiver]); its metrics account for the jobs and the receipts ([Metrics]).
    - Generated networks work: nodes do not share ports or sockets, and losing one
      host leaves more than two thirds of the validators ([Netgen]); the homes a
      bundle has load one genesis of the validators' keys, and generating it again
      changes no identity ([Bundle]); the nodes of
      a testnet start on the files the commands wrote, as validators of one
      genesis ([Commands]), and the execution genesis is one they accept
      ([Genesis]).
    - A load test stays within its rate, count and time, and does not reuse a
      nonce ([Spam]).
    - Blob metadata is well typed however it was made, decoded or updated
      ([Proto]).
    - The remaining theorems give the exact effect of single operations, and the
      places where the code does not do what it means to: a finished stream is
      kept for ever, short hashes in messages and an empty sync package panic,
      large rounds do not survive the archive encoding, synced blob hashes follow
      the order in which a peer sent the sidecars, start-up waits for ever when
      there are more recovered archive jobs than its channels hold, [init] makes a
      node that is not a validator of its own genesis, blob transactions of
      the load generator fail from the eighth blob on, the lock of a network
      depends on the time it is written, and the metrics count retried blobs twice,
      show the latest pending height for the oldest, and count no deletion.

    ** Bounds and fuel

    Loops over lists are structural.  The three loops that wait for the execution
    layer take the number of rounds they may make; [retry_fuel], the timeout
    divided by the first backoff plus three, is enough for every answer of the
    execution layer, as each round sleeps at least the first backoff
    ([Decide.waits_end]); a round that the bound would cut short is a panic, so
    that no theorem about a result can hide it.  [forkchoice_attempts] has the
    configured number of attempts as fuel, which is the bound of the source's own
    loop, and [drain] the length of the retry queue, which is enough as what it
    adds is not yet due ([Archiver.worker_loses_no_job] shows that it never
    panics).  A run of the node or of the archiver is a function of the finite
    list of events it receives; the theorems quantify over that list.  The sender
    of [Spam.v] takes the number of ticks it may make, and with a time limit of
    [t] seconds [t] + 1 ticks are enough; its inner loop makes at most [max_rate]
    rounds, since each counts one attempt.

    ** What is not modelled

    The tests, their mocks and code that only they call.  Accessors, [Debug] and
    [Display], size estimates that only logs show, and derived encodings, which
    have no logic of their own.  Of the metrics, which database operation makes
    which update, the buckets of histograms, and the six counters of the blob
    engine that the consensus state updates on restreams, rejected packages and
    clean-ups.  Of start-up, signal handling, the metrics server and the opening of
    the two databases; of the commands, argument parsing, log formats and the
    runtime builder; of the Ethereum RPC client, queries no handler uses; of the
    load generator, the printing of statistics.  These are calls of libraries with
    nothing decided in between.
    Node ids are single components of paths in [Bundle.v].  The final flush of the
    blob engine at shutdown is about durability on disk, which the models of the
    databases do not have.

    This file has the shared definitions: outcomes and the state monad with its
    notation, the [steps] calculus for relations that every run of a computation
    respects, failing runs included, machine integers, big-endian bytes, and
    lemmas on lists and maps. *)
From Stdlib Require Export ZArith Lia.
From stdpp Require Export gmap strings list sorting.

#[global] Set Default Proof Using "Type".
#[global] Open Scope Z_scope.

(** ** Outcomes: [Result] values and panics *)

Inductive outcome (E A : Type) : Type :=
| Ok (a : A)
| Err (e : E)
| Panic.
Arguments Ok {E A} a.
Arguments Err {E A} e.
Arguments Panic {E A}.

Declare Scope outcome_scope.
Delimit Scope outcome_scope with outcome.

Definition obind {E A B} (c : outcome E A) (k : A → outcome E B) : outcome E B :=
  match c with
  | Ok a => k a
  | Err e => Err e
  | Panic => Panic
  end.

Notation "'let?' x ':=' c 'in' k" := (obind c (fun x => k))
  (at level 10, x pattern, c at level 100, k at level 200) : outcome_scope.

(** [Option::ok_or_else] *)
Definition ok_or {E A} (o : option A) (e : E) : outcome E A :=
  match o with Some a => Ok a | None => Err e end.

Definition omap_err {E F A} (f : E → F) (c : outcome E A) : outcome F A :=
  match c with Ok a => Ok a | Err e => Err (f e) | Panic => Panic end.

(** [Result::ok] *)
Definition to_option {E A} (c : outcome E A) : option A :=
  match c with Ok a => Some a | _ => None end.

Definition is_ok {E A} (c : outcome E A) : bool :=
  match c with Ok _ => true | _ => false end.

(** [iter().map(f).collect::<Result<Vec<_>, _>>()] *)
Fixpoint omapM {E A B} (f : A → outcome E B) (l : list A) : outcome E (list B) :=
  match l with
  | [] => Ok []
  | x :: l => obind (f x) (fun y => obind (omapM f l) (fun ys => Ok (y :: ys)))
  end.

Lemma omapM_Ok_iff {E A B} (f : A → outcome E B) l ys :
  omapM f l = Ok ys ↔ Forall2 (λ x y, f x = Ok y) l ys.
Proof.
  revert ys; induction l as [|x l IH]; intros ys; simpl.
  - split; [intros [= <-]; constructor | by inversion 1].
  - split.
    + destruct (f x) eqn:Hx; try done; simpl.
      destruct (omapM f l) eqn:Hl; try done; simpl.
      intros [= <-]. constructor; [done | by apply IH].
    + inversion 1 as [|? y ? ys' Hx Hl]; subst. rewrite Hx; simpl.
      apply IH in Hl. by rewrite Hl.
Qed.

Lemma omapM_fmap_Ok {E A B C} (f : B → outcome E C) (g : A → B) (h : A → C) l :
  (∀ x, x ∈ l → f (g x) = Ok (h x)) → omapM f (g <$> l) = Ok (h <$> l).
Proof.
  intros Hfg. apply omapM_Ok_iff. induction l as [|x l IH]; simpl; constructor.
  - apply Hfg. left.
  - apply IH. intros y Hy. apply Hfg. by right.
Qed.

Lemma omapM_Permutation {E A B} (f : A → outcome E B) l l' ys :
  l ≡ₚ l' → omapM f l' = Ok ys → ∃ ys', omapM f l = Ok ys' ∧ ys' ≡ₚ ys.
Proof.
  intros Hp Hys. apply omapM_Ok_iff in Hys.
  revert ys Hys; induction Hp as [|x l l' _ IH|x y l|l1 l2 l3 _ IH1 _ IH2]; intros ys Hys.
  - exists []. by inversion Hys.
  - inversion Hys as [|? y ? ys0 Hx Hl]; subst. destruct (IH _ Hl) as (ys' & Ho & Hp').
    exists (y :: ys'). simpl. rewrite Hx. simpl. rewrite Ho. split; [done|by constructor].
  - inversion Hys as [|? a ? ys0 Hx Hl]; subst. inversion Hl as [|? b ? ys1 Hy Hl']; subst.
    exists (b :: a :: ys1). simpl. rewrite Hx, Hy. simpl. apply omapM_Ok_iff in Hl'.
    rewrite Hl'. simpl. split; [done|apply Permutation_swap].
  - destruct (IH2 _ Hys) as (ys2 & Ho2 & Hp2). apply omapM_Ok_iff in Ho2.
    destruct (IH1 _ Ho2) as (ys1 & Ho1 & Hp1). exists ys1. split; [done|by rewrite Hp1].
Qed.

(** ** A state monad whose computations may fail or panic

    A failing computation keeps the state it has reached: the code mutates
    [self] and its stores in place, and an early return does not undo that. *)

Definition M (S E A : Type) : Type := S → S * outcome E A.

Declare Scope monad_scope.
Delimit Scope monad_scope with monad.

Definition ret {S E A} (a : A) : M S E A := fun s => (s, Ok a).
Definition fail {S E A} (e : E) : M S E A := fun s => (s, Err e).
Definition panic {S E A} : M S E A := fun s => (s, Panic).
Definition lift {S E A} (c : outcome E A) : M S E A := fun s => (s, c).
Definition get {S E} : M S E S := fun s => (s, Ok s).
Definition modify {S E} (f : S → S) : M S E unit := fun s => (f s, Ok tt).

Definition bind {S E A B} (c : M S E A) (k : A → M S E B) : M S E B := fun s =>
  match c s with
  | (s', Ok a) => k a s'
  | (s', Err e) => (s', Err e)
  | (s', Panic) => (s', Panic)
  end.

Notation "'let*' x ':=' c 'in' k" := (bind c (fun x => k))
  (at level 10, x pattern, c at level 100, k at level 200) : monad_scope.
Notation "c ;;; k" := (bind c (fun _ => k))
  (at level 100, right associativity) : monad_scope.

(** [match c.await { Ok(a) => .., Err(e) => .. }]: an error becomes a value,
    a panic keeps unwinding. *)
Definition attempt {S E F A} (c : M S E A) : M S F (E + A) := fun s =>
  match c s with
  | (s', Ok a) => (s', Ok (inr a))
  | (s', Err e) => (s', Ok (inl e))
  | (s', Panic) => (s', Panic)
  end.

Definition map_err {S E F A} (f : E → F) (c : M S E A) : M S F A := fun s =>
  let (s', r) := c s in (s', omap_err f r).

(** Run a computation on one component of the state. *)
Definition zoom {S T E A} (proj : S → T) (upd : T → S → S) (c : M T E A) : M S E A :=
  fun s => let (t, r) := c (proj s) in (upd t s, r).

Definition when {S E} (b : bool) (c : M S E unit) : M S E unit :=
  if b then c else ret tt.

Fixpoint foreach {S E A} (l : list A) (f : A → M S E unit) : M S E unit :=
  match l with
  | [] => ret tt
  | x :: l => bind (f x) (fun _ => foreach l f)
  end.

(** A [for] loop that threads an accumulator. *)
Fixpoint foldM {S E A B} (f : B → A → M S E B) (b : B) (l : list A) : M S E B :=
  match l with
  | [] => ret b
  | x :: l => bind (f b x) (fun b' => foldM f b' l)
  end.

(** *** Step relations of computations

    [steps R c] says that every run of [c], failing ones included, relates its
    initial to its final state by [R].  With [R s s' := P s → P s'] this is
    invariance of [P]; with an order it is monotonicity. *)
Definition steps {S E A} (R : S → S → Prop) (c : M S E A) : Prop :=
  ∀ s, R s (c s).1.

Definition preserves {S} (P : S → Prop) : S → S → Prop := λ s s', P s → P s'.

#[export] Instance preserves_preorder {S} (P : S → Prop) : PreOrder (preserves P).
Proof. unfold preserves; split; repeat intro; auto. Qed.

Create HintDb steps.

Section steps.
Context {S : Type} (R : S → S → Prop) `{!PreOrder R}.

Lemma steps_ret {E A} (a : A) : steps (E:=E) R (ret a).
Proof using All. intros s. reflexivity. Qed.
Lemma steps_fail {E A} (e : E) : steps (A:=A) R (fail e).
Proof using All. intros s. reflexivity. Qed.
Lemma steps_panic {E A} : steps (E:=E) (A:=A) R panic.
Proof using All. intros s. reflexivity. Qed.
Lemma steps_lift {E A} (c : outcome E A) : steps R (lift c).
Proof using All. intros s. reflexivity. Qed.
Lemma steps_get {E} : steps (E:=E) R get.
Proof using All. intros s. reflexivity. Qed.

Lemma steps_bind {E A B} (c : M S E A) (k : A → M S E B) :
  steps R c → (∀ a, steps R (k a)) → steps R (bind c k).
Proof using All.
  intros Hc Hk s. specialize (Hc s). unfold bind.
  destruct (c s) as [s' [a|e|]]; simpl in *; try done.
  etrans; [done|]. apply Hk.
Qed.

(** A computation that reads the state first: the rest only has to step from
    that very state. *)
Lemma steps_bind_get {E A} (k : S → M S E A) :
  (∀ s, R s (k s s).1) → steps R (bind get k).
Proof. intros Hk s. apply Hk. Qed.

Lemma steps_attempt {E F A} (c : M S E A) :
  steps R c → steps R (attempt (F:=F) c).
Proof.
  intros Hc s. specialize (Hc s). unfold attempt.
  by destruct (c s) as [s' [a|e|]].
Qed.

Lemma steps_map_err {E F A} (f : E → F) (c : M S E A) :
  steps R c → steps R (map_err f c).
Proof.
  intros Hc s. specialize (Hc s). unfold map_err. by destruct (c s).
Qed.

Lemma steps_when {E} b (c : M S E unit) : steps R c → steps R (when b c).
Proof using All. intros Hc. destruct b; simpl; [done|apply steps_ret]. Qed.

Lemma steps_foreach {E A} (l : list A) (f : A → M S E unit) :
  (∀ x, x ∈ l → steps R (f x)) → steps R (foreach l f).
Proof using All.
  induction l as [|x l IH]; simpl; intros Hf; [apply steps_ret|].
  apply steps_bind; [apply Hf; left|]. intros _. apply IH.
  intros y Hy. apply Hf. by right.
Qed.

Lemma steps_foldM {E A B} (f : B → A → M S E B) b l :
  (∀ b x, x ∈ l → steps R (f b x)) → steps R (foldM f b l).
Proof using All.
  revert b; induction l as [|x l IH]; simpl; intros b Hf; [apply steps_ret|].
  apply steps_bind; [apply Hf; left|]. intros b'. apply IH.
  intros ? y Hy. apply Hf. by right.
Qed.
End steps.

Lemma steps_modify {S E} (R : S → S → Prop) (f : S → S) :
  (∀ s, R s (f s)) → steps (E:=E) R (modify f).
Proof. intros Hf s. apply Hf. Qed.

Lemma steps_zoom {S T E A} (R : S → S → Prop) (Q : T → T → Prop)
    (proj : S → T) (upd : T → S → S) (c : M T E A) :
  steps Q c → (∀ s t, Q (proj s) t → R s (upd t s)) →
  steps R (zoom proj upd c).
Proof.
  intros Hc HR s. specialize (Hc (proj s)). unfold zoom.
  destruct (c (proj s)) as [t r]. by apply HR.
Qed.

Lemma steps_weaken {S E A} (R R' : S → S → Prop) (c : M S E A) :
  (∀ s s', R s s' → R' s s') → steps R c → steps R' c.
Proof. intros HR Hc s. apply HR, Hc. Qed.

(** *** Running computations *)

Lemma steps_bind_run {S E A A'} (R : S → S → Prop) `{!PreOrder R} (c : M S E A) (k : A → M S E A') :
  steps R c → (∀ s s' a, c s = (s', Ok a) → R s' (k a s').1) → steps R (bind c k).
Proof.
  intros Hc Hk s. specialize (Hc s). specialize (Hk s). unfold bind.
  destruct (c s) as [s' [a|e|]]; simpl in *; try done. etrans; [exact Hc|]. by apply Hk.
Qed.

Lemma bind_run {S Er A A'} (c : M S Er A) (k : A → M S Er A') (s s' : S) (r : outcome Er A') :
  bind c k s = (s', r) →
  (∃ a s1, c s = (s1, Ok a) ∧ k a s1 = (s', r)) ∨
  (∃ r0, c s = (s', r0) ∧ is_ok r0 = false ∧ is_ok r = false).
Proof.
  unfold bind. destruct (c s) as [s1 [a|e|]]; [eauto|..]; intros [= <- <-]; right; eauto.
Qed.

Lemma bind_run_Ok {S Er A A'} (c : M S Er A) (k : A → M S Er A') (s s' : S) (a : A') :
  bind c k s = (s', Ok a) → ∃ x s1, c s = (s1, Ok x) ∧ k x s1 = (s', Ok a).
Proof. intros [Hr|(? & _ & _ & ?)]%bind_run; [done|done]. Qed.

Lemma obind_Ok {Er A A'} (c : outcome Er A) (k : A → outcome Er A') (a : A') :
  obind c k = Ok a → ∃ x, c = Ok x ∧ k x = Ok a.
Proof. destruct c as [x|e|]; [eauto|done..]. Qed.

Lemma zoom_Ok {S T E A} (proj : S → T) (upd : T → S → S) (c : M T E A) (s s' : S) (a : A) :
  zoom proj upd c s = (s', Ok a) → ∃ t, c (proj s) = (t, Ok a) ∧ s' = upd t s.
Proof. unfold zoom. destruct (c (proj s)) as [t r]. intros [= <- ->]. eauto. Qed.

Lemma run_steps {S Er A} (R : S → S → Prop) (c : M S Er A) (s s' : S) (r : outcome Er A) :
  steps R c → c s = (s', r) → R s s'.
Proof. intros Hc Hr. specialize (Hc s). by rewrite Hr in Hc. Qed.

#[export] Hint Resolve steps_ret steps_fail steps_panic steps_lift steps_get
  steps_bind steps_attempt steps_map_err steps_when steps_foreach steps_foldM
  : steps.

(** Decompose a computation into its primitive steps, splitting on every test
    the code makes. *)
Ltac steps_tac :=
  repeat first
    [ progress intros
    | apply steps_ret; apply _
    | apply steps_fail; apply _
    | apply steps_panic; apply _
    | apply steps_lift; apply _
    | apply steps_get; apply _
    | solve [eauto with steps typeclass_instances]
    | apply steps_bind; [apply _| |]
    | apply steps_attempt
    | apply steps_map_err
    | apply steps_when; [apply _|]
    | apply steps_foreach; [apply _|]
    | apply steps_foldM; [apply _|]
    | case_match ].

(** ** Machine integers

    Unsigned and signed 64-bit values are [Z]; the arithmetic is that of the
    release profile of [Cargo.toml], which leaves overflow checks off, so a
    plain [+], [-] or [*] wraps. *)
Definition u64_max : Z := 2^64 - 1.
Definition wrap64 (z : Z) : Z := z mod 2^64.
Definition is_u64 (z : Z) : Prop := 0 ≤ z < 2^64.
Definition is_u32 (z : Z) : Prop := 0 ≤ z < 2^32.
Definition is_u16 (z : Z) : Prop := 0 ≤ z < 2^16.
Definition is_i64 (z : Z) : Prop := - 2^63 ≤ z < 2^63.

Definition add64 (a b : Z) : Z := wrap64 (a + b).
Definition sub64 (a b : Z) : Z := wrap64 (a - b).
Definition saturating_sub64 (a b : Z) : Z := Z.max 0 (a - b).
Definition saturating_add64 (a b : Z) : Z := Z.min u64_max (a + b).
Definition checked_sub64 (a b : Z) : option Z := if a <? b then None else Some (a - b).
Definition saturating_sub_i64 (a b : Z) : Z := Z.max (- 2^63) (Z.min (2^63 - 1) (a - b)).
(** [u16::try_from], [u32::try_from] *)
Definition try_u16 (z : Z) : option Z := if (0 <=? z) && (z <? 2^16) then Some z else None.
Definition try_u32 (z : Z) : option Z := if (0 <=? z) && (z <? 2^32) then Some z else None.

(** Two's complement reading of an unsigned 64-bit value. *)
Definition to_i64 (z : Z) : Z := if z <? 2^63 then z else z - 2^64.

Lemma add64_small a b : 0 ≤ a + b < 2^64 → add64 a b = a + b.
Proof. intros. unfold add64, wrap64. by apply Z.mod_small. Qed.

Lemma to_i64_mod z : is_i64 z → to_i64 (z mod 2^64) = z.
Proof.
  unfold is_i64, to_i64. intros Hz.
  destruct (decide (0 ≤ z)) as [Hp|Hn].
  - rewrite Z.mod_small by lia. destruct (z <? 2^63) eqn:E; lia.
  - replace (z mod 2^64) with (z + 2^64).
    + destruct (z + 2^64 <? 2^63) eqn:E; lia.
    + apply (Z.mod_unique z (2^64) (-1) (z + 2^64)); lia.
Qed.

Lemma try_u16_id z : is_u16 z → try_u16 z = Some z.
Proof.
  unfold is_u16, try_u16. intros Hz.
  by destruct ((0 <=? z) && (z <? 2^16)) eqn:E; [|lia].
Qed.

Lemma try_u32_id z : is_u32 z → try_u32 z = Some z.
Proof.
  unfold is_u32, try_u32. intros Hz.
  by destruct ((0 <=? z) && (z <? 2^32)) eqn:E; [|lia].
Qed.

Lemma try_u16_Some z n : try_u16 z = Some n → n = z ∧ is_u16 z.
Proof.
  unfold try_u16, is_u16. destruct (_ && _) eqn:E; [|done].
  intros [= <-]. split; [done|lia].
Qed.

(** ** Bytes *)

Abbreviation byte := Z (only parsing).
Abbreviation bytes := (list Z) (only parsing).

Definition is_byte (b : Z) : Prop := 0 ≤ b < 256.

(** [to_be_bytes]: the [n] low bytes of [z], most significant first. *)
Fixpoint be_bytes (n : nat) (z : Z) : bytes :=
  match n with
  | O => []
  | S n => be_bytes n (z / 256) ++ [z mod 256]
  end.

(** [to_le_bytes] *)
Fixpoint le_bytes (n : nat) (z : Z) : bytes :=
  match n with
  | O => []
  | S n => z mod 256 :: le_bytes n (z / 256)
  end.

(** [from_be_bytes] *)
Definition of_be (l : bytes) : Z := foldl (λ acc b, acc * 256 + b) 0 l.

(** [from_le_bytes] *)
Definition of_le (l : bytes) : Z := foldr (λ b acc, b + 256 * acc) 0 l.

Lemma length_le_bytes n z : length (le_bytes n z) = n.
Proof. revert z; induction n as [|n IH]; intros z; simpl; [done|]. by rewrite IH. Qed.

Lemma of_le_bytes n z : of_le (le_bytes n z) = z mod 256 ^ Z.of_nat n.
Proof.
  revert z; induction n as [|n IH]; intros z; [by rewrite Z.mod_1_r|].
  change (of_le (le_bytes (S n) z)) with (z mod 256 + 256 * of_le (le_bytes n (z / 256))).
  rewrite IH, Nat2Z.inj_succ, Z.pow_succ_r by lia.
  rewrite (Z.rem_mul_r z 256 (256 ^ Z.of_nat n)) by lia. lia.
Qed.

Lemma length_be_bytes n z : length (be_bytes n z) = n.
Proof.
  revert z; induction n as [|n IH]; intros z; simpl; [done|].
  rewrite length_app, IH; simpl; lia.
Qed.

Lemma of_be_snoc l b : of_be (l ++ [b]) = of_be l * 256 + b.
Proof. unfold of_be. by rewrite foldl_app. Qed.

Lemma of_be_bytes n z : of_be (be_bytes n z) = z mod 256 ^ Z.of_nat n.
Proof.
  revert z; induction n as [|n IH]; intros z.
  - by rewrite Z.mod_1_r.
  - cbn [be_bytes]. rewrite of_be_snoc, IH, Nat2Z.inj_succ, Z.pow_succ_r by lia.
    rewrite (Z.rem_mul_r z 256 (256 ^ Z.of_nat n)) by lia. lia.
Qed.

Lemma be_bytes_inj n a b :
  0 ≤ a < 256 ^ Z.of_nat n → 0 ≤ b < 256 ^ Z.of_nat n →
  be_bytes n a = be_bytes n b → a = b.
Proof.
  intros Ha Hb Heq. apply (f_equal of_be) in Heq.
  rewrite !of_be_bytes in Heq. by rewrite !Z.mod_small in Heq.
Qed.

Lemma is_byte_mod z : is_byte (z mod 256).
Proof. apply Z.mod_pos_bound. lia. Qed.

Lemma be_bytes_range n z : Forall is_byte (be_bytes n z).
Proof.
  revert z; induction n as [|n IH]; intros z; simpl; [constructor|].
  apply Forall_app_2; [apply IH|]. constructor; [apply is_byte_mod|constructor].
Qed.

Lemma app_inj_length {A} (a b c d : list A) :
  length a = length c → a ++ b = c ++ d → a = c ∧ b = d.
Proof. intros Hl Heq. by apply app_inj_1. Qed.

(** ** Lists *)

(** [slice::starts_with] *)
Definition starts_with (l p : bytes) : bool := bool_decide (take (length p) l = p).

Lemma starts_with_app p l : starts_with (p ++ l) p = true.
Proof. unfold starts_with. rewrite take_app_length. by apply bool_decide_eq_true_2. Qed.

(** [iter().enumerate()] *)
Definition enumerate {A} (l : list A) : list (nat * A) := imap (λ i x, (i, x)) l.

(** [iter().skip_while(p)], [iter().take_while(p)] *)
Fixpoint drop_while {A} (p : A → bool) (l : list A) : list A :=
  match l with [] => [] | x :: l' => if p x then drop_while p l' else l end.
Fixpoint take_while {A} (p : A → bool) (l : list A) : list A :=
  match l with [] => [] | x :: l' => if p x then x :: take_while p l' else [] end.

(** [iter().position(p)] *)
Fixpoint position {A} (p : A → bool) (l : list A) : option nat :=
  match l with
  | [] => None
  | x :: l => if p x then Some O else S <$> position p l
  end.

(** [iter().find(p)] *)
Definition find_first {A} (p : A → bool) (l : list A) : option A := head (filter (λ x, p x = true) l).

Lemma position_lt {A} (p : A → bool) l i : position p l = Some i → (i < length l)%nat.
Proof.
  revert i; induction l as [|x l IH]; intros i; simpl; [done|].
  destruct (p x); [intros [= <-]; lia|].
  destruct (position p l) as [j|]; simpl; [|done].
  intros [= <-]. specialize (IH j eq_refl). lia.
Qed.

Lemma position_Some_lookup {A} (p : A → bool) l i :
  position p l = Some i → ∃ x, l !! i = Some x ∧ p x = true ∧ find_first p l = Some x.
Proof.
  revert i; induction l as [|x l IH]; intros i; simpl; [done|].
  unfold find_first in *. rewrite filter_cons.
  destruct (p x) eqn:Hx.
  - intros [= <-]. by exists x.
  - destruct (position p l) as [j|]; simpl; [|done].
    intros [= <-]. apply (IH j eq_refl).
Qed.

Lemma find_first_Some {A} (p : A → bool) l x :
  find_first p l = Some x → x ∈ l ∧ p x = true.
Proof.
  unfold find_first. intros Hx.
  assert (Hin : x ∈ filter (λ x, p x = true) l).
  { destruct (filter _ l); simplify_eq/=. left. }
  apply list_elem_of_filter in Hin. tauto.
Qed.

Lemma position_None {A} (p : A → bool) l :
  position p l = None ↔ find_first p l = None.
Proof.
  unfold find_first. induction l as [|x l IH]; simpl; [done|].
  rewrite filter_cons. destruct (p x); [done|].
  rewrite <-IH. destruct (position p l); simpl; split; done.
Qed.

Lemma filter_none {A} (P : A → Prop) `{!∀ x, Decision (P x)} l :
  Forall (λ x, ¬ P x) l → filter P l = [].
Proof. induction 1; [done|]. rewrite filter_cons. by case_decide. Qed.

Lemma filter_all {A} (P : A → Prop) `{!∀ x, Decision (P x)} l :
  Forall P l → filter P l = l.
Proof. induction 1; [done|]. rewrite filter_cons. case_decide; [by f_equal|done]. Qed.

Lemma snd_fmap_pair {A B} (a : A) (l : list B) : snd <$> ((λ x, (a, x)) <$> l) = l.
Proof. induction l as [|x l IH]; simpl; [done|]. by f_equal. Qed.

(** A list is the image of another when it is so place by place. *)
Lemma fmap_lookup_eq {A B} (f : A → B) (l : list A) (l' : list B) :
  length l = length l' → (∀ k x, l !! k = Some x → l' !! k = Some (f x)) → f <$> l = l'.
Proof.
  intros Hn Hl. apply list_eq_same_length with (n := length l'); [done|by rewrite length_fmap|].
  intros k x y _ (z & -> & Hz)%list_lookup_fmap_Some Hy. specialize (Hl k z Hz). congruence.
Qed.

Lemma NoDup_submseteq_fmap {A B} (f : A → B) l k :
  l ⊆+ k → NoDup (f <$> k) → NoDup (f <$> l).
Proof.
  intros [k' Hk]%submseteq_Permutation. rewrite Hk, fmap_app.
  by intros (? & _ & _)%NoDup_app.
Qed.

(** *** A stable sort by an integer key: [slice::sort_by_key] *)
Section sort_by_key.
Context {A : Type} (key : A → Z).

Fixpoint insert_by_key (x : A) (l : list A) : list A :=
  match l with
  | [] => [x]
  | y :: l' => if key x <=? key y then x :: l else y :: insert_by_key x l'
  end.

Definition sort_by_key (l : list A) : list A := foldr insert_by_key [] l.

Abbreviation key_sorted := (StronglySorted (λ x y, key x ≤ key y)).

Lemma insert_by_key_Permutation x l : insert_by_key x l ≡ₚ x :: l.
Proof.
  induction l as [|y l IH]; simpl; [done|].
  destruct (_ <=? _); [done|]. rewrite IH. by apply Permutation_swap.
Qed.

Lemma sort_by_key_Permutation l : sort_by_key l ≡ₚ l.
Proof.
  induction l as [|x l IH]; simpl; [done|].
  rewrite insert_by_key_Permutation. by constructor.
Qed.

Lemma insert_by_key_sorted x l : key_sorted l → key_sorted (insert_by_key x l).
Proof.
  induction 1 as [|y l Hl IH Hy]; simpl.
  { repeat constructor. }
  destruct (key x <=? key y) eqn:E.
  - constructor; [by constructor|]. constructor; [lia|].
    eapply Forall_impl; [done|]. simpl. intros; lia.
  - constructor; [done|]. rewrite insert_by_key_Permutation.
    constructor; [lia|done].
Qed.

Lemma sort_by_key_sorted l : key_sorted (sort_by_key l).
Proof.
  induction l as [|x l IH]; simpl; [constructor|]. by apply insert_by_key_sorted.
Qed.

Lemma sort_by_key_id l : key_sorted l → sort_by_key l = l.
Proof.
  induction 1 as [|x l Hl IH Hx]; simpl; [done|]. rewrite IH.
  destruct Hx as [|y l Hy]; simpl; [done|].
  by replace (key x <=? key y) with true by lia.
Qed.

(** With distinct keys the sorted arrangement is unique. *)
Lemma key_sorted_last l m x : key_sorted l → last l = Some m → x ∈ l → key x ≤ key m.
Proof.
  induction 1 as [|y l Hl IH Hy]; [by intros ? ?%elem_of_nil|]. rewrite Forall_forall in Hy.
  destruct l as [|z l]; [by intros [= ->] ->%list_elem_of_singleton|].
  change (last (y :: z :: l)) with (last (z :: l)). intros Hm [->|Hin]%elem_of_cons; [|auto].
  by apply Hy, last_Some_elem_of.
Qed.

Lemma key_sorted_head l m x : key_sorted l → head l = Some m → x ∈ l → key m ≤ key x.
Proof.
  destruct 1 as [|y l Hl Hy]; [done|]. intros [= ->] [->|Hin]%elem_of_cons; [done|].
  rewrite Forall_forall in Hy. auto.
Qed.

Lemma key_sorted_unique l1 l2 :
  NoDup (key <$> l1) → l1 ≡ₚ l2 → key_sorted l1 → key_sorted l2 → l1 = l2.
Proof.
  revert l2; induction l1 as [|x l1 IH]; intros l2 Hnd Hp Hs1 Hs2.
  { by apply Permutation_nil in Hp. }
  destruct l2 as [|y l2]; [by apply Permutation_sym, Permutation_nil in Hp|].
  assert (x = y) as ->.
  { inversion Hs1 as [|?? Hs1' Hx]; inversion Hs2 as [|?? Hs2' Hy]; subst.
    assert (x ∈ y :: l2) as Hxin by (rewrite <-Hp; left).
    assert (y ∈ x :: l1) as Hyin by (rewrite Hp; left).
    apply elem_of_cons in Hxin as [->|Hxin]; [done|].
    apply elem_of_cons in Hyin as [->|Hyin]; [done|].
    rewrite Forall_forall in Hx. rewrite Forall_forall in Hy.
    specialize (Hx _ Hyin). specialize (Hy _ Hxin).
    apply NoDup_cons in Hnd as [Hnin _]. exfalso. apply Hnin.
    replace (key x) with (key y) by lia. by apply list_elem_of_fmap_2. }
  f_equal. apply (IH l2).
  - by apply NoDup_cons in Hnd as [_ ?].
  - by eapply Permutation_cons_inv.
  - by inversion Hs1.
  - by inversion Hs2.
Qed.

Lemma sort_by_key_Permutation_eq l1 l2 :
  NoDup (key <$> l1) → l1 ≡ₚ l2 → sort_by_key l1 = sort_by_key l2.
Proof.
  intros Hnd Hp. apply key_sorted_unique; [| |apply sort_by_key_sorted..].
  - by rewrite sort_by_key_Permutation.
  - by rewrite !sort_by_key_Permutation.
Qed.
End sort_by_key.
