(* ===== verification/Text.v ===== *)
(** * Strings

    What the program uses of [str]: a string is its UTF-8 bytes, as in Rust.
    Trimming and replacing work on the bytes, with the encodings of the
    characters concerned. *)
From Stdlib Require Import Ascii.
From S2P Require Import Prelude.

(** ** Hexadecimal *)

Definition hex_digit (z : Z) : ascii := ascii_of_nat (Z.to_nat (if z <? 10 then 48 + z else 87 + z)).
(** [hex::encode] *)
Fixpoint hex_encode (b : bytes) : string :=
  match b with
  | [] => EmptyString
  | x :: b => String (hex_digit (x / 16)) (String (hex_digit (x mod 16)) (hex_encode b))
  end.
Definition hex0x (b : bytes) : string := ("0x" ++ hex_encode b)%string.

(** ** Prefixes and trimming *)

(** Drop a prefix for as long as one of [ps] is there. *)
Fixpoint strip_prefix (p l : list ascii) : option (list ascii) :=
  match p, l with
  | [], l => Some l
  | a :: p, b :: l => if decide (a = b) then strip_prefix p l else None
  | _ :: _, [] => None
  end.
Fixpoint strip_any (ps : list (list ascii)) (l : list ascii) : option (list ascii) :=
  match ps with
  | [] => None
  | p :: ps => match strip_prefix p l with Some l => Some l | None => strip_any ps l end
  end.
Fixpoint strip_all (fuel : nat) (ps : list (list ascii)) (l : list ascii) : list ascii :=
  match fuel with
  | O => l
  | S fuel => match strip_any ps l with Some l => strip_all fuel ps l | None => l end
  end.
Definition trim_start_of (ps : list (list ascii)) (s : string) : string :=
  let l := String.list_ascii_of_string s in String.string_of_list_ascii (strip_all (length l) ps l).
Definition trim_end_of (ps : list (list ascii)) (s : string) : string :=
  let l := reverse (String.list_ascii_of_string s) in
  String.string_of_list_ascii (reverse (strip_all (length l) (reverse <$> ps) l)).

(** The UTF-8 encodings of the [White_Space] characters, for [str::trim]. *)
Definition white_space : list (list ascii) :=
  (λ bs : list nat, ascii_of_nat <$> bs) <$>
  ([[9]; [10]; [11]; [12]; [13]; [32]; [194; 133]; [194; 160]; [225; 154; 128]]
   ++ ((λ x, [226; 128; x]) <$> (seq 128 11 ++ [168; 169; 175]))
   ++ [[226; 129; 159]; [227; 128; 128]])%nat.
Definition trim (s : string) : string := trim_end_of white_space (trim_start_of white_space s).
Definition slash : list (list ascii) := [["/"%char]].

(** [str::starts_with] *)
Definition str_starts_with (p s : string) : bool :=
  bool_decide (is_Some (strip_prefix (String.list_ascii_of_string p) (String.list_ascii_of_string s))).

(** [str::contains] and [str::replace], of a pattern that is not empty. *)
Fixpoint find_sub (p l : list ascii) : bool :=
  bool_decide (is_Some (strip_prefix p l)) || match l with [] => false | _ :: l => find_sub p l end.
Definition str_contains (p s : string) : bool :=
  find_sub (String.list_ascii_of_string p) (String.list_ascii_of_string s).

Fixpoint replace_sub (fuel : nat) (p r l : list ascii) : list ascii :=
  match fuel with
  | O => l
  | S fuel =>
    match strip_prefix p l with
    | Some l => r ++ replace_sub fuel p r l
    | None => match l with [] => [] | a :: l => a :: replace_sub fuel p r l end
    end
  end.
Definition str_replace (p r s : string) : string :=
  let l := String.list_ascii_of_string s in
  String.string_of_list_ascii
    (replace_sub (length l) (String.list_ascii_of_string p) (String.list_ascii_of_string r) l).

Definition is_blank (s : string) : bool := bool_decide (trim s = EmptyString).

(** [str::cmp] *)
Definition str_le (s t : string) : Prop := String.compare s t ≠ Gt.
#[export] Instance str_le_dec : RelDecision str_le.
Proof. intros s t. unfold str_le. apply _. Defined.

(** ** Parsing *)

(** [str::parse::<bool>] *)
Definition parse_bool (s : string) : option bool :=
  if decide (s = "true") then Some true else if decide (s = "false") then Some false else None.

(** [str::parse] of an unsigned integer below [bound]: digits, after an optional
    plus sign. *)
Definition digit_value (a : ascii) : option Z :=
  let n := Z.of_nat (nat_of_ascii a) in if (48 <=? n) && (n <=? 57) then Some (n - 48) else None.
Fixpoint digits_value (acc : Z) (l : list ascii) : option Z :=
  match l with
  | [] => Some acc
  | a :: l => d ← digit_value a; digits_value (acc * 10 + d) l
  end.
Definition parse_uint (bound : Z) (s : string) : option Z :=
  let l := match String.list_ascii_of_string s with "+"%char :: l => l | l => l end in
  match l with
  | [] => None
  | _ => z ← digits_value 0 l; if z <? bound then Some z else None
  end.

(** [hex::decode] *)
Definition hex_value (a : ascii) : option Z :=
  let n := Z.of_nat (nat_of_ascii a) in
  if (48 <=? n) && (n <=? 57) then Some (n - 48)
  else if (97 <=? n) && (n <=? 102) then Some (n - 87)
  else if (65 <=? n) && (n <=? 70) then Some (n - 55)
  else None.
Fixpoint hex_decode_list (l : list ascii) : option bytes :=
  match l with
  | [] => Some []
  | [_] => None
  | a :: b :: l => x ← hex_value a; y ← hex_value b; bs ← hex_decode_list l; Some (16 * x + y :: bs)
  end.
Definition hex_decode (s : string) : option bytes := hex_decode_list (String.list_ascii_of_string s).

(** The bytes of a file as text. *)
Definition text_of_bytes (b : bytes) : string :=
  String.string_of_list_ascii ((λ z, ascii_of_nat (Z.to_nat z)) <$> b).

Lemma hex_value_digit (z : Z) : 0 ≤ z < 16 → hex_value (hex_digit z) = Some z.
Proof.
  intros Hz. unfold hex_value, hex_digit.
  destruct (z <? 10) eqn:Hd; rewrite nat_ascii_embedding by lia; rewrite Z2Nat.id by lia.
  - replace ((48 <=? 48 + z) && (48 + z <=? 57)) with true by lia. f_equal. lia.
  - replace ((48 <=? 87 + z) && (87 + z <=? 57)) with false by lia.
    replace ((97 <=? 87 + z) && (87 + z <=? 102)) with true by lia. f_equal. lia.
Qed.

Lemma hex_roundtrip (b : bytes) : Forall (λ z, 0 ≤ z < 256) b → hex_decode (hex_encode b) = Some b.
Proof.
  unfold hex_decode. induction 1 as [|z b Hz _ IH]; [done|]. cbn [hex_encode String.list_ascii_of_string hex_decode_list].
  rewrite !hex_value_digit by (apply Z.mod_pos_bound || (split; [apply Z.div_pos|apply Z.div_lt_upper_bound]); lia).
  cbn [mbind option_bind]. rewrite IH. cbn. do 2 f_equal. rewrite (Z.div_mod z 16) at 3 by lia. done.
Qed.
