(* ===== verification/Files.v ===== *)
(** * Files ([crates/cli/src/file.rs])

    The disk as the commands use it: files by path, and a call that may fail.  A
    failing write leaves what it has written.  [save] creates the parent
    directory, opens the file truncated and writes it. *)
From S2P Require Import Prelude.
Open Scope monad_scope.

(** A path is its components, and [join] appends one. *)
Abbreviation Path := (list string) (only parsing).
Definition join (dir : Path) (file : string) : Path := dir ++ [file].
Definition parent (path : Path) : option Path := match path with [] => None | _ => Some (removelast path) end.

(** The failures to come: [None] is a call that works, [Some n] one that fails,
    after [n] bytes where it is a write. *)
Record Fs := mkFs { fs_files : gmap (list string) bytes; fs_faults : list (option nat) }.

(** [crates/cli/src/error.rs] *)
Inductive CliError :=
| ParentDir (path : Path) | OpenFile (path : Path) | WriteFile (path : Path)
| LoadFile (path : Path) | ToJSON (e : string) | DirPath | Join.

Abbreviation FsM E A := (M Fs E A) (only parsing).

Definition fs_call {E} : FsM E (option nat) := λ fs,
  match fs_faults fs with
  | [] => (fs, Ok None)
  | f :: faults => (mkFs (fs_files fs) faults, Ok f)
  end.
Definition set_file (path : Path) (data : bytes) (fs : Fs) : Fs :=
  mkFs (<[path := data]> (fs_files fs)) (fs_faults fs).

Definition exists_ {E} (path : Path) : FsM E bool := λ fs,
  (fs, Ok (bool_decide (is_Some (fs_files fs !! path)))).
Definition read_file (fs : Fs) (path : Path) : option bytes := fs_files fs !! path.

(** [fs::create_dir_all] *)
Definition create_dir_all {E} (e : E) : FsM E unit :=
  let* f := fs_call in match f with None => ret tt | Some _ => fail e end.
(** [OpenOptions::new().write(true).create(true).truncate(true).open(path)] *)
Definition open_truncated {E} (path : Path) (e : E) : FsM E unit :=
  let* f := fs_call in match f with None => modify (set_file path []) | Some _ => fail e end.
Definition write_all {E} (path : Path) (data : bytes) (e : E) : FsM E unit :=
  let* f := fs_call in
  match f with
  | None => modify (set_file path data)
  | Some n => modify (set_file path (take n data)) ;;; fail e
  end.

Definition save (path : Path) (data : bytes) : FsM CliError unit :=
  match parent path with Some dir => create_dir_all (ParentDir dir) | None => ret tt end ;;;
  open_truncated path (OpenFile path) ;;;
  write_all path data (WriteFile path).

(** ** What a call leaves *)

(** Only the files of [P] change. *)
Definition touches (P : Path → Prop) (fs fs' : Fs) : Prop :=
  ∀ path, ¬ P path → fs_files fs' !! path = fs_files fs !! path.
#[export] Instance touches_preorder (P : Path → Prop) : PreOrder (touches P).
Proof.
  split; [by intros fs path|]. intros a b c Hab Hbc path Hp. by rewrite (Hbc path Hp), (Hab path Hp).
Qed.

(** With no failure to come a computation has one result. *)
Definition works {E A} (c : FsM E A) (a : A) (R : gmap Path bytes → gmap Path bytes) : Prop :=
  ∀ m, c (mkFs m []) = (mkFs (R m) [], Ok a).

Lemma works_bind {E A B} (c : FsM E A) (k : A → FsM E B) (a : A) (b : B) R R' :
  works c a R → works (k a) b R' → works (bind c k) b (λ m, R' (R m)).
Proof. intros Hc Hk m. unfold bind. by rewrite Hc, Hk. Qed.
Lemma works_ret {E A} (a : A) : works (E := E) (ret a) a id.
Proof. by intros m. Qed.

Lemma save_works (path : Path) (data : bytes) : works (save path data) tt (λ m, <[path := data]> m).
Proof.
  intros m. unfold save, parent, bind, create_dir_all, open_truncated, write_all, fs_call, bind, modify, set_file. destruct path; simpl;
    by rewrite insert_insert_eq. Qed.

Lemma save_run (path : Path) (data : bytes) (fs : Fs) :
  touches (λ p, p = path) fs (save path data fs).1 ∧
  ((save path data fs).2 = Ok tt → fs_files (save path data fs).1 = <[path := data]> (fs_files fs)).
Proof.
  unfold save, parent, create_dir_all, open_truncated, write_all, fs_call, bind, modify, set_file.
  destruct path, fs as [m [|[n1|] [|[n2|] [|[n3|] fl]]]]; simpl; (split; [|try done; intros _; by rewrite ?insert_insert_eq]);
    intros p Hp; simpl; rewrite ?lookup_insert_ne by done; done.
Qed.

Lemma save_touches (path : Path) (data : bytes) : steps (touches (λ p, p = path)) (save path data).
Proof. intros fs. apply save_run. Qed.
Lemma save_Ok (path : Path) (data : bytes) (fs fs' : Fs) :
  save path data fs = (fs', Ok tt) → fs_files fs' = <[path := data]> (fs_files fs).
Proof. intros Hs. pose proof (save_run path data fs) as [_ H]. rewrite Hs in H. by apply H. Qed.
Lemma save_no_panic (path : Path) (data : bytes) (fs : Fs) : (save path data fs).2 ≠ Panic.
Proof.
  unfold save, parent, create_dir_all, open_truncated, write_all, fs_call, bind, modify, set_file.
  by destruct path, fs as [m [|[n1|] [|[n2|] [|[n3|] fl]]]].
Qed.
