(* ===== verification/Types.v ===== *)
(** * Domain types of [crates/types]

    Heights, rounds, validators and proposer selection, the metadata layers
    (value, blob and consensus metadata), blob sidecars, archive notices and
    proposal parts.  Hashes, addresses, keys, signatures and KZG points are
    their byte strings; [B256_from_slice] and the other fixed-size
    constructors keep the length checks of the source. *)
From S2P Require Import Prelude.
Open Scope outcome_scope.

(** ** Heights ([height.rs]) *)

Abbreviation Height := Z (only parsing).

Definition Height_new (h : Z) : Height := h.
Definition Height_increment (h : Height) : Height := add64 h 1.
Definition Height_decrement (h : Height) : option Height := checked_sub64 h 1.
Definition Height_increment_by (h : Height) (n : Z) : Height := add64 h n.
Definition Height_decrement_by (h : Height) (n : Z) : option Height :=
  Some (saturating_sub64 h n).

(** ** Rounds

    [Round] belongs to the consensus engine; its two constructors are those of
    the mirror enum the source declares for serialisation, and [Nil] is [-1]
    as a key. *)
Inductive Round := Nil | RSome (r : Z).

Definition Round_new (r : Z) : Round := RSome r.
Definition Round_as_i64 (r : Round) : Z := match r with Nil => -1 | RSome r => r end.
Definition Round_as_u32 (r : Round) : option Z := match r with Nil => None | RSome r => Some r end.

#[export] Instance Round_eq_dec : EqDecision Round.
Proof. solve_decision. Defined.
#[export] Instance Round_countable : Countable Round.
Proof.
  refine (inj_countable' (λ r, match r with Nil => None | RSome z => Some z end)
            (λ o, match o with None => Nil | Some z => RSome z end) _).
  by intros [].
Defined.

Definition round_wf (r : Round) : Prop := match r with Nil => True | RSome z => is_u32 z end.

Lemma Round_as_i64_inj r1 r2 :
  round_wf r1 → round_wf r2 → Round_as_i64 r1 = Round_as_i64 r2 → r1 = r2.
Proof. unfold round_wf, is_u32; destruct r1, r2; simpl; intros; f_equal; lia. Qed.

(** ** Fixed-size byte strings *)

Abbreviation B256 := (list Z) (only parsing).
Abbreviation Address := (list Z) (only parsing).
Abbreviation Signature := (list Z) (only parsing).
Abbreviation PublicKey := (list Z) (only parsing).
Abbreviation KzgCommitment := (list Z) (only parsing).
Abbreviation KzgProof := (list Z) (only parsing).

Definition zeros (n : nat) : bytes := replicate n 0.
Definition B256_ZERO : B256 := zeros 32.
Definition has_length (n : nat) (l : bytes) : Prop := length l = n.

(** [B256::from_slice] panics when the slice is not 32 bytes long. *)
Definition B256_from_slice {E} (l : bytes) : outcome E B256 :=
  if decide (length l = 32%nat) then Ok l else Panic.

Definition BYTES_PER_BLOB : Z := 131072.
Definition BYTES_PER_COMMITMENT : nat := 48.
Definition BYTES_PER_PROOF : nat := 48.
Definition MAX_BLOB_COMMITMENTS_PER_BLOCK : Z := 4096.
Definition MAX_BLOBS_PER_BLOCK : Z := 1024.

Definition KzgCommitment_from_slice (l : bytes) : outcome string KzgCommitment :=
  if decide (length l = BYTES_PER_COMMITMENT) then Ok l
  else Err "Invalid commitment size"%string.

Definition KzgProof_from_slice (l : bytes) : outcome string KzgProof :=
  if decide (length l = BYTES_PER_PROOF) then Ok l
  else Err "Invalid proof size"%string.

(** [Blob::new] admits only full-size blobs. *)
Definition Blob_new (data : bytes) : outcome string bytes :=
  if Z.of_nat (length data) =? BYTES_PER_BLOB then Ok data
  else Err "Invalid blob size"%string.

Definition Blob_size (blob : bytes) : Z := BYTES_PER_BLOB.

Lemma B256_from_slice_Ok {E} l h : B256_from_slice (E:=E) l = Ok h ↔ h = l ∧ has_length 32 l.
Proof.
  unfold B256_from_slice, has_length. case_decide; split; [intros [= <-]|intros [-> _]|done|intros [_ ?]]; done.
Qed.

(** ** Validators ([validator_set.rs]) *)

Record Validator := mkValidator {
  val_address : Address;
  val_public_key : PublicKey;
  val_voting_power : Z
}.
#[export] Instance Validator_eq_dec : EqDecision Validator.
Proof. solve_decision. Defined.

Record ValidatorSet := mkValidatorSet { vs_validators : list Validator }.

(** [Vec::dedup]: drops an element equal to its predecessor. *)
Fixpoint dedup {A} `{EqDecision A} (l : list A) : list A :=
  match l with
  | x :: ((y :: _) as l') => if decide (x = y) then dedup l' else x :: dedup l'
  | _ => l
  end.

Definition sort_validators (vals : list Validator) : list Validator := dedup vals.

Definition ValidatorSet_new {E} (vals : list Validator) : outcome E ValidatorSet :=
  let vals := sort_validators vals in
  match vals with
  | [] => Panic                                   (* assert!(!validators.is_empty()) *)
  | _ => Ok (mkValidatorSet vals)
  end.

Definition vs_count (vs : ValidatorSet) : Z := Z.of_nat (length (vs_validators vs)).

Definition total_voting_power (vs : ValidatorSet) : Z :=
  foldl (λ acc v, add64 acc (val_voting_power v)) 0 (vs_validators vs).

Definition get_by_address (vs : ValidatorSet) (a : Address) : option Validator :=
  find_first (λ v, bool_decide (val_address v = a)) (vs_validators vs).

Definition get_by_public_key (vs : ValidatorSet) (k : PublicKey) : option Validator :=
  find_first (λ v, bool_decide (val_public_key v = k)) (vs_validators vs).

Definition get_by_index (vs : ValidatorSet) (i : Z) : option Validator :=
  vs_validators vs !! Z.to_nat i.

Definition get_keys (vs : ValidatorSet) : list PublicKey :=
  val_public_key <$> vs_validators vs.

(** [State::validator_index] *)
Definition validator_index (vs : ValidatorSet) (a : Address) : option Z :=
  Z.of_nat <$> position (λ v, bool_decide (val_address v = a)) (vs_validators vs).

(** ** Proposer selection ([context.rs]) *)

Definition proposer_index (vs : ValidatorSet) (height : Height) (r : Z) : Z :=
  add64 (sub64 height 1) r mod vs_count vs.

Definition select_proposer {E} (vs : ValidatorSet) (height : Height) (round : Round)
    : outcome E Validator :=
  if negb (0 <? vs_count vs) then Panic            (* assert!(count() > 0) *)
  else match round with
       | Nil => Panic                              (* assert!(round != Nil) *)
       | RSome r =>
         match get_by_index vs (proposer_index vs height r) with
         | Some v => Ok v
         | None => Panic                           (* expect("proposer_index is valid") *)
         end
       end.

(** ** Execution layer data ([engine_api.rs]) *)

Record Withdrawal := mkWithdrawal {
  wd_index : Z; wd_validator_index : Z; wd_address : Address; wd_amount : Z }.
#[export] Instance Withdrawal_eq_dec : EqDecision Withdrawal.
Proof. solve_decision. Defined.

(** The fields of the Engine API's [ExecutionPayloadV3] that the source reads. *)
Record ExecutionPayloadV3 := mkPayload {
  ep_parent_hash : B256; ep_fee_recipient : Address; ep_state_root : B256;
  ep_receipts_root : B256; ep_logs_bloom : bytes; ep_prev_randao : B256;
  ep_block_number : Z; ep_gas_limit : Z; ep_gas_used : Z; ep_timestamp : Z;
  ep_extra_data : bytes; ep_base_fee_per_gas : Z; ep_block_hash : B256;
  ep_transactions : list bytes; ep_withdrawals : list Withdrawal;
  ep_blob_gas_used : Z; ep_excess_blob_gas : Z }.
#[export] Instance ExecutionPayloadV3_eq_dec : EqDecision ExecutionPayloadV3.
Proof. solve_decision. Defined.

Record ExecutionBlock := mkExecutionBlock {
  eb_block_hash : B256; eb_block_number : Z; eb_parent_hash : B256;
  eb_timestamp : Z; eb_prev_randao : B256 }.
#[export] Instance ExecutionBlock_eq_dec : EqDecision ExecutionBlock.
Proof. solve_decision. Defined.

Definition LOAD_PREVRANDAO_U64 : Z := 1.
Definition load_prev_randao : B256 := be_bytes 32 LOAD_PREVRANDAO_U64.

Record ExecutionPayloadHeader := mkHeader {
  eh_block_hash : B256; eh_parent_hash : B256; eh_state_root : B256;
  eh_receipts_root : B256; eh_logs_bloom : bytes; eh_block_number : Z;
  eh_gas_limit : Z; eh_gas_used : Z; eh_timestamp : Z; eh_base_fee_per_gas : Z;
  eh_extra_data : bytes; eh_transactions_root : B256; eh_withdrawals_root : B256;
  eh_blob_gas_used : Z; eh_excess_blob_gas : Z; eh_prev_randao : B256;
  eh_fee_recipient : Address; eh_requests_hash : option B256 }.
#[export] Instance ExecutionPayloadHeader_eq_dec : EqDecision ExecutionPayloadHeader.
Proof. solve_decision. Defined.
#[export] Instance ExecutionPayloadHeader_countable : Countable ExecutionPayloadHeader.
Proof.
  refine (inj_countable'
    (λ x, (
      eh_block_hash x, eh_parent_hash x, eh_state_root x, eh_receipts_root x,
      eh_logs_bloom x, eh_block_number x, eh_gas_limit x, eh_gas_used x,
      eh_timestamp x, eh_base_fee_per_gas x, eh_extra_data x, eh_transactions_root x,
      eh_withdrawals_root x, eh_blob_gas_used x, eh_excess_blob_gas x,
      eh_prev_randao x, eh_fee_recipient x, eh_requests_hash x))
    (λ '(
      x0, x1, x2, x3, x4, x5, x6, x7, x8, x9, x10, x11, x12, x13, x14, x15, x16, x17), mkHeader x0 x1 x2 x3 x4 x5 x6 x7 x8 x9 x10 x11 x12 x13 x14 x15 x16 x17) _). by intros [].
Defined.

Definition LOAD_EXECUTION_GAS_LIMIT : Z := 2000000000.
Definition LOAD_MIN_BLOCK_TIME_SECS : Z := 1.
Definition LOAD_MAX_FUTURE_DRIFT_SECS : Z := 15.

(** The all-zero header used by [BlobMetadata::genesis] (with its gas limit)
    and by the deprecated [Value::from_bytes]. *)
Definition zero_header (gas_limit : Z) : ExecutionPayloadHeader := {|
  eh_block_hash := B256_ZERO; eh_parent_hash := B256_ZERO; eh_state_root := B256_ZERO;
  eh_receipts_root := B256_ZERO; eh_logs_bloom := zeros 256; eh_block_number := 0;
  eh_gas_limit := gas_limit; eh_gas_used := 0; eh_timestamp := 0; eh_base_fee_per_gas := 0;
  eh_extra_data := []; eh_transactions_root := B256_ZERO; eh_withdrawals_root := B256_ZERO;
  eh_blob_gas_used := 0; eh_excess_blob_gas := 0; eh_prev_randao := B256_ZERO;
  eh_fee_recipient := zeros 20; eh_requests_hash := None |}.

(** ** Value metadata ([value_metadata.rs], [value.rs]) *)

Record ValueMetadata := mkValueMetadata {
  vm_execution_payload_header : ExecutionPayloadHeader;
  vm_blob_kzg_commitments : list KzgCommitment;
  vm_blob_count : Z;                                                    (* u16 *)
  vm_total_blob_bytes : Z                                               (* u32 *) }.
#[export] Instance ValueMetadata_eq_dec : EqDecision ValueMetadata.
Proof. solve_decision. Defined.
#[export] Instance ValueMetadata_countable : Countable ValueMetadata.
Proof.
  refine (inj_countable'
    (λ x, (
      vm_execution_payload_header x, vm_blob_kzg_commitments x, vm_blob_count x,
      vm_total_blob_bytes x))
    (λ '(
      x0, x1, x2, x3), mkValueMetadata x0 x1 x2 x3) _). by intros [].
Defined.

Definition mul_u32 (a b : Z) : Z := (a * b) mod 2^32.

Definition ValueMetadata_new {E} (h : ExecutionPayloadHeader) (cs : list KzgCommitment)
    : outcome E ValueMetadata :=
  match try_u16 (Z.of_nat (length cs)) with
  | None => Panic                                   (* expect("blob count exceeds u16::MAX") *)
  | Some n => Ok (mkValueMetadata h cs n (mul_u32 n BYTES_PER_BLOB))
  end.

Definition ValueMetadata_validate (m : ValueMetadata) : outcome string unit :=
  if negb (vm_blob_count m =? Z.of_nat (length (vm_blob_kzg_commitments m)))
  then Err "blob_count mismatch"%string
  else if MAX_BLOBS_PER_BLOCK <? vm_blob_count m then Err "Too many blobs"%string
  else if negb (vm_total_blob_bytes m =? mul_u32 (vm_blob_count m) BYTES_PER_BLOB)
  then Err "total_blob_bytes mismatch"%string
  else Ok tt.

(** The inputs fed to the standard library's [DefaultHasher], in order. *)
Definition consensus_hash_inputs (m : ValueMetadata) : list bytes :=
  let h := vm_execution_payload_header m in
  [ eh_block_hash h; eh_parent_hash h; eh_state_root h; eh_receipts_root h;
    eh_logs_bloom h; le_bytes 8 (eh_block_number h); le_bytes 8 (eh_gas_limit h);
    le_bytes 8 (eh_gas_used h); le_bytes 8 (eh_timestamp h);
    le_bytes 32 (eh_base_fee_per_gas h); le_bytes 8 (eh_blob_gas_used h);
    le_bytes 8 (eh_excess_blob_gas h); eh_prev_randao h; eh_fee_recipient h ]
  ++ option_list (eh_requests_hash h) ++ vm_blob_kzg_commitments m.

Record Value := mkValue {
  v_value : Z;
  v_metadata : ValueMetadata;
  v_extensions : bytes }.
#[export] Instance Value_eq_dec : EqDecision Value.
Proof. solve_decision. Defined.
#[export] Instance Value_countable : Countable Value.
Proof.
  refine (inj_countable'
    (λ x, (
      v_value x, v_metadata x, v_extensions x))
    (λ '(
      x0, x1, x2), mkValue x0 x1 x2) _). by intros [].
Defined.

(** Hashing and signing primitives: third-party crates ([sha3], [sha2],
    ed25519, the tree-hash crates) and the unspecified [DefaultHasher]. *)
Class Crypto := {
  keccak256 : bytes → B256;
  sha256 : bytes → B256;
  (** [std::collections::hash_map::DefaultHasher] over a sequence of writes *)
  default_hasher : list bytes → Z;
  ed25519_sign : bytes → bytes → Signature;              (* private key, message *)
  ed25519_public : bytes → PublicKey;
  ed25519_verify : PublicKey → bytes → Signature → bool;
  (** [ethereum_hashing::hash32_concat] *)
  hash32_concat : B256 → B256 → B256;
  (** [MerkleHasher::with_leaves(n)], one [write] per leaf, then [finish] *)
  merkle_hasher : nat → list B256 → B256;
  (** tree-hash roots the derive macro and the fixed-array instance give *)
  tree_hash_bytes48 : bytes → B256;
  beacon_header_tree_hash : Z → Z → B256 → B256 → B256 → B256;
  (** [RequestsOrHash::requests_hash] (EIP-7685) *)
  requests_hash : list bytes → B256 }.

(** Documented behaviour of the signature scheme. *)
Class CryptoLaws (C : Crypto) := {
  ed25519_correct : ∀ sk msg, ed25519_verify (ed25519_public sk) msg (ed25519_sign sk msg) = true }.

Section values.
Context `{Crypto}.

Definition consensus_hash (m : ValueMetadata) : Z := default_hasher (consensus_hash_inputs m).

(** The [debug_assert!] on [validate] is not compiled in release builds. *)
Definition Value_new (m : ValueMetadata) : Value := mkValue (consensus_hash m) m [].

Definition Value_from_bytes {E} (data : bytes) : outcome E Value :=
  let? m := ValueMetadata_new (zero_header 0) [] in
  Ok (mkValue (default_hasher [data]) m data).

Definition Value_id (v : Value) : Z := v_value v.
End values.

(** ** Beacon headers and blob sidecars ([ethereum_compat/beacon_header.rs],
    [proposal_part.rs]) *)

Record BeaconBlockHeader := mkBeaconHeader {
  bh_slot : Z; bh_proposer_index : Z; bh_parent_root : B256;
  bh_state_root : B256; bh_body_root : B256 }.
#[export] Instance BeaconBlockHeader_eq_dec : EqDecision BeaconBlockHeader.
Proof. solve_decision. Defined.

Record SignedBeaconBlockHeader := mkSignedHeader {
  sh_message : BeaconBlockHeader; sh_signature : Signature }.
#[export] Instance SignedBeaconBlockHeader_eq_dec : EqDecision SignedBeaconBlockHeader.
Proof. solve_decision. Defined.

Definition hash_tree_root `{Crypto} (h : BeaconBlockHeader) : B256 :=
  beacon_header_tree_hash (bh_slot h) (bh_proposer_index h) (bh_parent_root h)
    (bh_state_root h) (bh_body_root h).

Definition signing_root `{Crypto} (h : SignedBeaconBlockHeader) : B256 :=
  hash_tree_root (sh_message h).

Definition verify_signature `{Crypto} (h : SignedBeaconBlockHeader) (pk : PublicKey) : bool :=
  ed25519_verify pk (signing_root h) (sh_signature h).

Record BlobSidecar := mkSidecar {
  sc_index : Z;                                                         (* u16 *)
  sc_blob : bytes;
  sc_kzg_commitment : KzgCommitment;
  sc_kzg_proof : KzgProof;
  sc_signed_block_header : SignedBeaconBlockHeader;
  sc_kzg_commitment_inclusion_proof : list B256 }.
#[export] Instance BlobSidecar_eq_dec : EqDecision BlobSidecar.
Proof. solve_decision. Defined.

#[export] Instance BeaconBlockHeader_countable : Countable BeaconBlockHeader.
Proof.
  refine (inj_countable'
    (λ h, (bh_slot h, bh_proposer_index h, bh_parent_root h, bh_state_root h, bh_body_root h))
    (λ '(a, b, c, d, e), mkBeaconHeader a b c d e) _). by intros [].
Defined.
#[export] Instance SignedBeaconBlockHeader_countable : Countable SignedBeaconBlockHeader.
Proof.
  refine (inj_countable' (λ h, (sh_message h, sh_signature h))
    (λ '(a, b), mkSignedHeader a b) _). by intros [].
Defined.
#[export] Instance BlobSidecar_countable : Countable BlobSidecar.
Proof.
  refine (inj_countable'
    (λ s, (sc_index s, sc_blob s, sc_kzg_commitment s, sc_kzg_proof s, sc_signed_block_header s,
           sc_kzg_commitment_inclusion_proof s))
    (λ '(a, b, c, d, e, f), mkSidecar a b c d e f) _). by intros [].
Defined.

Definition BlobSidecar_from_bundle_item (index : Z) (blob : bytes) (c : KzgCommitment)
    (p : KzgProof) : BlobSidecar :=
  mkSidecar index blob c p
    (mkSignedHeader (mkBeaconHeader 0 0 B256_ZERO B256_ZERO B256_ZERO) (zeros 64)) [].

Definition BlobSidecar_size_bytes (s : BlobSidecar) : Z :=
  2 + BYTES_PER_BLOB + 48 + 48 + 192 +
  Z.of_nat (length (sc_kzg_commitment_inclusion_proof s)) * 32.

Definition blob_keccak `{Crypto} (s : BlobSidecar) : B256 := keccak256 (sc_blob s).

(** ** Blob bundles ([blob.rs]) *)

Record BlobsBundle := mkBundle {
  bb_commitments : list KzgCommitment; bb_proofs : list KzgProof; bb_blobs : list bytes }.

Definition BlobsBundle_validate (b : BlobsBundle) : outcome string unit :=
  if negb (length (bb_blobs b) =? length (bb_commitments b))%nat
     || negb (length (bb_blobs b) =? length (bb_proofs b))%nat
  then Err "BlobsBundle length mismatch"%string
  else if MAX_BLOBS_PER_BLOCK <? Z.of_nat (length (bb_blobs b)) then Err "Too many blobs"%string
  else Ok tt.

Definition blob_keccak_hashes `{Crypto} (b : BlobsBundle) : list B256 :=
  keccak256 <$> bb_blobs b.

(** EIP-4844 versioned hash, as [versioned_hashes_from_commitments] computes it. *)
Definition versioned_hash `{Crypto} (c : KzgCommitment) : B256 :=
  <[0%nat := 1]> (sha256 c).

Definition versioned_hashes_from_commitments `{Crypto} (cs : list KzgCommitment) : list B256 :=
  versioned_hash <$> cs.

Definition versioned_hashes_from_sidecars `{Crypto} (scs : list BlobSidecar) : list B256 :=
  (λ s, versioned_hash (sc_kzg_commitment s)) <$> scs.

(** ** Archive notices ([archive.rs]) *)

Record ArchiveNoticeBody := mkNoticeBody {
  an_height : Height; an_round : Round; an_blob_index : Z; an_kzg_commitment : KzgCommitment;
  an_blob_keccak : B256; an_provider_id : string; an_locator : string;
  an_archived_by : Address; an_archived_at : Z }.
#[export] Instance ArchiveNoticeBody_eq_dec : EqDecision ArchiveNoticeBody.
Proof. solve_decision. Defined.
#[export] Instance ArchiveNoticeBody_countable : Countable ArchiveNoticeBody.
Proof.
  refine (inj_countable'
    (λ x, (
      an_height x, an_round x, an_blob_index x, an_kzg_commitment x, an_blob_keccak x,
      an_provider_id x, an_locator x, an_archived_by x, an_archived_at x))
    (λ '(
      x0, x1, x2, x3, x4, x5, x6, x7, x8), mkNoticeBody x0 x1 x2 x3 x4 x5 x6 x7 x8) _). by intros [].
Defined.

Record ArchiveNotice := mkNotice { nt_body : ArchiveNoticeBody; nt_signature : Signature }.
#[export] Instance ArchiveNotice_eq_dec : EqDecision ArchiveNotice.
Proof. solve_decision. Defined.

Record ArchiveRecord := mkRecord { ar_body : ArchiveNoticeBody; ar_signature : Signature }.
#[export] Instance ArchiveRecord_eq_dec : EqDecision ArchiveRecord.
Proof. solve_decision. Defined.
#[export] Instance ArchiveRecord_countable : Countable ArchiveRecord.
Proof.
  refine (inj_countable'
    (λ x, (
      ar_body x, ar_signature x))
    (λ '(
      x0, x1), mkRecord x0 x1) _). by intros [].
Defined.

Inductive BlobArchivalStatus := Pending | Archived (r : ArchiveRecord).

Definition is_archived (s : BlobArchivalStatus) : bool :=
  match s with Archived _ => true | Pending => false end.

Definition ArchiveRecord_from_notice (n : ArchiveNotice) : ArchiveRecord :=
  mkRecord (nt_body n) (nt_signature n).

Definition ArchiveRecord_into_notice (r : ArchiveRecord) : ArchiveNotice :=
  mkNotice (ar_body r) (ar_signature r).

Record ArchiveJob := mkJob {
  aj_height : Height; aj_round : Round; aj_blob_indices : list Z;
  aj_commitments : list KzgCommitment; aj_blob_keccaks : list B256;
  aj_versioned_hashes : list B256 }.

(** ** Proposal parts ([proposal_part.rs]) *)

Record ProposalInit := mkInit {
  init_height : Height; init_round : Round; init_proposer : Address }.
#[export] Instance ProposalInit_eq_dec : EqDecision ProposalInit.
Proof. solve_decision. Defined.

Record ProposalData := mkData { pd_bytes : bytes; pd_execution_requests : list bytes }.
#[export] Instance ProposalData_eq_dec : EqDecision ProposalData.
Proof. solve_decision. Defined.

Inductive ProposalPart :=
| PInit (i : ProposalInit)
| PData (d : ProposalData)
| PBlobSidecar (s : BlobSidecar)
| PArchiveNotice (n : ArchiveNotice)
| PFin (signature : Signature).
#[export] Instance ProposalPart_eq_dec : EqDecision ProposalPart.
Proof. solve_decision. Defined.

Definition as_init (p : ProposalPart) : option ProposalInit :=
  match p with PInit i => Some i | _ => None end.
Definition as_data (p : ProposalPart) : option ProposalData :=
  match p with PData d => Some d | _ => None end.
Definition as_blob_sidecar (p : ProposalPart) : option BlobSidecar :=
  match p with PBlobSidecar s => Some s | _ => None end.
Definition as_archive_notice (p : ProposalPart) : option ArchiveNotice :=
  match p with PArchiveNotice n => Some n | _ => None end.

(** ** Proposals and certificates of the consensus engine *)

Inductive Validity := Valid | Invalid.
#[export] Instance Validity_eq_dec : EqDecision Validity.
Proof. solve_decision. Defined.

Record ProposedValue := mkProposed {
  pv_height : Height; pv_round : Round; pv_valid_round : Round;
  pv_proposer : Address; pv_value : Value; pv_validity : Validity }.
#[export] Instance ProposedValue_eq_dec : EqDecision ProposedValue.
Proof. solve_decision. Defined.
#[export] Instance Validity_countable : Countable Validity.
Proof.
  refine (inj_countable' (λ v, match v with Valid => true | Invalid => false end)
    (λ b : bool, if b then Valid else Invalid) _). by intros [].
Defined.
#[export] Instance ProposedValue_countable : Countable ProposedValue.
Proof.
  refine (inj_countable'
    (λ x, (
      pv_height x, pv_round x, pv_valid_round x, pv_proposer x, pv_value x,
      pv_validity x))
    (λ '(
      x0, x1, x2, x3, x4, x5), mkProposed x0 x1 x2 x3 x4 x5) _). by intros [].
Defined.

Record LocallyProposedValue := mkLocal {
  lv_height : Height; lv_round : Round; lv_value : Value }.

Record CommitCertificate := mkCertificate {
  cc_height : Height; cc_round : Round; cc_value_id : Z;
  cc_signatures : list (Address * Signature) }.
#[export] Instance CommitCertificate_eq_dec : EqDecision CommitCertificate.
Proof. solve_decision. Defined.
#[export] Instance CommitCertificate_countable : Countable CommitCertificate.
Proof.
  refine (inj_countable'
    (λ x, (
      cc_height x, cc_round x, cc_value_id x, cc_signatures x))
    (λ '(
      x0, x1, x2, x3), mkCertificate x0 x1 x2 x3) _). by intros [].
Defined.

Record DecidedValue := mkDecided { dv_value : Value; dv_certificate : CommitCertificate }.

Record ConsensusBlockMetadata := mkConsensusMetadata {
  cm_height : Height; cm_round : Round; cm_proposer : Address; cm_timestamp : Z;
  cm_validator_set_hash : B256; cm_execution_block_hash : B256;
  cm_gas_limit : Z; cm_gas_used : Z }.
#[export] Instance ConsensusBlockMetadata_eq_dec : EqDecision ConsensusBlockMetadata.
Proof. solve_decision. Defined.
#[export] Instance ConsensusBlockMetadata_countable : Countable ConsensusBlockMetadata.
Proof.
  refine (inj_countable'
    (λ x, (
      cm_height x, cm_round x, cm_proposer x, cm_timestamp x, cm_validator_set_hash x,
      cm_execution_block_hash x, cm_gas_limit x, cm_gas_used x))
    (λ '(
      x0, x1, x2, x3, x4, x5, x6, x7), mkConsensusMetadata x0 x1 x2 x3 x4 x5 x6 x7) _). by intros [].
Defined.

(** Packages exchanged during state sync ([sync.rs]). *)
Inductive SyncedValuePackage :=
| SyncFull (value : Value) (execution_payload_ssz : bytes)
    (blob_sidecars : list BlobSidecar) (execution_requests : list bytes)
    (archive_notices : list ArchiveNotice)
| SyncMetadataOnly (value : Value) (archive_notices : list ArchiveNotice)
    (execution_payload_ssz : option bytes) (execution_requests : list bytes).
#[export] Instance SyncedValuePackage_eq_dec : EqDecision SyncedValuePackage.
Proof. solve_decision. Defined.
