(* ===== verification/Merkle.v ===== *)
(** * Beacon block bodies and KZG inclusion proofs

    Models [ethereum_compat/beacon_block_body.rs] and
    [ethereum_compat/merkle.rs]: the tree-hash root of the minimal beacon
    block body, the two-stage inclusion proof of a blob commitment in it, and
    its verification.  The Merkle libraries are parameters; their laws say
    that they compute SSZ merkleization, given here as [ref_root]. *)
From S2P Require Import Prelude Types.
Open Scope outcome_scope.

(** The [merkle_proof] crate. *)
Class MerkleTreeLib := {
  MerkleTree : Type;
  mt_create : list B256 → nat → MerkleTree;
  mt_hash : MerkleTree → B256;
  (** [generate_proof(index, depth)]: the leaf and its branch, bottom up *)
  mt_generate_proof : MerkleTree → nat → nat → option (B256 * list B256) }.

(** ** Reference: SSZ merkleization of a list of chunks, zero padded *)

Section reference.
Context `{Crypto}.

Fixpoint ref_root (d : nat) (leaves : list B256) : B256 :=
  match d with
  | O => default B256_ZERO (head leaves)
  | S d => hash32_concat (ref_root d (take (2^d) leaves)) (ref_root d (drop (2^d) leaves))
  end.

(** The branch of leaf [i], from its sibling up to the child of the root. *)
Fixpoint ref_branch (d : nat) (leaves : list B256) (i : nat) : list B256 :=
  match d with
  | O => []
  | S d =>
    if (i <? 2^d)%nat
    then ref_branch d (take (2^d) leaves) i ++ [ref_root d (drop (2^d) leaves)]
    else ref_branch d (drop (2^d) leaves) (i - 2^d) ++ [ref_root d (take (2^d) leaves)]
  end.
End reference.

(** Documented behaviour of the two libraries. *)
Class MerkleLaws (C : Crypto) (T : MerkleTreeLib) := {
  mt_hash_create : ∀ leaves d, (length leaves ≤ 2^d)%nat →
    mt_hash (mt_create leaves d) = ref_root d leaves;
  mt_generate_proof_create : ∀ leaves d i, (length leaves ≤ 2^d)%nat → (i < 2^d)%nat →
    mt_generate_proof (mt_create leaves d) i d =
      Some (default B256_ZERO (leaves !! i), ref_branch d leaves i);
  merkle_hasher_pow2 : ∀ leaves d, (length leaves ≤ 2^d)%nat →
    merkle_hasher (2^d) leaves = ref_root d leaves }.

Section merkle.
Context `{Crypto} `{MerkleTreeLib}.

(** ** Tree-hash helpers of [beacon_block_body.rs] *)

Definition u64_to_bytes32 (v : Z) : B256 := le_bytes 8 v ++ zeros 24.

Definition mix_in_length (root : B256) (len : Z) : B256 :=
  hash32_concat root (u64_to_bytes32 len).

Definition tree_hash_empty_list : B256 := mix_in_length (zeros 32) 0.

(** [data.chunks(n)] *)
Fixpoint chunks_aux (fuel n : nat) (l : bytes) : list bytes :=
  match fuel, l with
  | _, [] => []
  | O, _ => []
  | S fuel, _ => take n l :: chunks_aux fuel n (drop n l)
  end.
Definition chunks (n : nat) (l : bytes) : list bytes := chunks_aux (length l) n l.

Definition pad32 (l : bytes) : B256 := l ++ zeros (32 - length l).

Definition tree_hash_variable_bytes_ssz (data : bytes) : B256 :=
  match data with
  | [] => tree_hash_empty_list
  | _ => mix_in_length
           (merkle_hasher (length (chunks 32 data)) (pad32 <$> chunks 32 data))
           (Z.of_nat (length data))
  end.

Definition tree_hash_transactions_ssz (txs : list bytes) : B256 :=
  match txs with
  | [] => tree_hash_empty_list
  | _ => mix_in_length (merkle_hasher (length txs) (tree_hash_variable_bytes_ssz <$> txs))
           (Z.of_nat (length txs))
  end.

Definition tree_hash_withdrawal_ssz (w : Withdrawal) : B256 :=
  merkle_hasher 4
    [ u64_to_bytes32 (wd_index w); u64_to_bytes32 (wd_validator_index w);
      wd_address w ++ zeros 12; u64_to_bytes32 (wd_amount w) ].

Definition tree_hash_withdrawals_ssz (ws : list Withdrawal) : B256 :=
  match ws with
  | [] => tree_hash_empty_list
  | _ => mix_in_length (merkle_hasher (length ws) (tree_hash_withdrawal_ssz <$> ws))
           (Z.of_nat (length ws))
  end.

Definition tree_hash_fixed_vector (data : bytes) : outcome string B256 :=
  match data with
  | [] => Ok (zeros 32)
  | _ => if negb (length data mod 32 =? 0)%nat
         then Err "Expected fixed vector length multiple of 32"%string
         else Ok (merkle_hasher (length data / 32) (chunks 32 data))
  end.

(** [ExecutionPayloadHeader::from_payload] *)
Definition header_from_payload (p : ExecutionPayloadV3) (rh : option B256)
    : ExecutionPayloadHeader := {|
  eh_block_hash := ep_block_hash p; eh_parent_hash := ep_parent_hash p;
  eh_state_root := ep_state_root p; eh_receipts_root := ep_receipts_root p;
  eh_logs_bloom := ep_logs_bloom p; eh_block_number := ep_block_number p;
  eh_gas_limit := ep_gas_limit p; eh_gas_used := ep_gas_used p;
  eh_timestamp := ep_timestamp p; eh_base_fee_per_gas := ep_base_fee_per_gas p;
  eh_extra_data := ep_extra_data p;
  eh_transactions_root := tree_hash_transactions_ssz (ep_transactions p);
  eh_withdrawals_root := tree_hash_withdrawals_ssz (ep_withdrawals p);
  eh_blob_gas_used := ep_blob_gas_used p; eh_excess_blob_gas := ep_excess_blob_gas p;
  eh_prev_randao := ep_prev_randao p; eh_fee_recipient := ep_fee_recipient p;
  eh_requests_hash := rh |}.

(** The chunks [compute_execution_payload_header_root] writes, in order.  The
    bloom is a 256-byte array, for which [tree_hash_fixed_vector] succeeds. *)
Definition payload_header_leaves (h : ExecutionPayloadHeader) : list B256 :=
  [ eh_parent_hash h; eh_fee_recipient h ++ zeros 12; eh_state_root h; eh_receipts_root h;
    default B256_ZERO (to_option (tree_hash_fixed_vector (eh_logs_bloom h)));
    eh_prev_randao h; u64_to_bytes32 (eh_block_number h); u64_to_bytes32 (eh_gas_limit h);
    u64_to_bytes32 (eh_gas_used h); u64_to_bytes32 (eh_timestamp h);
    tree_hash_variable_bytes_ssz (eh_extra_data h); le_bytes 32 (eh_base_fee_per_gas h);
    eh_block_hash h; eh_transactions_root h; eh_withdrawals_root h;
    u64_to_bytes32 (eh_blob_gas_used h); u64_to_bytes32 (eh_excess_blob_gas h) ].

Definition compute_execution_payload_header_root (h : ExecutionPayloadHeader) : B256 :=
  merkle_hasher 16 (payload_header_leaves h).

(** ** The minimal beacon block body *)

Record Eth1Data := mkEth1 {
  e1_deposit_root : B256; e1_deposit_count : Z; e1_block_hash : B256 }.

Record SyncAggregate := mkSyncAggregate {
  sa_committee_bits : bytes; sa_committee_signature : bytes }.

(** The root hashes the operation lists as empty lists whatever they hold. *)
Record BeaconBlockBodyMinimal := mkBody {
  bd_randao_reveal : bytes; bd_eth1_data : Eth1Data; bd_graffiti : B256;
  bd_proposer_slashings : bytes; bd_attester_slashings : bytes; bd_attestations : bytes;
  bd_deposits : bytes; bd_voluntary_exits : bytes;
  bd_sync_aggregate : SyncAggregate; bd_execution_payload_root : B256;
  bd_bls_to_execution_changes : bytes; bd_blob_kzg_commitments : list KzgCommitment }.

Definition eth1_tree_hash_root (e : Eth1Data) : B256 :=
  merkle_hasher 4 [e1_deposit_root e; u64_to_bytes32 (e1_deposit_count e); e1_block_hash e].

(** The three 32-byte chunks of a 96-byte vector. *)
Definition three_chunks (l : bytes) : list B256 :=
  [take 32 l; take 32 (drop 32 l); take 32 (drop 64 l)].

Definition sync_aggregate_tree_hash_root (s : SyncAggregate) : B256 :=
  merkle_hasher 2
    [ merkle_hasher 2 [take 32 (sa_committee_bits s); take 32 (drop 32 (sa_committee_bits s))];
      merkle_hasher 4 (three_chunks (sa_committee_signature s)) ].

Definition from_ultramarine_data (cs : list KzgCommitment) (h : ExecutionPayloadHeader)
    : BeaconBlockBodyMinimal := {|
  bd_randao_reveal := zeros 96; bd_eth1_data := mkEth1 B256_ZERO 0 B256_ZERO;
  bd_graffiti := zeros 32; bd_proposer_slashings := []; bd_attester_slashings := [];
  bd_attestations := []; bd_deposits := []; bd_voluntary_exits := []; bd_sync_aggregate := mkSyncAggregate (zeros 64) (zeros 96);
  bd_execution_payload_root := compute_execution_payload_header_root h;
  bd_bls_to_execution_changes := []; bd_blob_kzg_commitments := cs |}.

(** [MAX_BLOB_COMMITMENTS_PER_BLOCK.next_power_of_two().ilog2()] *)
Definition commitments_depth : nat := Z.to_nat (Z.log2_up MAX_BLOB_COMMITMENTS_PER_BLOCK).
Definition commitments_capacity : nat := 2 ^ commitments_depth.

Definition tree_hash_kzg_commitments (cs : list KzgCommitment) : B256 :=
  match cs with
  | [] => tree_hash_empty_list
  | _ => let leaves := resize commitments_capacity (zeros 32) (tree_hash_bytes48 <$> cs) in
         mix_in_length (mt_hash (mt_create leaves commitments_depth)) (Z.of_nat (length cs))
  end.

(** The chunks of the body before the commitments, shared by the root and by
    the proof. *)
Definition body_prefix_leaves (b : BeaconBlockBodyMinimal) : list B256 :=
  [ merkle_hasher 4 (three_chunks (bd_randao_reveal b));
    eth1_tree_hash_root (bd_eth1_data b); bd_graffiti b;
    tree_hash_empty_list; tree_hash_empty_list; tree_hash_empty_list;
    tree_hash_empty_list; tree_hash_empty_list;
    sync_aggregate_tree_hash_root (bd_sync_aggregate b);
    bd_execution_payload_root b; tree_hash_empty_list ].

Definition body_tree_hash_root (b : BeaconBlockBodyMinimal) : B256 :=
  merkle_hasher 16
    (body_prefix_leaves b ++ [tree_hash_kzg_commitments (bd_blob_kzg_commitments b)]).

Definition compute_body_root (b : BeaconBlockBodyMinimal) : B256 := body_tree_hash_root b.

(** ** Inclusion proofs ([merkle.rs]) *)

Definition NUM_BEACON_BLOCK_BODY_HASH_TREE_ROOT_LEAVES : nat := 16.
Definition BLOB_KZG_COMMITMENTS_INDEX : nat := 11.
Definition KZG_COMMITMENT_INCLUSION_PROOF_DEPTH : nat := 17.

Fixpoint merkle_root_from_branch (value : B256) (branch : list B256) (index : Z) : B256 :=
  match branch with
  | [] => value
  | sibling :: branch =>
    let value := if Z.land index 1 =? 1 then hash32_concat sibling value
                 else hash32_concat value sibling in
    merkle_root_from_branch value branch (Z.shiftr index 1)
  end.

Definition commitments_subtree_proof (cs : list KzgCommitment) (index : nat)
    : outcome string (list B256 * B256) :=
  if (commitments_capacity <? length cs)%nat then Err "Too many commitments"%string
  else
    let leaves := resize commitments_capacity (zeros 32) (tree_hash_bytes48 <$> cs) in
    let tree := mt_create leaves commitments_depth in
    match mt_generate_proof tree index commitments_depth with
    | None => Err "Failed to create commitment proof"%string
    | Some (_, proof) =>
      Ok (proof ++ [u64_to_bytes32 (Z.of_nat (length cs))],
          mix_in_length (mt_hash tree) (Z.of_nat (length cs)))
    end.

Definition body_merkle_leaves (b : BeaconBlockBodyMinimal) (commitments_root : B256) : list B256 :=
  let leaves := body_prefix_leaves b ++ [commitments_root] in
  leaves ++ replicate (NUM_BEACON_BLOCK_BODY_HASH_TREE_ROOT_LEAVES - length leaves) B256_ZERO.

Definition body_subtree_proof_with_body (list_root : B256) (b : BeaconBlockBodyMinimal)
    : outcome string (list B256) :=
  let leaves := body_merkle_leaves b list_root in
  let depth := Z.to_nat (Z.log2_up (Z.of_nat (length leaves))) in
  match mt_generate_proof (mt_create leaves depth) BLOB_KZG_COMMITMENTS_INDEX depth with
  | None => Err "Failed to create body proof"%string
  | Some (_, proof) => Ok proof
  end.

Definition generate_kzg_commitment_inclusion_proof (cs : list KzgCommitment) (index : nat)
    (b : BeaconBlockBodyMinimal) : outcome string (list B256) :=
  match cs with
  | [] => Err "Commitments list is empty"%string
  | _ =>
    if (length cs <=? index)%nat then Err "Index out of bounds"%string
    else
      let? (list_proof, list_root) := commitments_subtree_proof cs index in
      let? body_proof := body_subtree_proof_with_body list_root b in
      Ok (list_proof ++ body_proof)
  end.

(** Both verifiers split the proof after the length mix-in. *)
Definition reconstruct_roots_from_proof (c : KzgCommitment) (proof : list B256) (index : nat)
    : outcome string (B256 * B256) :=
  let branch_length := S commitments_depth in
  if negb (length proof =? KZG_COMMITMENT_INCLUSION_PROOF_DEPTH)%nat
     || (KZG_COMMITMENT_INCLUSION_PROOF_DEPTH <? branch_length)%nat
     || (MAX_BLOB_COMMITMENTS_PER_BLOCK <=? Z.of_nat index)
  then Err "Proof metadata invalid"%string
  else
    let commitment_branch := take branch_length proof in
    let body_branch := drop branch_length proof in
    let commitments_root :=
      merkle_root_from_branch (tree_hash_bytes48 c) commitment_branch (Z.of_nat index) in
    Ok (commitments_root,
        merkle_root_from_branch commitments_root body_branch
          (Z.of_nat BLOB_KZG_COMMITMENTS_INDEX)).

Definition verify_kzg_commitment_inclusion_proof (c : KzgCommitment) (proof : list B256)
    (index : nat) (body_root : B256) : bool :=
  let branch_length := S commitments_depth in
  if negb (length proof =? KZG_COMMITMENT_INCLUSION_PROOF_DEPTH)%nat
     || (KZG_COMMITMENT_INCLUSION_PROOF_DEPTH <? branch_length)%nat
     || (MAX_BLOB_COMMITMENTS_PER_BLOCK <=? Z.of_nat index)
  then false
  else
    let commitments_root :=
      merkle_root_from_branch (tree_hash_bytes48 c) (take branch_length proof) (Z.of_nat index) in
    bool_decide (merkle_root_from_branch commitments_root (drop branch_length proof)
                   (Z.of_nat BLOB_KZG_COMMITMENTS_INDEX) = body_root).
End merkle.

Arguments commitments_depth : simpl never.
Arguments commitments_capacity : simpl never.

(** ** Branches *)

Section branches.
Context `{Crypto}.

Lemma merkle_root_from_branch_cons v s br i :
  merkle_root_from_branch v (s :: br) i =
  merkle_root_from_branch (if Z.odd i then hash32_concat s v else hash32_concat v s) br (i / 2).
Proof.
  simpl. rewrite Z.shiftr_div_pow2 by lia. change (2 ^ 1) with 2.
  change 1 with (Z.ones 1) at 1. rewrite Z.land_ones by lia. change (2 ^ 1) with 2.
  rewrite Zmod_odd. by destruct (Z.odd i).
Qed.

Lemma merkle_root_from_branch_app v b1 b2 i :
  merkle_root_from_branch v (b1 ++ b2) i =
  merkle_root_from_branch (merkle_root_from_branch v b1 i) b2 (i / 2 ^ Z.of_nat (length b1)).
Proof.
  revert v i; induction b1 as [|s b1 IH]; intros v i.
  - simpl. by rewrite Z.div_1_r.
  - rewrite <-app_comm_cons, !merkle_root_from_branch_cons, IH. f_equal.
    rewrite Z.div_div by lia. simpl length.
    by rewrite Nat2Z.inj_succ, Z.pow_succ_r by lia.
Qed.

(** Only the low bits of the index select the sides. *)
Lemma merkle_root_from_branch_add v br i k :
  merkle_root_from_branch v br (i + k * 2 ^ Z.of_nat (length br)) = merkle_root_from_branch v br i.
Proof.
  revert v i; induction br as [|s br IH]; intros v i; [done|].
  simpl length. rewrite Nat2Z.inj_succ, Z.pow_succ_r by lia.
  rewrite !merkle_root_from_branch_cons.
  replace (i + k * (2 * 2 ^ Z.of_nat (length br)))
    with (i + 2 * (k * 2 ^ Z.of_nat (length br))) by ring.
  rewrite Z.odd_add_mul_2.
  replace (i + 2 * (k * 2 ^ Z.of_nat (length br)))
    with (i + k * 2 ^ Z.of_nat (length br) * 2) by ring.
  by rewrite Z.div_add, IH by lia.
Qed.

Lemma length_ref_branch d leaves i : length (ref_branch d leaves i) = d.
Proof.
  revert leaves i; induction d as [|d IH]; intros leaves i; simpl; [done|].
  destruct (_ <? _)%nat; rewrite length_app, IH; simpl; lia.
Qed.

(** The two ways an index of a tree of depth [S d] descends. *)
Lemma merkle_index_split d i :
  (i < 2 ^ S d)%nat →
  (i < 2 ^ d)%nat ∧ Z.of_nat i / 2 ^ Z.of_nat d = 0 ∨
  (2 ^ d ≤ i)%nat ∧ (i - 2 ^ d < 2 ^ d)%nat ∧ Z.of_nat i / 2 ^ Z.of_nat d = 1.
Proof.
  intros Hi. rewrite Nat.pow_succ_r' in Hi.
  assert (Hp : 2 ^ Z.of_nat d = Z.of_nat (2 ^ d)) by (by rewrite Nat2Z.inj_pow).
  destruct (decide (i < 2 ^ d)%nat) as [Hlt|Hge].
  - left. split; [done|]. apply Z.div_small. lia.
  - right. split_and!; [lia|lia|].
    symmetry. apply (Z.div_unique _ _ _ (Z.of_nat i - 2 ^ Z.of_nat d)); lia.
Qed.

Lemma merkle_root_from_branch_high v br d i :
  length br = d → (2 ^ d ≤ i)%nat →
  merkle_root_from_branch v br (Z.of_nat i) =
  merkle_root_from_branch v br (Z.of_nat (i - 2 ^ d)).
Proof.
  intros <- Hi. rewrite <-(merkle_root_from_branch_add _ _ (Z.of_nat (i - _)) 1).
  f_equal. rewrite Nat2Z.inj_sub, Nat2Z.inj_pow by lia. change (Z.of_nat 2) with 2. ring.
Qed.

Lemma merkle_root_from_branch_ref d leaves i :
  (i < 2 ^ d)%nat →
  merkle_root_from_branch (default B256_ZERO (leaves !! i)) (ref_branch d leaves i) (Z.of_nat i)
  = ref_root d leaves.
Proof.
  revert leaves i; induction d as [|d IH]; intros leaves i Hi.
  { replace i with O by (simpl in Hi; lia). by destruct leaves. }
  simpl. destruct (merkle_index_split d i Hi) as [[Hlt Hq]|(Hge & Hlt & Hq)].
  - rewrite (proj2 (Nat.ltb_lt _ _) Hlt).
    rewrite merkle_root_from_branch_app, length_ref_branch, Hq.
    rewrite <-(lookup_take_lt leaves (2 ^ d)) by done. by rewrite IH.
  - rewrite (proj2 (Nat.ltb_ge _ _) Hge).
    rewrite merkle_root_from_branch_app, length_ref_branch, Hq.
    rewrite (merkle_root_from_branch_high _ _ d) by (done || apply length_ref_branch).
    replace (leaves !! i) with (drop (2 ^ d) leaves !! (i - 2 ^ d)%nat).
    + by rewrite IH.
    + rewrite lookup_drop. f_equal. lia.
Qed.

(** Two different pairs of nodes with the same hash. *)
Definition node_collision : Prop :=
  ∃ a b c e, hash32_concat a b = hash32_concat c e ∧ (a, b) ≠ (c, e).

Lemma hash32_concat_inj a b c e :
  hash32_concat a b = hash32_concat c e → (a = c ∧ b = e) ∨ node_collision.
Proof.
  intros Heq. destruct (decide ((a, b) = (c, e))) as [[= -> ->]|Hne]; [by left|right].
  by exists a, b, c, e.
Qed.

(** A branch binds its leaf, or a collision of the node hash is known. *)
Lemma merkle_root_from_branch_binding d leaves i v br :
  (i < 2 ^ d)%nat → length br = d →
  merkle_root_from_branch v br (Z.of_nat i) = ref_root d leaves →
  v = default B256_ZERO (leaves !! i) ∨ node_collision.
Proof.
  revert leaves i v br; induction d as [|d IH]; intros leaves i v br Hi Hl.
  { apply nil_length_inv in Hl as ->. replace i with O by (simpl in Hi; lia).
    destruct leaves; by left. }
  destruct br as [|s br _] using rev_ind; [done|].
  rewrite length_app in Hl; simpl in Hl. assert (length br = d) as Hbr by lia.
  rewrite merkle_root_from_branch_app, Hbr.
  destruct (merkle_index_split d i Hi) as [[Hlt Hq]|(Hge & Hlt & Hq)]; rewrite Hq; simpl;
    (intros [[Hl1 Hr1]|]%hash32_concat_inj; [|by right]).
  - rewrite <-(lookup_take_lt leaves (2 ^ d)) by done. by apply (IH _ i _ br).
  - rewrite (merkle_root_from_branch_high _ _ d) in Hr1 by done.
    replace (leaves !! i) with (drop (2 ^ d) leaves !! (i - 2 ^ d)%nat).
    + by apply (IH _ _ _ br).
    + rewrite lookup_drop. f_equal. lia.
Qed.
End branches.

(** ** Inclusion proofs: completeness and binding *)

Section inclusion.
Context (C : Crypto) (T : MerkleTreeLib) {L : MerkleLaws C T}.

Definition commitment_leaves (cs : list KzgCommitment) : list B256 :=
  resize commitments_capacity (zeros 32) (tree_hash_bytes48 <$> cs).

Lemma length_commitment_leaves cs : length (commitment_leaves cs) = commitments_capacity.
Proof. apply length_resize. Qed.

Lemma commitment_leaves_lookup cs i c :
  (length cs ≤ commitments_capacity)%nat → cs !! i = Some c →
  commitment_leaves cs !! i = Some (tree_hash_bytes48 c).
Proof.
  intros Hlen Hc. pose proof (lookup_lt_Some _ _ _ Hc) as Hi.
  unfold commitment_leaves. rewrite resize_ge by (rewrite length_fmap; lia).
  rewrite lookup_app_l by (rewrite length_fmap; lia).
  by rewrite list_lookup_fmap, Hc.
Qed.

(** The commitments root of a non-empty list is the mixed-in tree root. *)
Definition commitments_root (cs : list KzgCommitment) : B256 :=
  mix_in_length (ref_root commitments_depth (commitment_leaves cs)) (Z.of_nat (length cs)).

Lemma tree_hash_kzg_commitments_root cs :
  cs ≠ [] → tree_hash_kzg_commitments cs = commitments_root cs.
Proof using L.
  intros Hne. destruct cs as [|c cs]; [done|]. unfold tree_hash_kzg_commitments, commitments_root.
  rewrite mt_hash_create; [done|]. rewrite length_resize. done.
Qed.

(** The proof side and the hashing side agree on the root of the body. *)
Lemma body_root_leaves b r :
  tree_hash_kzg_commitments (bd_blob_kzg_commitments b) = r →
  compute_body_root b = ref_root 4 (body_merkle_leaves b r).
Proof using L.
  intros <-. unfold compute_body_root, body_tree_hash_root.
  rewrite (merkle_hasher_pow2 _ 4) by (simpl; lia). reflexivity.
Qed.

Lemma commitments_subtree_proof_spec cs i :
  (length cs ≤ commitments_capacity)%nat → (i < length cs)%nat →
  commitments_subtree_proof cs i =
    Ok (ref_branch commitments_depth (commitment_leaves cs) i
          ++ [u64_to_bytes32 (Z.of_nat (length cs))], commitments_root cs).
Proof using L.
  intros Hlen Hi. unfold commitments_subtree_proof.
  rewrite (proj2 (Nat.ltb_ge _ _) Hlen). fold (commitment_leaves cs).
  pose proof (length_commitment_leaves cs) as Hll. unfold commitments_capacity in *.
  rewrite mt_generate_proof_create by lia.
  rewrite mt_hash_create by lia. reflexivity.
Qed.

Lemma body_subtree_proof_spec r b :
  body_subtree_proof_with_body r b =
    Ok (ref_branch 4 (body_merkle_leaves b r) BLOB_KZG_COMMITMENTS_INDEX).
Proof using L.
  unfold body_subtree_proof_with_body.
  change (Z.to_nat (Z.log2_up (Z.of_nat (length (body_merkle_leaves b r))))) with 4%nat.
  rewrite mt_generate_proof_create; [done|simpl; lia|].
  unfold BLOB_KZG_COMMITMENTS_INDEX; simpl; lia.
Qed.

(** The commitment branch ends with the length, hashed on the right. *)
Lemma commitment_branch_root leaf br i n :
  length br = commitments_depth → (i < commitments_capacity)%nat →
  merkle_root_from_branch leaf (br ++ [n]) (Z.of_nat i) =
  hash32_concat (merkle_root_from_branch leaf br (Z.of_nat i)) n.
Proof.
  intros Hbr Hi. rewrite merkle_root_from_branch_app, Hbr.
  rewrite Z.div_small; [done|]. split; [lia|].
  unfold commitments_capacity in Hi.
  change 2 with (Z.of_nat 2). rewrite <-Nat2Z.inj_pow. lia.
Qed.

Lemma commitments_depth_eq : commitments_depth = 12%nat.
Proof. reflexivity. Qed.

Lemma commitments_capacity_eq : Z.of_nat commitments_capacity = MAX_BLOB_COMMITMENTS_PER_BLOCK.
Proof.
  unfold commitments_capacity. rewrite Nat2Z.inj_pow, commitments_depth_eq. reflexivity.
Qed.

(** The value both verifiers fold up to, for a proof cut at the mix-in. *)
Lemma verify_split c l1 l2 i root :
  length l1 = S commitments_depth → length l2 = 4%nat →
  Z.of_nat i < MAX_BLOB_COMMITMENTS_PER_BLOCK →
  verify_kzg_commitment_inclusion_proof c (l1 ++ l2) i root =
  bool_decide (merkle_root_from_branch
    (merkle_root_from_branch (tree_hash_bytes48 c) l1 (Z.of_nat i)) l2 11 = root).
Proof.
  intros H1 H2 Hi. unfold verify_kzg_commitment_inclusion_proof.
  rewrite length_app, H1, H2, commitments_depth_eq. simpl Nat.add.
  replace (MAX_BLOB_COMMITMENTS_PER_BLOCK <=? Z.of_nat i) with false by lia.
  cbn [negb orb Nat.eqb Nat.ltb Nat.leb KZG_COMMITMENT_INCLUSION_PROOF_DEPTH].
  rewrite commitments_depth_eq in H1. rewrite <-H1.
  by rewrite take_app_length, drop_app_length.
Qed.
End inclusion.

Section inclusion_theorems.
Context (C : Crypto) (T : MerkleTreeLib) (L : MerkleLaws C T).

(** The branch the generator produces, in closed form. *)
Definition inclusion_branch (cs : list KzgCommitment) (i : nat) (b : BeaconBlockBodyMinimal)
    : list B256 :=
  (ref_branch commitments_depth (commitment_leaves C cs) i
     ++ [u64_to_bytes32 (Z.of_nat (length cs))])
  ++ ref_branch 4 (body_merkle_leaves b (commitments_root C cs)) BLOB_KZG_COMMITMENTS_INDEX.

Lemma generate_inclusion_branch cs i b :
  Z.of_nat (length cs) ≤ MAX_BLOB_COMMITMENTS_PER_BLOCK → (i < length cs)%nat →
  generate_kzg_commitment_inclusion_proof cs i b = Ok (inclusion_branch cs i b).
Proof using L.
  intros Hlen Hi. pose proof commitments_capacity_eq.
  unfold generate_kzg_commitment_inclusion_proof.
  destruct cs as [|c0 cs0]; [simpl in Hi; lia|].
  rewrite (proj2 (Nat.leb_gt _ _) Hi).
  rewrite (commitments_subtree_proof_spec C T) by (done || lia). cbn [obind].
  rewrite (body_subtree_proof_spec C T). reflexivity.
Qed.

Lemma length_inclusion_branch cs i b :
  length (inclusion_branch cs i b) = KZG_COMMITMENT_INCLUSION_PROOF_DEPTH.
Proof.
  unfold inclusion_branch. rewrite !length_app, !length_ref_branch, commitments_depth_eq. done.
Qed.

Lemma verify_inclusion_branch cs i c b :
  bd_blob_kzg_commitments b = cs →
  Z.of_nat (length cs) ≤ MAX_BLOB_COMMITMENTS_PER_BLOCK →
  cs !! i = Some c →
  verify_kzg_commitment_inclusion_proof c (inclusion_branch cs i b) i (compute_body_root b) = true.
Proof using L.
  intros Hb Hlen Hc. pose proof (lookup_lt_Some _ _ _ Hc) as Hi.
  pose proof commitments_capacity_eq as Hce. assert (cs ≠ []) as Hne by (intros ->; done).
  unfold inclusion_branch. rewrite verify_split; [| |by rewrite length_ref_branch|lia].
  2: { rewrite length_app, length_ref_branch. cbn [length]. lia. }
  apply bool_decide_eq_true_2.
  rewrite commitment_branch_root by (rewrite ?length_ref_branch; lia || done).
  rewrite (body_root_leaves C T b (commitments_root C cs)).
  2: { rewrite Hb. by apply (tree_hash_kzg_commitments_root C T). }
  pose proof (merkle_root_from_branch_ref commitments_depth (commitment_leaves C cs) i) as Hr.
  rewrite (commitment_leaves_lookup C cs i c) in Hr by (done || lia). simpl default in Hr.
  rewrite Hr by (unfold commitments_capacity in *; lia).
  change 11 with (Z.of_nat 11).
  apply (merkle_root_from_branch_ref 4 (body_merkle_leaves b (commitments_root C cs)) 11).
  simpl. lia.
Qed.

(** The proof generated for blob [i] of a body that carries the
    commitments [cs] is accepted for commitment [cs !! i] against that body's
    root, for every list of at most 4096 commitments. *)
Theorem inclusion_proof_generates_and_verifies (cs : list KzgCommitment) (i : nat)
    (c : KzgCommitment) (b : BeaconBlockBodyMinimal) :
  bd_blob_kzg_commitments b = cs →
  Z.of_nat (length cs) ≤ MAX_BLOB_COMMITMENTS_PER_BLOCK →
  cs !! i = Some c →
  ∃ proof,
    generate_kzg_commitment_inclusion_proof cs i b = Ok proof ∧
    length proof = KZG_COMMITMENT_INCLUSION_PROOF_DEPTH ∧
    verify_kzg_commitment_inclusion_proof c proof i (compute_body_root b) = true.
Proof using L.
  intros Hb Hlen Hc. exists (inclusion_branch cs i b).
  pose proof (lookup_lt_Some _ _ _ Hc).
  split_and!; [by apply generate_inclusion_branch|apply length_inclusion_branch|].
  by apply verify_inclusion_branch.
Qed.

(** C36: a proof accepted for index [i] against the root of a body carrying [cs]
    is about the [i]-th commitment: the accepted commitment has the tree hash
    of [cs !! i], unless two different pairs of nodes with the same hash are
    known. *)
Theorem inclusion_proof_binds_commitment (cs : list KzgCommitment) (i : nat)
    (c c' : KzgCommitment) (proof : list B256) (b : BeaconBlockBodyMinimal) :
  bd_blob_kzg_commitments b = cs →
  Z.of_nat (length cs) ≤ MAX_BLOB_COMMITMENTS_PER_BLOCK →
  cs !! i = Some c →
  verify_kzg_commitment_inclusion_proof c' proof i (compute_body_root b) = true →
  tree_hash_bytes48 c' = tree_hash_bytes48 c ∨ node_collision.
Proof using L.
  intros Hb Hlen Hc Hv. pose proof (lookup_lt_Some _ _ _ Hc) as Hi.
  pose proof commitments_capacity_eq as Hce. assert (cs ≠ []) as Hne by (intros ->; done).
  assert (length proof = 17%nat) as Hlp.
  { unfold verify_kzg_commitment_inclusion_proof in Hv.
    destruct (length proof =? _)%nat eqn:E; [by apply Nat.eqb_eq in E|done]. }
  rewrite <-(take_drop 13 proof) in Hv.
  rewrite verify_split in Hv;
    [|rewrite length_take, commitments_depth_eq; lia|rewrite length_drop; lia|lia].
  apply bool_decide_eq_true_1 in Hv.
  rewrite (body_root_leaves C T b (commitments_root C cs)) in Hv.
  2: { rewrite Hb. by apply (tree_hash_kzg_commitments_root C T). }
  change 11 with (Z.of_nat 11) in Hv.
  apply merkle_root_from_branch_binding in Hv as [Hv|]; [|by right|simpl; lia|rewrite length_drop; lia].
  change (body_merkle_leaves b (commitments_root C cs) !! 11%nat)
    with (Some (commitments_root C cs)) in Hv. simpl default in Hv.
  assert (length (take 13 proof) = 13%nat) as Ht by (rewrite length_take; lia).
  destruct (take 13 proof) as [|n br _] using rev_ind; [done|].
  rewrite length_app in Ht; simpl in Ht.
  rewrite commitment_branch_root in Hv by (rewrite ?commitments_depth_eq; lia).
  apply hash32_concat_inj in Hv as [[Hv _]|]; [|by right].
  apply merkle_root_from_branch_binding in Hv as [Hv|];
    [left|by right|unfold commitments_capacity in *; lia|rewrite commitments_depth_eq; lia].
  rewrite (commitment_leaves_lookup C cs i c) in Hv by (done || lia). done.
Qed.

(** The execution payload header is hashed as 17 chunks by a hasher sized
    for 16 leaves, one more than the tree has room for. *)
Lemma payload_header_has_17_leaves (h : ExecutionPayloadHeader) :
  compute_execution_payload_header_root h = merkle_hasher 16 (payload_header_leaves h) ∧
  length (payload_header_leaves h) = 17%nat.
Proof. done. Qed.
End inclusion_theorems.

(** ** A concrete instance of the cryptographic interfaces

    Used wherever a theorem is applied to a concrete input: signatures append
    the message to the key, 32-byte digests fold their input into an integer,
    and the node hash is an injective pairing. *)

Definition fold32 (l : bytes) : B256 := be_bytes 32 (of_be l).

Definition demo_node (a b : B256) : B256 := Z.of_nat (length a) :: a ++ b.

Definition demo_crypto_base : Crypto := {|
  keccak256 := fold32; sha256 := fold32;
  default_hasher l := of_be (concat l) mod 2 ^ 64;
  ed25519_sign sk m := sk ++ m; ed25519_public sk := sk;
  ed25519_verify pk m s := bool_decide (s = pk ++ m);
  hash32_concat := demo_node; merkle_hasher _ _ := [];
  tree_hash_bytes48 := fold32;
  beacon_header_tree_hash s p a b c := fold32 (s :: p :: a ++ b ++ c);
  requests_hash l := fold32 (concat l) |}.

#[local] Instance demo_crypto : Crypto := {|
  keccak256 := fold32; sha256 := fold32;
  default_hasher l := of_be (concat l) mod 2 ^ 64;
  ed25519_sign sk m := sk ++ m; ed25519_public sk := sk;
  ed25519_verify pk m s := bool_decide (s = pk ++ m);
  hash32_concat := demo_node;
  merkle_hasher n l := @ref_root demo_crypto_base (Nat.log2_up n) l;
  tree_hash_bytes48 := fold32;
  beacon_header_tree_hash s p a b c := fold32 (s :: p :: a ++ b ++ c);
  requests_hash l := fold32 (concat l) |}.

#[local] Instance demo_crypto_laws : CryptoLaws demo_crypto.
Proof. constructor. intros sk msg. by apply bool_decide_eq_true_2. Qed.

#[local] Instance demo_merkle : MerkleTreeLib := {|
  MerkleTree := list B256 * nat;
  mt_create l d := (l, d);
  mt_hash t := @ref_root demo_crypto t.2 t.1;
  mt_generate_proof t i d := Some (default B256_ZERO (t.1 !! i), @ref_branch demo_crypto d t.1 i) |}.

#[local] Instance demo_merkle_laws : MerkleLaws demo_crypto demo_merkle.
Proof.
  split; [done|done|]. intros leaves d _.
  change (@merkle_hasher demo_crypto (2 ^ d) leaves)
    with (@ref_root demo_crypto_base (Nat.log2_up (2 ^ d)) leaves).
  rewrite Nat.log2_up_pow2 by lia. reflexivity.
Qed.

(** Two commitments in a body over the empty header. *)
Definition demo_commitments : list KzgCommitment := [replicate 48 1; replicate 48 2].
Definition demo_body : BeaconBlockBodyMinimal :=
  from_ultramarine_data demo_commitments (zero_header 0).

Lemma inclusion_proof_generates_and_verifies_witness :
  ∃ proof,
    generate_kzg_commitment_inclusion_proof demo_commitments 1 demo_body = Ok proof ∧
    length proof = KZG_COMMITMENT_INCLUSION_PROOF_DEPTH ∧
    verify_kzg_commitment_inclusion_proof (replicate 48 2) proof 1 (compute_body_root demo_body)
      = true.
Proof.
  apply (inclusion_proof_generates_and_verifies demo_crypto demo_merkle demo_merkle_laws
           demo_commitments 1 (replicate 48 2) demo_body).
  - reflexivity.
  - unfold MAX_BLOB_COMMITMENTS_PER_BLOCK. simpl. lia.
  - reflexivity.
Defined.

Lemma inclusion_proof_binds_commitment_witness :
  ∃ proof,
    verify_kzg_commitment_inclusion_proof (replicate 48 2) proof 1 (compute_body_root demo_body)
      = true ∧
    (tree_hash_bytes48 (replicate 48 2) = tree_hash_bytes48 (replicate 48 2) ∨ node_collision).
Proof.
  exists (inclusion_branch demo_crypto demo_commitments 1 demo_body).
  assert (verify_kzg_commitment_inclusion_proof (replicate 48 2)
            (inclusion_branch demo_crypto demo_commitments 1 demo_body) 1
            (compute_body_root demo_body) = true) as Hv.
  { apply (verify_inclusion_branch demo_crypto demo_merkle demo_merkle_laws); try reflexivity.
    unfold MAX_BLOB_COMMITMENTS_PER_BLOCK. simpl. lia. }
  split; [exact Hv|].
  apply (inclusion_proof_binds_commitment demo_crypto demo_merkle demo_merkle_laws
           demo_commitments 1 (replicate 48 2) (replicate 48 2)
           (inclusion_branch demo_crypto demo_commitments 1 demo_body) demo_body
           eq_refl); [|reflexivity|exact Hv].
  unfold MAX_BLOB_COMMITMENTS_PER_BLOCK. simpl. lia.
Defined.
