(* ===== verification/Streaming.v ===== *)
(** * Reassembly of streamed proposals ([crates/consensus/src/streaming.rs])

    A proposal is streamed as numbered messages that may arrive in any order,
    from any peer, more than once.  [PartStreamsMap_insert] buffers them per
    (peer, stream) and returns the parts in order once all have arrived. *)
From S2P Require Import Prelude Types.

(** ** Stream messages of the consensus engine *)

Inductive StreamContent := SData (p : ProposalPart) | SFin.
#[export] Instance StreamContent_eq_dec : EqDecision StreamContent.
Proof. solve_decision. Defined.

Record StreamMessage := mkMsg {
  sm_stream_id : bytes; sm_sequence : Z; sm_content : StreamContent }.
#[export] Instance StreamMessage_eq_dec : EqDecision StreamMessage.
Proof. solve_decision. Defined.

(** The two predicates the engine defines on its messages. *)
Class StreamApi := {
  msg_is_first : StreamMessage → bool;
  msg_is_fin : StreamMessage → bool }.

Definition is_fin_content (c : StreamContent) : bool :=
  match c with SFin => true | SData _ => false end.

Class StreamApiLaws (A : StreamApi) := {
  msg_is_first_spec : ∀ m, msg_is_first m = (sm_sequence m =? 0);
  msg_is_fin_spec : ∀ m, msg_is_fin m = is_fin_content (sm_content m) }.

(** [StreamContent::into_data], [as_data] *)
Definition content_data (c : StreamContent) : option ProposalPart :=
  match c with SData p => Some p | SFin => None end.

(** ** [MinHeap]: a binary heap popped by ascending sequence number *)

Record MinHeap := mkHeap { heap_items : list StreamMessage }.

Definition MinHeap_push (h : MinHeap) (m : StreamMessage) : MinHeap :=
  mkHeap (m :: heap_items h).
Definition MinHeap_len (h : MinHeap) : Z := Z.of_nat (length (heap_items h)).
(** Pops every message, keeping the data of those that carry some. *)
Definition MinHeap_drain (h : MinHeap) : MinHeap * list ProposalPart :=
  (mkHeap [], omap (λ m, content_data (sm_content m)) (sort_by_key sm_sequence (heap_items h))).

(** ** [StreamState] *)

Record StreamState := mkStream {
  st_buffer : MinHeap;
  st_init_info : option ProposalInit;
  st_seen_sequences : gset Z;
  st_total_messages : Z;
  st_fin_received : bool }.

Definition StreamState_default : StreamState := mkStream (mkHeap []) None ∅ 0 false.

Record ProposalParts := mkParts {
  pp_height : Height; pp_round : Round; pp_proposer : Address; pp_parts : list ProposalPart }.
#[export] Instance ProposalParts_eq_dec : EqDecision ProposalParts.
Proof. solve_decision. Defined.

Definition is_done (s : StreamState) : bool :=
  match st_init_info s with Some _ => true | None => false end
  && st_fin_received s && (MinHeap_len (st_buffer s) =? st_total_messages s).

(** The part of [StreamState::insert] before the completion test. *)
Definition StreamState_record `{StreamApi} (s : StreamState) (msg : StreamMessage) : StreamState :=
  let init := if msg_is_first msg
              then content_data (sm_content msg) ≫= as_init
              else st_init_info s in
  let '(fin, total) := if msg_is_fin msg
                       then (true, add64 (sm_sequence msg) 1)
                       else (st_fin_received s, st_total_messages s) in
  mkStream (MinHeap_push (st_buffer s) msg) init (st_seen_sequences s) total fin.

Definition StreamState_insert `{StreamApi} (s : StreamState) (msg : StreamMessage)
    : StreamState * option ProposalParts :=
  let s := StreamState_record s msg in
  if is_done s then
    match st_init_info s with
    | None => (s, None)
    | Some init =>
      let '(buffer, parts) := MinHeap_drain (st_buffer s) in
      (mkStream buffer None (st_seen_sequences s) (st_total_messages s) (st_fin_received s),
       Some (mkParts (init_height init) (init_round init) (init_proposer init) parts))
    end
  else (s, None).

(** ** [PartStreamsMap] *)

Abbreviation StreamKey := (bytes * bytes)%type (only parsing).     (* peer id, stream id *)
Abbreviation PartStreamsMap := (gmap (list Z * list Z) StreamState) (only parsing).

Definition mark_seen (s : StreamState) (seq : Z) : StreamState :=
  mkStream (st_buffer s) (st_init_info s) ({[seq]} ∪ st_seen_sequences s)
    (st_total_messages s) (st_fin_received s).

Definition PartStreamsMap_insert `{StreamApi} (streams : PartStreamsMap) (peer_id : bytes)
    (msg : StreamMessage) : PartStreamsMap * option ProposalParts :=
  let key := (peer_id, sm_stream_id msg) in
  let state := default StreamState_default (streams !! key) in
  if decide (sm_sequence msg ∈ st_seen_sequences state)
  then (<[key := state]> streams, None)
  else
    let '(state, result) := StreamState_insert (mark_seen state (sm_sequence msg)) msg in
    let streams := <[key := state]> streams in
    (if is_done state then delete key streams else streams, result).

(** A run of the map over a sequence of deliveries, with its outputs. *)
Definition event_key (e : bytes * StreamMessage) : StreamKey := (e.1, sm_stream_id e.2).

Fixpoint feed `{StreamApi} (m : PartStreamsMap) (es : list (bytes * StreamMessage))
    : PartStreamsMap * list (StreamKey * option ProposalParts) :=
  match es with
  | [] => (m, [])
  | e :: es =>
    let '(m, out) := PartStreamsMap_insert m e.1 e.2 in
    let '(m, outs) := feed m es in
    (m, (event_key e, out) :: outs)
  end.

Definition outputs_of (k : StreamKey) (outs : list (StreamKey * option ProposalParts))
    : list (option ProposalParts) :=
  snd <$> filter (λ o, o.1 = k) outs.

(** The messages [stream_proposal] numbers from its parts: one per part, then
    the end marker. *)
Definition stream_messages (sid : bytes) (parts : list ProposalPart) : list StreamMessage :=
  imap (λ i p, mkMsg sid (Z.of_nat i) (SData p)) parts
  ++ [mkMsg sid (Z.of_nat (length parts)) SFin].

(** ** Shape of a well-formed stream *)

Lemma stream_messages_sequences sid parts :
  sm_sequence <$> stream_messages sid parts = Z.of_nat <$> seq 0 (S (length parts)).
Proof.
  unfold stream_messages. rewrite fmap_app, seq_S, fmap_app. f_equal.
  apply list_eq. intros i. rewrite !list_lookup_fmap, list_lookup_imap.
  destruct (parts !! i) as [p|] eqn:Hp; simpl.
  - rewrite lookup_seq_lt; [done|]. by eapply lookup_lt_Some.
  - rewrite lookup_seq_ge; [done|]. by apply lookup_ge_None.
Qed.

Lemma stream_messages_NoDup_seq sid parts : NoDup (sm_sequence <$> stream_messages sid parts).
Proof. rewrite stream_messages_sequences. apply NoDup_fmap; [apply _|]. apply NoDup_seq. Qed.

Lemma stream_messages_sorted sid parts :
  sort_by_key sm_sequence (stream_messages sid parts) = stream_messages sid parts.
Proof.
  apply sort_by_key_id.
  assert (∀ l i, (sm_sequence <$> l) = Z.of_nat <$> seq i (length l) →
    StronglySorted (λ x y, sm_sequence x ≤ sm_sequence y) l) as Hgen.
  { induction l as [|m l IH]; intros i Hl; constructor;
      injection Hl as Hm Hl'.
    - by apply (IH (S i)).
    - apply Forall_forall. intros m' Hm'. apply (list_elem_of_fmap_2 sm_sequence) in Hm'.
      change (sm_sequence <$> l = Z.of_nat <$> seq (S i) (length l)) in Hl'.
      rewrite Hl' in Hm'.
      apply list_elem_of_fmap in Hm' as (j & Hj & Hin). apply elem_of_seq in Hin. lia. }
  apply (Hgen _ 0%nat). rewrite stream_messages_sequences. f_equal. f_equal.
  unfold stream_messages. rewrite length_app, length_imap. simpl. lia.
Qed.

Lemma stream_messages_data sid parts :
  omap (λ m, content_data (sm_content m)) (stream_messages sid parts) = parts.
Proof.
  unfold stream_messages. rewrite omap_app. simpl. rewrite app_nil_r.
  assert (∀ (f : nat → Z),
    omap (λ m, content_data (sm_content m)) (imap (λ i p, mkMsg sid (f i) (SData p)) parts) = parts)
    as Hgen.
  { induction parts as [|p parts IH]; intros f; simpl; [done|]. f_equal. apply (IH (λ i, f (S i))). }
  apply Hgen.
Qed.

Lemma length_stream_messages sid parts :
  length (stream_messages sid parts) = S (length parts).
Proof. unfold stream_messages. rewrite length_app, length_imap. simpl. lia. Qed.

Lemma stream_messages_elem sid parts m :
  m ∈ stream_messages sid parts →
  sm_stream_id m = sid ∧
  ((∃ i p, parts !! i = Some p ∧ m = mkMsg sid (Z.of_nat i) (SData p)) ∨
   m = mkMsg sid (Z.of_nat (length parts)) SFin).
Proof.
  unfold stream_messages. rewrite elem_of_app, list_elem_of_singleton.
  intros [Hm| ->]; [|by auto].
  apply elem_of_lookup_imap_1 in Hm as (i & p & -> & Hp). split; [done|]. left. eauto.
Qed.

(** ** The invariant of a stream that has received the messages [l] *)

Section reassembly.
Context `{A : StreamApi} {L : StreamApiLaws A}.
Context (sid : bytes) (init : ProposalInit) (rest : list ProposalPart).

Definition wf_parts : list ProposalPart := PInit init :: rest.
Definition wf_messages : list StreamMessage := stream_messages sid wf_parts.
Definition first_message : StreamMessage := mkMsg sid 0 (SData (PInit init)).
Definition fin_message : StreamMessage := mkMsg sid (Z.of_nat (length wf_parts)) SFin.

Record stream_inv (l : list StreamMessage) (s : StreamState) : Prop := {
  inv_buffer : heap_items (st_buffer s) ≡ₚ l;
  inv_seen : st_seen_sequences s = list_to_set (sm_sequence <$> l);
  inv_init : st_init_info s = if decide (first_message ∈ l) then Some init else None;
  inv_fin : st_fin_received s = bool_decide (fin_message ∈ l);
  inv_total : fin_message ∈ l → st_total_messages s = Z.of_nat (S (length wf_parts)) }.

Context (Hsmall : Z.of_nat (S (length wf_parts)) < 2 ^ 64).

Lemma wf_message_cases m :
  m ∈ wf_messages →
  msg_is_first m = bool_decide (m = first_message) ∧
  msg_is_fin m = bool_decide (m = fin_message).
Proof using L.
  rewrite msg_is_first_spec, msg_is_fin_spec.
  intros [_ [(i & p & Hp & ->)| ->]]%stream_messages_elem; simpl; split.
  - destruct i as [|i]; simpl in *.
    + injection Hp as <-. by rewrite bool_decide_eq_true_2.
    + symmetry. apply bool_decide_eq_false_2. unfold first_message. intros [=]. 
  - symmetry. apply bool_decide_eq_false_2. unfold fin_message. by intros [=].
  - symmetry. apply bool_decide_eq_false_2. unfold first_message. by intros [=].
  - symmetry. by apply bool_decide_eq_true_2.
Qed.

Lemma stream_inv_nil : stream_inv [] StreamState_default.
Proof. split; simpl; try done. by intros ?%elem_of_nil. Qed.

Lemma stream_inv_record l s m :
  stream_inv l s → m ∈ wf_messages →
  stream_inv (m :: l) (StreamState_record (mark_seen s (sm_sequence m)) m).
Proof using L Hsmall.
  intros [Hb Hs Hi Hf Ht] Hm. destruct (wf_message_cases m Hm) as [Hfirst Hfin].
  unfold StreamState_record, mark_seen. rewrite Hfirst, Hfin.
  destruct (bool_decide (m = fin_message)) eqn:Ef; split; simpl.
  all: try (by rewrite Hb).
  all: try (by rewrite Hs).
  - apply bool_decide_eq_true_1 in Ef. subst m.
    destruct (bool_decide (fin_message = first_message)) eqn:E0.
    { apply bool_decide_eq_true_1 in E0. by unfold fin_message, first_message in E0. }
    apply bool_decide_eq_false_1 in E0. rewrite Hi.
    destruct (decide (first_message ∈ l)) as [Hin|Hin].
    + rewrite decide_True; [done|by right].
    + rewrite decide_False; [done|]. rewrite elem_of_cons. intros [Heq|?]; [by apply E0|done].
  - apply bool_decide_eq_true_1 in Ef. subst m. symmetry. apply bool_decide_eq_true_2. left.
  - intros _. apply bool_decide_eq_true_1 in Ef. subst m. simpl.
    rewrite add64_small; unfold wf_parts in *; simpl in *; lia.
  - apply bool_decide_eq_false_1 in Ef.
    destruct (bool_decide (m = first_message)) eqn:E0.
    + apply bool_decide_eq_true_1 in E0. subst m. rewrite decide_True; [done|left].
    + apply bool_decide_eq_false_1 in E0. rewrite Hi.
      apply decide_ext. rewrite elem_of_cons. split; [by right|intros [Heq|?]; [by destruct E0|done]].
  - apply bool_decide_eq_false_1 in Ef. rewrite Hf. apply bool_decide_ext.
    rewrite elem_of_cons. split; [by right|intros [Heq|?]; [by destruct Ef|done]].
  - apply bool_decide_eq_false_1 in Ef. intros [Heq|Hin]%elem_of_cons; [by destruct Ef|auto].
Qed.

(** A stream is complete exactly when all its messages have arrived. *)
Lemma stream_inv_done l s :
  stream_inv l s → l ⊆+ wf_messages →
  is_done s = bool_decide (l ≡ₚ wf_messages).
Proof using Hsmall.
  intros [Hb Hs Hi Hf Ht] Hsub. unfold is_done, MinHeap_len. rewrite Hi, Hf, Hb.
  assert (length wf_messages = S (length wf_parts)) as Hlen by apply length_stream_messages.
  destruct (decide (l ≡ₚ wf_messages)) as [Hp|Hnp].
  - rewrite (bool_decide_eq_true_2 _ Hp).
    assert (fin_message ∈ l) as Hfin by (rewrite Hp; apply elem_of_app; right; left).
    rewrite decide_True by (rewrite Hp; left). rewrite (bool_decide_eq_true_2 _ Hfin), (Ht Hfin).
    rewrite Hp, Hlen. by rewrite Z.eqb_refl.
  - rewrite (bool_decide_eq_false_2 _ Hnp).
    destruct (decide (fin_message ∈ l)) as [Hfin|Hfin].
    + rewrite (Ht Hfin). apply andb_false_intro2. apply Z.eqb_neq. intros Heq.
      apply Hnp. apply submseteq_length_Permutation; [done|lia].
    + rewrite (bool_decide_eq_false_2 _ Hfin). by rewrite andb_false_r.
Qed.

Lemma stream_inv_drain l s :
  stream_inv l s → l ≡ₚ wf_messages → (MinHeap_drain (st_buffer s)).2 = wf_parts.
Proof.
  intros [Hb _ _ _ _] Hp. unfold MinHeap_drain. simpl.
  rewrite (sort_by_key_Permutation_eq _ _ wf_messages).
  - unfold wf_messages. by rewrite stream_messages_sorted, stream_messages_data.
  - rewrite Hb, Hp. apply stream_messages_NoDup_seq.
  - by rewrite Hb.
Qed.

Definition assembled : ProposalParts :=
  mkParts (init_height init) (init_round init) (init_proposer init) wf_parts.

(** One delivery of a fresh message of the stream. *)
Lemma PartStreamsMap_insert_fresh m peer l msg :
  stream_inv l (default StreamState_default (m !! (peer, sid))) →
  msg ∈ wf_messages → msg ∉ l → msg :: l ⊆+ wf_messages →
  ∃ m', PartStreamsMap_insert m peer msg =
          (m', if bool_decide (msg :: l ≡ₚ wf_messages) then Some assembled else None) ∧
        (¬ msg :: l ≡ₚ wf_messages →
         stream_inv (msg :: l) (default StreamState_default (m' !! (peer, sid)))).
Proof using L Hsmall.
  intros Hinv Hm Hnin Hsub. set (s := default _ _) in *.
  destruct (stream_messages_elem _ _ _ Hm) as [Hsid _].
  assert (sm_sequence msg ∉ st_seen_sequences s) as Hfresh.
  { rewrite (inv_seen _ _ Hinv), elem_of_list_to_set. intros (m2 & Heq & Hm2)%list_elem_of_fmap.
    assert (NoDup (sm_sequence <$> msg :: l)) as Hnd.
    { eapply NoDup_submseteq_fmap; [done|]. apply stream_messages_NoDup_seq. }
    simpl in Hnd. apply NoDup_cons in Hnd as [Hn _]. apply Hn. rewrite Heq.
    by apply list_elem_of_fmap_2. }
  pose proof (stream_inv_record l s msg Hinv Hm) as Hinv'.
  pose proof (stream_inv_done _ _ Hinv' Hsub) as Hdone.
  unfold PartStreamsMap_insert. rewrite Hsid. fold s. rewrite decide_False by done.
  unfold StreamState_insert. rewrite Hdone.
  destruct (decide (msg :: l ≡ₚ wf_messages)) as [Hp|Hnp].
  - rewrite !(bool_decide_eq_true_2 _ Hp), (inv_init _ _ Hinv').
    rewrite decide_True by (rewrite Hp; left).
    pose proof (stream_inv_drain _ _ Hinv' Hp) as Hd.
    destruct (MinHeap_drain _) as [b parts]; simpl in Hd; subst parts. simpl.
    eexists. split; [done|]. by intros [].
  - rewrite !(bool_decide_eq_false_2 _ Hnp). rewrite Hdone, (bool_decide_eq_false_2 _ Hnp).
    eexists. split; [done|]. intros _. by rewrite lookup_insert_eq.
Qed.
End reassembly.

(** ** Deliveries on different streams do not interfere *)

Section deliveries.
Context `{A : StreamApi}.

Lemma PartStreamsMap_insert_other (m : PartStreamsMap) peer msg k :
  k ≠ (peer, sm_stream_id msg) →
  (PartStreamsMap_insert m peer msg).1 !! k = m !! k.
Proof.
  intros Hk. unfold PartStreamsMap_insert. case_decide; simpl.
  { by rewrite lookup_insert_ne. }
  destruct (StreamState_insert _ _) as [s r]. simpl.
  destruct (is_done s); rewrite ?lookup_delete_ne, ?lookup_insert_ne by done; done.
Qed.

(** A completed stream has given its [init_info] away, so it is never seen as
    done afterwards. *)
Lemma StreamState_insert_not_done s msg : is_done (StreamState_insert s msg).1 = false.
Proof.
  unfold StreamState_insert. destruct (is_done (StreamState_record s msg)) eqn:Hd; [|done].
  destruct (st_init_info (StreamState_record s msg)) eqn:Hi; [done|].
  unfold is_done in Hd. by rewrite Hi in Hd.
Qed.

Lemma outputs_of_feed_cons k m e es :
  outputs_of k (feed m (e :: es)).2 =
  (if decide (event_key e = k) then [(PartStreamsMap_insert m e.1 e.2).2] else [])
  ++ outputs_of k (feed (PartStreamsMap_insert m e.1 e.2).1 es).2.
Proof.
  cbn [feed]. destruct (PartStreamsMap_insert m e.1 e.2) as [m' out]; simpl.
  destruct (feed m' es) as [m'' outs]; simpl. unfold outputs_of.
  rewrite filter_cons. simpl. by case_decide.
Qed.

Lemma outputs_of_none k m es :
  filter (λ e, event_key e = k) es = [] → outputs_of k (feed m es).2 = [].
Proof.
  revert m; induction es as [|e es IH]; intros m; [done|].
  rewrite outputs_of_feed_cons, filter_cons. case_decide; [done|]. apply IH.
Qed.
End deliveries.

Section reassembly_feed.
Context `{A : StreamApi} {L : StreamApiLaws A}.
Context (sid : bytes) (init : ProposalInit) (rest : list ProposalPart) (peer : bytes).
Context (Hsmall : Z.of_nat (S (length (wf_parts init rest))) < 2 ^ 64).

Lemma feed_reassembles es : ∀ (m : PartStreamsMap) l,
  let r := snd <$> filter (λ e, event_key e = (peer, sid)) es in
  stream_inv sid init rest l (default StreamState_default (m !! (peer, sid))) →
  l ++ r ≡ₚ wf_messages sid init rest → r ≠ [] →
  outputs_of (peer, sid) (feed m es).2 =
    replicate (pred (length r)) None ++ [Some (assembled init rest)].
Proof using L Hsmall.
  induction es as [|e es IH]; intros m l r Hinv Hp Hne; [done|].
  rewrite outputs_of_feed_cons. unfold r in *. clear r. rewrite filter_cons in *.
  destruct (decide (event_key e = (peer, sid))) as [Hk|Hk].
  2: { apply (IH _ l); [|done|done].
       by rewrite PartStreamsMap_insert_other by (intros ?; by apply Hk). }
  rewrite fmap_cons in *. set (r := snd <$> _) in *. destruct e as [p msg].
  unfold event_key in Hk; simpl in Hk. injection Hk as -> Hsid. simpl.
  assert (msg :: l ++ r ≡ₚ wf_messages sid init rest) as Hp'.
  { by rewrite <-Hp, Permutation_middle. }
  assert (NoDup (msg :: l ++ r)) as Hnd.
  { rewrite Hp'. eapply NoDup_fmap_1. apply stream_messages_NoDup_seq. }
  apply NoDup_cons in Hnd as [Hnin Hnd]. rewrite elem_of_app in Hnin.
  destruct (PartStreamsMap_insert_fresh sid init rest Hsmall m peer l msg) as (m' & Hins & Hnext);
    [done|rewrite <-Hp'; left|tauto| |].
  { rewrite <-Hp', app_comm_cons. apply submseteq_inserts_r. done. }
  rewrite Hins. simpl. destruct r as [|m2 r'] eqn:Hr; unfold r in Hr.
  - rewrite app_nil_r in Hp'. rewrite (bool_decide_eq_true_2 _ Hp'). simpl.
    by rewrite outputs_of_none by (by apply fmap_nil_inv in Hr).
  - assert (¬ msg :: l ≡ₚ wf_messages sid init rest) as Hnp.
    { intros Hc. rewrite <-Hc in Hp'. apply Permutation_length in Hp'.
      rewrite app_comm_cons, length_app in Hp'. simpl in Hp'. lia. }
    rewrite (bool_decide_eq_false_2 _ Hnp). simpl. f_equal.
    by apply (IH m' (msg :: l)); [auto| |].
Qed.
End reassembly_feed.

(** ** Properties of stream reassembly *)

Section streaming_theorems.
Context (A : StreamApi) (L : StreamApiLaws A).

(** However the messages of a well-formed proposal stream are ordered and
    interleaved with those of other streams, the stream yields nothing until
    its last missing message and then exactly its parts, in stream order. *)
Theorem stream_reassembled_in_any_order (sid : bytes) (init : ProposalInit)
    (rest : list ProposalPart) (peer : bytes) (m : PartStreamsMap) (es : list (bytes * StreamMessage)) :
  Z.of_nat (S (length (wf_parts init rest))) < 2 ^ 64 →
  m !! (peer, sid) = None →
  snd <$> filter (λ e, event_key e = (peer, sid)) es ≡ₚ stream_messages sid (PInit init :: rest) →
  outputs_of (peer, sid) (feed m es).2 =
    replicate (S (length rest)) None ++
    [Some (mkParts (init_height init) (init_round init) (init_proposer init) (PInit init :: rest))].
Proof using L.
  intros Hsmall Hm Hp.
  assert (length (snd <$> filter (λ e, event_key e = (peer, sid)) es) = S (S (length rest))) as Hl.
  { rewrite Hp, length_stream_messages. done. }
  rewrite (feed_reassembles sid init rest peer Hsmall es m []).
  - by rewrite Hl.
  - rewrite Hm. apply stream_inv_nil.
  - exact Hp.
  - intros Hn. by rewrite Hn in Hl.
Qed.

(** A message whose sequence number was already delivered on its stream is
    dropped: nothing is returned and no stream changes. *)
Theorem duplicate_message_ignored (m : PartStreamsMap) (peer : bytes) (msg : StreamMessage)
    (s : StreamState) :
  m !! (peer, sm_stream_id msg) = Some s →
  sm_sequence msg ∈ st_seen_sequences s →
  PartStreamsMap_insert m peer msg = (m, None).
Proof.
  intros Hm Hseen. unfold PartStreamsMap_insert. rewrite Hm. simpl.
  rewrite decide_True by done. by rewrite insert_id.
Qed.

(** The state of a stream that has already produced its proposal. *)
Definition delivered (s : StreamState) : Prop :=
  st_init_info s = None ∧ 0 ∈ st_seen_sequences s.

(** Before completion, [init_info] is set only by the message numbered 0. *)
Definition init_needs_first (s : StreamState) : Prop :=
  is_Some (st_init_info s) → 0 ∈ st_seen_sequences s.

Lemma delivered_insert (m : PartStreamsMap) k peer msg :
  delivered (default StreamState_default (m !! k)) →
  delivered (default StreamState_default ((PartStreamsMap_insert m peer msg).1 !! k)) ∧
  (k = (peer, sm_stream_id msg) → (PartStreamsMap_insert m peer msg).2 = None).
Proof using L.
  destruct (decide (k = (peer, sm_stream_id msg))) as [->|Hk].
  2: { by rewrite PartStreamsMap_insert_other. }
  unfold PartStreamsMap_insert. set (s := default _ _). intros [Hi H0].
  case_decide as Hseen; simpl.
  { by rewrite lookup_insert_eq. }
  assert (msg_is_first msg = false) as Hf.
  { rewrite msg_is_first_spec. apply Z.eqb_neq. intros Hz. by rewrite Hz in Hseen. }
  assert (StreamState_insert (mark_seen s (sm_sequence msg)) msg =
          (StreamState_record (mark_seen s (sm_sequence msg)) msg, None)) as ->.
  { unfold StreamState_insert, is_done, StreamState_record. rewrite Hf. simpl. rewrite Hi.
    by destruct (msg_is_fin msg). }
  assert (is_done (StreamState_record (mark_seen s (sm_sequence msg)) msg) = false) as ->.
  { unfold is_done, StreamState_record. rewrite Hf. simpl. rewrite Hi.
    by destruct (msg_is_fin msg). }
  simpl. rewrite lookup_insert_eq. unfold delivered, StreamState_record. rewrite Hf.
  split; [|done]. destruct (msg_is_fin msg); simpl; set_solver.
Qed.

Lemma outputs_delivered k m es :
  delivered (default StreamState_default (m !! k)) →
  Forall (λ o, o = None) (outputs_of k (feed m es).2).
Proof using L.
  revert m; induction es as [|e es IH]; intros m Hd; [constructor|].
  rewrite outputs_of_feed_cons.
  destruct (delivered_insert m k e.1 e.2 Hd) as [Hd' Hout].
  apply Forall_app_2; [|by apply IH].
  case_decide; constructor; [|done]. by apply Hout.
Qed.

Lemma insert_outcome (m : PartStreamsMap) peer msg :
  let k := (peer, sm_stream_id msg) in
  let r := PartStreamsMap_insert m peer msg in
  init_needs_first (default StreamState_default (m !! k)) →
  init_needs_first (default StreamState_default (r.1 !! k)) ∧
  (is_Some r.2 → delivered (default StreamState_default (r.1 !! k))).
Proof using L.
  intros k r Hinv. unfold r, PartStreamsMap_insert. fold k. set (s := default _ _) in *.
  case_decide as Hseen; simpl; [rewrite lookup_insert_eq; simpl; split; [done|by intros []]|].
  pose proof (StreamState_insert_not_done (mark_seen s (sm_sequence msg)) msg) as Hnd.
  destruct (StreamState_insert _ _) as [s' out] eqn:Hins. simpl in Hnd. rewrite Hnd. simpl.
  rewrite lookup_insert_eq. simpl. revert Hins. unfold StreamState_insert.
  set (s1 := StreamState_record _ _).
  assert (init_needs_first s1) as H1.
  { unfold init_needs_first, s1, StreamState_record. rewrite msg_is_first_spec.
    destruct (msg_is_fin msg), (sm_sequence msg =? 0) eqn:E; simpl;
      try (apply Z.eqb_eq in E); unfold init_needs_first in Hinv; set_solver. }
  destruct (is_done s1); [|intros [= <- <-]; split; [done|by intros []]].
  destruct (st_init_info s1) as [i|] eqn:Hi1; [|intros [= <- <-]; split; [done|by intros []]].
  simpl. intros [= <- <-]. unfold init_needs_first, delivered. simpl.
  split; [by intros []|]. intros _. split; [done|]. apply H1. by rewrite Hi1.
Qed.

(** On any sequence of deliveries, each (peer, stream) pair yields at most
    one proposal. *)
Theorem stream_delivers_at_most_once (k : StreamKey) (es : list (bytes * StreamMessage)) :
  (length (filter (λ o, is_Some o) (outputs_of k (feed (∅ : PartStreamsMap) es).2)) ≤ 1)%nat.
Proof using L.
  assert (∀ (m : PartStreamsMap), init_needs_first (default StreamState_default (m !! k)) →
    (length (filter (λ o, is_Some o) (outputs_of k (feed m es).2)) ≤ 1)%nat) as Hgen.
  { induction es as [|e es IH]; intros m Hm; [simpl; lia|].
    rewrite outputs_of_feed_cons, filter_app, length_app. case_decide as Hk.
    - subst k. destruct (insert_outcome m e.1 e.2 Hm) as [Hm' Hout].
      destruct (PartStreamsMap_insert m e.1 e.2) as [m' [p|]]; simpl in *.
      + rewrite (filter_none _ (outputs_of _ _)); [simpl; lia|].
        eapply Forall_impl; [by apply outputs_delivered, Hout|]. intros ? ->. by intros [].
      + specialize (IH m' Hm'). lia.
    - simpl. apply IH. rewrite PartStreamsMap_insert_other; [done|]. intros ->. by apply Hk. }
  apply Hgen. by intros [].
Qed.

(** No delivery ever removes a stream from the map, a completed one
    included: after any delivery the map holds exactly its previous streams
    and the one delivered to. *)
Theorem stream_entry_never_removed (m : PartStreamsMap) (peer : bytes) (msg : StreamMessage) :
  dom (PartStreamsMap_insert m peer msg).1 = {[(peer, sm_stream_id msg)]} ∪ dom m.
Proof.
  unfold PartStreamsMap_insert. case_decide; simpl; [by rewrite dom_insert_L|].
  match goal with |- context [StreamState_insert ?s ?m] =>
    pose proof (StreamState_insert_not_done s m) as Hnd;
    destruct (StreamState_insert s m) as [s' out] end.
  simpl in *. rewrite Hnd. simpl. by rewrite dom_insert_L.
Qed.
End streaming_theorems.

(** ** A concrete instance *)

#[local] Instance demo_stream_api : StreamApi := {|
  msg_is_first m := sm_sequence m =? 0;
  msg_is_fin m := is_fin_content (sm_content m) |}.

#[local] Instance demo_stream_laws : StreamApiLaws demo_stream_api.
Proof. by split. Qed.

Definition demo_init : ProposalInit := mkInit 7 (RSome 0) (zeros 20).
Definition demo_data : ProposalPart := PData (mkData [1; 2; 3] []).
Definition demo_stream : list StreamMessage := stream_messages [9] [PInit demo_init; demo_data].

(** End marker first, then the data, then a message of another stream, then
    the first message. *)
Definition demo_events : list (bytes * StreamMessage) :=
  [ ([5], mkMsg [9] 2 SFin); ([5], mkMsg [9] 1 (SData demo_data));
    ([6], mkMsg [9] 1 SFin); ([5], mkMsg [9] 0 (SData (PInit demo_init))) ].

Lemma stream_reassembled_in_any_order_witness :
  outputs_of ([5], [9]) (feed ∅ demo_events).2 =
  [None; None; Some (mkParts 7 (RSome 0) (zeros 20) [PInit demo_init; demo_data])].
Proof.
  apply (stream_reassembled_in_any_order demo_stream_api demo_stream_laws
           [9] demo_init [demo_data] [5] ∅ demo_events).
  - simpl. lia.
  - reflexivity.
  - apply (bool_decide_unpack _). vm_compute. exact I.
Defined.

Definition demo_streams : gmap (list Z * list Z) StreamState :=
  {[ ([5], [9]) := mkStream (mkHeap []) None {[3]} 0 false ]}.

Lemma duplicate_message_ignored_witness :
  PartStreamsMap_insert demo_streams [5] (mkMsg [9] 3 SFin) = (demo_streams, None).
Proof.
  apply (duplicate_message_ignored demo_stream_api demo_streams [5] (mkMsg [9] 3 SFin)
           (mkStream (mkHeap []) None {[3]} 0 false)).
  - reflexivity.
  - apply (bool_decide_unpack _). vm_compute. exact I.
Defined.

Lemma stream_delivers_at_most_once_witness :
  (length (filter (λ o, is_Some o)
     (outputs_of ([5%Z], [9%Z]) (feed (∅ : PartStreamsMap) (demo_events ++ demo_events)).2)) ≤ 1)%nat.
Proof.
  apply (stream_delivers_at_most_once demo_stream_api demo_stream_laws
           ([5], [9]) (demo_events ++ demo_events)).
Defined.
