(* ===== verification/Proposal.v ===== *)
(** * Building, streaming and checking proposals ([crates/consensus/src/state.rs])

    The proposer splits a proposal into parts, signs their hash and numbers
    them; a follower recomputes the hash, checks the signature and puts the
    payload and the execution requests together again.  The functions are
    methods of [State]; here they take the fields they read as arguments. *)
From S2P Require Import Prelude Types Merkle Streaming.
Open Scope outcome_scope.

Definition MAX_EXECUTION_REQUESTS : nat := 64.
Definition CHUNK_SIZE : nat := Z.to_nat (128 * 1024).

(** ** Execution requests *)

Definition hash_execution_requests (reqs : list bytes) : bytes :=
  match reqs with
  | [] => []
  | _ => be_bytes 4 (Z.of_nat (length reqs))
         ++ concat ((λ r, be_bytes 4 (Z.of_nat (length r)) ++ r) <$> reqs)
  end.

Fixpoint validate_requests_from (prev_type : option Z) (reqs : list bytes) : outcome string unit :=
  match reqs with
  | [] => Ok tt
  | request :: reqs =>
    match request with
    | request_type :: _ :: _ =>
      let increasing :=
        match prev_type with Some prev => negb (request_type <=? prev) | None => true end in
      if increasing then validate_requests_from (Some request_type) reqs
      else Err "execution requests must be strictly increasing by type"%string
    | _ => Err "execution request must include type byte and payload"%string
    end
  end.

Definition validate_execution_requests (reqs : list bytes) : outcome string unit :=
  if (MAX_EXECUTION_REQUESTS <? length reqs)%nat
  then Err "execution request count exceeds limit"%string
  else validate_requests_from None reqs.

(** ** Making the parts *)

(** The bytes a part contributes to the signed hash. *)
Definition part_hash_bytes (p : ProposalPart) : bytes :=
  match p with
  | PInit i => be_bytes 8 (init_height i) ++ be_bytes 8 (Round_as_i64 (init_round i))
  | PData d => hash_execution_requests (pd_execution_requests d) ++ pd_bytes d
  | PBlobSidecar s =>
    be_bytes 2 (sc_index s) ++ sc_blob s ++ sc_kzg_commitment s ++ sc_kzg_proof s
  | PArchiveNotice _ | PFin _ => []
  end.

(** The data loop: the requests ride on the first chunk. *)
Fixpoint attach_requests (attached : bool) (reqs : list bytes) (cs : list bytes)
    : list ProposalData * bool :=
  match cs with
  | [] => ([], attached)
  | c :: cs =>
    let d := if negb attached then mkData c reqs else mkData c [] in
    let '(ds, attached) := attach_requests true reqs cs in
    (d :: ds, attached)
  end.

Definition data_parts (data : bytes) (reqs : list bytes) : list ProposalData :=
  let has_requests := negb (bool_decide (reqs = [])) in
  let '(ds, attached) := attach_requests (negb has_requests) reqs (chunks CHUNK_SIZE data) in
  if negb attached then ds ++ [mkData [] reqs] else ds.

Section proposals.
Context `{Crypto} `{StreamApi}.

Definition unsigned_parts (height : Height) (round : Round) (data : bytes)
    (sidecars : option (list BlobSidecar)) (reqs : list bytes) (proposer : Address)
    : list ProposalPart :=
  PInit (mkInit height round proposer)
  :: (PData <$> data_parts data reqs)
  ++ (PBlobSidecar <$> default [] sidecars).

Definition make_proposal_parts (signing_key : bytes) (value : LocallyProposedValue)
    (data : bytes) (sidecars : option (list BlobSidecar)) (reqs : list bytes)
    (proposer : Address) : list ProposalPart :=
  let parts := unsigned_parts (lv_height value) (lv_round value) data sidecars reqs proposer in
  let hash := keccak256 (concat (part_hash_bytes <$> parts)) in
  parts ++ [PFin (ed25519_sign signing_key hash)].

(** [State::stream_id]: the nonce is a wrapping [u32] counter. *)
Definition make_stream_id (height : Height) (round : Round) (nonce : Z)
    : outcome string (Z * bytes) :=
  match Round_as_u32 round with
  | None => Panic                                        (* round.as_u32().unwrap() *)
  | Some r => Ok ((nonce + 1) mod 2^32,
                  be_bytes 8 height ++ be_bytes 4 r ++ be_bytes 4 nonce)
  end.

Definition stream_proposal (signing_key : bytes) (address : Address) (nonce : Z)
    (value : LocallyProposedValue) (data : bytes) (sidecars : option (list BlobSidecar))
    (reqs : list bytes) (proposer : option Address)
    : outcome string (Z * list StreamMessage) :=
  let parts := make_proposal_parts signing_key value data sidecars reqs
                 (default address proposer) in
  let? (nonce, sid) := make_stream_id (lv_height value) (lv_round value) nonce in
  Ok (nonce, stream_messages sid parts).

Definition stream_archive_notice (nonce : Z) (n : ArchiveNotice)
    : outcome string (Z * StreamMessage) :=
  let? (nonce, sid) := make_stream_id (an_height (nt_body n)) (an_round (nt_body n)) nonce in
  Ok (nonce, mkMsg sid 0 (SData (PArchiveNotice n))).

(** ** Checking the signature *)

Inductive SignatureVerificationError := MissingFinPart | ProposerNotFound | InvalidSignature.

(** The traversal that recreates the hash and picks the signature up. *)
Fixpoint scan_parts (parts : list ProposalPart) (input : bytes) (signature : option Signature)
    : outcome SignatureVerificationError (bytes * option Signature) :=
  match parts with
  | [] => Ok (input, signature)
  | PArchiveNotice _ :: _ => Err InvalidSignature
  | PFin s :: parts => scan_parts parts input (Some s)
  | p :: parts => scan_parts parts (input ++ part_hash_bytes p) signature
  end.

Definition verify_proposal_signature (vs : ValidatorSet) (parts : ProposalParts)
    : outcome SignatureVerificationError unit :=
  let? (input, signature) := scan_parts (pp_parts parts) [] None in
  let hash := keccak256 input in
  let? signature := ok_or signature MissingFinPart in
  let? public_key := ok_or (val_public_key <$> get_by_address vs (pp_proposer parts))
                       ProposerNotFound in
  if ed25519_verify public_key hash signature then Ok tt else Err InvalidSignature.
End proposals.

(** ** Putting the payload together again ([assemble_and_store_blobs]) *)

Definition assemble_data (parts : list ProposalPart) : bytes :=
  concat (pd_bytes <$> omap as_data parts).

Fixpoint collect_requests (acc : list bytes) (ds : list ProposalData)
    : outcome string (list bytes) :=
  match ds with
  | [] => Ok acc
  | d :: ds =>
    match pd_execution_requests d with
    | [] => collect_requests acc ds
    | reqs =>
      if decide (acc = []) then collect_requests reqs ds
      else if decide (acc = reqs) then collect_requests acc ds
      else Err "Mismatched execution requests across proposal chunks"%string
    end
  end.

Definition assemble_sidecars (parts : list ProposalPart) : list BlobSidecar :=
  omap as_blob_sidecar parts.

(** ** Proposal timestamps

    [now] is the clock reading, [None] when it is before the epoch. *)
Definition validate_proposed_timestamp (now : option Z) (latest_block : option ExecutionBlock)
    (proposed_ts : Z) (proposed_parent_hash : B256) : outcome string unit :=
  match now with
  | None => Err "System time unavailable"%string
  | Some now =>
    if add64 now LOAD_MAX_FUTURE_DRIFT_SECS <? proposed_ts
    then Err "Timestamp too far in future"%string
    else match latest_block with
    | None => Err "latest_block is None after initialization"%string
    | Some blk =>
      if negb (bool_decide (proposed_parent_hash = eb_block_hash blk))
      then Err "Parent hash mismatch"%string
      else if proposed_ts <=? eb_timestamp blk
      then Err "Timestamp not > parent"%string
      else if proposed_ts <? add64 (eb_timestamp blk) LOAD_MIN_BLOCK_TIME_SECS
      then Err "Timestamp violates min block time"%string
      else Ok tt
    end
  end.

Arguments CHUNK_SIZE : simpl never.

(** ** Lemmas *)

Lemma concat_chunks_aux fuel n l :
  (0 < n)%nat → (length l ≤ fuel)%nat → concat (chunks_aux fuel n l) = l.
Proof.
  intros Hn. revert l; induction fuel as [|fuel IH]; intros l Hl.
  { by apply Nat.le_0_r, nil_length_inv in Hl as ->. }
  destruct l as [|x l]; [done|]. cbn [chunks_aux concat].
  rewrite IH; [apply take_drop|]. rewrite length_drop. simpl in *. lia.
Qed.

Lemma concat_chunks n l : (0 < n)%nat → concat (chunks n l) = l.
Proof. intros Hn. by apply concat_chunks_aux. Qed.

Lemma CHUNK_SIZE_pos : (0 < CHUNK_SIZE)%nat.
Proof. unfold CHUNK_SIZE. lia. Qed.

Lemma attach_requests_bytes a reqs cs :
  pd_bytes <$> (attach_requests a reqs cs).1 = cs.
Proof.
  revert a; induction cs as [|c cs IH]; intros a; simpl; [done|].
  specialize (IH true). destruct (attach_requests true reqs cs) as [ds b].
  simpl in *. by destruct a; simpl; f_equal.
Qed.

Lemma attach_requests_attached a reqs cs :
  (attach_requests a reqs cs).2 = a || negb (bool_decide (cs = [])).
Proof.
  revert a; induction cs as [|c cs IH]; intros a; simpl; [by rewrite orb_false_r|].
  specialize (IH true). destruct (attach_requests true reqs cs) as [ds b].
  simpl in *. rewrite IH. by rewrite orb_true_r.
Qed.

Lemma attach_requests_true reqs cs :
  Forall (λ d, pd_execution_requests d = []) (attach_requests true reqs cs).1.
Proof.
  induction cs as [|c cs IH]; simpl; [constructor|].
  destruct (attach_requests true reqs cs). by constructor.
Qed.

Lemma data_parts_bytes data reqs : concat (pd_bytes <$> data_parts data reqs) = data.
Proof.
  unfold data_parts. set (a := negb _).
  pose proof (attach_requests_bytes a reqs (chunks CHUNK_SIZE data)) as Hb.
  destruct (attach_requests a reqs _) as [ds att]. simpl in Hb.
  destruct (negb att); rewrite ?fmap_app, ?concat_app, Hb; simpl;
    rewrite ?app_nil_r; apply concat_chunks, CHUNK_SIZE_pos.
Qed.

Lemma collect_requests_none acc ds :
  Forall (λ d, pd_execution_requests d = []) ds → collect_requests acc ds = Ok acc.
Proof. induction 1 as [|d ds Hd _ IH]; simpl; [done|]. by rewrite Hd. Qed.

Lemma data_parts_requests data reqs : collect_requests [] (data_parts data reqs) = Ok reqs.
Proof.
  unfold data_parts. destruct (bool_decide (reqs = [])) eqn:Hr; simpl.
  - apply bool_decide_eq_true_1 in Hr as ->.
    pose proof (attach_requests_attached true [] (chunks CHUNK_SIZE data)) as Ha.
    pose proof (attach_requests_true [] (chunks CHUNK_SIZE data)) as Ht.
    destruct (attach_requests true [] _) as [ds att]. simpl in *. subst att. simpl.
    by apply collect_requests_none.
  - apply bool_decide_eq_false_1 in Hr. destruct reqs as [|r0 reqs]; [done|].
    destruct (chunks CHUNK_SIZE data) as [|c cs]; simpl; [done|].
    pose proof (attach_requests_attached true (r0 :: reqs) cs) as Ha.
    pose proof (attach_requests_true (r0 :: reqs) cs) as Ht.
    destruct (attach_requests true _ cs) as [ds att]. simpl in *. subst att. simpl.
    by apply collect_requests_none.
Qed.

Lemma omap_as_data_parts ds (scs : list BlobSidecar) i s :
  omap as_data (PInit i :: (PData <$> ds) ++ (PBlobSidecar <$> scs) ++ [PFin s]) = ds.
Proof.
  simpl. rewrite !omap_app. simpl. rewrite app_nil_r.
  replace (omap as_data (PBlobSidecar <$> scs)) with (@nil ProposalData).
  - rewrite app_nil_r. induction ds as [|d ds IH]; simpl; [done|]. by f_equal.
  - induction scs as [|x scs IH]; simpl; [done|]. exact IH.
Qed.

Lemma omap_as_sidecar_parts ds (scs : list BlobSidecar) i s :
  omap as_blob_sidecar (PInit i :: (PData <$> ds) ++ (PBlobSidecar <$> scs) ++ [PFin s]) = scs.
Proof.
  simpl. rewrite !omap_app. simpl. rewrite app_nil_r.
  replace (omap as_blob_sidecar (PData <$> ds)) with (@nil BlobSidecar).
  - simpl. induction scs as [|x scs IH]; simpl; [done|]. by f_equal.
  - induction ds as [|x ds IH]; simpl; [done|]. exact IH.
Qed.

(** Parts that take part in the hash: everything but notices and signatures. *)
Definition hashed_part (p : ProposalPart) : bool :=
  match p with PArchiveNotice _ | PFin _ => false | _ => true end.

Lemma scan_parts_hashed parts rest input sg :
  Forall (λ p, hashed_part p = true) parts →
  scan_parts (parts ++ rest) input sg =
  scan_parts rest (input ++ concat (part_hash_bytes <$> parts)) sg.
Proof.
  intros Hp. revert input; induction Hp as [|p parts Hp _ IH]; intros input; simpl.
  { by rewrite app_nil_r. }
  rewrite app_assoc. destruct p; try done; simpl; by rewrite IH.
Qed.

Section proposal_lemmas.
Context `{Crypto}.

Lemma unsigned_parts_hashed height round data sidecars reqs proposer :
  Forall (λ p, hashed_part p = true) (unsigned_parts height round data sidecars reqs proposer).
Proof.
  unfold unsigned_parts. constructor; [done|]. apply Forall_app_2.
  - apply Forall_fmap, Forall_true. done.
  - apply Forall_fmap, Forall_true. done.
Qed.

Lemma make_proposal_parts_shape sk v data sidecars reqs proposer :
  ∃ s, make_proposal_parts sk v data sidecars reqs proposer =
    PInit (mkInit (lv_height v) (lv_round v) proposer)
    :: (PData <$> data_parts data reqs) ++ (PBlobSidecar <$> default [] sidecars) ++ [PFin s].
Proof.
  eexists. unfold make_proposal_parts, unsigned_parts. simpl. by rewrite <-app_assoc.
Qed.
End proposal_lemmas.

(** ** Properties of proposals *)

Section proposal_theorems.
Context (C : Crypto) (LC : CryptoLaws C) (A : StreamApi) (LA : StreamApiLaws A).

(** What a follower must find in the parts of a proposal. *)
Definition proposal_recovered (vs : ValidatorSet) (pp : ProposalParts) (data : bytes)
    (sidecars : list BlobSidecar) (reqs : list bytes) : Prop :=
  verify_proposal_signature vs pp = Ok tt ∧
  assemble_data (pp_parts pp) = data ∧
  collect_requests [] (omap as_data (pp_parts pp)) = Ok reqs ∧
  assemble_sidecars (pp_parts pp) = sidecars.

Lemma make_proposal_parts_recovered sk v data sidecars reqs proposer vs val height round :
  get_by_address vs proposer = Some val → val_public_key val = ed25519_public sk →
  proposal_recovered vs
    (mkParts height round proposer (make_proposal_parts sk v data sidecars reqs proposer))
    data (default [] sidecars) reqs.
Proof using LC.
  intros Hval Hpk. unfold proposal_recovered. split.
  - unfold verify_proposal_signature. cbn [pp_parts pp_proposer]. unfold make_proposal_parts.
    rewrite scan_parts_hashed by apply unsigned_parts_hashed.
    cbn [scan_parts obind ok_or]. rewrite Hval. cbn [fmap option_fmap option_map ok_or obind].
    rewrite Hpk. by rewrite ed25519_correct.
  - cbn [pp_parts].
    destruct (make_proposal_parts_shape sk v data sidecars reqs proposer) as [s ->].
    unfold assemble_data, assemble_sidecars.
    rewrite omap_as_data_parts, omap_as_sidecar_parts, data_parts_bytes, data_parts_requests.
    done.
Qed.

(** C35: a proposal streamed by a validator and delivered to a follower in any
    order, among other streams, comes out once, complete: its signature
    verifies under that validator's key and the follower recovers the very
    payload, execution requests and blob sidecars that were proposed. *)
Theorem streamed_proposal_recovered (sk : bytes) (address : Address) (nonce nonce' : Z)
    (v : LocallyProposedValue) (data : bytes) (sidecars : option (list BlobSidecar))
    (reqs : list bytes) (msgs : list StreamMessage) (vs : ValidatorSet) (val : Validator)
    (peer sid : bytes) (m : PartStreamsMap) (es : list (bytes * StreamMessage)) :
  stream_proposal sk address nonce v data sidecars reqs None = Ok (nonce', msgs) →
  make_stream_id (lv_height v) (lv_round v) nonce = Ok (nonce', sid) →
  Z.of_nat (length msgs) < 2 ^ 64 →
  get_by_address vs address = Some val → val_public_key val = ed25519_public sk →
  m !! (peer, sid) = None →
  snd <$> filter (λ e, event_key e = (peer, sid)) es ≡ₚ msgs →
  ∃ pp, outputs_of (peer, sid) (feed m es).2 = replicate (pred (length msgs)) None ++ [Some pp] ∧
        pp_height pp = lv_height v ∧ pp_round pp = lv_round v ∧ pp_proposer pp = address ∧
        proposal_recovered vs pp data (default [] sidecars) reqs.
Proof using LC LA.
  intros Hst Hsid Hlen Hval Hpk Hm Hes. unfold stream_proposal in Hst. rewrite Hsid in Hst.
  cbn [obind default] in Hst. injection Hst as Hmsgs.
  destruct (make_proposal_parts_shape sk v data sidecars reqs address) as [s Hshape].
  pose proof (make_proposal_parts_recovered sk v data sidecars reqs address vs val
    (lv_height v) (lv_round v) Hval Hpk) as Hrec.
  rewrite Hshape in Hmsgs, Hrec. rewrite <-Hmsgs in *. clear Hmsgs.
  pose proof (Permutation_length Hes) as Hl. rewrite <-Hl.
  rewrite length_stream_messages in *.
  eexists. split; [|split_and!; [..|exact Hrec]; done].
  apply (feed_reassembles sid _ _ peer Hlen es m []).
  - rewrite Hm. apply stream_inv_nil.
  - exact Hes.
  - intros Hn. by rewrite Hn in Hl.
Qed.
End proposal_theorems.

(** ** Specifications of the checks *)

(** The bytes of a stream id determine the height, the round and the nonce. *)
Lemma make_stream_id_inj h1 r1 n1 m1 h2 r2 n2 m2 sid :
  is_u64 h1 → is_u64 h2 → round_wf r1 → round_wf r2 → is_u32 n1 → is_u32 n2 →
  make_stream_id h1 r1 n1 = Ok (m1, sid) → make_stream_id h2 r2 n2 = Ok (m2, sid) →
  h1 = h2 ∧ r1 = r2 ∧ n1 = n2.
Proof.
  unfold make_stream_id. destruct r1 as [|r1], r2 as [|r2]; try done; simpl Round_as_u32.
  unfold round_wf, is_u64, is_u32. intros Hh1 Hh2 Hr1 Hr2 Hn1 Hn2 E1 E2.
  assert (be_bytes 8 h1 ++ be_bytes 4 r1 ++ be_bytes 4 n1 =
          be_bytes 8 h2 ++ be_bytes 4 r2 ++ be_bytes 4 n2) as Heq by congruence.
  clear E1 E2.
  apply app_inj_length in Heq as [Hh Heq]; [|by rewrite !length_be_bytes].
  apply app_inj_length in Heq as [Hr Hn]; [|by rewrite !length_be_bytes].
  apply be_bytes_inj in Hh, Hr, Hn; try lia. by subst.
Qed.

Definition request_type (r : bytes) : Z := default 0 (head r).

(** What the execution layer asks of a request list (EIP-7685): bounded,
    every request a type byte and a payload, the types strictly ascending. *)
Definition requests_ok (reqs : list bytes) : Prop :=
  (length reqs ≤ MAX_EXECUTION_REQUESTS)%nat ∧
  Forall (λ r, (2 ≤ length r)%nat) reqs ∧
  StronglySorted Z.lt (request_type <$> reqs).

Lemma validate_requests_from_spec reqs : ∀ prev,
  validate_requests_from prev reqs = Ok tt ↔
  Forall (λ r, (2 ≤ length r)%nat) reqs ∧
  StronglySorted Z.lt (option_list prev ++ (request_type <$> reqs)).
Proof.
  induction reqs as [|r reqs IH]; intros prev; simpl validate_requests_from.
  { split; [intros _; split; [constructor|]|done]. destruct prev; repeat constructor. }
  destruct r as [|t [|b r]]; [split; [done|by intros [[?%Nat.nle_succ_0 _]%Forall_cons _]]| |].
  { split; [done|]. intros [[?%Nat.succ_le_mono%Nat.nle_succ_0 _]%Forall_cons _]. done. }
  rewrite fmap_cons, Forall_cons. change (request_type (t :: b :: r)) with t.
  destruct prev as [p|]; simpl option_list; simpl app.
  - destruct (t <=? p) eqn:E; simpl negb; cbv iota.
    + split; [done|]. intros [_ Hs]. apply StronglySorted_inv in Hs as [_ Hp].
      apply Forall_cons in Hp as [Hp _]. lia.
    + rewrite IH. simpl. split.
      * intros [Hf Hs]. split_and!; [lia|done|]. constructor; [done|].
        apply StronglySorted_inv in Hs as [_ Ht]. constructor; [lia|].
        eapply Forall_impl; [done|]. intros t' Ht'. simpl in Ht'. lia.
      * intros [[_ Hf] Hs]. split; [done|]. by apply StronglySorted_inv in Hs as [? _].
  - rewrite IH. simpl. split.
    + intros [Hf Hs]. split_and!; [lia|done|done].
    + intros [[_ Hf] Hs]. done.
Qed.

(** [validate_execution_requests] accepts exactly the request lists of at
    most 64 requests that each carry a type byte and a payload, with strictly
    ascending types. *)
Theorem validate_execution_requests_spec (reqs : list bytes) :
  validate_execution_requests reqs = Ok tt ↔ requests_ok reqs.
Proof.
  unfold validate_execution_requests, requests_ok.
  destruct (MAX_EXECUTION_REQUESTS <? length reqs)%nat eqn:E.
  - apply Nat.ltb_lt in E. split; [done|lia].
  - apply Nat.ltb_ge in E. rewrite validate_requests_from_spec. simpl. tauto.
Qed.

(** On clock readings and block times far enough from the end of the
    64-bit range, a proposed timestamp is accepted exactly when it is later
    than the parent's, at most fifteen seconds ahead of the clock, and the
    proposal extends the block this node considers latest; the separate
    minimum-block-time check rejects nothing more. *)
Theorem validate_proposed_timestamp_spec (now ts : Z) (blk : ExecutionBlock) (parent : B256) :
  is_u64 now → is_u64 ts → is_u64 (eb_timestamp blk) →
  now + LOAD_MAX_FUTURE_DRIFT_SECS < 2^64 → eb_timestamp blk + LOAD_MIN_BLOCK_TIME_SECS < 2^64 →
  validate_proposed_timestamp (Some now) (Some blk) ts parent = Ok tt ↔
  eb_timestamp blk < ts ≤ now + LOAD_MAX_FUTURE_DRIFT_SECS ∧ parent = eb_block_hash blk.
Proof.
  unfold is_u64, validate_proposed_timestamp, LOAD_MAX_FUTURE_DRIFT_SECS, LOAD_MIN_BLOCK_TIME_SECS.
  intros Hn Hts Hb Hn' Hb'. rewrite !add64_small by lia.
  destruct (now + 15 <? ts) eqn:E1; [split; [done|lia]|].
  destruct (decide (parent = eb_block_hash blk)) as [Hp|Hp];
    [rewrite (bool_decide_eq_true_2 _ Hp)|rewrite (bool_decide_eq_false_2 _ Hp)];
    simpl negb; cbv iota; [|split; [done|tauto]].
  destruct (ts <=? eb_timestamp blk) eqn:E2; [split; [done|lia]|].
  destruct (ts <? eb_timestamp blk + 1) eqn:E3; [lia|].
  split; [intros _; split; [lia|done]|done].
Qed.

(** ** A concrete proposal *)

#[local] Existing Instance demo_crypto.
#[local] Existing Instance demo_crypto_laws.
#[local] Existing Instance demo_stream_api.
#[local] Existing Instance demo_stream_laws.

Definition demo_key : bytes := [1; 2; 3].
Definition demo_value : Value :=
  mkValue 77 (mkValueMetadata (zero_header 0) [] 0 0) [].
Definition demo_local : LocallyProposedValue := mkLocal 7 (RSome 0) demo_value.
Definition demo_vs : ValidatorSet :=
  mkValidatorSet [mkValidator (zeros 20) (ed25519_public demo_key) 10].
Definition demo_reqs : list bytes := [[0; 5]; [1; 6]].
Definition demo_sid : bytes := be_bytes 8 7 ++ be_bytes 4 0 ++ be_bytes 4 3.
Definition demo_messages : list StreamMessage :=
  stream_messages demo_sid (make_proposal_parts demo_key demo_local [4; 5; 6] None demo_reqs (zeros 20)).

Lemma streamed_proposal_recovered_witness :
  ∃ pp, outputs_of ([5], demo_sid)
          (feed ∅ ((λ m, ([5], m)) <$> reverse demo_messages)).2 =
          replicate (pred (length demo_messages)) None ++ [Some pp] ∧
        pp_height pp = 7 ∧ pp_round pp = RSome 0 ∧ pp_proposer pp = zeros 20 ∧
        proposal_recovered demo_crypto demo_vs pp [4; 5; 6] [] demo_reqs.
Proof.
  apply (streamed_proposal_recovered demo_crypto demo_crypto_laws demo_stream_api demo_stream_laws
    demo_key (zeros 20) 3 4 demo_local [4; 5; 6] None demo_reqs demo_messages demo_vs
    (mkValidator (zeros 20) (ed25519_public demo_key) 10) [5] demo_sid ∅).
  - reflexivity.
  - reflexivity.
  - vm_compute. reflexivity.
  - reflexivity.
  - reflexivity.
  - reflexivity.
  - rewrite filter_all by (apply Forall_fmap, Forall_reverse; apply Forall_forall;
      intros m Hm; apply stream_messages_elem in Hm as [Hm _];
      unfold compose, event_key; simpl; by rewrite Hm).
    rewrite snd_fmap_pair. apply reverse_Permutation.
Defined.

Lemma validate_proposed_timestamp_spec_witness :
  validate_proposed_timestamp (Some 1000) (Some (mkExecutionBlock B256_ZERO 5 B256_ZERO 999 B256_ZERO))
    1010 B256_ZERO = Ok tt ↔ 999 < 1010 ≤ 1000 + LOAD_MAX_FUTURE_DRIFT_SECS ∧ B256_ZERO = B256_ZERO.
Proof.
  apply (validate_proposed_timestamp_spec 1000 1010
    (mkExecutionBlock B256_ZERO 5 B256_ZERO 999 B256_ZERO) B256_ZERO);
    unfold is_u64, LOAD_MAX_FUTURE_DRIFT_SECS, LOAD_MIN_BLOCK_TIME_SECS; simpl; lia.
Defined.
