(* ===== verification/Metadata.v ===== *)
(** * Blob metadata ([crates/types/src/blob_metadata.rs]) and codecs

    The record kept forever for every height: the commitments of its blobs,
    their hashes, who archived each of them, and whether the blob bytes have
    been pruned.  Also the interface of the byte codecs that persist such
    records. *)
From S2P Require Import Prelude Types Merkle.
Open Scope outcome_scope.

(** ** Codecs

    What a client of a serialised type relies on: values of the domain
    [codec_wf] are encoded, and decoding gives them back.  Decoding foreign
    bytes may fail or panic. *)
Class Codec (A : Type) := {
  encode : A → outcome string bytes;
  decode : bytes → outcome string A;
  codec_wf : A → Prop }.

Class CodecLaws (A : Type) (K : Codec A) := {
  decode_encode : ∀ a, codec_wf a → ∃ b, encode a = Ok b ∧ decode b = Ok a }.

(** The wire format of a generated protobuf message ([prost]). *)
Class ProstMessage (A : Type) := {
  encode_to_vec : A → bytes;
  prost_decode : bytes → option A }.

Class ProstLaws (A : Type) (P : ProstMessage A) := {
  prost_decode_encode : ∀ m, prost_decode (encode_to_vec m) = Some m }.

(** A concrete codec for any countable type, for applying theorems about
    clients of a codec to concrete inputs. *)
Definition countable_codec (A : Type) `{Countable A} : Codec A := {|
  encode a := Ok [Z.pos (countable.encode a)];
  decode b := match b with
              | [Z.pos p] => ok_or (countable.decode p) "malformed"%string
              | _ => Err "malformed"%string
              end;
  codec_wf _ := True |}.

Lemma countable_codec_laws (A : Type) `{Countable A} : CodecLaws A (countable_codec A).
Proof.
  constructor. intros a _. eexists. split; [done|]. simpl. by rewrite countable.decode_encode.
Qed.

Definition countable_prost (A : Type) `{Countable A} : ProstMessage A := {|
  encode_to_vec a := [Z.pos (countable.encode a)];
  prost_decode b := match b with [Z.pos p] => countable.decode p | _ => None end |}.

Lemma countable_prost_laws (A : Type) `{Countable A} : ProstLaws A (countable_prost A).
Proof. constructor. intros m. simpl. by rewrite countable.decode_encode. Qed.

(** A codec for the values of a list: each is encoded as its position. *)
Definition table_codec {A} `{EqDecision A} (l : list A) : Codec A := {|
  encode a := match position (λ x, bool_decide (x = a)) l with
              | Some i => Ok [Z.of_nat i]
              | None => Err "unknown value"%string
              end;
  decode b := match b with
              | [i] => ok_or (l !! Z.to_nat i) "malformed"%string
              | _ => Err "malformed"%string
              end;
  codec_wf a := a ∈ l |}.

Lemma table_codec_laws {A} `{EqDecision A} (l : list A) : CodecLaws A (table_codec l).
Proof.
  constructor. intros a Ha. simpl.
  destruct (position (λ x, bool_decide (x = a)) l) as [i|] eqn:Hp.
  - destruct (position_Some_lookup _ _ _ Hp) as (x & Hx & Hxa%bool_decide_eq_true_1 & _). subst x.
    eexists. split; [done|]. cbv beta iota. by rewrite Nat2Z.id, Hx.
  - exfalso. apply position_None in Hp. unfold find_first in Hp.
    assert (a ∈ filter (λ x, bool_decide (x = a) = true) l) as Hin.
    { apply list_elem_of_filter. split; [by apply bool_decide_eq_true_2|done]. }
    destruct (filter _ l); [by apply elem_of_nil in Hin|done].
Qed.

(** ** The record *)

Record BlobMetadata := mkBlobMetadata {
  bm_height : Height;
  bm_parent_blob_root : B256;
  bm_blob_kzg_commitments : list KzgCommitment;
  bm_blob_count : Z;                                                    (* u16 *)
  bm_blob_keccak_hashes : list B256;
  bm_archival_records : list (option ArchiveRecord);
  bm_pruned : bool;
  bm_execution_payload_header : ExecutionPayloadHeader;
  bm_proposer_index_hint : option Z }.
#[export] Instance BlobMetadata_eq_dec : EqDecision BlobMetadata.
Proof. solve_decision. Defined.
#[export] Instance BlobMetadata_countable : Countable BlobMetadata.
Proof.
  refine (inj_countable'
    (λ m, (bm_height m, bm_parent_blob_root m, bm_blob_kzg_commitments m, bm_blob_count m,
           bm_blob_keccak_hashes m, bm_archival_records m, bm_pruned m,
           bm_execution_payload_header m, bm_proposer_index_hint m))
    (λ '(x0, x1, x2, x3, x4, x5, x6, x7, x8), mkBlobMetadata x0 x1 x2 x3 x4 x5 x6 x7 x8) _).
  by intros [].
Defined.

Definition BlobMetadata_new {E} (height : Height) (parent_blob_root : B256)
    (cs : list KzgCommitment) (hashes : list B256) (h : ExecutionPayloadHeader)
    (hint : option Z) : outcome E BlobMetadata :=
  match try_u16 (Z.of_nat (length cs)) with
  | None => Panic                                   (* expect("blob count exceeds u16::MAX") *)
  | Some n =>
    if negb (length cs =? length hashes)%nat then Panic                (* assert_eq! *)
    else Ok (mkBlobMetadata height parent_blob_root cs n hashes
               (replicate (Z.to_nat n) None) false h hint)
  end.

Definition BlobMetadata_blobless {E} (height : Height) (parent_blob_root : B256)
    (h : ExecutionPayloadHeader) (hint : option Z) : outcome E BlobMetadata :=
  BlobMetadata_new height parent_blob_root [] [] h hint.

Definition BlobMetadata_genesis {E} : outcome E BlobMetadata :=
  BlobMetadata_blobless 0 B256_ZERO (zero_header LOAD_EXECUTION_GAS_LIMIT) (Some 0).

Section beacon.
Context `{Crypto} `{MerkleTreeLib}.

Definition BlobMetadata_compute_body_root (m : BlobMetadata) : B256 :=
  compute_body_root
    (from_ultramarine_data (bm_blob_kzg_commitments m) (bm_execution_payload_header m)).

Definition to_beacon_header (m : BlobMetadata) : BeaconBlockHeader :=
  mkBeaconHeader (bm_height m) (default 0 (bm_proposer_index_hint m)) (bm_parent_blob_root m)
    (eh_state_root (bm_execution_payload_header m)) (BlobMetadata_compute_body_root m).

Definition compute_blob_root (m : BlobMetadata) : B256 := hash_tree_root (to_beacon_header m).
End beacon.

Definition has_blobs (m : BlobMetadata) : bool := 0 <? bm_blob_count m.

Definition update_keccak_hash (m : BlobMetadata) (index : nat) (hash : B256)
    : BlobMetadata * bool :=
  if (index <? length (bm_blob_keccak_hashes m))%nat
     && bool_decide (bm_blob_keccak_hashes m !! index = Some B256_ZERO)
  then (mkBlobMetadata (bm_height m) (bm_parent_blob_root m) (bm_blob_kzg_commitments m)
          (bm_blob_count m) (<[index := hash]> (bm_blob_keccak_hashes m))
          (bm_archival_records m) (bm_pruned m) (bm_execution_payload_header m)
          (bm_proposer_index_hint m), true)
  else (m, false).

Definition archival_status (m : BlobMetadata) (index : nat) : BlobArchivalStatus :=
  match bm_archival_records m !! index with
  | Some (Some r) => Archived r
  | _ => Pending
  end.

Definition archive_records (m : BlobMetadata) : list ArchiveRecord :=
  omap id (bm_archival_records m).

Definition with_archival_records (m : BlobMetadata) (rs : list (option ArchiveRecord))
    : BlobMetadata :=
  mkBlobMetadata (bm_height m) (bm_parent_blob_root m) (bm_blob_kzg_commitments m)
    (bm_blob_count m) (bm_blob_keccak_hashes m) rs (bm_pruned m)
    (bm_execution_payload_header m) (bm_proposer_index_hint m).

Definition set_archive_record {E} (m : BlobMetadata) (record : ArchiveRecord)
    : outcome E BlobMetadata :=
  let idx := Z.to_nat (an_blob_index (ar_body record)) in
  if (idx <? length (bm_archival_records m))%nat
  then Ok (with_archival_records m (<[idx := Some record]> (bm_archival_records m)))
  else Panic.                                                           (* assert! *)

Definition mark_pruned (m : BlobMetadata) : BlobMetadata :=
  mkBlobMetadata (bm_height m) (bm_parent_blob_root m) (bm_blob_kzg_commitments m)
    (bm_blob_count m) (bm_blob_keccak_hashes m) (bm_archival_records m) true
    (bm_execution_payload_header m) (bm_proposer_index_hint m).

(** ** The shape invariant

    One commitment, one hash and one archival slot per blob, and the record in
    slot [i] is a record of blob [i]. *)
Definition blob_metadata_wf (m : BlobMetadata) : Prop :=
  is_u16 (bm_blob_count m) ∧
  Z.of_nat (length (bm_blob_kzg_commitments m)) = bm_blob_count m ∧
  length (bm_blob_keccak_hashes m) = length (bm_blob_kzg_commitments m) ∧
  length (bm_archival_records m) = length (bm_blob_kzg_commitments m) ∧
  ∀ i r, bm_archival_records m !! i = Some (Some r) →
    an_blob_index (ar_body r) = Z.of_nat i.

Lemma BlobMetadata_new_wf {E} height root cs hashes h hint m :
  BlobMetadata_new (E:=E) height root cs hashes h hint = Ok m → blob_metadata_wf m.
Proof.
  unfold BlobMetadata_new. destruct (try_u16 _) as [n|] eqn:Hn; [|done].
  apply try_u16_Some in Hn as [-> Hn].
  destruct (negb _) eqn:Hl; [done|]. intros [= <-]. unfold blob_metadata_wf. simpl.
  rewrite length_replicate, Nat2Z.id. apply negb_false_iff, Nat.eqb_eq in Hl.
  split_and!; [done..|]. intros i r [=]%lookup_replicate_1%proj1.
Qed.

Lemma BlobMetadata_new_Ok {E} height root cs hashes h hint :
  Z.of_nat (length cs) < 2^16 → length hashes = length cs →
  ∃ m, BlobMetadata_new (E:=E) height root cs hashes h hint = Ok m ∧
       bm_blob_kzg_commitments m = cs ∧ bm_height m = height ∧ bm_parent_blob_root m = root ∧
       bm_execution_payload_header m = h ∧ bm_proposer_index_hint m = hint ∧
       bm_archival_records m = replicate (length cs) None ∧ bm_pruned m = false ∧
       bm_blob_keccak_hashes m = hashes.
Proof.
  intros Hc Hl. unfold BlobMetadata_new. rewrite try_u16_id by (unfold is_u16; lia).
  rewrite Hl, Nat.eqb_refl. simpl. eexists. split; [done|]. simpl. by rewrite Nat2Z.id.
Qed.

Lemma set_archive_record_wf {E} m r m' :
  0 ≤ an_blob_index (ar_body r) →
  set_archive_record (E:=E) m r = Ok m' → blob_metadata_wf m → blob_metadata_wf m'.
Proof.
  intros Hi. unfold set_archive_record. destruct (_ <? _)%nat eqn:E1; [|done].
  intros [= <-] (Hu & Hc & Hk & Ha & Hr). unfold blob_metadata_wf. simpl.
  rewrite length_insert. split_and!; [done..|]. intros i r' Hlook.
  destruct (decide (i = Z.to_nat (an_blob_index (ar_body r)))) as [->|Hne].
  - rewrite list_lookup_insert_eq in Hlook by (by apply Nat.ltb_lt). simplify_eq. lia.
  - rewrite list_lookup_insert_ne in Hlook by done. by apply Hr.
Qed.

Lemma set_archive_record_Ok {E} m r :
  blob_metadata_wf m → 0 ≤ an_blob_index (ar_body r) < bm_blob_count m →
  ∃ m', set_archive_record (E:=E) m r = Ok m'.
Proof.
  intros (Hu & Hc & Hk & Ha & Hr) Hi. unfold set_archive_record.
  rewrite (proj2 (Nat.ltb_lt _ _)) by lia. eauto.
Qed.

Lemma update_keccak_hash_wf m i h :
  blob_metadata_wf m → blob_metadata_wf (update_keccak_hash m i h).1.
Proof.
  intros Hwf. unfold update_keccak_hash. destruct (_ && _); [|done].
  unfold blob_metadata_wf in *. simpl. by rewrite length_insert.
Qed.

Lemma mark_pruned_wf m : blob_metadata_wf m → blob_metadata_wf (mark_pruned m).
Proof. done. Qed.

(** A blob root does not depend on hashes, archive records or pruning: it
    stays the same after a height is archived and pruned. *)
Lemma compute_blob_root_mark_pruned `{Crypto} `{MerkleTreeLib} m :
  compute_blob_root (mark_pruned m) = compute_blob_root m.
Proof. done. Qed.

Lemma compute_blob_root_set_archive_record `{Crypto} `{MerkleTreeLib} {E} m r m' :
  set_archive_record (E:=E) m r = Ok m' → compute_blob_root m' = compute_blob_root m.
Proof. unfold set_archive_record. destruct (_ <? _)%nat; [|done]. by intros [= <-]. Qed.

Lemma archival_status_set {E} m r m' j :
  set_archive_record (E:=E) m r = Ok m' →
  archival_status m' j =
    if decide (j = Z.to_nat (an_blob_index (ar_body r))) then Archived r else archival_status m j.
Proof.
  unfold set_archive_record, archival_status. destruct (_ <? _)%nat eqn:E1; [|done].
  intros [= <-]. simpl. case_decide as Hj.
  - subst j. rewrite list_lookup_insert_eq by (by apply Nat.ltb_lt). done.
  - by rewrite list_lookup_insert_ne.
Qed.
