(* ===== verification/BlobStore.v ===== *)
(** * The blob store ([crates/blob_engine/src/store])

    Blob sidecars live in two RocksDB column families: undecided ones under
    (height, round, index) keys, decided ones under (height, index) keys.  A
    column family is a finite map from key bytes to value bytes, iterated in
    ascending key order.  RocksDB calls can fail at any point: the state
    carries the list of their future outcomes. *)
From S2P Require Import Prelude Types Metadata.
Open Scope monad_scope.

(** ** Keys ([store/mod.rs]) *)

Record BlobKey := mkBlobKey { bk_height : Height; bk_round : Z; bk_index : Z }.
#[export] Instance BlobKey_eq_dec : EqDecision BlobKey.
Proof. solve_decision. Defined.

Definition to_undecided_key (k : BlobKey) : bytes :=
  be_bytes 8 (bk_height k) ++ be_bytes 8 (bk_round k) ++ be_bytes 2 (bk_index k).

Definition to_decided_key (k : BlobKey) : bytes :=
  be_bytes 8 (bk_height k) ++ be_bytes 2 (bk_index k).

Definition from_undecided_key (l : bytes) : option BlobKey :=
  if negb (length l =? 18)%nat then None
  else Some (mkBlobKey (of_be (take 8 l)) (to_i64 (of_be (take 8 (drop 8 l))))
               (of_be (take 2 (drop 16 l)))).

Definition from_decided_key (l : bytes) (round : Z) : option BlobKey :=
  if negb (length l =? 10)%nat then None
  else Some (mkBlobKey (of_be (take 8 l)) round (of_be (take 2 (drop 8 l)))).

Definition undecided_prefix (height : Height) (round : Z) : bytes :=
  be_bytes 8 height ++ be_bytes 8 round.

Definition decided_prefix (height : Height) : bytes := be_bytes 8 height.

(** ** Column families *)

Abbreviation ColumnFamily := (gmap (list Z) (list Z)) (only parsing).

(** Byte-wise lexicographic order, RocksDB's default comparator. *)
Fixpoint bytes_le (a b : bytes) : bool :=
  match a, b with
  | [], _ => true
  | _, [] => false
  | x :: a, y :: b => (x <? y) || ((x =? y) && bytes_le a b)
  end.

Definition entry_le (e1 e2 : bytes * bytes) : Prop := bytes_le e1.1 e2.1 = true.
#[export] Instance entry_le_dec : RelDecision entry_le := λ e1 e2, bool_eq_dec _ _.

(** [iterator_cf(Start)] *)
Definition cf_iterator (cf : ColumnFamily) : list (bytes * bytes) :=
  merge_sort entry_le (map_to_list cf).

(** [prefix_iterator_cf]: a seek to the first key not below the prefix. *)
Definition prefix_iterator (cf : ColumnFamily) (prefix : bytes) : list (bytes * bytes) :=
  drop_while (λ e, negb (bytes_le prefix e.1)) (cf_iterator cf).

(** The scan loops, which stop at the first key outside the prefix. *)
Definition scan_prefix (cf : ColumnFamily) (prefix : bytes) : list (bytes * bytes) :=
  take_while (λ e, starts_with e.1 prefix) (prefix_iterator cf prefix).

(** ** The database *)

Inductive BlobStoreError :=
| RocksDb
| Serialization (e : string)
| Deserialization (e : string)
| BlobTaskJoin.

Record BlobDb := mkBlobDb {
  cf_undecided : ColumnFamily;
  cf_decided : ColumnFamily;
  db_faults : list bool }.

Abbreviation DbM A := (M BlobDb BlobStoreError A) (only parsing).

Definition with_undecided (cf : ColumnFamily) (d : BlobDb) : BlobDb :=
  mkBlobDb cf (cf_decided d) (db_faults d).
Definition with_decided (cf : ColumnFamily) (d : BlobDb) : BlobDb :=
  mkBlobDb (cf_undecided d) cf (db_faults d).

(** One RocksDB call: it fails when the next outcome says so. *)
Definition db_call : DbM unit := λ d,
  match db_faults d with
  | true :: fs => (mkBlobDb (cf_undecided d) (cf_decided d) fs, Err RocksDb)
  | _ :: fs => (mkBlobDb (cf_undecided d) (cf_decided d) fs, Ok tt)
  | [] => (d, Ok tt)
  end.

Definition put_undecided (k v : bytes) : DbM unit :=
  db_call ;;; modify (λ d, with_undecided (<[k := v]> (cf_undecided d)) d).
Definition put_decided (k v : bytes) : DbM unit :=
  db_call ;;; modify (λ d, with_decided (<[k := v]> (cf_decided d)) d).
Definition delete_undecided (k : bytes) : DbM unit :=
  db_call ;;; modify (λ d, with_undecided (delete k (cf_undecided d)) d).
Definition delete_decided (k : bytes) : DbM unit :=
  db_call ;;; modify (λ d, with_decided (delete k (cf_decided d)) d).

(** [spawn_blocking(..).await]: a panic in the task is a join error. *)
Definition spawn_blocking {A} (c : DbM A) : DbM A := λ d,
  let (d', r) := c d in (d', match r with Panic => Err BlobTaskJoin | _ => r end).

Section blob_store.
Context `{KS : Codec BlobSidecar}.

Definition serialize_blob (s : BlobSidecar) : outcome BlobStoreError bytes :=
  omap_err Serialization (encode s).
Definition deserialize_blob (b : bytes) : outcome BlobStoreError BlobSidecar :=
  omap_err Deserialization (decode b).

Definition collect_undecided_entries (height : Height) (round : option Z)
    : DbM (list (bytes * bytes)) :=
  let prefix := be_bytes 8 height ++
                match round with Some r => be_bytes 8 r | None => [] end in
  db_call ;;;
  let* d := get in
  ret (scan_prefix (cf_undecided d) prefix).

Definition put_undecided_blobs (height : Height) (round : Z) (blobs : list BlobSidecar)
    : DbM Z :=
  spawn_blocking (
    foreach blobs (λ blob,
      let* value := lift (serialize_blob blob) in
      put_undecided (to_undecided_key (mkBlobKey height round (sc_index blob))) value) ;;;
    ret (Z.of_nat (length blobs))).

Definition read_blobs (entries : list (bytes * bytes)) : outcome BlobStoreError (list BlobSidecar) :=
  match omapM (λ e, deserialize_blob e.2) entries with
  | Ok blobs => Ok (sort_by_key sc_index blobs)
  | Err e => Err e
  | Panic => Panic
  end.

Definition get_undecided_blobs (height : Height) (round : Z) : DbM (list BlobSidecar) :=
  spawn_blocking (
    db_call ;;;
    let* d := get in
    lift (read_blobs (scan_prefix (cf_undecided d) (undecided_prefix height round)))).

(** The size counted for an entry; an undecodable one counts nothing. *)
Definition entry_size (value : bytes) : outcome BlobStoreError Z :=
  match deserialize_blob value with
  | Ok blob => Ok (Blob_size (sc_blob blob))
  | Err _ => Ok 0
  | Panic => Panic
  end.

Definition move_entry (acc : Z * Z) (e : bytes * bytes) : DbM (Z * Z) :=
  match from_undecided_key e.1 with
  | None => ret acc
  | Some key =>
    let* size := lift (entry_size e.2) in
    put_decided (to_decided_key key) e.2 ;;;
    delete_undecided e.1 ;;;
    ret (acc.1 + 1, acc.2 + size)
  end.

Definition mark_decided (height : Height) (round : Z) : DbM (Z * Z) :=
  spawn_blocking (
    let* items := collect_undecided_entries height (Some round) in
    let* items := match items with
                  | [] => collect_undecided_entries height None
                  | _ => ret items
                  end in
    foldM move_entry (0, 0) items).

Definition get_decided_blobs (height : Height) : DbM (list BlobSidecar) :=
  spawn_blocking (
    db_call ;;;
    let* d := get in
    lift (read_blobs (scan_prefix (cf_decided d) (decided_prefix height)))).

Definition drop_entry (total : Z) (e : bytes * bytes) : DbM Z :=
  let* size := lift (entry_size e.2) in
  delete_undecided e.1 ;;;
  ret (total + size).

Definition drop_round (height : Height) (round : Z) : DbM (Z * Z) :=
  spawn_blocking (
    db_call ;;;
    let* d := get in
    let items := scan_prefix (cf_undecided d) (undecided_prefix height round) in
    let* total := foldM drop_entry 0 items in
    ret (Z.of_nat (length items), total)).

Definition delete_archived (height : Height) (indices : list Z) : DbM unit :=
  spawn_blocking (
    foreach indices (λ i, delete_decided (to_decided_key (mkBlobKey height 0 i)))).

Definition prunable_key (height : Height) (k : bytes) : bool :=
  (8 <=? length k)%nat && (of_be (take 8 k) <? height).

Definition prune_before (height : Height) : DbM Z :=
  spawn_blocking (
    db_call ;;;
    let* d := get in
    let keys := filter (λ k, prunable_key height k = true) (cf_iterator (cf_decided d)).*1 in
    foreach keys delete_decided ;;;
    ret (Z.of_nat (length keys))).
End blob_store.

Arguments be_bytes : simpl never.

(** ** Keys: round trips and prefixes *)

Definition key_wf (k : BlobKey) : Prop :=
  is_u64 (bk_height k) ∧ is_i64 (bk_round k) ∧ is_u16 (bk_index k).

Lemma of_be_bytes_u64 z : is_u64 z → of_be (be_bytes 8 z) = z.
Proof. unfold is_u64. intros Hz. rewrite of_be_bytes. apply Z.mod_small. lia. Qed.
Lemma of_be_bytes_u16 z : is_u16 z → of_be (be_bytes 2 z) = z.
Proof. unfold is_u16. intros Hz. rewrite of_be_bytes. apply Z.mod_small. lia. Qed.
Lemma of_be_bytes_i64 z : is_i64 z → to_i64 (of_be (be_bytes 8 z)) = z.
Proof. intros Hz. rewrite of_be_bytes. by apply to_i64_mod. Qed.

Lemma be_bytes_i64_inj a b : is_i64 a → is_i64 b → be_bytes 8 a = be_bytes 8 b → a = b.
Proof. intros Ha Hb Heq. rewrite <-(of_be_bytes_i64 a Ha), <-(of_be_bytes_i64 b Hb). by rewrite Heq. Qed.

Lemma from_to_undecided_key k : key_wf k → from_undecided_key (to_undecided_key k) = Some k.
Proof.
  intros (Hh & Hr & Hi). unfold from_undecided_key, to_undecided_key.
  rewrite !length_app, !length_be_bytes. simpl negb. cbv iota.
  rewrite (take_app_length' (be_bytes 8 (bk_height k))) by (by rewrite length_be_bytes).
  rewrite (drop_app_length' (be_bytes 8 (bk_height k)) _ 8) by (by rewrite length_be_bytes).
  rewrite (take_app_length' (be_bytes 8 (bk_round k))) by (by rewrite length_be_bytes).
  change 16%nat with (8 + 8)%nat. rewrite <-drop_drop.
  rewrite (drop_app_length' (be_bytes 8 (bk_height k)) _ 8) by (by rewrite length_be_bytes).
  rewrite (drop_app_length' (be_bytes 8 (bk_round k)) _ 8) by (by rewrite length_be_bytes).
  rewrite take_ge by (by rewrite length_be_bytes).
  rewrite of_be_bytes_u64, of_be_bytes_i64, of_be_bytes_u16 by done. by destruct k.
Qed.

Lemma from_to_decided_key k r :
  key_wf k → from_decided_key (to_decided_key k) r = Some (mkBlobKey (bk_height k) r (bk_index k)).
Proof.
  intros (Hh & _ & Hi). unfold from_decided_key, to_decided_key.
  rewrite !length_app, !length_be_bytes. simpl negb. cbv iota.
  rewrite (take_app_length' (be_bytes 8 (bk_height k))) by (by rewrite length_be_bytes).
  rewrite (drop_app_length' (be_bytes 8 (bk_height k)) _ 8) by (by rewrite length_be_bytes).
  rewrite take_ge by (by rewrite length_be_bytes).
  by rewrite of_be_bytes_u64, of_be_bytes_u16.
Qed.

Lemma to_undecided_key_inj k1 k2 :
  key_wf k1 → key_wf k2 → to_undecided_key k1 = to_undecided_key k2 → k1 = k2.
Proof.
  intros H1 H2 Heq. apply (f_equal from_undecided_key) in Heq.
  rewrite !from_to_undecided_key in Heq by done. by injection Heq.
Qed.

Lemma starts_with_true l p : starts_with l p = true ↔ ∃ r, l = p ++ r.
Proof.
  unfold starts_with. rewrite bool_decide_eq_true. split.
  - intros Ht. exists (drop (length p) l). rewrite <-Ht at 1. by rewrite take_drop.
  - intros [r ->]. apply take_app_length.
Qed.

Lemma starts_with_app_eq p l p' : length p = length p' → starts_with (p ++ l) p' = bool_decide (p = p').
Proof.
  intros Hl. unfold starts_with. rewrite <-Hl, take_app_length. done.
Qed.

Lemma undecided_key_prefix k h r :
  key_wf k → is_u64 h → is_i64 r →
  starts_with (to_undecided_key k) (undecided_prefix h r) = true ↔ bk_height k = h ∧ bk_round k = r.
Proof.
  intros (Hh & Hr & _) Hh' Hr'. unfold to_undecided_key, undecided_prefix.
  rewrite app_assoc, starts_with_app_eq by (by rewrite !length_app, !length_be_bytes).
  rewrite bool_decide_eq_true. split; [|by intros [-> ->]].
  intros Heq. apply app_inj_length in Heq as [H1 H2]; [|by rewrite !length_be_bytes].
  split; [by apply be_bytes_inj in H1|by apply be_bytes_i64_inj].
Qed.

Lemma decided_key_prefix k h :
  key_wf k → is_u64 h →
  starts_with (to_decided_key k) (decided_prefix h) = true ↔ bk_height k = h.
Proof.
  intros (Hh & _ & _) Hh'. unfold to_decided_key, decided_prefix.
  rewrite starts_with_app_eq by (by rewrite !length_be_bytes).
  rewrite bool_decide_eq_true. split; [|by intros ->]. intros H1. by apply be_bytes_inj in H1.
Qed.

(** ** Prefix scans

    The loop from the seek position to the first key outside the prefix visits
    exactly the keys with that prefix. *)

Lemma bytes_le_refl a : bytes_le a a = true.
Proof. induction a as [|x a IH]; simpl; [done|]. rewrite Z.eqb_refl, IH. by rewrite orb_true_r. Qed.

Lemma bytes_le_trans a b c : bytes_le a b = true → bytes_le b c = true → bytes_le a c = true.
Proof.
  revert b c; induction a as [|x a IH]; intros [|y b] [|z c]; simpl; try done.
  intros [H1|[H1 H1']%andb_true_iff]%orb_true_iff [H2|[H2 H2']%andb_true_iff]%orb_true_iff;
    apply orb_true_iff; try (left; lia).
  right. apply andb_true_iff. split; [lia|by eapply IH].
Qed.

Lemma bytes_le_total a b : bytes_le a b = true ∨ bytes_le b a = true.
Proof.
  revert b; induction a as [|x a IH]; intros [|y b]; simpl; auto.
  destruct (Z.lt_trichotomy x y) as [H1|[->|H1]].
  - left. apply orb_true_iff. left. lia.
  - rewrite Z.eqb_refl. destruct (IH b) as [->| ->]; [left|right]; by rewrite orb_true_r.
  - right. apply orb_true_iff. left. lia.
Qed.

#[export] Instance entry_le_trans : Transitive entry_le.
Proof. intros e1 e2 e3. apply bytes_le_trans. Qed.
#[export] Instance entry_le_total : Total entry_le.
Proof. intros e1 e2. apply bytes_le_total. Qed.

Lemma starts_with_le l p : starts_with l p = true → bytes_le p l = true.
Proof.
  intros [r ->]%starts_with_true. induction p as [|x p IH]; simpl; [done|].
  rewrite Z.eqb_refl, IH. by rewrite orb_true_r.
Qed.

(** Past the keys with the prefix, no key has it. *)
Lemma starts_with_after p x y :
  bytes_le p x = true → starts_with x p = false → bytes_le x y = true → starts_with y p = false.
Proof.
  intros Hpx Hx Hxy. apply not_true_iff_false. intros [r ->]%starts_with_true.
  revert x Hpx Hx Hxy. induction p as [|a p IH]; intros x Hpx Hx Hxy.
  { pose proof (starts_with_app [] x) as Hsw. simpl in Hsw. by rewrite Hsw in Hx. }
  destruct x as [|b x]; [done|]. simpl in Hpx, Hxy.
  apply orb_true_iff in Hpx as [Hlt|[Heq Hpx]%andb_true_iff].
  - apply orb_true_iff in Hxy as [?|[? _]%andb_true_iff]; lia.
  - apply Z.eqb_eq in Heq as <-. apply orb_true_iff in Hxy as [?|[_ Hxy]%andb_true_iff]; [lia|].
    apply (IH x); [done| |done]. apply not_true_iff_false. intros [r' ->]%starts_with_true.
    pose proof (starts_with_app (a :: p) r') as Hsw. simpl in Hsw. by rewrite Hsw in Hx.
Qed.

Lemma take_while_prefix p l :
  StronglySorted entry_le l → Forall (λ e, bytes_le p e.1 = true) l →
  take_while (λ e, starts_with e.1 p) l = filter (λ e, starts_with e.1 p = true) l.
Proof.
  induction 1 as [|e l Hs IH He]; intros Hp; [done|]. simpl take_while.
  apply Forall_cons in Hp as [Hpe Hp]. rewrite filter_cons.
  destruct (starts_with e.1 p) eqn:Hsw; simpl.
  - f_equal. by apply IH.
  - symmetry. apply filter_none. eapply Forall_impl; [exact He|].
    intros e' Hle. simpl. by rewrite (starts_with_after p e.1 e'.1).
Qed.

Lemma drop_while_prefix p l :
  StronglySorted entry_le l →
  take_while (λ e, starts_with e.1 p) (drop_while (λ e, negb (bytes_le p e.1)) l) =
  filter (λ e, starts_with e.1 p = true) l.
Proof.
  induction 1 as [|e l Hs IH He]; [done|]. simpl drop_while.
  destruct (bytes_le p e.1) eqn:Hpe; simpl negb; cbv iota.
  - apply take_while_prefix; [by constructor|]. constructor; [done|].
    eapply Forall_impl; [exact He|]. intros e' Hle. by eapply bytes_le_trans.
  - rewrite IH, filter_cons, decide_False; [done|].
    intros Hc%starts_with_le. by rewrite Hc in Hpe.
Qed.

Lemma scan_prefix_filter cf p :
  scan_prefix cf p = filter (λ e, starts_with e.1 p = true) (cf_iterator cf).
Proof.
  unfold scan_prefix, prefix_iterator. apply drop_while_prefix.
  apply StronglySorted_merge_sort; apply _.
Qed.

Lemma map_to_list_filter (P : bytes * bytes → Prop) `{!∀ x, Decision (P x)} (cf : ColumnFamily) :
  map_to_list (filter P cf) ≡ₚ filter P (map_to_list cf).
Proof.
  rewrite map_filter_alt. apply map_to_list_to_map.
  eapply (NoDup_submseteq_fmap fst); [|apply NoDup_fst_map_to_list].
  apply sublist_submseteq, sublist_filter.
Qed.

Lemma scan_prefix_Permutation cf p :
  scan_prefix cf p ≡ₚ map_to_list (filter (λ e, starts_with e.1 p = true) cf).
Proof.
  rewrite scan_prefix_filter. unfold cf_iterator. rewrite merge_sort_Permutation.
  by rewrite map_to_list_filter.
Qed.

Lemma elem_of_scan_prefix cf p k v :
  (k, v) ∈ scan_prefix cf p ↔ cf !! k = Some v ∧ starts_with k p = true.
Proof.
  rewrite scan_prefix_Permutation, elem_of_map_to_list, map_lookup_filter_Some. done.
Qed.

Lemma scan_prefix_empty cf p :
  scan_prefix cf p = [] ↔ ∀ k v, cf !! k = Some v → starts_with k p = false.
Proof.
  split.
  - intros Hnil k v Hk. apply not_true_iff_false. intros Hsw.
    assert ((k, v) ∈ scan_prefix cf p) as Hin by by apply elem_of_scan_prefix.
    rewrite Hnil in Hin. by apply elem_of_nil in Hin.
  - intros Hno. destruct (scan_prefix cf p) as [|[k v] l] eqn:Hs; [done|].
    assert ((k, v) ∈ scan_prefix cf p) as Hin by (rewrite Hs; left).
    apply elem_of_scan_prefix in Hin as [Hk Hsw]. by rewrite (Hno k v Hk) in Hsw.
Qed.

(** ** What each operation may touch, whatever fails *)

Lemma steps_spawn_blocking {A} (R : BlobDb → BlobDb → Prop) (c : DbM A) :
  steps R c → steps R (spawn_blocking c).
Proof. intros Hc d. specialize (Hc d). unfold spawn_blocking. by destruct (c d). Qed.
#[export] Hint Resolve steps_spawn_blocking : steps.

(** The decided column family is left alone. *)
Definition same_decided (d d' : BlobDb) : Prop := cf_decided d' = cf_decided d.
#[export] Instance same_decided_preorder : PreOrder same_decided.
Proof. unfold same_decided. split; repeat intro; congruence. Qed.

Definition same_undecided (d d' : BlobDb) : Prop := cf_undecided d' = cf_undecided d.
#[export] Instance same_undecided_preorder : PreOrder same_undecided.
Proof. unfold same_undecided. split; repeat intro; congruence. Qed.

(** Undecided (decided) keys outside [P] keep their value; inside they may only
    disappear. *)
Definition undecided_shrinks (P : bytes → Prop) (d d' : BlobDb) : Prop :=
  ∀ k, cf_undecided d' !! k = cf_undecided d !! k ∨ (P k ∧ cf_undecided d' !! k = None).
Definition decided_shrinks (P : bytes → Prop) (d d' : BlobDb) : Prop :=
  ∀ k, cf_decided d' !! k = cf_decided d !! k ∨ (P k ∧ cf_decided d' !! k = None).

#[export] Instance undecided_shrinks_preorder P : PreOrder (undecided_shrinks P).
Proof.
  split; [by left|]. intros d1 d2 d3 H12 H23 k.
  destruct (H12 k) as [E12|[? E12]], (H23 k) as [E23|[? E23]]; rewrite E23, ?E12; auto.
Qed.
#[export] Instance decided_shrinks_preorder P : PreOrder (decided_shrinks P).
Proof.
  split; [by left|]. intros d1 d2 d3 H12 H23 k.
  destruct (H12 k) as [E12|[? E12]], (H23 k) as [E23|[? E23]]; rewrite E23, ?E12; auto.
Qed.

Lemma steps_db_call (R : BlobDb → BlobDb → Prop) :
  (∀ d fs, R d (mkBlobDb (cf_undecided d) (cf_decided d) fs)) → steps R db_call.
Proof.
  intros HR d. unfold db_call. destruct (db_faults d) as [|[] fs] eqn:Hf; simpl; try apply HR.
  specialize (HR d []). by rewrite <-Hf in HR; destruct d.
Qed.

Lemma steps_db_call_modify (R : BlobDb → BlobDb → Prop) `{!PreOrder R} f :
  (∀ d fs, R d (mkBlobDb (cf_undecided d) (cf_decided d) fs)) → (∀ d, R d (f d)) →
  steps R (db_call ;;; modify f).
Proof.
  intros H1 H2. apply steps_bind; [done|by apply steps_db_call|]. intros _. by apply steps_modify.
Qed.

Lemma delete_decided_shrinks P k : P k → steps (decided_shrinks P) (delete_decided k).
Proof.
  intros HP. apply steps_db_call_modify; [apply _|by left|]. intros d k'. simpl.
  destruct (decide (k' = k)) as [->|]; [right; by rewrite lookup_delete_eq|left].
  by rewrite lookup_delete_ne.
Qed.

Lemma delete_undecided_shrinks P k : P k → steps (undecided_shrinks P) (delete_undecided k).
Proof.
  intros HP. apply steps_db_call_modify; [apply _|by left|]. intros d k'. simpl.
  destruct (decide (k' = k)) as [->|]; [right; by rewrite lookup_delete_eq|left].
  by rewrite lookup_delete_ne.
Qed.

Lemma put_undecided_same_decided k v : steps same_decided (put_undecided k v).
Proof. by apply steps_db_call_modify; [apply _|..]. Qed.
Lemma delete_undecided_same_decided k : steps same_decided (delete_undecided k).
Proof. by apply steps_db_call_modify; [apply _|..]. Qed.
Lemma delete_decided_same_undecided k : steps same_undecided (delete_decided k).
Proof. by apply steps_db_call_modify; [apply _|..]. Qed.
Lemma db_call_same_decided : steps same_decided db_call.
Proof. by apply steps_db_call. Qed.
Lemma db_call_same_undecided : steps same_undecided db_call.
Proof. by apply steps_db_call. Qed.
Lemma db_call_decided_shrinks P : steps (decided_shrinks P) db_call.
Proof. apply steps_db_call. by left. Qed.
Lemma db_call_undecided_shrinks P : steps (undecided_shrinks P) db_call.
Proof. apply steps_db_call. by left. Qed.
#[export] Hint Resolve put_undecided_same_decided delete_undecided_same_decided
  delete_decided_same_undecided db_call_same_decided db_call_same_undecided
  db_call_decided_shrinks db_call_undecided_shrinks : steps.

Section frames.
Context `{KS : Codec BlobSidecar}.

Lemma put_undecided_blobs_same_decided h r bs : steps same_decided (put_undecided_blobs h r bs).
Proof. unfold put_undecided_blobs. apply steps_spawn_blocking. steps_tac. Qed.

Lemma get_undecided_blobs_same_decided h r : steps same_decided (get_undecided_blobs h r).
Proof. unfold get_undecided_blobs. apply steps_spawn_blocking. steps_tac. Qed.
Lemma get_undecided_blobs_same_undecided h r : steps same_undecided (get_undecided_blobs h r).
Proof. unfold get_undecided_blobs. apply steps_spawn_blocking. steps_tac. Qed.
Lemma get_decided_blobs_same_decided h : steps same_decided (get_decided_blobs h).
Proof. unfold get_decided_blobs. apply steps_spawn_blocking. steps_tac. Qed.
Lemma get_decided_blobs_same_undecided h : steps same_undecided (get_decided_blobs h).
Proof. unfold get_decided_blobs. apply steps_spawn_blocking. steps_tac. Qed.

Lemma drop_round_same_decided h r : steps same_decided (drop_round h r).
Proof. unfold drop_round, drop_entry. apply steps_spawn_blocking. steps_tac. Qed.

Lemma drop_round_shrinks h r :
  steps (undecided_shrinks (λ k, starts_with k (undecided_prefix h r) = true)) (drop_round h r).
Proof.
  unfold drop_round. apply steps_spawn_blocking. apply steps_bind; [apply _|auto with steps|].
  intros _. apply steps_bind; [apply _|apply steps_get, _|]. intros d.
  apply steps_bind; [apply _| |intros; apply steps_ret, _]. apply steps_foldM; [apply _|].
  intros total [k v] Hin. apply elem_of_scan_prefix in Hin as [_ Hsw]. unfold drop_entry.
  apply steps_bind; [apply _|apply steps_lift, _|]. intros ?.
  apply steps_bind; [apply _| |intros; apply steps_ret, _]. by apply delete_undecided_shrinks.
Qed.

Lemma delete_archived_shrinks h idxs :
  steps (decided_shrinks (λ k, ∃ i, i ∈ idxs ∧ k = to_decided_key (mkBlobKey h 0 i)))
    (delete_archived h idxs).
Proof.
  unfold delete_archived. apply steps_spawn_blocking, steps_foreach; [apply _|].
  intros i Hi. apply delete_decided_shrinks. eauto.
Qed.

Lemma delete_archived_same_undecided h idxs : steps same_undecided (delete_archived h idxs).
Proof. unfold delete_archived. apply steps_spawn_blocking. steps_tac. Qed.

Lemma prune_before_same_undecided h : steps same_undecided (prune_before h).
Proof. unfold prune_before. apply steps_spawn_blocking. steps_tac. Qed.

Lemma prune_before_shrinks h :
  steps (decided_shrinks (λ k, prunable_key h k = true)) (prune_before h).
Proof.
  unfold prune_before. apply steps_spawn_blocking. apply steps_bind; [apply _|auto with steps|].
  intros _. apply steps_bind; [apply _|apply steps_get, _|]. intros d.
  apply steps_bind; [apply _| |intros; apply steps_ret, _]. apply steps_foreach; [apply _|].
  intros k [Hk _]%list_elem_of_filter. by apply delete_decided_shrinks.
Qed.
End frames.

(** ** Functional behaviour when RocksDB answers *)

Definition insert_all (kvs : list (bytes * bytes)) (cf : ColumnFamily) : ColumnFamily :=
  foldl (λ cf kv, <[kv.1 := kv.2]> cf) cf kvs.
Definition delete_all (ks : list bytes) (cf : ColumnFamily) : ColumnFamily :=
  foldl (λ cf k, delete k cf) cf ks.

Lemma insert_all_lookup_ne kvs cf k : k ∉ kvs.*1 → insert_all kvs cf !! k = cf !! k.
Proof.
  revert cf; induction kvs as [|[k' v] kvs IH]; intros cf Hk; [done|].
  rewrite fmap_cons, not_elem_of_cons in Hk. destruct Hk as [Hne Hk].
  simpl. rewrite IH by done. by rewrite lookup_insert_ne.
Qed.

Lemma insert_all_lookup kvs cf k v :
  NoDup kvs.*1 → (k, v) ∈ kvs → insert_all kvs cf !! k = Some v.
Proof.
  revert cf; induction kvs as [|[k' v'] kvs IH]; intros cf Hnd Hin; [by apply elem_of_nil in Hin|].
  rewrite fmap_cons, NoDup_cons in Hnd. destruct Hnd as [Hk' Hnd].
  apply elem_of_cons in Hin as [[= <- <-]|Hin]; simpl; [|by apply IH].
  rewrite insert_all_lookup_ne by done. apply lookup_insert_eq.
Qed.

Lemma delete_all_lookup ks cf k :
  delete_all ks cf !! k = if decide (k ∈ ks) then None else cf !! k.
Proof.
  revert cf; induction ks as [|k' ks IH]; intros cf; [done|]. simpl. rewrite IH.
  destruct (decide (k = k')) as [->|Hne].
  - rewrite lookup_delete_eq, (decide_True (P := k' ∈ k' :: ks)) by left. by case_decide.
  - rewrite lookup_delete_ne by done. apply decide_ext. rewrite elem_of_cons. tauto.
Qed.

(** Writing entries that share a prefix no key has yet makes the prefix scan
    list exactly them. *)
Lemma scan_insert_all kvs cf p :
  NoDup kvs.*1 → Forall (λ kv, starts_with kv.1 p = true) kvs → scan_prefix cf p = [] →
  scan_prefix (insert_all kvs cf) p ≡ₚ kvs.
Proof.
  intros Hnd Hp Hcf. apply NoDup_Permutation.
  - rewrite scan_prefix_Permutation. apply NoDup_map_to_list.
  - by eapply NoDup_fmap_1.
  - intros [k v]. rewrite elem_of_scan_prefix. split.
    + intros [Hk Hsw]. destruct (decide (k ∈ kvs.*1)) as [Hin|Hnin].
      * apply list_elem_of_fmap in Hin as ([k' v'] & -> & Hin).
        rewrite (insert_all_lookup _ _ k' v') in Hk by done. by simplify_eq.
      * rewrite insert_all_lookup_ne in Hk by done. exfalso.
        rewrite scan_prefix_empty in Hcf. by rewrite (Hcf k v Hk) in Hsw.
    + intros Hin. split; [by apply insert_all_lookup|]. rewrite Forall_forall in Hp.
      apply (Hp _ Hin).
Qed.

Lemma db_call_ok d : db_faults d = [] → db_call d = (d, Ok tt).
Proof. intros Hd. unfold db_call. by rewrite Hd. Qed.

Section behaviour.
Context `{KS : Codec BlobSidecar}.

Lemma read_blobs_Permutation l kvs bs :
  l ≡ₚ kvs → omapM (λ e, deserialize_blob e.2) kvs = Ok bs → NoDup (sc_index <$> bs) →
  read_blobs l = Ok (sort_by_key sc_index bs).
Proof.
  intros Hp Ho Hnd. destruct (omapM_Permutation _ _ _ _ Hp Ho) as (bs' & Ho' & Hp').
  unfold read_blobs. rewrite Ho'. f_equal. apply sort_by_key_Permutation_eq; [|done].
  by rewrite Hp'.
Qed.

(** The entries a list of sidecars is written as. *)
Definition undecided_entries (h : Height) (r : Z) (bs : list BlobSidecar) (vs : list bytes)
    : list (bytes * bytes) :=
  zip_with (λ s v, (to_undecided_key (mkBlobKey h r (sc_index s)), v)) bs vs.
Definition decided_entries (h : Height) (bs : list BlobSidecar) (vs : list bytes)
    : list (bytes * bytes) :=
  zip_with (λ s v, (to_decided_key (mkBlobKey h 0 (sc_index s)), v)) bs vs.

Lemma put_undecided_blobs_ok d h r bs vs :
  db_faults d = [] → omapM encode bs = Ok vs →
  put_undecided_blobs h r bs d =
    (with_undecided (insert_all (undecided_entries h r bs vs) (cf_undecided d)) d,
     Ok (Z.of_nat (length bs))).
Proof.
  intros Hd Hvs. apply omapM_Ok_iff in Hvs. unfold put_undecided_blobs, spawn_blocking.
  assert (∀ d, db_faults d = [] →
    foreach bs (λ blob,
      let* value := lift (serialize_blob blob) in
      put_undecided (to_undecided_key (mkBlobKey h r (sc_index blob))) value) d =
    (with_undecided (insert_all (undecided_entries h r bs vs) (cf_undecided d)) d, Ok tt)) as Hloop.
  { clear d Hd. induction Hvs as [|s v bs vs Hs _ IH]; intros d Hd; [by destruct d|].
    cbn [foreach]. unfold bind at 1 2. unfold lift, serialize_blob. rewrite Hs.
    cbn [omap_err]. unfold put_undecided, bind. rewrite db_call_ok by done.
    unfold modify. rewrite IH by done. done. }
  unfold bind. rewrite Hloop by done. done.
Qed.

Section entries.
Context (h : Height) (r : Z) (bs : list BlobSidecar) (vs : list bytes).
Context (Hh : is_u64 h) (Hr : is_i64 r) (Hix : Forall (λ s, is_u16 (sc_index s)) bs).
Context (Hnd : NoDup (sc_index <$> bs)) (Hlen : length vs = length bs).

Lemma undecided_entries_keys :
  (undecided_entries h r bs vs).*1 = (λ i, to_undecided_key (mkBlobKey h r i)) <$> (sc_index <$> bs).
Proof using Hlen.
  unfold undecided_entries. clear Hnd Hix. revert vs Hlen.
  induction bs as [|s l IH]; intros [|v vs'] Hl; try done; simpl in *. f_equal. apply IH. lia.
Qed.

Lemma decided_entries_keys :
  (decided_entries h bs vs).*1 = (λ i, to_decided_key (mkBlobKey h 0 i)) <$> (sc_index <$> bs).
Proof using Hlen.
  unfold decided_entries. clear Hnd Hix. revert vs Hlen.
  induction bs as [|s l IH]; intros [|v vs'] Hl; try done; simpl in *. f_equal. apply IH. lia.
Qed.

Lemma undecided_entries_NoDup : NoDup (undecided_entries h r bs vs).*1.
Proof using Hlen Hnd Hh Hr Hix.
  rewrite undecided_entries_keys. apply NoDup_fmap_2_strong; [|done].
  intros i j (s & -> & Hs)%list_elem_of_fmap (s' & -> & Hs')%list_elem_of_fmap Heq.
  rewrite Forall_forall in Hix. apply to_undecided_key_inj in Heq; [by injection Heq|..];
    split_and!; simpl; auto.
Qed.

Lemma decided_entries_NoDup : NoDup (decided_entries h bs vs).*1.
Proof using Hlen Hnd Hh Hix.
  rewrite decided_entries_keys. apply NoDup_fmap_2_strong; [|done].
  intros i j (s & -> & Hs)%list_elem_of_fmap (s' & -> & Hs')%list_elem_of_fmap Heq.
  rewrite Forall_forall in Hix. apply (f_equal (λ k, from_decided_key k 0)) in Heq.
  assert (is_i64 0) by (unfold is_i64; lia).
  rewrite !from_to_decided_key in Heq by (split_and!; simpl; auto). by injection Heq.
Qed.

Lemma undecided_entries_prefix :
  Forall (λ kv, starts_with kv.1 (undecided_prefix h r) = true) (undecided_entries h r bs vs).
Proof.
  unfold undecided_entries. clear Hnd Hix Hlen. revert vs.
  induction bs as [|s l IH]; intros [|v vs']; simpl; constructor; [|apply IH].
  cbn [fst]. unfold to_undecided_key, undecided_prefix. cbn [bk_height bk_round bk_index].
  rewrite app_assoc. apply starts_with_app.
Qed.

Lemma decided_entries_prefix :
  Forall (λ kv, starts_with kv.1 (decided_prefix h) = true) (decided_entries h bs vs).
Proof.
  unfold decided_entries. clear Hnd Hix Hlen. revert vs.
  induction bs as [|s l IH]; intros [|v vs']; simpl; constructor; [|apply IH].
  apply starts_with_app.
Qed.
End entries.
End behaviour.

(** ** Promotion *)

(** The decided key an undecided entry moves to. *)
Definition promoted_key (k : bytes) : bytes :=
  match from_undecided_key k with Some key => to_decided_key key | None => k end.
Definition promote_entry (e : bytes * bytes) : bytes * bytes := (promoted_key e.1, e.2).

Section promotion.
Context `{KS : Codec BlobSidecar}.

Lemma db_call_content d :
  cf_undecided (db_call d).1 = cf_undecided d ∧ cf_decided (db_call d).1 = cf_decided d.
Proof. unfold db_call. by destruct (db_faults d) as [|[] ?]. Qed.

(** Moving one entry either has not touched it yet or has moved it; a failure
    between the two writes leaves it in both families. *)
Lemma move_entry_cases acc e d :
  let d' := (move_entry acc e d).1 in
  (cf_undecided d' = cf_undecided d ∧
     (cf_decided d' = cf_decided d ∨
      cf_decided d' = <[promoted_key e.1 := e.2]> (cf_decided d))) ∨
  (cf_undecided d' = delete e.1 (cf_undecided d) ∧
   cf_decided d' = <[promoted_key e.1 := e.2]> (cf_decided d)).
Proof.
  unfold move_entry, promoted_key. destruct (from_undecided_key e.1) as [k|]; [|by auto].
  unfold put_decided, delete_undecided, bind, lift, modify, ret.
  destruct (entry_size e.2) as [size| |]; cbn [fst]; [|by auto..].
  destruct (db_call_content d) as [Hu Hd].
  destruct (db_call d) as [d1 [[]| |]]; cbn [fst] in *; [|by auto..].
  set (d2 := with_decided _ d1). destruct (db_call_content d2) as [Hu2 Hd2].
  destruct (db_call d2) as [d3 [[]| |]]; cbn [fst with_undecided cf_undecided cf_decided] in *;
    rewrite Hu2, Hd2; unfold d2; cbn [with_decided cf_undecided cf_decided]; rewrite Hu, Hd; auto.
Qed.

Lemma move_entries_frame l : ∀ acc d,
  let d' := (foldM move_entry acc l d).1 in
  (∀ k, k ∉ l.*1 → cf_undecided d' !! k = cf_undecided d !! k) ∧
  (∀ k, k ∉ promoted_key <$> l.*1 → cf_decided d' !! k = cf_decided d !! k).
Proof.
  induction l as [|e l IH]; intros acc d; [done|]. cbn [foldM]. unfold bind.
  pose proof (move_entry_cases acc e d) as Hc. destruct (move_entry acc e d) as [d1 o].
  cbn [fst] in Hc.
  assert ((∀ k, k ≠ e.1 → cf_undecided d1 !! k = cf_undecided d !! k) ∧
          (∀ k, k ≠ promoted_key e.1 → cf_decided d1 !! k = cf_decided d !! k)) as [Hu Hd].
  { destruct Hc as [[-> [-> | ->]]|[-> ->]]; split; intros; try done;
      by rewrite ?lookup_insert_ne, ?lookup_delete_ne. }
  destruct o as [acc'| |]; cbn [fst].
  - destruct (IH acc' d1) as [IHu IHd]. split; intros k Hk;
      rewrite ?fmap_cons, not_elem_of_cons in Hk; destruct Hk; [rewrite IHu|rewrite IHd]; auto.
  - split; intros k Hk; rewrite ?fmap_cons, not_elem_of_cons in Hk; destruct Hk; auto.
  - split; intros k Hk; rewrite ?fmap_cons, not_elem_of_cons in Hk; destruct Hk; auto.
Qed.

(** A decided blob stays, or one of the moved blobs has taken its place. *)
Lemma move_entries_decided l : ∀ acc d k v, cf_decided d !! k = Some v →
  let d' := (foldM move_entry acc l d).1 in
  cf_decided d' !! k = Some v ∨ ∃ e, e ∈ l ∧ k = promoted_key e.1 ∧ cf_decided d' !! k = Some e.2.
Proof.
  induction l as [|e l IH]; intros acc d k v Hk; [by left|]. cbn [foldM]. unfold bind.
  pose proof (move_entry_cases acc e d) as Hc. destruct (move_entry acc e d) as [d1 o]. cbn [fst] in Hc.
  assert (cf_decided d1 !! k = Some v ∨ k = promoted_key e.1 ∧ cf_decided d1 !! k = Some e.2) as Hd.
  { destruct (decide (k = promoted_key e.1)) as [->|Hne]; destruct Hc as [[_ [-> | ->]]|[_ ->]];
      rewrite ?lookup_insert_eq, ?lookup_insert_ne by done; auto. }
  assert (∀ d', cf_decided d' !! k = cf_decided d1 !! k → cf_decided d' !! k = Some v ∨
    ∃ e', e' ∈ e :: l ∧ k = promoted_key e'.1 ∧ cf_decided d' !! k = Some e'.2) as Hend.
  { intros d' ->. destruct Hd as [?|[? ?]]; [by left|right]. exists e. split_and!; [left|done..]. }
  destruct o as [acc'| |]; cbn [fst]; [|by apply Hend..].
  destruct Hd as [Hd|[-> Hd]]; destruct (IH acc' d1 _ _ Hd) as [H1|(e' & Hin & H1 & H2)]; [by left| | |].
  - right. exists e'. split_and!; [by right|done..].
  - right. exists e. split_and!; [left|done..].
  - right. exists e'. split_and!; [by right|done..].
Qed.

Lemma move_entries_safe l : ∀ acc d,
  NoDup l.*1 → NoDup (promoted_key <$> l.*1) →
  Forall (λ e, cf_undecided d !! e.1 = Some e.2) l →
  let d' := (foldM move_entry acc l d).1 in
  Forall (λ e, cf_undecided d' !! e.1 = Some e.2 ∨
               cf_decided d' !! promoted_key e.1 = Some e.2) l.
Proof.
  induction l as [|e l IH]; intros acc d Hn1 Hn2 Hin; [constructor|].
  rewrite !fmap_cons, NoDup_cons in *. destruct Hn1 as [Hne1 Hn1], Hn2 as [Hne2 Hn2].
  apply Forall_cons in Hin as [He Hl]. cbn [foldM]. unfold bind.
  pose proof (move_entry_cases acc e d) as Hc. destruct (move_entry acc e d) as [d1 o].
  cbn [fst] in Hc.
  assert (Forall (λ e, cf_undecided d1 !! e.1 = Some e.2) l) as Hl1.
  { rewrite Forall_forall in Hl |- *. intros e' He'.
    assert (e'.1 ≠ e.1) by (intros Heq; apply Hne1; rewrite <-Heq; by apply list_elem_of_fmap_2).
    destruct Hc as [[-> _]|[-> _]]; [|rewrite lookup_delete_ne by done]; by apply Hl. }
  assert (cf_undecided d1 !! e.1 = Some e.2 ∨ cf_decided d1 !! promoted_key e.1 = Some e.2) as He1.
  { destruct Hc as [[-> _]|[_ ->]]; [by left|right]. apply lookup_insert_eq. }
  destruct o as [acc'| |]; cbn [fst].
  - constructor; [|by apply IH]. destruct (move_entries_frame l acc' d1) as [Hu Hd].
    rewrite Hu, Hd by done. done.
  - constructor; [done|]. eapply Forall_impl; [exact Hl1|]. auto.
  - constructor; [done|]. eapply Forall_impl; [exact Hl1|]. auto.
Qed.

(** Without failures every entry moves. *)
Lemma move_entries_ok l : ∀ acc d,
  db_faults d = [] → Forall (λ e, is_Some (from_undecided_key e.1)) l →
  Forall (λ e, ∃ s, deserialize_blob e.2 = Ok s) l →
  foldM move_entry acc l d =
    (mkBlobDb (delete_all l.*1 (cf_undecided d)) (insert_all (promote_entry <$> l) (cf_decided d)) [],
     Ok (acc.1 + Z.of_nat (length l), acc.2 + Z.of_nat (length l) * BYTES_PER_BLOB)).
Proof.
  induction l as [|e l IH]; intros [n b] d Hd Hk Hs.
  { destruct d; simpl in *; subst. cbn [foldM]. unfold ret. do 3 f_equal; lia. }
  apply Forall_cons in Hk as [[k Hk] Hkl]. apply Forall_cons in Hs as [[s Hs] Hsl].
  cbn [foldM]. unfold bind at 1. unfold move_entry at 1. rewrite Hk. unfold entry_size. rewrite Hs.
  unfold bind at 1, lift. unfold bind at 1, put_decided. unfold bind at 1. rewrite db_call_ok by done.
  unfold modify. unfold bind at 1, delete_undecided. unfold bind at 1.
  rewrite db_call_ok by done. unfold modify, ret. rewrite IH by done.
  rewrite !fmap_cons.
  assert (promote_entry e = (to_decided_key k, e.2)) as ->
    by (unfold promote_entry, promoted_key; by rewrite Hk).
  cbn [delete_all insert_all foldl].
  cbn [fst snd length cf_undecided cf_decided with_decided with_undecided].
  do 3 f_equal; unfold Blob_size; lia.
Qed.
End promotion.

(** Every undecided key was written for some well-formed (height, round,
    index). *)
Definition undecided_keys_wf (d : BlobDb) : Prop :=
  ∀ k v, cf_undecided d !! k = Some v → ∃ key, key_wf key ∧ k = to_undecided_key key.

Section promotion_safety.
Context `{KS : Codec BlobSidecar}.

Lemma scan_round_shape d h r :
  undecided_keys_wf d → is_u64 h → is_i64 r →
  Forall (λ e, cf_undecided d !! e.1 = Some e.2 ∧
               ∃ i, is_u16 i ∧ e.1 = to_undecided_key (mkBlobKey h r i))
    (scan_prefix (cf_undecided d) (undecided_prefix h r)).
Proof.
  intros Hwf Hh Hr. apply Forall_forall. intros [k v] [Hk Hsw]%elem_of_scan_prefix.
  split; [done|]. destruct (Hwf k v Hk) as ([h' r' i] & Hkey & ->).
  apply undecided_key_prefix in Hsw as [Hh' Hr']; [|done..]. simpl in *. subst.
  exists i. split; [|done]. by destruct Hkey as (_ & _ & ?).
Qed.

Lemma scan_round_NoDup d h r :
  undecided_keys_wf d → is_u64 h → is_i64 r →
  let l := scan_prefix (cf_undecided d) (undecided_prefix h r) in
  NoDup l.*1 ∧ NoDup (promoted_key <$> l.*1).
Proof.
  intros Hwf Hh Hr l. assert (NoDup l.*1) as Hnd.
  { unfold l. rewrite scan_prefix_Permutation. apply NoDup_fst_map_to_list. }
  split; [done|]. apply NoDup_fmap_2_strong; [|done].
  pose proof (scan_round_shape d h r Hwf Hh Hr) as Hsh. rewrite Forall_forall in Hsh.
  intros k1 k2 (e1 & -> & He1)%list_elem_of_fmap (e2 & -> & He2)%list_elem_of_fmap.
  destruct (Hsh _ He1) as (_ & i1 & Hi1 & ->), (Hsh _ He2) as (_ & i2 & Hi2 & ->).
  unfold promoted_key. rewrite !from_to_undecided_key by done.
  intros Heq. apply (f_equal (λ k, from_decided_key k 0)) in Heq.
  rewrite !from_to_decided_key in Heq by done. by injection Heq as ->.
Qed.

Lemma mark_decided_state d h r :
  scan_prefix (cf_undecided d) (undecided_prefix h r) ≠ [] →
  ∃ d0 acc, cf_undecided d0 = cf_undecided d ∧ cf_decided d0 = cf_decided d ∧
    ((mark_decided h r d).1 = d0 ∨
     (mark_decided h r d).1 =
       (foldM move_entry acc (scan_prefix (cf_undecided d) (undecided_prefix h r)) d0).1).
Proof.
  intros Hne. destruct (db_call_content d) as [Hu Hd].
  exists (db_call d).1, (0, 0). split_and!; [done..|].
  unfold mark_decided, spawn_blocking, collect_undecided_entries, bind, get, ret.
  destruct (db_call d) as [d0 [[]| |]]; cbn [fst] in *; [right|by left..].
  rewrite Hu. fold (undecided_prefix h r).
  destruct (scan_prefix (cf_undecided d) (undecided_prefix h r)) as [|e l]; [done|].
  by destruct (foldM move_entry (0, 0) (e :: l) d0) as [d1 o].
Qed.

(** What promoting a round that has blobs leaves alone. *)
Lemma mark_decided_frame d h r i v :
  undecided_keys_wf d → is_u64 h → is_i64 r → is_u16 i →
  cf_undecided d !! to_undecided_key (mkBlobKey h r i) = Some v →
  let d' := (mark_decided h r d).1 in
  (∀ key, key_wf key → bk_height key ≠ h ∨ bk_round key ≠ r →
     cf_undecided d' !! to_undecided_key key = cf_undecided d !! to_undecided_key key) ∧
  (∀ k w, cf_decided d !! k = Some w → cf_decided d' !! k = Some w ∨
     ∃ j w', is_u16 j ∧ k = to_decided_key (mkBlobKey h 0 j) ∧
       cf_undecided d !! to_undecided_key (mkBlobKey h r j) = Some w' ∧ cf_decided d' !! k = Some w').
Proof.
  intros Hwf Hh Hr Hi Hv d'. set (l := scan_prefix (cf_undecided d) (undecided_prefix h r)).
  assert (key_wf (mkBlobKey h r i)) as Hkey by done.
  destruct (mark_decided_state d h r) as (d0 & acc & Hu & Hd & Hd').
  { fold l. assert ((to_undecided_key (mkBlobKey h r i), v) ∈ l) as Hin.
    { apply elem_of_scan_prefix. split; [done|]. by apply undecided_key_prefix. }
    intros Hnil. rewrite Hnil in Hin. by apply elem_of_nil in Hin. }
  unfold d'. destruct Hd' as [->| ->]; fold l.
  { rewrite Hu, Hd. auto. }
  pose proof (scan_round_shape d h r Hwf Hh Hr) as Hshape. fold l in Hshape. rewrite Forall_forall in Hshape. split.
  - intros key Hkw Hne. rewrite (proj1 (move_entries_frame l acc d0)), Hu; [done|].
    intros (e & Heq & Hin)%list_elem_of_fmap. destruct (Hshape e Hin) as (_ & j & Hj & Hej). rewrite Hej in Heq.
    apply to_undecided_key_inj in Heq; [|done..]. subst key. cbn in Hne. naive_solver.
  - intros k w Hk. rewrite <-Hd in Hk. destruct (move_entries_decided l acc d0 k w Hk) as [?|(e & Hin & -> & He)]; [by left|].
    right. destruct (Hshape e Hin) as (Hev & j & Hj & Hej). exists j, e.2. rewrite Hej in *.
    unfold promoted_key in *. rewrite from_to_undecided_key in * by done. done.
Qed.

Lemma mark_decided_safe d h r i v :
  undecided_keys_wf d → is_u64 h → is_i64 r → is_u16 i →
  cf_undecided d !! to_undecided_key (mkBlobKey h r i) = Some v →
  let d' := (mark_decided h r d).1 in
  cf_undecided d' !! to_undecided_key (mkBlobKey h r i) = Some v ∨
  cf_decided d' !! to_decided_key (mkBlobKey h 0 i) = Some v.
Proof.
  intros Hwf Hh Hr Hi Hv d'. set (l := scan_prefix (cf_undecided d) (undecided_prefix h r)).
  assert (key_wf (mkBlobKey h r i)) as Hkey by done.
  assert ((to_undecided_key (mkBlobKey h r i), v) ∈ l) as Hin.
  { apply elem_of_scan_prefix. split; [done|]. by apply undecided_key_prefix. }
  destruct (mark_decided_state d h r) as (d0 & acc & Hu & Hd & Hd').
  { intros Hnil. fold l in Hnil. rewrite Hnil in Hin. by apply elem_of_nil in Hin. }
  destruct Hd' as [Hd'|Hd']; [left; unfold d'; by rewrite Hd', Hu|].
  destruct (scan_round_NoDup d h r Hwf Hh Hr) as [Hn1 Hn2].
  assert (Forall (λ e, cf_undecided d0 !! e.1 = Some e.2) l) as Hpre.
  { eapply Forall_impl; [by apply (scan_round_shape d h r)|]. intros e [He _]. by rewrite Hu. }
  pose proof (move_entries_safe l acc d0 Hn1 Hn2 Hpre) as Hsafe. unfold d'. rewrite Hd'. fold l.
  rewrite Forall_forall in Hsafe. specialize (Hsafe _ Hin). cbn [fst snd] in Hsafe.
  unfold promoted_key in Hsafe. rewrite from_to_undecided_key in Hsafe by done. done.
Qed.

(** *** The life of a round's blobs *)

Context {LK : CodecLaws BlobSidecar KS}.

Lemma encode_all bs :
  Forall codec_wf bs → ∃ vs, omapM encode bs = Ok vs ∧ omapM deserialize_blob vs = Ok bs.
Proof using LK.
  induction 1 as [|s bs Hs _ (vs & He & Hd)]; [by exists []|].
  destruct (decode_encode s Hs) as (v & Hv & Hv'). exists (v :: vs). split; simpl.
  - rewrite Hv. simpl. by rewrite He.
  - unfold deserialize_blob at 1. rewrite Hv'. simpl. by rewrite Hd.
Qed.

Lemma omapM_length {E A B} (f : A → outcome E B) l ys : omapM f l = Ok ys → length ys = length l.
Proof. intros H%omapM_Ok_iff. symmetry. by eapply Forall2_length. Qed.

Lemma entries_deserialize (key : BlobSidecar → bytes) bs vs :
  omapM encode bs = Ok vs → omapM deserialize_blob vs = Ok bs →
  omapM (λ e, deserialize_blob e.2) (zip_with (λ s v, (key s, v)) bs vs) = Ok bs.
Proof.
  rewrite !omapM_Ok_iff. intros He. induction He as [|s v bs vs _ _ IH]; simpl; intros Hd;
    inversion Hd; subst; constructor; auto.
Qed.

Lemma mark_decided_ok d h r bs vs :
  db_faults d = [] → is_u64 h → is_i64 r →
  Forall (λ s, is_u16 (sc_index s)) bs → bs ≠ [] →
  omapM encode bs = Ok vs → omapM deserialize_blob vs = Ok bs →
  scan_prefix (cf_undecided d) (undecided_prefix h r) ≡ₚ undecided_entries h r bs vs →
  ∃ u kvs, mark_decided h r d =
      (mkBlobDb u (insert_all kvs (cf_decided d)) [],
       Ok (Z.of_nat (length bs), Z.of_nat (length bs) * BYTES_PER_BLOB)) ∧
    kvs ≡ₚ decided_entries h bs vs ∧
    scan_prefix u (undecided_prefix h r) = [].
Proof.
  intros Hf Hh Hr Hix Hne He Hd Hp. pose proof (omapM_length _ _ _ He) as Hl.
  assert (length (undecided_entries h r bs vs) = length bs) as Hlen.
  { unfold undecided_entries. rewrite length_zip_with. lia. }
  assert (Forall (λ e, (∃ i, is_u16 i ∧ e.1 = to_undecided_key (mkBlobKey h r i)) ∧
            ∃ s, deserialize_blob e.2 = Ok s) (undecided_entries h r bs vs)) as Hshape.
  { unfold undecided_entries. clear -Hd Hix. apply omapM_Ok_iff in Hd. revert bs Hd Hix.
    induction vs as [|v vs IH]; intros bs Hd Hix; inversion Hd as [|? s ? bs' Hs Hd']; subst;
      simpl; constructor.
    - apply Forall_cons in Hix as [Hi _]. eauto.
    - apply Forall_cons in Hix as [_ Hix]. by apply IH. }
  rewrite <-Hp in Hshape. pose proof (Permutation_length Hp) as Hpl. rewrite Hlen in Hpl.
  set (l := scan_prefix (cf_undecided d) (undecided_prefix h r)) in *.
  exists (delete_all l.*1 (cf_undecided d)), (promote_entry <$> l). split_and!.
  - unfold mark_decided, spawn_blocking, collect_undecided_entries, bind, get, ret.
    rewrite db_call_ok by done. fold (undecided_prefix h r). fold l.
    assert (l ≠ []) as Hlne by (intros Hl0; rewrite Hl0 in Hpl; by destruct bs).
    destruct l as [|e l'] eqn:Hl0; [done|]. rewrite <-Hl0 in *.
    rewrite move_entries_ok; [by rewrite Hpl|done| |].
    + eapply Forall_impl; [exact Hshape|]. intros [k v] [(i & Hi & ->) _].
      by rewrite from_to_undecided_key.
    + eapply Forall_impl; [exact Hshape|]. by intros ? [_ ?].
  - rewrite Hp. unfold undecided_entries, decided_entries.
    clear -Hix Hh Hr. revert vs. induction Hix as [|s bs Hi _ IH]; intros [|v vs]; try done.
    cbn [zip_with]. rewrite fmap_cons, IH. unfold promote_entry, promoted_key. cbn [fst snd].
    by rewrite from_to_undecided_key.
  - apply scan_prefix_empty. intros k v. rewrite delete_all_lookup. case_decide as Hk; [done|].
    intros Hv. apply not_true_iff_false. intros Hsw. apply Hk.
    apply (list_elem_of_fmap_2' _ _ (k, v)); [|done]. by apply elem_of_scan_prefix.
Qed.
End promotion_safety.

(** ** Deletion, when RocksDB answers *)

Section deletion.
Context `{KS : Codec BlobSidecar}.

Lemma foreach_delete_decided ks : ∀ d,
  db_faults d = [] →
  foreach ks delete_decided d = (with_decided (delete_all ks (cf_decided d)) d, Ok tt).
Proof.
  induction ks as [|k ks IH]; intros d Hd; [by destruct d|]. cbn [foreach].
  unfold bind at 1, delete_decided at 1, bind at 1. rewrite db_call_ok by done.
  unfold modify. by rewrite IH.
Qed.

Lemma foldM_drop_entry l : ∀ total d,
  db_faults d = [] → Forall (λ e, entry_size e.2 ≠ Panic) l →
  ∃ total', foldM drop_entry total l d =
    (with_undecided (delete_all l.*1 (cf_undecided d)) d, Ok total').
Proof.
  induction l as [|e l IH]; intros total d Hd Hl; [exists total; by destruct d|].
  apply Forall_cons in Hl as [He Hl]. cbn [foldM]. unfold bind at 1, drop_entry at 1.
  assert (∃ size, entry_size e.2 = Ok size) as [size ->].
  { unfold entry_size in *. destruct (deserialize_blob e.2); [eauto|eauto|done]. }
  unfold bind, lift, delete_undecided, modify, ret, bind. rewrite db_call_ok by done.
  destruct (IH (total + size) (with_undecided (delete e.1 (cf_undecided d)) d)) as [total' Ht];
    [done|done|]. exists total'. by rewrite Ht.
Qed.
End deletion.

(** ** Properties of the store *)

Section store_theorems.
Context (KS : Codec BlobSidecar).


(** Dropping a round deletes the undecided blobs of exactly that height
    and round, and nothing else. *)
Theorem drop_round_exact (d : BlobDb) (h : Height) (r : Z) :
  db_faults d = [] → undecided_keys_wf d → is_u64 h → is_i64 r →
  (∀ k v, cf_undecided d !! k = Some v → decode v ≠ Panic) →
  is_ok (drop_round h r d).2 = true ∧
  cf_decided (drop_round h r d).1 = cf_decided d ∧
  ∀ key, key_wf key →
    cf_undecided (drop_round h r d).1 !! to_undecided_key key =
      if decide (bk_height key = h ∧ bk_round key = r) then None
      else cf_undecided d !! to_undecided_key key.
Proof.
  intros Hd Hwf Hh Hr Hdec.
  set (l := scan_prefix (cf_undecided d) (undecided_prefix h r)).
  destruct (foldM_drop_entry l 0 d Hd) as [total Htotal].
  { apply Forall_forall. intros [k v] [Hk _]%elem_of_scan_prefix.
    unfold entry_size, deserialize_blob. specialize (Hdec k v Hk). simpl.
    by destruct (decode v). }
  assert (drop_round h r d = (with_undecided (delete_all l.*1 (cf_undecided d)) d,
            Ok (Z.of_nat (length l), total))) as ->.
  { unfold drop_round, spawn_blocking, bind, get, ret. rewrite db_call_ok by done.
    fold l. by rewrite Htotal. }
  cbn [fst snd is_ok with_undecided cf_decided cf_undecided]. split_and!; [done..|].
  intros key Hkey. rewrite delete_all_lookup.
  destruct (cf_undecided d !! to_undecided_key key) as [v|] eqn:Hv; [|by repeat case_decide].
  apply decide_ext. rewrite <-(undecided_key_prefix key h r) by done. split.
  - intros ([k' v'] & -> & Hin)%list_elem_of_fmap. by apply elem_of_scan_prefix in Hin as [_ ?].
  - intros Hsw. apply (list_elem_of_fmap_2' _ _ (to_undecided_key key, v)); [|done].
    by apply elem_of_scan_prefix.
Qed.

(** Pruning before a height deletes exactly the decided blobs of lower
    heights and returns how many there were. *)
Theorem prune_before_exact (d : BlobDb) (h : Height) :
  db_faults d = [] →
  let keys := filter (λ k, prunable_key h k = true) (cf_iterator (cf_decided d)).*1 in
  (prune_before h d).2 = Ok (Z.of_nat (length keys)) ∧
  cf_undecided (prune_before h d).1 = cf_undecided d ∧
  ∀ key, key_wf key →
    cf_decided (prune_before h d).1 !! to_decided_key key =
      if decide (bk_height key < h) then None else cf_decided d !! to_decided_key key.
Proof.
  intros Hd keys.
  assert (prune_before h d = (with_decided (delete_all keys (cf_decided d)) d,
            Ok (Z.of_nat (length keys)))) as ->.
  { unfold prune_before, spawn_blocking, bind, get, ret. rewrite db_call_ok by done.
    fold keys. by rewrite foreach_delete_decided. }
  cbn [fst snd with_decided cf_decided cf_undecided]. split_and!; [done..|].
  intros key Hkey. rewrite delete_all_lookup.
  destruct (cf_decided d !! to_decided_key key) as [v|] eqn:Hv; [|by repeat case_decide].
  assert (prunable_key h (to_decided_key key) = (bk_height key <? h)) as Hpk.
  { unfold prunable_key, to_decided_key. rewrite length_app, !length_be_bytes.
    rewrite take_app_length' by (by rewrite length_be_bytes).
    rewrite of_be_bytes_u64 by apply Hkey. done. }
  apply decide_ext. unfold keys. rewrite list_elem_of_filter, Hpk, Z.ltb_lt.
  split; [tauto|]. intros Hlt. split; [done|].
  apply (list_elem_of_fmap_2' _ _ (to_decided_key key, v)); [|done].
  unfold cf_iterator. by rewrite merge_sort_Permutation, elem_of_map_to_list.
Qed.
End store_theorems.

(** ** Concrete inputs *)

#[local] Instance demo_sidecar_codec : Codec BlobSidecar := countable_codec BlobSidecar.
#[local] Instance demo_sidecar_codec_laws : CodecLaws BlobSidecar demo_sidecar_codec :=
  countable_codec_laws BlobSidecar.

Definition demo_blob_key : BlobKey := mkBlobKey 7 0 3.
Definition demo_blob_db (faults : list bool) : BlobDb :=
  mkBlobDb {[to_undecided_key demo_blob_key := [42]]} {[to_decided_key demo_blob_key := [41]]} faults.

Lemma demo_blob_key_wf : key_wf demo_blob_key.
Proof. unfold key_wf, is_u64, is_i64, is_u16; simpl; lia. Qed.

Lemma demo_blob_db_wf fs : undecided_keys_wf (demo_blob_db fs).
Proof.
  intros k v Hk. simpl in Hk. apply lookup_singleton_Some in Hk as [<- _].
  exists demo_blob_key. split; [apply demo_blob_key_wf|done].
Qed.


Lemma drop_round_exact_witness :
  is_ok (drop_round 7 0 (demo_blob_db [])).2 = true ∧
  cf_decided (drop_round 7 0 (demo_blob_db [])).1 = {[to_decided_key demo_blob_key := [41]]} ∧
  ∀ key, key_wf key →
    cf_undecided (drop_round 7 0 (demo_blob_db [])).1 !! to_undecided_key key =
      if decide (bk_height key = 7 ∧ bk_round key = 0) then None
      else cf_undecided (demo_blob_db []) !! to_undecided_key key.
Proof.
  apply (drop_round_exact demo_sidecar_codec (demo_blob_db []) 7 0).
  - reflexivity.
  - apply demo_blob_db_wf.
  - apply demo_blob_key_wf.
  - apply demo_blob_key_wf.
  - intros k v Hk. simpl in Hk. apply lookup_singleton_Some in Hk as [_ <-].
    vm_compute. discriminate.
Defined.

Lemma prune_before_exact_witness :
  let d := demo_blob_db [] in
  let keys := filter (λ k, prunable_key 8 k = true) (cf_iterator (cf_decided d)).*1 in
  (prune_before 8 d).2 = Ok (Z.of_nat (length keys)) ∧
  cf_undecided (prune_before 8 d).1 = cf_undecided d ∧
  ∀ key, key_wf key →
    cf_decided (prune_before 8 d).1 !! to_decided_key key =
      if decide (bk_height key < 8) then None else cf_decided d !! to_decided_key key.
Proof. apply (prune_before_exact (demo_blob_db []) 8). reflexivity. Defined.
