(* ===== verification/BlobEngine.v ===== *)
(** * The blob engine ([crates/blob_engine/src/engine.rs], [verifier.rs])

    [BlobEngine] is the interface the consensus state is generic over;
    [BlobEngineLaws] is what the state's theorems rely on.  [BlobEngineImpl]
    is the implementation over the RocksDB store, which discharges the laws. *)
From S2P Require Import Prelude Types Metadata BlobStore.
Open Scope monad_scope.

(** ** Verification *)

Inductive BlobVerificationError :=
| TrustedSetupLoad (e : string) | InvalidBlob | InvalidCommitment | InvalidProof
| KzgVerificationFailed | InvalidProofValue (index : Z) | EmptyBlobList.

(** The [c_kzg] library: the size-checked conversions and the two pairing
    checks, [None] being a library error. *)
Class KzgLib := {
  ckzg_blob : bytes → option bytes;
  ckzg_bytes48 : bytes → option bytes;
  verify_blob_kzg_proof : bytes → bytes → bytes → option bool;
  verify_blob_kzg_proof_batch : list bytes → list bytes → list bytes → option bool }.

(** Documented behaviour: the batch check accepts when it accepts each proof. *)
Class KzgLaws (K : KzgLib) := {
  ckzg_blob_id : ∀ b b', ckzg_blob b = Some b' → b' = b;
  ckzg_bytes48_id : ∀ b b', ckzg_bytes48 b = Some b' → b' = b;
  kzg_batch_sound : ∀ bs cs ps, length bs = length cs → length bs = length ps →
    verify_blob_kzg_proof_batch bs cs ps = Some true →
    ∀ i b c p, bs !! i = Some b → cs !! i = Some c → ps !! i = Some p →
    verify_blob_kzg_proof b c p = Some true }.

Section verifier.
Context `{KzgLib}.
Open Scope outcome_scope.

Definition verify_blob_sidecar (s : BlobSidecar) : outcome BlobVerificationError unit :=
  let? blob := ok_or (ckzg_blob (sc_blob s)) InvalidBlob in
  let? commitment := ok_or (ckzg_bytes48 (sc_kzg_commitment s)) InvalidCommitment in
  let? proof := ok_or (ckzg_bytes48 (sc_kzg_proof s)) InvalidProof in
  let? valid := ok_or (verify_blob_kzg_proof blob commitment proof) KzgVerificationFailed in
  if negb valid then Err (InvalidProofValue (sc_index s)) else Ok tt.

Definition verify_blob_sidecars_batch (scs : list BlobSidecar)
    : outcome BlobVerificationError unit :=
  match scs with
  | [] => Err EmptyBlobList
  | _ =>
    let? blobs := omapM (λ s, ok_or (ckzg_blob (sc_blob s)) InvalidBlob) scs in
    let? commitments :=
      omapM (λ s, ok_or (ckzg_bytes48 (sc_kzg_commitment s)) InvalidCommitment) scs in
    let? proofs := omapM (λ s, ok_or (ckzg_bytes48 (sc_kzg_proof s)) InvalidProof) scs in
    let? valid := ok_or (verify_blob_kzg_proof_batch blobs commitments proofs)
                    KzgVerificationFailed in
    if negb valid then Err KzgVerificationFailed else Ok tt
  end.
End verifier.

(** ** The interface *)

Inductive BlobEngineError :=
| VerificationFailed (height : Height) (index : Z) (source : BlobVerificationError)
| Storage (e : BlobStoreError)
| BlobsPruned (height : Height) (blob_count : Z) (locators : list string).

Class BlobEngine (E : Type) := {
  be_verify_and_store : Height → Z → list BlobSidecar → M E BlobEngineError unit;
  be_mark_decided : Height → Z → M E BlobEngineError unit;
  be_get_for_import : Height → M E BlobEngineError (list BlobSidecar);
  be_drop_round : Height → Z → M E BlobEngineError unit;
  be_mark_archived : Height → list Z → M E BlobEngineError unit;
  be_prune_archived_before : Height → M E BlobEngineError Z;
  be_get_undecided_blobs : Height → Z → M E BlobEngineError (list BlobSidecar) }.

(** A height and an index name the same slot when they agree at the widths of
    the key, 64 and 16 bits. *)
Definition same_slot (h i h' i' : Z) : Prop :=
  h mod 2^64 = h' mod 2^64 ∧ i mod 2^16 = i' mod 2^16.

(** What the operations may do to the decided blobs, failing runs included. *)
Class DecidedView (E : Type) := {
  decided_blob : E → Height → Z → option bytes }.    (* stored bytes per (height, index) *)

Class BlobEngineLaws (E : Type) (B : BlobEngine E) (V : DecidedView E) : Prop := {
  law_verify_and_store : ∀ h r scs,
    steps (λ e e', ∀ h' i', decided_blob e' h' i' = decided_blob e h' i') (be_verify_and_store h r scs);
  law_drop_round : ∀ h r,
    steps (λ e e', ∀ h' i', decided_blob e' h' i' = decided_blob e h' i') (be_drop_round h r);
  law_get_for_import : ∀ h,
    steps (λ e e', ∀ h' i', decided_blob e' h' i' = decided_blob e h' i') (be_get_for_import h);
  law_get_undecided_blobs : ∀ h r,
    steps (λ e e', ∀ h' i', decided_blob e' h' i' = decided_blob e h' i') (be_get_undecided_blobs h r);
  law_mark_decided : ∀ h r,
    steps (λ e e', ∀ h' i', is_Some (decided_blob e h' i') → is_Some (decided_blob e' h' i'))
      (be_mark_decided h r);
  law_mark_archived : ∀ h idxs,
    steps (λ e e', ∀ h' i',
      decided_blob e' h' i' = decided_blob e h' i' ∨ ∃ i, i ∈ idxs ∧ same_slot h i h' i')
      (be_mark_archived h idxs) }.

(** ** The implementation *)

(** The counters and gauges of [metrics.rs] that follow the blobs. *)
Record BlobEngineMetrics := mkEngineMetrics {
  em_verifications_success : Z; em_verifications_failure : Z;
  em_storage_bytes_undecided : Z; em_storage_bytes_decided : Z;
  em_undecided_blob_count : Z; em_blobs_per_block : Z;
  em_lifecycle_promoted : Z; em_lifecycle_dropped : Z; em_lifecycle_pruned : Z }.

Definition record_verifications_success (n : Z) (m : BlobEngineMetrics) : BlobEngineMetrics :=
  mkEngineMetrics (add64 (em_verifications_success m) n) (em_verifications_failure m)
    (em_storage_bytes_undecided m) (em_storage_bytes_decided m) (em_undecided_blob_count m)
    (em_blobs_per_block m) (em_lifecycle_promoted m) (em_lifecycle_dropped m) (em_lifecycle_pruned m).
Definition record_verifications_failure (n : Z) (m : BlobEngineMetrics) : BlobEngineMetrics :=
  mkEngineMetrics (em_verifications_success m) (add64 (em_verifications_failure m) n)
    (em_storage_bytes_undecided m) (em_storage_bytes_decided m) (em_undecided_blob_count m)
    (em_blobs_per_block m) (em_lifecycle_promoted m) (em_lifecycle_dropped m) (em_lifecycle_pruned m).
Definition add_undecided_storage (b n : Z) (m : BlobEngineMetrics) : BlobEngineMetrics :=
  mkEngineMetrics (em_verifications_success m) (em_verifications_failure m)
    (to_i64 (wrap64 (em_storage_bytes_undecided m + b))) (em_storage_bytes_decided m)
    (to_i64 (wrap64 (em_undecided_blob_count m + n)))
    (em_blobs_per_block m) (em_lifecycle_promoted m) (em_lifecycle_dropped m) (em_lifecycle_pruned m).
Definition promote_blobs (b n : Z) (m : BlobEngineMetrics) : BlobEngineMetrics :=
  mkEngineMetrics (em_verifications_success m) (em_verifications_failure m)
    (to_i64 (wrap64 (em_storage_bytes_undecided m - b)))
    (to_i64 (wrap64 (em_storage_bytes_decided m + b)))
    (to_i64 (wrap64 (em_undecided_blob_count m - n)))
    (em_blobs_per_block m) (add64 (em_lifecycle_promoted m) n) (em_lifecycle_dropped m)
    (em_lifecycle_pruned m).
Definition drop_blobs (b n : Z) (m : BlobEngineMetrics) : BlobEngineMetrics :=
  mkEngineMetrics (em_verifications_success m) (em_verifications_failure m)
    (to_i64 (wrap64 (em_storage_bytes_undecided m - b))) (em_storage_bytes_decided m)
    (to_i64 (wrap64 (em_undecided_blob_count m - n)))
    (em_blobs_per_block m) (em_lifecycle_promoted m) (add64 (em_lifecycle_dropped m) n)
    (em_lifecycle_pruned m).
Definition prune_blobs (b n : Z) (m : BlobEngineMetrics) : BlobEngineMetrics :=
  mkEngineMetrics (em_verifications_success m) (em_verifications_failure m)
    (em_storage_bytes_undecided m) (to_i64 (wrap64 (em_storage_bytes_decided m - b)))
    (em_undecided_blob_count m) (em_blobs_per_block m) (em_lifecycle_promoted m)
    (em_lifecycle_dropped m) (add64 (em_lifecycle_pruned m) n).
Definition set_blobs_per_block (n : Z) (m : BlobEngineMetrics) : BlobEngineMetrics :=
  mkEngineMetrics (em_verifications_success m) (em_verifications_failure m)
    (em_storage_bytes_undecided m) (em_storage_bytes_decided m) (em_undecided_blob_count m)
    n (em_lifecycle_promoted m) (em_lifecycle_dropped m) (em_lifecycle_pruned m).

Record BlobEngineImpl := mkEngine { bi_store : BlobDb; bi_metrics : BlobEngineMetrics }.

Section engine.
Context `{KzgLib} `{KS : Codec BlobSidecar}.

Abbreviation EngM A := (M BlobEngineImpl BlobEngineError A) (only parsing).

(** [self.store.op(..).await?] *)
Definition on_store {A} (c : M BlobDb BlobStoreError A) : EngM A :=
  zoom bi_store (λ d e, mkEngine d (bi_metrics e)) (map_err Storage c).
Definition on_metrics (f : BlobEngineMetrics → BlobEngineMetrics) : EngM unit :=
  modify (λ e, mkEngine (bi_store e) (f (bi_metrics e))).

Definition first_index (scs : list BlobSidecar) : Z := default 0 (sc_index <$> head scs).

Definition verify_and_store (height : Height) (round : Z) (scs : list BlobSidecar) : EngM unit :=
  match scs with
  | [] => ret tt
  | _ =>
    match verify_blob_sidecars_batch scs with
    | Err e =>
      on_metrics (record_verifications_failure (Z.of_nat (length scs))) ;;;
      fail (VerificationFailed height
              (match e with InvalidProofValue i => i | _ => first_index scs end) e)
    | Panic => panic
    | Ok _ =>
      on_metrics (record_verifications_success (Z.of_nat (length scs))) ;;;
      let* stored := on_store (put_undecided_blobs height round scs) in
      on_metrics (add_undecided_storage
                    (foldr (λ s acc, Blob_size (sc_blob s) + acc) 0 scs) stored)
    end
  end.

Definition mark_decided_engine (height : Height) (round : Z) : EngM unit :=
  let* (count, total) := on_store (mark_decided height round) in
  if count =? 0 then
    let* decided := on_store (get_decided_blobs height) in
    on_metrics (set_blobs_per_block (Z.of_nat (length decided)))
  else
    on_metrics (promote_blobs total count) ;;;
    on_metrics (set_blobs_per_block count).

Definition get_for_import (height : Height) : EngM (list BlobSidecar) :=
  on_store (get_decided_blobs height).

Definition drop_round_engine (height : Height) (round : Z) : EngM unit :=
  let* (count, total) := on_store (drop_round height round) in
  on_metrics (drop_blobs total count).

Definition mark_archived (height : Height) (indices : list Z) : EngM unit :=
  let count := Z.of_nat (length indices) in
  on_store (delete_archived height indices) ;;;
  on_metrics (prune_blobs (count * BYTES_PER_BLOB) count).

Definition prune_archived_before (height : Height) : EngM Z :=
  let* count := on_store (prune_before height) in
  on_metrics (prune_blobs (count * BYTES_PER_BLOB) count) ;;;
  ret count.

Definition get_undecided_blobs_engine (height : Height) (round : Z) : EngM (list BlobSidecar) :=
  on_store (get_undecided_blobs height round).

#[export] Instance rocksdb_engine : BlobEngine BlobEngineImpl := {|
  be_verify_and_store := verify_and_store;
  be_mark_decided := mark_decided_engine;
  be_get_for_import := get_for_import;
  be_drop_round := drop_round_engine;
  be_mark_archived := mark_archived;
  be_prune_archived_before := prune_archived_before;
  be_get_undecided_blobs := get_undecided_blobs_engine |}.
End engine.

(** ** The implementation satisfies the interface *)

#[export] Instance rocksdb_view : DecidedView BlobEngineImpl := {|
  decided_blob e h i := cf_decided (bi_store e) !! to_decided_key (mkBlobKey h 0 i) |}.

(** A relation on databases, read on engines. *)
Definition on_db (R : BlobDb → BlobDb → Prop) (e e' : BlobEngineImpl) : Prop :=
  R (bi_store e) (bi_store e').
#[export] Instance on_db_preorder R `{!PreOrder R} : PreOrder (on_db R).
Proof. unfold on_db. split; repeat intro; [reflexivity|by etrans]. Qed.

Lemma steps_on_store {A} (R : BlobDb → BlobDb → Prop) (c : M BlobDb BlobStoreError A) :
  steps R c → steps (on_db R) (on_store c).
Proof. intros Hc. apply (steps_zoom _ R); [by apply steps_map_err|done]. Qed.
Lemma steps_on_metrics R `{!PreOrder R} f : steps (on_db R) (on_metrics f).
Proof. apply steps_modify. intros e. unfold on_db. simpl. reflexivity. Qed.
#[export] Hint Resolve steps_on_store steps_on_metrics : steps.

(** No decided key disappears. *)
Definition decided_grows (d d' : BlobDb) : Prop :=
  ∀ k, is_Some (cf_decided d !! k) → is_Some (cf_decided d' !! k).
#[export] Instance decided_grows_preorder : PreOrder decided_grows.
Proof. unfold decided_grows. split; repeat intro; eauto. Qed.

Lemma same_decided_grows d d' : same_decided d d' → decided_grows d d'.
Proof. unfold same_decided, decided_grows. by intros ->. Qed.

Lemma to_decided_key_slot h i h' i' :
  to_decided_key (mkBlobKey h 0 i) = to_decided_key (mkBlobKey h' 0 i') → same_slot h i h' i'.
Proof.
  unfold to_decided_key, same_slot. cbn [bk_height bk_index]. intros Heq.
  apply app_inj_length in Heq as [H1 H2]; [|by rewrite !length_be_bytes].
  apply (f_equal of_be) in H1, H2. by rewrite !of_be_bytes in H1, H2.
Qed.

Lemma same_slot_inj h i h' i' :
  is_u64 h → is_u64 h' → is_u16 i → is_u16 i' → same_slot h i h' i' → h = h' ∧ i = i'.
Proof.
  unfold is_u64, is_u16, same_slot. intros ???? [H1 H2].
  by rewrite !Z.mod_small in H1, H2 by lia.
Qed.

Section laws.
Context `{KzgLib} `{KS : Codec BlobSidecar}.

Lemma mark_decided_grows h r : steps decided_grows (mark_decided h r).
Proof.
  unfold mark_decided. apply steps_spawn_blocking.
  assert (∀ h r, steps decided_grows (collect_undecided_entries h r)) as Hc.
  { intros h' r'. apply (steps_weaken same_decided); [apply same_decided_grows|].
    unfold collect_undecided_entries. steps_tac. }
  apply steps_bind; [apply _|apply Hc|]. intros items.
  apply steps_bind; [apply _|destruct items; [apply Hc|apply steps_ret, _]|].
  clear items. intros items. apply steps_foldM; [apply _|]. intros acc e _ d k Hk.
  destruct (move_entry_cases acc e d) as [[_ [-> | ->]]|[_ ->]]; [done|..];
    destruct (decide (k = promoted_key e.1)) as [->|]; rewrite ?lookup_insert_eq;
    by rewrite ?lookup_insert_ne.
Qed.

#[export] Instance rocksdb_engine_laws : BlobEngineLaws BlobEngineImpl rocksdb_engine rocksdb_view.
Proof.
  assert (∀ {A} (c : M BlobEngineImpl BlobEngineError A), steps (on_db same_decided) c →
    steps (λ e e', ∀ h i, decided_blob e' h i = decided_blob e h i) c) as Hsame.
  { intros A c. apply steps_weaken. intros e e' He h i. simpl. unfold on_db, same_decided in He.
    by rewrite He. }
  split.
  - intros h r scs. apply Hsame. simpl. unfold verify_and_store.
    pose proof put_undecided_blobs_same_decided. steps_tac; apply steps_on_store; auto.
  - intros h r. apply Hsame. simpl. unfold drop_round_engine.
    pose proof drop_round_same_decided. steps_tac; apply steps_on_store; auto.
  - intros h. apply Hsame. apply steps_on_store, get_decided_blobs_same_decided.
  - intros h r. apply Hsame. apply steps_on_store, get_undecided_blobs_same_decided.
  - intros h r. apply (steps_weaken (on_db decided_grows)).
    { intros e e' He h' i'. apply He. }
    simpl. unfold mark_decided_engine.
    apply steps_bind; [apply _|apply steps_on_store, mark_decided_grows|]. intros [count total].
    pose proof (λ d d', same_decided_grows d d').
    destruct (count =? 0); [|steps_tac].
    apply steps_bind; [apply _| |steps_tac].
    apply steps_on_store, (steps_weaken same_decided); [done|].
    apply get_decided_blobs_same_decided.
  - intros h idxs.
    apply (steps_weaken (on_db (decided_shrinks
      (λ k, ∃ i, i ∈ idxs ∧ k = to_decided_key (mkBlobKey h 0 i))))).
    { intros e e' He h' i'. destruct (He (to_decided_key (mkBlobKey h' 0 i')))
        as [Heq|[(i & Hi & Hk) _]]; [by left|right].
      exists i. split; [done|]. by apply to_decided_key_slot. }
    simpl. unfold mark_archived. pose proof delete_archived_shrinks.
    apply steps_bind; [apply _| |steps_tac]. apply steps_on_store. auto.
Qed.
End laws.

(** ** Properties of the engine *)

Section engine_theorems.
Context (K : KzgLib) (LZ : KzgLaws K) (KS : Codec BlobSidecar) (LK : CodecLaws BlobSidecar KS).

Lemma verify_and_store_ok e h r scs vs :
  db_faults (bi_store e) = [] → scs ≠ [] → verify_blob_sidecars_batch scs = Ok tt →
  omapM encode scs = Ok vs →
  ∃ m, verify_and_store h r scs e =
    (mkEngine (with_undecided (insert_all (undecided_entries h r scs vs)
                                 (cf_undecided (bi_store e))) (bi_store e)) m, Ok tt).
Proof.
  intros Hf Hne Hv He. unfold verify_and_store. destruct scs as [|s scs]; [done|].
  rewrite Hv. eexists. unfold bind, on_metrics, modify, on_store, zoom, map_err.
  cbn [bi_store]. by rewrite (put_undecided_blobs_ok _ _ _ _ vs).
Qed.

Lemma mark_decided_engine_ok e h r d n b :
  mark_decided h r (bi_store e) = (d, Ok (n, b)) → n ≠ 0 →
  ∃ m, mark_decided_engine h r e = (mkEngine d m, Ok tt).
Proof.
  intros Hm Hn. eexists. unfold mark_decided_engine, bind, on_store, zoom, map_err.
  rewrite Hm. cbn [omap_err]. by rewrite (proj2 (Z.eqb_neq n 0) Hn).
Qed.

Lemma get_for_import_ok e h kvs scs :
  db_faults (bi_store e) = [] →
  scan_prefix (cf_decided (bi_store e)) (decided_prefix h) ≡ₚ kvs →
  omapM (λ x, deserialize_blob x.2) kvs = Ok scs → NoDup (sc_index <$> scs) →
  (get_for_import h e).2 = Ok (sort_by_key sc_index scs).
Proof.
  intros Hf Hp Ho Hnd. unfold get_for_import, on_store, zoom, map_err, get_decided_blobs,
    spawn_blocking, bind, get, lift. rewrite db_call_ok by done. simpl.
  by rewrite (read_blobs_Permutation _ kvs scs).
Qed.

Lemma get_undecided_ok e h r kvs scs :
  db_faults (bi_store e) = [] →
  scan_prefix (cf_undecided (bi_store e)) (undecided_prefix h r) ≡ₚ kvs →
  omapM (λ x, deserialize_blob x.2) kvs = Ok scs → NoDup (sc_index <$> scs) →
  (get_undecided_blobs_engine h r e).2 = Ok (sort_by_key sc_index scs).
Proof.
  intros Hf Hp Ho Hnd. unfold get_undecided_blobs_engine, on_store, zoom, map_err, get_undecided_blobs,
    spawn_blocking, bind, get, lift. rewrite db_call_ok by done. simpl.
  by rewrite (read_blobs_Permutation _ kvs scs).
Qed.

(** Sidecars that pass KZG verification and are stored for a fresh round
    can be read back for restreaming; once that round is decided they are
    read back for import, complete, unchanged and in index order, and no
    undecided copy is left. *)
Theorem blob_lifecycle (e : BlobEngineImpl) (h : Height) (r : Z) (scs : list BlobSidecar) :
  db_faults (bi_store e) = [] → is_u64 h → is_i64 r → scs ≠ [] →
  Forall (λ s, is_u16 (sc_index s) ∧ codec_wf s) scs → NoDup (sc_index <$> scs) →
  verify_blob_sidecars_batch scs = Ok tt →
  scan_prefix (cf_undecided (bi_store e)) (undecided_prefix h r) = [] →
  scan_prefix (cf_decided (bi_store e)) (decided_prefix h) = [] →
  ∃ e1 e2,
    verify_and_store h r scs e = (e1, Ok tt) ∧
    (get_undecided_blobs_engine h r e1).2 = Ok (sort_by_key sc_index scs) ∧
    mark_decided_engine h r e1 = (e2, Ok tt) ∧
    (get_for_import h e2).2 = Ok (sort_by_key sc_index scs) ∧
    (get_undecided_blobs_engine h r e2).2 = Ok [].
Proof using LK.
  intros Hf Hh Hr Hne [Hix Hwf]%Forall_and Hnd Hv Hu Hd.
  destruct (encode_all scs Hwf) as (vs & He & Hde).
  pose proof (omapM_length _ _ _ He) as Hl.
  destruct (verify_and_store_ok e h r scs vs Hf Hne Hv He) as [m1 H1].
  set (e1 := mkEngine _ m1) in H1.
  assert (scan_prefix (cf_undecided (bi_store e1)) (undecided_prefix h r)
            ≡ₚ undecided_entries h r scs vs) as Hscan.
  { apply scan_insert_all; [|apply undecided_entries_prefix|done].
    by apply undecided_entries_NoDup. }
  assert (db_faults (bi_store e1) = []) as Hf1 by done.
  destruct (mark_decided_ok (bi_store e1) h r scs vs) as (u & kvs & Hm & Hkvs & Hempty); [done..|].
  destruct (mark_decided_engine_ok _ _ _ _ _ _ Hm) as [m2 H2]; [destruct scs; [done|simpl; lia]|].
  eexists e1, _. split_and!; [exact H1| |exact H2|..].
  - eapply get_undecided_ok; [done|exact Hscan| |done]. by apply entries_deserialize.
  - apply (get_for_import_ok _ h (decided_entries h scs vs) scs);
      [done| |by apply entries_deserialize|done].
    cbn [bi_store cf_decided]. rewrite scan_insert_all; [exact Hkvs| | |done].
    + rewrite Hkvs. by apply decided_entries_NoDup.
    + rewrite Hkvs. apply decided_entries_prefix.
  - apply (get_undecided_ok _ h r [] []); [done|cbn [bi_store cf_undecided]; by rewrite Hempty|done|constructor].
Qed.

(** Sidecars enter the undecided store only if every one of them passes
    the single-proof KZG check; otherwise storing them changes no blob and
    reports an error. *)
Theorem only_verified_blobs_stored (e : BlobEngineImpl) (h : Height) (r : Z)
    (scs : list BlobSidecar) :
  let e' := (verify_and_store h r scs e).1 in
  Forall (λ s, verify_blob_sidecar s = Ok tt) scs ∨
  (bi_store e' = bi_store e ∧ is_ok (verify_and_store h r scs e).2 = false).
Proof using LZ.
  intros e'. subst e'. unfold verify_and_store. destruct scs as [|s0 scs0]; [left; constructor|].
  set (scs := s0 :: scs0).
  destruct (verify_blob_sidecars_batch scs) as [[]|err|] eqn:Hv; [left|by right..].
  assert (∃ bs cs ps, omapM (λ s, ok_or (ckzg_blob (sc_blob s)) InvalidBlob) scs = Ok bs ∧
    omapM (λ s, ok_or (ckzg_bytes48 (sc_kzg_commitment s)) InvalidCommitment) scs = Ok cs ∧
    omapM (λ s, ok_or (ckzg_bytes48 (sc_kzg_proof s)) InvalidProof) scs = Ok ps ∧
    verify_blob_kzg_proof_batch bs cs ps = Some true) as (bs & cs & ps & Hbs & Hcs & Hps & Hbatch).
  { revert Hv. unfold verify_blob_sidecars_batch, scs. fold scs.
    destruct (omapM _ scs) as [bs| |] eqn:Hbs; try done. cbn [obind].
    destruct (omapM (λ s, ok_or (ckzg_bytes48 (sc_kzg_commitment s)) _) scs) as [cs| |] eqn:Hcs; try done.
    cbn [obind].
    destruct (omapM (λ s, ok_or (ckzg_bytes48 (sc_kzg_proof s)) _) scs) as [ps| |] eqn:Hps; try done.
    cbn [obind]. destruct (verify_blob_kzg_proof_batch bs cs ps) as [[]|] eqn:Hb; try done.
    intros _. by exists bs, cs, ps. }
  pose proof (omapM_length _ _ _ Hbs) as L1. pose proof (omapM_length _ _ _ Hcs) as L2.
  pose proof (omapM_length _ _ _ Hps) as L3.
  pose proof (kzg_batch_sound bs cs ps ltac:(lia) ltac:(lia) Hbatch) as Hsound.
  apply omapM_Ok_iff in Hbs, Hcs, Hps. apply Forall_lookup. intros i s Hs.
  destruct (Forall2_lookup_l _ _ _ _ _ Hbs Hs) as (b & Hb & Hb').
  destruct (Forall2_lookup_l _ _ _ _ _ Hcs Hs) as (c & Hc & Hc').
  destruct (Forall2_lookup_l _ _ _ _ _ Hps Hs) as (p & Hp & Hp').
  specialize (Hsound i b c p Hb Hc Hp). unfold verify_blob_sidecar.
  rewrite Hb'. cbn [obind]. rewrite Hc'. cbn [obind]. rewrite Hp'. cbn [obind].
  by rewrite Hsound.
Qed.
End engine_theorems.

(** ** Concrete inputs *)
#[local] Existing Instance demo_sidecar_codec.

(** A library that accepts every well-sized input. *)
#[local] Instance demo_kzg : KzgLib := {|
  ckzg_blob b := Some b; ckzg_bytes48 b := if decide (length b = 48%nat) then Some b else None;
  verify_blob_kzg_proof _ _ _ := Some true;
  verify_blob_kzg_proof_batch _ _ _ := Some true |}.
#[local] Instance demo_kzg_laws : KzgLaws demo_kzg.
Proof.
  split; simpl; [by intros b b' [= <-]| |done].
  intros b b'. by case_decide; intros [= <-].
Qed.

Definition demo_metrics : BlobEngineMetrics := mkEngineMetrics 0 0 0 0 0 0 0 0 0.
Definition demo_engine : BlobEngineImpl := mkEngine (mkBlobDb ∅ ∅ []) demo_metrics.
Definition demo_sidecars : list BlobSidecar :=
  [ BlobSidecar_from_bundle_item 1 [10; 11] (replicate 48 5) (replicate 48 6);
    BlobSidecar_from_bundle_item 0 [12; 13] (replicate 48 7) (replicate 48 8) ].

Lemma blob_lifecycle_witness :
  ∃ e1 e2,
    verify_and_store 7 0 demo_sidecars demo_engine = (e1, Ok tt) ∧
    (get_undecided_blobs_engine 7 0 e1).2 = Ok (sort_by_key sc_index demo_sidecars) ∧
    mark_decided_engine 7 0 e1 = (e2, Ok tt) ∧
    (get_for_import 7 e2).2 = Ok (sort_by_key sc_index demo_sidecars) ∧
    (get_undecided_blobs_engine 7 0 e2).2 = Ok [].
Proof.
  apply (blob_lifecycle demo_kzg demo_sidecar_codec demo_sidecar_codec_laws
           demo_engine 7 0 demo_sidecars).
  - reflexivity.
  - unfold is_u64. lia.
  - unfold is_i64. lia.
  - discriminate.
  - repeat constructor; unfold is_u16; simpl; lia.
  - apply (bool_decide_unpack _). vm_compute. exact I.
  - reflexivity.
  - reflexivity.
  - reflexivity.
Defined.

Lemma only_verified_blobs_stored_witness :
  Forall (λ s, verify_blob_sidecar s = Ok tt) demo_sidecars ∨
  (bi_store (verify_and_store 7 0 demo_sidecars demo_engine).1 = bi_store demo_engine ∧
   is_ok (verify_and_store 7 0 demo_sidecars demo_engine).2 = false).
Proof.
  apply (only_verified_blobs_stored demo_kzg demo_kzg_laws demo_sidecar_codec
           demo_engine 7 0 demo_sidecars).
Defined.
