(* ===== verification/Serde.v ===== *)
(** * Texts of KZG values ([crates/types/src/blob.rs], [beacon_block_body.rs],
    [crates/blob_engine/src/verifier.rs], [crates/utils/src/tx.rs])

    The hand-written implementations of [serde]'s traits: commitments and proofs,
    the sync aggregate, and the points of the trusted setup the blob verifier is
    made from.  A value is what a format shows of it, in the data model of
    [serde]; the format itself, [serde_json] for the trusted setup, and the
    [c_kzg] library are parameters. *)
From S2P Require Import Prelude Text Files Types Merkle Metadata BlobStore BlobEngine.
Open Scope outcome_scope.

(** ** What a format shows *)

Inductive Shown :=
| SString (s : string) | SBytes (b : bytes) | SNumber (z : Z) | SSeq (l : list Shown)
| SMap (members : list (string * Shown)) | SOther.

Definition invalid_type : string := "invalid type".
Definition invalid_length : string := "invalid length".
Definition missing_field : string := "missing field".
Definition duplicate_field : string := "duplicate field".

(** [u8], [Vec<u8>], [String] and [Vec<T>] *)
Definition de_u8 (v : Shown) : outcome string Z :=
  match v with SNumber z => if (0 <=? z) && (z <? 256) then Ok z else Err invalid_type | _ => Err invalid_type end.
Definition de_vec {A} (de : Shown → outcome string A) (v : Shown) : outcome string (list A) :=
  match v with SSeq l => omapM de l | _ => Err invalid_type end.
Definition de_string (v : Shown) : outcome string string :=
  match v with SString s => Ok s | _ => Err invalid_type end.

(** ** Commitments and proofs *)

(** [visit_seq]: takes as many elements as the array has, and not one more. *)
Fixpoint visit_seq (n : nat) (seq : list Shown) : outcome string bytes :=
  match n with
  | O => Ok []
  | S n =>
    match seq with
    | [] => Err invalid_length
    | v :: seq => let? b := de_u8 v in let? bs := visit_seq n seq in Ok (b :: bs)
    end
  end.

Definition KzgCommitment_serialize (c : KzgCommitment) : Shown := SBytes c.
Definition KzgCommitment_deserialize (v : Shown) : outcome string KzgCommitment :=
  match v with
  | SBytes b => KzgCommitment_from_slice b
  | SSeq seq => visit_seq BYTES_PER_COMMITMENT seq
  | _ => Err invalid_type
  end.
Definition KzgProof_serialize (p : KzgProof) : Shown := SBytes p.
Definition KzgProof_deserialize (v : Shown) : outcome string KzgProof :=
  match v with
  | SBytes b => KzgProof_from_slice b
  | SSeq seq => visit_seq BYTES_PER_PROOF seq
  | _ => Err invalid_type
  end.

(** ** The sync aggregate *)

Definition SyncAggregate_default : SyncAggregate := mkSyncAggregate (zeros 64) (zeros 96).
Definition SyncAggregate_serialize (a : SyncAggregate) : Shown :=
  SMap [("sync_committee_bits"%string, SSeq (SNumber <$> sa_committee_bits a));
        ("sync_committee_signature"%string, SSeq (SNumber <$> sa_committee_signature a))].

Definition de_array (n : nat) (v : Shown) : outcome string bytes :=
  let? vec := de_vec de_u8 v in
  if negb (length vec =? n)%nat then Err invalid_length else Ok vec.

(** [visit_map]: the last of several members of one name counts. *)
Fixpoint visit_map (members : list (string * Shown)) (bits sig : option bytes)
    : outcome string (option bytes * option bytes) :=
  match members with
  | [] => Ok (bits, sig)
  | (key, v) :: members =>
    if decide (key = "sync_committee_bits"%string) then
      let? arr := de_array 64 v in visit_map members (Some arr) sig
    else if decide (key = "sync_committee_signature"%string) then
      let? arr := de_array 96 v in visit_map members bits (Some arr)
    else visit_map members bits sig
  end.
Definition SyncAggregate_deserialize (v : Shown) : outcome string SyncAggregate :=
  match v with
  | SMap members =>
    let? r := visit_map members None None in
    let? bits := ok_or r.1 missing_field in
    let? sig := ok_or r.2 missing_field in
    Ok (mkSyncAggregate bits sig)
  | _ => Err invalid_type
  end.

(** ** The trusted setup *)

Definition BYTES_PER_G1_POINT : nat := 48.
Definition BYTES_PER_G2_POINT : nat := 96.
Definition NO_PRECOMPUTE : Z := 0.

Record TrustedSetup := mkSetup {
  g1_monomial : list bytes; g1_lagrange : list bytes; g2_monomial : list bytes }.

(** [hex_serde::deserialize] *)
Definition strip_0x (s : string) : string :=
  match strip_prefix (String.list_ascii_of_string "0x") (String.list_ascii_of_string s) with
  | Some l => String.string_of_list_ascii l
  | None => s
  end.
Definition hex_deserialize (n : nat) (v : Shown) : outcome string bytes :=
  let? s := de_string v in
  let? b := ok_or (hex_decode (strip_0x s)) "invalid hex"%string in
  if negb (length b =? n)%nat then Err "unexpected number of bytes"%string else Ok b.
Definition de_G1Point : Shown → outcome string bytes := hex_deserialize BYTES_PER_G1_POINT.
Definition de_G2Point : Shown → outcome string bytes := hex_deserialize BYTES_PER_G2_POINT.

(** The derived [Deserialize]: unknown members are skipped, a second one of the
    same name is an error. *)
Definition set_field {A} (slot : option A) (r : outcome string A) : outcome string (option A) :=
  match slot with Some _ => Err duplicate_field | None => let? a := r in Ok (Some a) end.
Fixpoint setup_members (members : list (string * Shown)) (g1m g1l g2m : option (list bytes))
    : outcome string TrustedSetup :=
  match members with
  | [] =>
    let? g1m := ok_or g1m missing_field in
    let? g1l := ok_or g1l missing_field in
    let? g2m := ok_or g2m missing_field in
    Ok (mkSetup g1m g1l g2m)
  | (key, v) :: members =>
    if decide (key = "g1_monomial"%string) then
      let? g1m := set_field g1m (de_vec de_G1Point v) in setup_members members g1m g1l g2m
    else if decide (key = "g1_lagrange"%string) then
      let? g1l := set_field g1l (de_vec de_G1Point v) in setup_members members g1m g1l g2m
    else if decide (key = "g2_monomial"%string) then
      let? g2m := set_field g2m (de_vec de_G2Point v) in setup_members members g1m g1l g2m
    else setup_members members g1m g1l g2m
  end.
Definition TrustedSetup_deserialize (v : Shown) : outcome string TrustedSetup :=
  match v with SMap members => setup_members members None None None | _ => Err invalid_type end.

Definition g1_monomial_bytes (t : TrustedSetup) : bytes := mjoin (g1_monomial t).
Definition g1_lagrange_bytes (t : TrustedSetup) : bytes := mjoin (g1_lagrange t).
Definition g2_monomial_bytes (t : TrustedSetup) : bytes := mjoin (g2_monomial t).

(** [serde_json], the settings of [c_kzg] and the file that is compiled in. *)
Class SetupLib := {
  json_show : bytes → option Shown;
  KzgSettings : Type;
  load_trusted_setup : bytes → bytes → bytes → Z → option KzgSettings;
  TRUSTED_SETUP_BYTES : bytes }.

Section verifier_setup.
Context `{SetupLib}.

Definition verifier_from (text : bytes) : outcome BlobVerificationError KzgSettings :=
  let? setup := omap_err (λ _, TrustedSetupLoad "Failed to parse trusted setup"%string)
    (let? v := ok_or (json_show text) "not JSON"%string in TrustedSetup_deserialize v) in
  ok_or (load_trusted_setup (g1_monomial_bytes setup) (g1_lagrange_bytes setup) (g2_monomial_bytes setup)
           NO_PRECOMPUTE) (TrustedSetupLoad "Failed to load KZG settings"%string).
Definition BlobVerifier_new : outcome BlobVerificationError KzgSettings := verifier_from TRUSTED_SETUP_BYTES.
Definition from_trusted_setup_file (fs : Fs) (path : Path) : outcome BlobVerificationError KzgSettings :=
  let? text := ok_or (read_file fs path) (TrustedSetupLoad "Failed to read file"%string) in
  verifier_from text.

(** *** The load generator ([crates/utils/src/tx.rs])

    It reads the same file as a [serde_json::Value], whose objects keep the last
    member of a name; whatever is wrong with the file is a panic. *)
Fixpoint last_member (key : string) (members : list (string * Shown)) : option Shown :=
  match members with
  | [] => None
  | (k, v) :: members =>
    match last_member key members with Some w => Some w | None => if decide (k = key) then Some v else None end
  end.
Definition value_index (key : string) (v : Shown) : Shown :=
  match v with SMap members => default SOther (last_member key members) | _ => SOther end.
Definition as_array (v : Shown) : outcome string (list Shown) := match v with SSeq l => Ok l | _ => Panic end.
Definition point_bytes (v : Shown) : outcome string bytes :=
  match v with
  | SString s => match hex_decode (strip_0x s) with Some b => Ok b | None => Panic end
  | _ => Panic
  end.
Definition get_kzg_settings : outcome string KzgSettings :=
  match json_show TRUSTED_SETUP_BYTES with
  | None => Panic
  | Some setup_json =>
    let? g1m := as_array (value_index "g1_monomial" setup_json) in
    let? g1l := as_array (value_index "g1_lagrange" setup_json) in
    let? g2m := as_array (value_index "g2_monomial" setup_json) in
    let? g1m := omapM point_bytes g1m in
    let? g1l := omapM point_bytes g1l in
    let? g2m := omapM point_bytes g2m in
    match load_trusted_setup (mjoin g1m) (mjoin g1l) (mjoin g2m) 0 with Some ks => Ok ks | None => Panic end
  end.
End verifier_setup.

(** ** What was written is read back *)

Lemma de_u8_byte (z : Z) : is_byte z → de_u8 (SNumber z) = Ok z.
Proof. unfold is_byte. intros Hz. cbn. by replace ((0 <=? z) && (z <? 256)) with true by lia. Qed.
Lemma de_u8_sound (v : Shown) (z : Z) : de_u8 v = Ok z → is_byte z.
Proof. destruct v; try done. cbn. destruct (_ && _) eqn:?; [|done]. intros [= <-]. unfold is_byte. lia. Qed.

Lemma visit_seq_bytes (b : bytes) (rest : list Shown) : Forall is_byte b →
  visit_seq (length b) ((SNumber <$> b) ++ rest) = Ok b.
Proof.
  induction 1 as [|z b Hz Hb IH]; [done|]. cbn [length visit_seq fmap list_fmap app].
  rewrite de_u8_byte by done. cbn [obind]. by rewrite IH.
Qed.
Lemma visit_seq_sound (n : nat) : ∀ seq b, visit_seq n seq = Ok b → length b = n ∧ Forall is_byte b.
Proof.
  induction n as [|n IH]; intros seq b; cbn; [by intros [= <-]|]. destruct seq as [|v seq]; [done|].
  destruct (de_u8 v) as [z| |] eqn:Hz; try done. cbn. destruct (visit_seq n seq) as [bs| |] eqn:Hs; try done.
  intros [= <-]. destruct (IH _ _ Hs) as [<- Hbs]. split; [done|]. constructor; [by eapply de_u8_sound|done].
Qed.

(** How a format shows what was serialized as bytes: as such, or number by
    number. *)
Inductive shows_bytes (b : bytes) : Shown → Prop :=
| shown_bytes : shows_bytes b (SBytes b)
| shown_seq : shows_bytes b (SSeq (SNumber <$> b)).

(** A commitment or a proof is read back from any format, and whatever was read
    has its 48 bytes. *)
Lemma shown_commitment_read (c : KzgCommitment) (v : Shown) :
  length c = BYTES_PER_COMMITMENT → Forall is_byte c → shows_bytes c v → KzgCommitment_deserialize v = Ok c.
Proof.
  intros Hl Hc []; cbn [KzgCommitment_deserialize]; [unfold KzgCommitment_from_slice; by rewrite decide_True|].
  rewrite <-Hl, <-(app_nil_r (SNumber <$> c)). by apply visit_seq_bytes.
Qed.
Lemma shown_proof_read (p : KzgProof) (v : Shown) :
  length p = BYTES_PER_PROOF → Forall is_byte p → shows_bytes p v → KzgProof_deserialize v = Ok p.
Proof.
  intros Hl Hc []; cbn [KzgProof_deserialize]; [unfold KzgProof_from_slice; by rewrite decide_True|].
  rewrite <-Hl, <-(app_nil_r (SNumber <$> p)). by apply visit_seq_bytes.
Qed.
Lemma commitment_sized (v : Shown) (c : KzgCommitment) :
  KzgCommitment_deserialize v = Ok c → length c = BYTES_PER_COMMITMENT.
Proof.
  destruct v; try done; cbn [KzgCommitment_deserialize].
  - unfold KzgCommitment_from_slice. case_decide; [|done]. by intros [= <-].
  - intros Hv. by apply visit_seq_sound in Hv as [? _].
Qed.

(** *** The sync aggregate *)

Lemma de_array_bytes (b : bytes) : Forall is_byte b → de_array (length b) (SSeq (SNumber <$> b)) = Ok b.
Proof.
  intros Hb. unfold de_array, de_vec. rewrite (omapM_fmap_Ok _ SNumber id), list_fmap_id.
  - cbn. by rewrite Nat.eqb_refl.
  - rewrite Forall_forall in Hb. intros z Hz. apply de_u8_byte. by apply Hb.
Qed.
Lemma de_array_sized (n : nat) (v : Shown) (b : bytes) : de_array n v = Ok b → length b = n.
Proof.
  unfold de_array. destruct (de_vec de_u8 v) as [vec| |]; try done. cbn.
  destruct (length vec =? n)%nat eqn:E; [|done]. intros [= <-]. by apply Nat.eqb_eq.
Qed.

Definition aggregate_member (m : string * Shown) : bool :=
  bool_decide (m.1 = "sync_committee_bits"%string) || bool_decide (m.1 = "sync_committee_signature"%string).
Lemma visit_map_known (ms : list (string * Shown)) : ∀ bits sig,
  visit_map ms bits sig = visit_map (List.filter aggregate_member ms) bits sig.
Proof.
  induction ms as [|[k v] ms IH]; intros bits sig; [done|]. cbn [visit_map List.filter]. unfold aggregate_member at 1.
  cbn [fst]. destruct (decide (k = _)) as [Hk|Hk] eqn:D1.
  - rewrite bool_decide_true by done. cbn [orb visit_map]. rewrite D1. destruct (de_array 64 v); cbn; [apply IH|done..].
  - rewrite (bool_decide_false (k = _)) by done. cbn [orb]. destruct (decide (k = "sync_committee_signature"%string)) eqn:D2.
    + rewrite bool_decide_true by done. cbn [visit_map]. rewrite D1, D2. destruct (de_array 96 v); cbn; [apply IH|done..].
    + rewrite bool_decide_false by done. apply IH.
Qed.

(** The order of the members and members of other names do not matter. *)
Lemma aggregate_roundtrip (a : SyncAggregate) (ms : list (string * Shown)) :
  length (sa_committee_bits a) = 64%nat → length (sa_committee_signature a) = 96%nat →
  Forall is_byte (sa_committee_bits a) → Forall is_byte (sa_committee_signature a) →
  SMap (List.filter aggregate_member ms) = SyncAggregate_serialize a ∨
  SMap (rev (List.filter aggregate_member ms)) = SyncAggregate_serialize a →
  SyncAggregate_deserialize (SMap ms) = Ok a.
Proof.
  intros Hlb Hls Hb Hs Hms. cbn [SyncAggregate_deserialize]. rewrite visit_map_known.
  pose proof (de_array_bytes _ Hb) as Db. rewrite Hlb in Db. pose proof (de_array_bytes _ Hs) as Ds. rewrite Hls in Ds.
  assert (List.filter aggregate_member ms = rev (rev (List.filter aggregate_member ms))) as Hrev
    by by rewrite rev_involutive.
  destruct a as [bits sig]. cbn [sa_committee_bits sa_committee_signature] in *.
  destruct Hms as [[= ->]|[= Hr]]; [clear Hrev|rewrite Hrev, Hr; clear Hrev Hr; cbn [rev app]];
    cbn [visit_map decide]; rewrite ?Db, ?Ds; cbn -[de_array]; by rewrite ?Db, ?Ds.
Qed.

(** *** The trusted setup *)

Lemma strip_0x_hex (b : bytes) : strip_0x (hex0x b) = hex_encode b.
Proof.
  assert (∀ s, strip_prefix (String.list_ascii_of_string "0x") (String.list_ascii_of_string ("0x" +:+ s)%string)
               = Some (String.list_ascii_of_string s)) as Hs by reflexivity.
  unfold strip_0x, hex0x. rewrite Hs. apply String.string_of_list_ascii_of_string.
Qed.

Lemma hex_point (n : nat) (b : bytes) : length b = n → Forall is_byte b →
  hex_deserialize n (SString (hex0x b)) = Ok b.
Proof.
  intros <- Hb. unfold hex_deserialize. cbn [de_string obind]. rewrite strip_0x_hex, hex_roundtrip by done.
  cbn. by rewrite Nat.eqb_refl.
Qed.
Lemma hex_point_sized (n : nat) (v : Shown) (b : bytes) : hex_deserialize n v = Ok b → length b = n.
Proof.
  unfold hex_deserialize. destruct (de_string v) as [s| |]; try done. cbn.
  destruct (hex_decode (strip_0x s)) as [b'|]; [|done]. cbn.
  destruct (length b' =? n)%nat eqn:E; [|done]. intros [= <-]. by apply Nat.eqb_eq.
Qed.

(** Points of a size, as bytes and as the texts of a setup file. *)
Definition points (n : nat) (ps : list bytes) : Prop := Forall (λ b, length b = n ∧ Forall is_byte b) ps.
Definition point_texts (ps : list bytes) : Shown := SSeq (SString ∘ hex0x <$> ps).

Lemma points_read (n : nat) (ps : list bytes) : points n ps → de_vec (hex_deserialize n) (point_texts ps) = Ok ps.
Proof.
  intros Hps. unfold points in Hps. rewrite Forall_forall in Hps. cbn [de_vec point_texts].
  rewrite (omapM_fmap_Ok _ _ id), list_fmap_id; [done|]. intros b Hb. apply hex_point; apply (Hps b Hb).
Qed.
Lemma points_sized (n : nat) (v : Shown) (ps : list bytes) : de_vec (hex_deserialize n) v = Ok ps →
  length (mjoin ps) = (n * length ps)%nat.
Proof.
  destruct v as [| | |l| |]; try done. intros H%omapM_Ok_iff. induction H as [|x b l ps Hb Hl IH]; [cbn; lia|].
  change (length (b ++ mjoin ps) = (n * S (length ps))%nat). rewrite length_app, (hex_point_sized n x b Hb), IH. lia.
Qed.

Definition setup_member (m : string * Shown) : bool :=
  bool_decide (m.1 = "g1_monomial"%string) || bool_decide (m.1 = "g1_lagrange"%string)
  || bool_decide (m.1 = "g2_monomial"%string).
Lemma setup_members_known (ms : list (string * Shown)) : ∀ a b c,
  setup_members ms a b c = setup_members (List.filter setup_member ms) a b c.
Proof.
  induction ms as [|[k v] ms IH]; intros a b c; [done|]. cbn [setup_members List.filter]. unfold setup_member at 1.
  cbn [fst]. destruct (decide (k = "g1_monomial"%string)) eqn:D1.
  { rewrite bool_decide_true by done. cbn [orb setup_members]. rewrite D1. by destruct (set_field a _); cbn; [apply IH|..]. }
  rewrite (bool_decide_false (k = "g1_monomial"%string)) by done. cbn [orb].
  destruct (decide (k = "g1_lagrange"%string)) eqn:D2.
  { rewrite bool_decide_true by done. cbn [orb setup_members]. rewrite D1, D2. by destruct (set_field b _); cbn; [apply IH|..]. }
  rewrite (bool_decide_false (k = "g1_lagrange"%string)) by done. cbn [orb].
  destruct (decide (k = "g2_monomial"%string)) eqn:D3.
  - rewrite bool_decide_true by done. cbn [setup_members]. rewrite D1, D2, D3. by destruct (set_field c _); cbn; [apply IH|..].
  - rewrite bool_decide_false by done. apply IH.
Qed.

(** The setup whose points a file spells in hexadecimal. *)
Definition setup_shown (t : TrustedSetup) : list (string * Shown) :=
  [("g1_monomial"%string, point_texts (g1_monomial t)); ("g1_lagrange"%string, point_texts (g1_lagrange t));
   ("g2_monomial"%string, point_texts (g2_monomial t))].
Definition setup_wf (t : TrustedSetup) : Prop :=
  points BYTES_PER_G1_POINT (g1_monomial t) ∧ points BYTES_PER_G1_POINT (g1_lagrange t) ∧
  points BYTES_PER_G2_POINT (g2_monomial t).

Lemma setup_read (t : TrustedSetup) (ms : list (string * Shown)) :
  setup_wf t → List.filter setup_member ms = setup_shown t → TrustedSetup_deserialize (SMap ms) = Ok t.
Proof.
  intros (H1 & H2 & H3) Hms. cbn [TrustedSetup_deserialize]. rewrite setup_members_known, Hms. destruct t as [a b c].
  cbn [g1_monomial g1_lagrange g2_monomial setup_shown] in *.
  cbn -[de_vec point_texts]. unfold de_G1Point, de_G2Point. rewrite points_read by done. cbn -[de_vec point_texts].
  unfold de_G1Point, de_G2Point. rewrite points_read by done. cbn -[de_vec point_texts].
  unfold de_G2Point. rewrite points_read by done. done.
Qed.

Lemma set_field_Ok {A} (slot : option A) (r : outcome string A) (o : option A) :
  set_field slot r = Ok o → ∃ a, r = Ok a ∧ o = Some a.
Proof. unfold set_field. destruct slot; [done|]. destruct r as [a| |]; try done. cbn. intros [= <-]. eauto. Qed.

(** A setup that was read has arrays of whole points. *)
Definition whole (n : nat) (ps : list bytes) : Prop := length (mjoin ps) = (n * length ps)%nat.
Lemma setup_members_whole (ms : list (string * Shown)) : ∀ a b c t, setup_members ms a b c = Ok t →
  (∀ x, a = Some x → whole BYTES_PER_G1_POINT x) → (∀ x, b = Some x → whole BYTES_PER_G1_POINT x) →
  (∀ x, c = Some x → whole BYTES_PER_G2_POINT x) →
  whole BYTES_PER_G1_POINT (g1_monomial t) ∧ whole BYTES_PER_G1_POINT (g1_lagrange t) ∧
  whole BYTES_PER_G2_POINT (g2_monomial t).
Proof.
  induction ms as [|[k v] ms IH]; intros a b c t; cbn [setup_members].
  { destruct a as [a|], b as [b|], c as [c|]; cbn; try done. intros [= <-] Ha Hb Hc. cbn. auto. }
  repeat case_decide; try (destruct (set_field _ _) as [o| |] eqn:E; cbn [obind]; try done;
    apply set_field_Ok in E as (x & Hx & ->)); intros Ht Ha Hb Hc; eapply IH; try exact Ht; auto;
    intros y [= <-]; by eapply points_sized.
Qed.

(** Where a field of the setup comes from: the member of its name, of which there
    is one. *)
Definition field_from (slot : option (list bytes)) (n : nat) (key : string) (ms : list (string * Shown))
    (x : list bytes) : Prop :=
  match slot with
  | Some y => y = x ∧ last_member key ms = None
  | None => ∃ v, last_member key ms = Some v ∧ de_vec (hex_deserialize n) v = Ok x
  end.
Lemma field_from_other slot n key k v ms x : k ≠ key → field_from slot n key ms x → field_from slot n key ((k, v) :: ms) x.
Proof.
  intros Hne. unfold field_from. destruct slot; cbn [last_member].
  - intros [-> ->]. by rewrite decide_False.
  - by intros (w & -> & Hw); eauto.
Qed.
Lemma field_from_here n key v ms x y :
  de_vec (hex_deserialize n) v = Ok y → field_from (Some y) n key ms x → field_from None n key ((key, v) :: ms) x.
Proof. intros Hv [-> Hl]. exists v. cbn [last_member]. by rewrite Hl, decide_True. Qed.

Lemma setup_fields (ms : list (string * Shown)) : ∀ a b c t, setup_members ms a b c = Ok t →
  field_from a BYTES_PER_G1_POINT "g1_monomial" ms (g1_monomial t) ∧
  field_from b BYTES_PER_G1_POINT "g1_lagrange" ms (g1_lagrange t) ∧
  field_from c BYTES_PER_G2_POINT "g2_monomial" ms (g2_monomial t).
Proof.
  induction ms as [|[k v] ms IH]; intros a b c t; cbn [setup_members].
  { destruct a as [a|], b as [b|], c as [c|]; cbn; try done. by intros [= <-]. }
  destruct (decide (k = _)) as [->|N1]; [|destruct (decide (k = _)) as [->|N2]; [|destruct (decide (k = _)) as [->|N3]]].
  4: { intros (H1 & H2 & H3)%IH. split_and!; by apply field_from_other. }
  all: destruct (set_field _ _) as [o| |] eqn:E; cbn [obind]; try done;
    unfold set_field in E; match type of E with match ?slot with _ => _ end = _ => destruct slot; [done|] end;
    destruct (de_vec _ v) as [y| |] eqn:Hv; try done; cbn [obind] in E; injection E as <-;
    intros (H1 & H2 & H3)%IH; split_and!;
    (by eapply field_from_here) || (by apply field_from_other).
Qed.

(** What [hex_serde] reads, the load generator reads too. *)
Lemma point_bytes_read (n : nat) (v : Shown) (x : list bytes) : de_vec (hex_deserialize n) v = Ok x →
  ∃ l, v = SSeq l ∧ omapM point_bytes l = Ok x.
Proof.
  destruct v as [| | |l| |]; try done. intros Hl%omapM_Ok_iff. exists l. split; [done|]. apply omapM_Ok_iff.
  eapply Forall2_impl; [exact Hl|]. intros w b. unfold hex_deserialize. destruct w; try done. cbn.
  destruct (hex_decode (strip_0x s)) as [b'|]; [|done]. cbn. destruct (negb _); [done|]. by intros [= <-].
Qed.

Section setup_theorems.
Context `{SetupLib}.

(** When the verifier of the nodes can be made, the load generator does not panic
    and computes its commitments and proofs under the same settings. *)
Lemma generator_shares_setup (ks : KzgSettings) : BlobVerifier_new = Ok ks → get_kzg_settings = Ok ks.
Proof.
  unfold BlobVerifier_new, verifier_from, get_kzg_settings. destruct (json_show _) as [v|]; [|done]. cbn [ok_or obind].
  destruct (TrustedSetup_deserialize v) as [t| |] eqn:Hv; cbn [omap_err obind]; try done.
  destruct v as [| | | |ms|]; try done. apply setup_fields in Hv as ((v1 & L1 & H1) & (v2 & L2 & H2) & (v3 & L3 & H3)).
  apply point_bytes_read in H1 as (l1 & -> & P1), H2 as (l2 & -> & P2), H3 as (l3 & -> & P3).
  cbn [value_index]. rewrite L1, L2, L3. cbn [default from_option as_array obind id]. rewrite P1. cbn [obind]. rewrite P2.
  cbn [obind]. rewrite P3. cbn [obind]. unfold g1_monomial_bytes, g1_lagrange_bytes, g2_monomial_bytes, NO_PRECOMPUTE.
  destruct (load_trusted_setup _ _ _ _) as [ks'|]; [|done]. by intros [= ->].
Qed.

(** The verifier is made from exactly the points the file spells, and from
    nothing but whole points. *)
Lemma verifier_setup (text : bytes) :
  (∀ t ms, json_show text = Some (SMap ms) → setup_wf t → List.filter setup_member ms = setup_shown t →
     verifier_from text
     = ok_or (load_trusted_setup (g1_monomial_bytes t) (g1_lagrange_bytes t) (g2_monomial_bytes t) NO_PRECOMPUTE)
         (TrustedSetupLoad "Failed to load KZG settings"%string)) ∧
  (∀ ks, verifier_from text = Ok ks → ∃ t,
     load_trusted_setup (g1_monomial_bytes t) (g1_lagrange_bytes t) (g2_monomial_bytes t) NO_PRECOMPUTE = Some ks ∧
     whole BYTES_PER_G1_POINT (g1_monomial t) ∧ whole BYTES_PER_G1_POINT (g1_lagrange t) ∧
     whole BYTES_PER_G2_POINT (g2_monomial t)).
Proof.
  split.
  - intros t ms Hj Hwf Hms. unfold verifier_from. rewrite Hj. cbn [ok_or obind].
    by rewrite (setup_read t ms).
  - intros ks. unfold verifier_from. destruct (json_show text) as [v|]; [|done]. cbn [ok_or obind].
    destruct (TrustedSetup_deserialize v) as [t| |] eqn:Hv; cbn [omap_err obind]; try done.
    destruct (load_trusted_setup _ _ _ _) as [k|] eqn:Hl; [|done]. intros [= <-]. exists t. split; [done|].
    destruct v; try done. by eapply setup_members_whole.
Qed.

(** A file with the content that is compiled in gives the same verifier. *)
Lemma setup_file_same (fs : Fs) (path : Path) :
  read_file fs path = Some TRUSTED_SETUP_BYTES → from_trusted_setup_file fs path = BlobVerifier_new.
Proof. intros Hr. unfold from_trusted_setup_file. by rewrite Hr. Qed.
End setup_theorems.

(** ** Concrete inputs *)

Module SerdeDemo.
(** The visitor of a sequence leaves what follows the array to the format. *)
Example sequence_rest_left :
  KzgCommitment_deserialize (SSeq (replicate 49 (SNumber 7))) = Ok (replicate 48 7) ∧
  KzgCommitment_deserialize (SSeq (replicate 47 (SNumber 7))) = Err invalid_length ∧
  KzgCommitment_deserialize (SBytes (replicate 49 7)) = Err "Invalid commitment size"%string.
Proof. vm_compute. repeat split. Qed.

(** The sync aggregate is read by name only, not from a sequence of its fields. *)
Example aggregate_needs_names :
  SyncAggregate_deserialize (SSeq [SSeq (replicate 64 (SNumber 0)); SSeq (replicate 96 (SNumber 0))]) = Err invalid_type ∧
  SyncAggregate_deserialize (SyncAggregate_serialize SyncAggregate_default) = Ok SyncAggregate_default.
Proof. vm_compute. repeat split. Qed.

(** A setup of one point each, with a member of another name. *)
Definition demo_setup : TrustedSetup := mkSetup [replicate 48 1] [replicate 48 2] [replicate 96 3].
#[local] Instance demo_setup_lib : SetupLib := {|
  json_show b := if decide (b = []) then None
                 else Some (SMap (("note"%string, SOther) :: setup_shown demo_setup));
  KzgSettings := bytes * bytes * bytes; load_trusted_setup a b c _ := Some (a, b, c); TRUSTED_SETUP_BYTES := [1] |}.
Example setup_loads : BlobVerifier_new = Ok (replicate 48 1, replicate 48 2, replicate 96 3).
Proof.
  destruct (verifier_setup TRUSTED_SETUP_BYTES) as [Hv _]. unfold BlobVerifier_new.
  rewrite (Hv demo_setup (("note"%string, SOther) :: setup_shown demo_setup)); [done|done| |done].
  unfold setup_wf, points. split_and!; repeat constructor; cbn; by vm_compute.
Qed.
End SerdeDemo.
