(* ===== verification/Store.v ===== *)
(** * The consensus store ([crates/consensus/src/store.rs], [store/keys.rs])

    Ten [redb] tables of encoded records.  Each operation runs in one
    transaction: a failing one leaves the tables as they were.  The state
    carries the outcomes of the transactions to come.  Operations run on a
    blocking task, so that a panic inside one is an error of its caller. *)
From S2P Require Import Prelude Types Merkle Metadata.
Open Scope monad_scope.

(** ** Tables *)

Record BlockPayloadRecord := mkPayloadRecord {
  br_execution_payload_ssz : bytes; br_execution_requests : list bytes }.
#[export] Instance BlockPayloadRecord_eq_dec : EqDecision BlockPayloadRecord.
Proof. solve_decision. Defined.
#[export] Instance BlockPayloadRecord_countable : Countable BlockPayloadRecord.
Proof.
  refine (inj_countable' (λ r, (br_execution_payload_ssz r, br_execution_requests r))
    (λ '(x0, x1), mkPayloadRecord x0 x1) _). by intros [].
Defined.

Inductive StoreError :=
| StorageFailed                                       (* any error of the database *)
| Protobuf (e : string)
| TaskJoin
| MissingBlobMetadata (height : Height) (round : Z).

(** How a transaction fails: as a whole, or when reading entries, of which
    only the first [n] come out. *)
Inductive TxFault := TxFailed | ReadFailed (n : nat).

(** Keys compare as their integers: heights as [u64], rounds as [i64] with
    [Nil] below every round, blob indices as [u16].  [Keys.v] shows that the
    tables of bytes of the database answer as these maps. *)
Abbreviation HTable := (gmap Z (list Z)) (only parsing).
Abbreviation HRTable := (gmap (Z * Z) (list Z)) (only parsing).

Record Store := mkStore {
  certificates : HTable;
  decided_values : HTable;
  undecided_values : HRTable;
  decided_block_data : HTable;
  undecided_block_data : HRTable;
  consensus_block_metadata : HTable;
  blob_metadata_decided : HTable;
  blob_metadata_undecided : HRTable;
  blob_metadata_meta : gmap string (list Z);
  blob_archival : HRTable;
  tx_faults : list (option TxFault) }.

Definition with_certificates (t : HTable) (s : Store) : Store :=
  mkStore t (decided_values s) (undecided_values s) (decided_block_data s)
    (undecided_block_data s) (consensus_block_metadata s) (blob_metadata_decided s)
    (blob_metadata_undecided s) (blob_metadata_meta s) (blob_archival s) (tx_faults s).
Definition with_decided_values (t : HTable) (s : Store) : Store :=
  mkStore (certificates s) t (undecided_values s) (decided_block_data s)
    (undecided_block_data s) (consensus_block_metadata s) (blob_metadata_decided s)
    (blob_metadata_undecided s) (blob_metadata_meta s) (blob_archival s) (tx_faults s).
Definition with_undecided_values (t : HRTable) (s : Store) : Store :=
  mkStore (certificates s) (decided_values s) t (decided_block_data s)
    (undecided_block_data s) (consensus_block_metadata s) (blob_metadata_decided s)
    (blob_metadata_undecided s) (blob_metadata_meta s) (blob_archival s) (tx_faults s).
Definition with_decided_block_data (t : HTable) (s : Store) : Store :=
  mkStore (certificates s) (decided_values s) (undecided_values s) t
    (undecided_block_data s) (consensus_block_metadata s) (blob_metadata_decided s)
    (blob_metadata_undecided s) (blob_metadata_meta s) (blob_archival s) (tx_faults s).
Definition with_undecided_block_data (t : HRTable) (s : Store) : Store :=
  mkStore (certificates s) (decided_values s) (undecided_values s) (decided_block_data s)
    t (consensus_block_metadata s) (blob_metadata_decided s)
    (blob_metadata_undecided s) (blob_metadata_meta s) (blob_archival s) (tx_faults s).
Definition with_consensus_block_metadata (t : HTable) (s : Store) : Store :=
  mkStore (certificates s) (decided_values s) (undecided_values s) (decided_block_data s)
    (undecided_block_data s) t (blob_metadata_decided s)
    (blob_metadata_undecided s) (blob_metadata_meta s) (blob_archival s) (tx_faults s).
Definition with_blob_metadata_decided (t : HTable) (s : Store) : Store :=
  mkStore (certificates s) (decided_values s) (undecided_values s) (decided_block_data s)
    (undecided_block_data s) (consensus_block_metadata s) t
    (blob_metadata_undecided s) (blob_metadata_meta s) (blob_archival s) (tx_faults s).
Definition with_blob_metadata_undecided (t : HRTable) (s : Store) : Store :=
  mkStore (certificates s) (decided_values s) (undecided_values s) (decided_block_data s)
    (undecided_block_data s) (consensus_block_metadata s) (blob_metadata_decided s)
    t (blob_metadata_meta s) (blob_archival s) (tx_faults s).
Definition with_blob_metadata_meta (t : gmap string (list Z)) (s : Store) : Store :=
  mkStore (certificates s) (decided_values s) (undecided_values s) (decided_block_data s)
    (undecided_block_data s) (consensus_block_metadata s) (blob_metadata_decided s)
    (blob_metadata_undecided s) t (blob_archival s) (tx_faults s).
Definition with_blob_archival (t : HRTable) (s : Store) : Store :=
  mkStore (certificates s) (decided_values s) (undecided_values s) (decided_block_data s)
    (undecided_block_data s) (consensus_block_metadata s) (blob_metadata_decided s)
    (blob_metadata_undecided s) (blob_metadata_meta s) t (tx_faults s).
Definition with_tx_faults (fs : list (option TxFault)) (s : Store) : Store :=
  mkStore (certificates s) (decided_values s) (undecided_values s) (decided_block_data s)
    (undecided_block_data s) (consensus_block_metadata s) (blob_metadata_decided s)
    (blob_metadata_undecided s) (blob_metadata_meta s) (blob_archival s) fs.

Abbreviation StoreM A := (M Store StoreError A) (only parsing).

(** ** Keys ([keys.rs]) *)

(** [Round::from(i64)] *)
Definition Round_from_i64 (z : Z) : Round := if z <? 0 then Nil else RSome (z mod 2^32).

Definition round_key (h : Height) (r : Round) : Z * Z := (h, Round_as_i64 r).

(** The order of pair keys: by height, then by round or index. *)
Definition pair_rank (k : Z * Z) : Z := k.1 * 2^64 + k.2.

Definition sorted_heights (t : HTable) : list Z := sort_by_key id (map_to_list t).*1.
Definition sorted_pairs (t : HRTable) : list (Z * Z) := sort_by_key pair_rank (map_to_list t).*1.

(** ** Transactions *)

Definition next_fault : StoreM (option TxFault) := λ s,
  match tx_faults s with
  | [] => (s, Ok None)
  | f :: fs => (with_tx_faults fs s, Ok f)
  end.

Definition read_tx {A} (body : Store → outcome StoreError A) : StoreM A :=
  let* f := next_fault in
  match f with
  | Some _ => fail StorageFailed
  | None => let* s := get in lift (body s)
  end.

(** An error in the body drops the transaction, so nothing is written. *)
Definition write_tx {A} (body : Store → outcome StoreError (Store * A)) : StoreM A :=
  let* f := next_fault in
  match f with
  | Some _ => fail StorageFailed
  | None => λ s, match body s with
                 | Ok (s', a) => (s', Ok a)
                 | Err e => (s, Err e)
                 | Panic => (s, Panic)
                 end
  end.

(** [spawn_blocking(..).await?] *)
Definition blocking {A} (c : StoreM A) : StoreM A := λ s,
  let (s', r) := c s in (s', match r with Panic => Err TaskJoin | _ => r end).

(** ** Operations *)

Section store.
Context `{KV : Codec Value} `{KP : Codec ProposedValue} `{KC : Codec CommitCertificate}
  `{KCM : Codec ConsensusBlockMetadata} `{KB : Codec BlobMetadata} `{KA : Codec ArchiveRecord}
  `{PR : ProstMessage BlockPayloadRecord}.
Open Scope outcome_scope.

(** Bytes that are no payload record are a bare payload of an older version. *)
Definition BlockPayloadRecord_decode (b : bytes) : BlockPayloadRecord :=
  match prost_decode b with
  | Some r => r
  | None => mkPayloadRecord b []
  end.

(** [decode(..).ok()]: an error is no value, a panic still unwinds. *)
Definition decode_ok {A} `{Codec A} (b : bytes) : outcome StoreError (option A) :=
  match decode b with Ok a => Ok (Some a) | Err _ => Ok None | Panic => Panic end.

Definition decode_opt {A} `{Codec A} (o : option bytes) : outcome StoreError (option A) :=
  match o with
  | None => Ok None
  | Some b => let? a := omap_err Protobuf (decode b) in Ok (Some a)
  end.

Definition get_decided_value (height : Height) : StoreM (option DecidedValue) :=
  blocking (read_tx (λ s,
    let? value := match decided_values s !! height with
                  | Some b => decode_ok b | None => Ok None end in
    let? certificate := match certificates s !! height with
                        | Some b => decode_ok b | None => Ok None end in
    Ok (match value, certificate with
        | Some v, Some c => Some (mkDecided v c)
        | _, _ => None
        end))).

Definition store_decided_value (certificate : CommitCertificate) (value : Value) : StoreM unit :=
  blocking (write_tx (λ s,
    let height := cc_height certificate in
    let? vb := omap_err Protobuf (encode value) in
    let s := with_decided_values (<[height := vb]> (decided_values s)) s in
    let? cb := omap_err Protobuf (encode certificate) in
    Ok (with_certificates (<[height := cb]> (certificates s)) s, tt))).

(** A read error of the lookup itself is swallowed. *)
Definition get_undecided_proposal (height : Height) (round : Round)
    : StoreM (option ProposedValue) :=
  blocking (let* f := next_fault in
    match f with
    | Some TxFailed => fail StorageFailed
    | Some (ReadFailed _) => ret None
    | None => let* s := get in lift (decode_opt (undecided_values s !! round_key height round))
    end)%monad.

(** Inserts only when the key is free. *)
Definition insert_if_absent {K} `{Countable K} (k : K) (b : bytes) (t : gmap K (list Z))
    : gmap K (list Z) :=
  match t !! k with Some _ => t | None => <[k := b]> t end.

Definition store_undecided_proposal (p : ProposedValue) : StoreM unit :=
  blocking (let* b := lift (omap_err Protobuf (encode p)) in
    write_tx (λ s,
      Ok (with_undecided_values
            (insert_if_absent (round_key (pv_height p) (pv_round p)) b (undecided_values s)) s,
          tt)))%monad.

Definition delete_undecided_proposal (height : Height) (round : Round) : StoreM unit :=
  blocking (write_tx (λ s,
    Ok (with_undecided_values (delete (round_key height round) (undecided_values s)) s, tt))).

(** The keys below [(retain_height, Nil)], in order. *)
Definition keys_below (retain_height : Height) (t : HRTable) : list (Z * Z) :=
  filter (λ k, pair_rank k < pair_rank (round_key retain_height Nil)) (sorted_pairs t).

Definition remove_keys (ks : list (Z * Z)) (t : HRTable) : HRTable :=
  foldl (λ t k, delete k t) t ks.

(** Entries that cannot be read are skipped, not reported. *)
Definition prune (retain_height : Height) : StoreM (list Height) :=
  blocking (let* f := next_fault in
    match f with
    | Some TxFailed => fail StorageFailed
    | _ => λ s,
      let seen ks := match f with Some (ReadFailed n) => take n ks | _ => ks end in
      let s := with_undecided_values
                 (remove_keys (seen (keys_below retain_height (undecided_values s)))
                    (undecided_values s)) s in
      let s := with_undecided_block_data
                 (remove_keys (seen (keys_below retain_height (undecided_block_data s)))
                    (undecided_block_data s)) s in
      (s, Ok [])
    end)%monad.

Definition min_decided_value_height : M Store StoreError (option Height) := λ s,
  match blocking (read_tx (λ s, Ok (head (sorted_heights (decided_values s))))) s with
  | (s', Ok r) => (s', Ok r)
  | (s', _) => (s', Ok None)
  end.

Definition max_decided_value_height : M Store StoreError (option Height) := λ s,
  match blocking (read_tx (λ s, Ok (last (sorted_heights (decided_values s))))) s with
  | (s', Ok r) => (s', Ok r)
  | (s', _) => (s', Ok None)
  end.

Definition load_block_payload_record (height : Height) (round : Round)
    : StoreM (option BlockPayloadRecord) :=
  read_tx (λ s,
    match undecided_block_data s !! round_key height round with
    | Some b => Ok (Some (BlockPayloadRecord_decode b))
    | None =>
      match decided_block_data s !! height with
      | Some b => Ok (Some (BlockPayloadRecord_decode b))
      | None => Ok None
      end
    end).

Definition get_block_data (height : Height) (round : Round) : StoreM (option bytes) :=
  blocking (let* r := load_block_payload_record height round in
            ret (br_execution_payload_ssz <$> r))%monad.

Definition get_execution_requests (height : Height) (round : Round) : StoreM (option (list bytes)) :=
  blocking (let* r := load_block_payload_record height round in
            ret (br_execution_requests <$> r))%monad.

Definition store_undecided_block_data (height : Height) (round : Round) (data : bytes)
    (reqs : list bytes) : StoreM unit :=
  blocking (write_tx (λ s,
    Ok (with_undecided_block_data
          (insert_if_absent (round_key height round) (encode_to_vec (mkPayloadRecord data reqs))
             (undecided_block_data s)) s, tt))).

Definition delete_undecided_block_data (height : Height) (round : Round) : StoreM unit :=
  blocking (write_tx (λ s,
    Ok (with_undecided_block_data (delete (round_key height round) (undecided_block_data s)) s,
        tt))).

Definition store_decided_block_data (height : Height) (data : bytes) (reqs : list bytes)
    : StoreM unit :=
  blocking (write_tx (λ s,
    Ok (with_decided_block_data
          (insert_if_absent height (encode_to_vec (mkPayloadRecord data reqs))
             (decided_block_data s)) s, tt))).

(** Overwrites an entry that differs. *)
Definition put_consensus_block_metadata (height : Height) (m : ConsensusBlockMetadata)
    : StoreM unit :=
  blocking (let* b := lift (omap_err Protobuf (encode m)) in
    write_tx (λ s,
      let t := consensus_block_metadata s in
      let should_write := match t !! height with
                          | Some existing => negb (bool_decide (existing = b))
                          | None => true
                          end in
      Ok (if should_write then with_consensus_block_metadata (<[height := b]> t) s else s, tt)))%monad.

Definition get_consensus_block_metadata (height : Height) : StoreM (option ConsensusBlockMetadata) :=
  blocking (read_tx (λ s, decode_opt (consensus_block_metadata s !! height))).

Definition put_blob_metadata_undecided (height : Height) (round : Round) (m : BlobMetadata)
    : StoreM unit :=
  blocking (let* b := lift (omap_err Protobuf (encode m)) in
    write_tx (λ s,
      Ok (with_blob_metadata_undecided
            (insert_if_absent (round_key height round) b (blob_metadata_undecided s)) s, tt)))%monad.

Definition get_blob_metadata_undecided (height : Height) (round : Round)
    : StoreM (option BlobMetadata) :=
  blocking (read_tx (λ s, decode_opt (blob_metadata_undecided s !! round_key height round))).

(** The archive entries of a height, by ascending index. *)
Definition archival_range (height : Height) (t : HRTable) : list (Z * list Z) :=
  sort_by_key fst
    (omap (λ e : (Z * Z) * list Z,
             if (e.1.1 =? height) && (0 <=? e.1.2) && (e.1.2 <=? 65535) then Some (e.1.2, e.2)
             else None) (map_to_list t)).

Fixpoint hydrate_records (rs : list bytes) (m : BlobMetadata) : outcome StoreError BlobMetadata :=
  match rs with
  | [] => Ok m
  | b :: rs =>
    let? r := omap_err Protobuf (decode b) in
    let? m := set_archive_record m r in
    hydrate_records rs m
  end.

Definition hydrate_archival_records (height : Height) (m : BlobMetadata) (s : Store)
    : outcome StoreError BlobMetadata :=
  hydrate_records (archival_range height (blob_archival s)).*2 m.

Definition read_blob_metadata (height : Height) (s : Store)
    : outcome StoreError (option BlobMetadata) :=
  match blob_metadata_decided s !! height with
  | None => Ok None
  | Some b =>
    let? m := omap_err Protobuf (decode b) in
    let? m := hydrate_archival_records height m s in
    Ok (Some m)
  end.

Definition get_blob_metadata (height : Height) : StoreM (option BlobMetadata) :=
  blocking (read_tx (read_blob_metadata height)).

Definition insert_archive_record (height : Height) (blob_index : Z) (record : ArchiveRecord)
    : StoreM unit :=
  blocking (let* b := lift (omap_err Protobuf (encode record)) in
    write_tx (λ s,
      Ok (with_blob_archival (<[(height, blob_index) := b]> (blob_archival s)) s, tt)))%monad.

Definition archived_blob_indexes (height : Height) : StoreM (list Z) :=
  blocking (read_tx (λ s, Ok (archival_range height (blob_archival s)).*1)).

Definition store_archive_records (height : Height) : StoreM (list ArchiveRecord) :=
  blocking (read_tx (λ s,
    omapM (λ b, omap_err Protobuf (decode b)) (archival_range height (blob_archival s)).*2)).

Definition update_blob_metadata (height : Height) (m : BlobMetadata) : StoreM unit :=
  blocking (let* b := lift (omap_err Protobuf (encode m)) in
    write_tx (λ s,
      Ok (with_blob_metadata_decided (<[height := b]> (blob_metadata_decided s)) s, tt)))%monad.

Definition decided_heights : StoreM (list Height) :=
  blocking (read_tx (λ s, Ok (sorted_heights (blob_metadata_decided s)))).

Definition LATEST_HEIGHT : string := "latest_height".

(** The atomic promotion: read undecided, write decided, move the pointer,
    delete undecided, in one transaction. *)
Definition mark_blob_metadata_decided (height : Height) (round : Round) : StoreM unit :=
  blocking (write_tx (λ s,
    match blob_metadata_undecided s !! round_key height round with
    | None =>
      match blob_metadata_decided s !! height with
      | Some _ => Ok (s, tt)
      | None => Err (MissingBlobMetadata height (Round_as_i64 round))
      end
    | Some b =>
      let s := with_blob_metadata_decided (<[height := b]> (blob_metadata_decided s)) s in
      let s := with_blob_metadata_meta
                 (<[LATEST_HEIGHT := be_bytes 8 height]> (blob_metadata_meta s)) s in
      Ok (with_blob_metadata_undecided
            (delete (round_key height round) (blob_metadata_undecided s)) s, tt)
    end)).

Definition insert_genesis_blob_metadata (m : BlobMetadata) : StoreM unit :=
  write_tx (λ s,
    match blob_metadata_decided s !! 0 with
    | Some _ => Ok (s, tt)
    | None =>
      let? b := omap_err Protobuf (encode m) in
      let s := with_blob_metadata_decided (<[0 := b]> (blob_metadata_decided s)) s in
      Ok (with_blob_metadata_meta (<[LATEST_HEIGHT := be_bytes 8 0]> (blob_metadata_meta s)) s, tt)
    end).

Definition seed_genesis_blob_metadata : StoreM unit :=
  (let* m := lift BlobMetadata_genesis in
   blocking (insert_genesis_blob_metadata m))%monad.

Definition get_latest_blob_metadata : StoreM (option (Height * BlobMetadata)) :=
  blocking (read_tx (λ s,
    match blob_metadata_meta s !! LATEST_HEIGHT with
    | None => Ok None
    | Some b =>
      if negb (length b =? 8)%nat then Ok None
      else
        let height := of_be b in
        let? m := read_blob_metadata height s in
        Ok (pair height <$> m)
    end)).

Definition get_all_undecided_blob_metadata_before (before_height : Height)
    : StoreM (list (Height * Round)) :=
  blocking (read_tx (λ s,
    Ok ((λ k : Z * Z, (k.1, Round_from_i64 k.2)) <$>
          take_while (λ k : Z * Z, negb (before_height <=? k.1))
            (sorted_pairs (blob_metadata_undecided s))))).

Definition delete_blob_metadata_undecided (height : Height) (round : Round) : StoreM unit :=
  blocking (write_tx (λ s,
    Ok (with_blob_metadata_undecided
          (delete (round_key height round) (blob_metadata_undecided s)) s, tt))).
End store.

(** ** Decided records are kept *)

(** Keys are only added to the tables of decided data. *)
Record decided_kept (s s' : Store) : Prop := {
  kept_values : dom (decided_values s) ⊆ dom (decided_values s');
  kept_certificates : dom (certificates s) ⊆ dom (certificates s');
  kept_block_data : dom (decided_block_data s) ⊆ dom (decided_block_data s');
  kept_consensus : dom (consensus_block_metadata s) ⊆ dom (consensus_block_metadata s');
  kept_blob_metadata : dom (blob_metadata_decided s) ⊆ dom (blob_metadata_decided s');
  kept_archival : dom (blob_archival s) ⊆ dom (blob_archival s') }.

#[export] Instance decided_kept_preorder : PreOrder decided_kept.
Proof. split; [by intros s; split|]. intros s1 s2 s3 [] []. split; by etrans. Qed.

Lemma steps_blocking {A} (R : Store → Store → Prop) (c : StoreM A) :
  steps R c → steps R (blocking c).
Proof. intros Hc s. specialize (Hc s). unfold blocking. by destruct (c s). Qed.

Lemma steps_next_fault (R : Store → Store → Prop) `{!Reflexive R} :
  (∀ s fs, R s (with_tx_faults fs s)) → steps R next_fault.
Proof. intros HR s. unfold next_fault. destruct (tx_faults s); simpl; [done|apply HR]. Qed.

Lemma steps_read_tx {A} (R : Store → Store → Prop) `{!PreOrder R} (body : Store → outcome StoreError A) :
  (∀ s fs, R s (with_tx_faults fs s)) → steps R (read_tx body).
Proof.
  intros HR. unfold read_tx. apply steps_bind; [done|by apply steps_next_fault; [apply _|]|].
  intros [f|]; [by apply steps_fail|]. apply steps_bind; [done|by apply steps_get|].
  intros; by apply steps_lift.
Qed.

Lemma steps_write_tx {A} (R : Store → Store → Prop) `{!PreOrder R}
    (body : Store → outcome StoreError (Store * A)) :
  (∀ s fs, R s (with_tx_faults fs s)) → (∀ s s' a, body s = Ok (s', a) → R s s') →
  steps R (write_tx body).
Proof.
  intros HR Hb. unfold write_tx. apply steps_bind; [done|by apply steps_next_fault; [apply _|]|].
  intros [f|]; [by apply steps_fail|]. intros s. destruct (body s) as [[s' a]| |] eqn:E; simpl;
    [by eapply Hb|reflexivity..].
Qed.

(** Prove a step relation of a store operation from what its transaction
    writes. *)
Ltac store_steps :=
  apply steps_blocking;
  try (apply steps_bind; [apply _|apply steps_lift, _|intros ?]);
  first
    [ apply steps_read_tx; [apply _|]
    | apply steps_write_tx; [apply _|..] ].

Lemma decided_kept_faults s fs : decided_kept s (with_tx_faults fs s).
Proof. by split. Qed.

Lemma dom_insert_mono {K} `{Countable K} {A} (k : K) (v : A) (t : gmap K A) : dom t ⊆ dom (<[k := v]> t).
Proof. rewrite dom_insert. set_solver. Qed.

Lemma dom_insert_if_absent_mono {K} `{Countable K} (k : K) b t : dom t ⊆ dom (insert_if_absent k b t).
Proof. unfold insert_if_absent. destruct (t !! k); [done|apply dom_insert_mono]. Qed.
#[export] Hint Resolve decided_kept_faults dom_insert_mono dom_insert_if_absent_mono : steps.

(** Open the body of a transaction that succeeded. *)
Ltac open_body :=
  intros ? ? ?; simpl;
  repeat (let E := fresh "E" in
          match goal with
          | |- context [omap_err Protobuf (encode ?a)] => destruct (encode a) eqn:E; simpl; try done
          | |- context [match ?t !! ?k with _ => _ end] => destruct (t !! k) eqn:E; simpl; try done
          | |- context [if ?b then _ else _] => destruct b eqn:E; simpl; try done
          end);
  intros [= <- <-]; split; simpl; auto with steps.

(** Every table of decided data, and of archive records, is as it was. *)
Record decided_same (s s' : Store) : Prop := {
  ds_values : decided_values s' = decided_values s;
  ds_certificates : certificates s' = certificates s;
  ds_block_data : decided_block_data s' = decided_block_data s;
  ds_consensus : consensus_block_metadata s' = consensus_block_metadata s;
  ds_blob_metadata : blob_metadata_decided s' = blob_metadata_decided s;
  ds_archival : blob_archival s' = blob_archival s }.

#[export] Instance decided_same_preorder : PreOrder decided_same.
Proof. split; [by intros s; split|]. intros s1 s2 s3 [] []. split; congruence. Qed.

Lemma decided_same_faults s fs : decided_same s (with_tx_faults fs s).
Proof. by split. Qed.
#[export] Hint Resolve decided_same_faults : steps.

Lemma decided_same_kept s s' : decided_same s s' → decided_kept s s'.
Proof. intros []. split; by apply reflexive_eq; f_equal. Qed.

(** The decided block data and consensus metadata of a height are as they
    were. *)
Definition records_same (h : Height) (s s' : Store) : Prop :=
  decided_block_data s' !! h = decided_block_data s !! h ∧
  consensus_block_metadata s' !! h = consensus_block_metadata s !! h.
#[export] Instance records_same_preorder h : PreOrder (records_same h).
Proof. split; [by intros s; split|]. intros s1 s2 s3 [] []. split; congruence. Qed.

Lemma records_same_faults h s fs : records_same h s (with_tx_faults fs s).
Proof. by split. Qed.
#[export] Hint Resolve records_same_faults : steps.

(** *** Operations as data, for statements about runs of the store *)

Inductive StoreOp :=
| OpStoreDecided (c : CommitCertificate) (v : Value)
| OpStoreProposal (p : ProposedValue)
| OpDeleteProposal (h : Height) (r : Round)
| OpPrune (h : Height)
| OpStoreUndecidedBlock (h : Height) (r : Round) (data : bytes) (reqs : list bytes)
| OpDeleteUndecidedBlock (h : Height) (r : Round)
| OpStoreDecidedBlock (h : Height) (data : bytes) (reqs : list bytes)
| OpPutConsensus (h : Height) (m : ConsensusBlockMetadata)
| OpPutBlobUndecided (h : Height) (r : Round) (m : BlobMetadata)
| OpInsertArchive (h : Height) (i : Z) (a : ArchiveRecord)
| OpUpdateBlob (h : Height) (m : BlobMetadata)
| OpMarkDecided (h : Height) (r : Round)
| OpSeedGenesis
| OpDeleteBlobUndecided (h : Height) (r : Round).

Section store_runs.
Context `{KV : Codec Value} `{KP : Codec ProposedValue} `{KC : Codec CommitCertificate}
  `{KCM : Codec ConsensusBlockMetadata} `{KB : Codec BlobMetadata} `{KA : Codec ArchiveRecord}
  `{PR : ProstMessage BlockPayloadRecord}.

Definition run_op (op : StoreOp) : StoreM unit :=
  match op with
  | OpStoreDecided c v => store_decided_value c v
  | OpStoreProposal p => store_undecided_proposal p
  | OpDeleteProposal h r => delete_undecided_proposal h r
  | OpPrune h => prune h ;;; ret tt
  | OpStoreUndecidedBlock h r d q => store_undecided_block_data h r d q
  | OpDeleteUndecidedBlock h r => delete_undecided_block_data h r
  | OpStoreDecidedBlock h d q => store_decided_block_data h d q
  | OpPutConsensus h m => put_consensus_block_metadata h m
  | OpPutBlobUndecided h r m => put_blob_metadata_undecided h r m
  | OpInsertArchive h i a => insert_archive_record h i a
  | OpUpdateBlob h m => update_blob_metadata h m
  | OpMarkDecided h r => mark_blob_metadata_decided h r
  | OpSeedGenesis => seed_genesis_blob_metadata
  | OpDeleteBlobUndecided h r => delete_blob_metadata_undecided h r
  end.

(** A run of operations; a failing one does not stop its callers. *)
Definition run_ops (ops : list StoreOp) (s : Store) : Store :=
  foldl (λ s op, (run_op op s).1) s ops.

Lemma with_tx_faults_nil s : tx_faults s = [] → with_tx_faults [] s = s.
Proof. destruct s; simpl. by intros ->. Qed.

Lemma prune_run h s :
  ∃ ks ks' fs, (prune h s).1 = with_tx_faults fs s ∨
    (prune h s).1 = with_undecided_block_data (remove_keys ks (undecided_block_data s))
                  (with_undecided_values (remove_keys ks' (undecided_values s))
                     (with_tx_faults fs s)).
Proof.
  unfold prune, blocking, bind, next_fault. destruct (tx_faults s) as [|[[|n]|] fs] eqn:Hf; simpl.
  - eexists _, _, []. right. rewrite (with_tx_faults_nil s) by done. done.
  - eexists [], [], _. by left.
  - eexists _, _, _. by right.
  - eexists _, _, _. by right.
Qed.

Lemma prune_kept h : steps decided_kept (prune h).
Proof. intros s. destruct (prune_run h s) as (? & ? & ? & [-> | ->]); by split. Qed.

Lemma run_op_kept op : steps decided_kept (run_op op).
Proof.
  destruct op; cbn [run_op].
  4: { apply steps_bind; [apply _|apply prune_kept|intros; apply steps_ret, _]. }
  1-11, 13: store_steps; [auto with steps|open_body].
  unfold seed_genesis_blob_metadata.
  apply steps_bind; [apply _|apply steps_lift, _|intros m].
  apply steps_blocking, steps_write_tx; [apply _|auto with steps|open_body].
Qed.

Lemma run_ops_kept ops s : decided_kept s (run_ops ops s).
Proof.
  revert s; induction ops as [|op ops IH]; intros s; [done|]. simpl.
  etrans; [apply run_op_kept|apply IH].
Qed.
(** *** Operations that leave the decided tables alone *)

(** The operations on undecided data. *)
Definition op_undecided (op : StoreOp) : bool :=
  match op with
  | OpStoreProposal _ | OpDeleteProposal _ _ | OpPrune _ | OpStoreUndecidedBlock _ _ _ _
  | OpDeleteUndecidedBlock _ _ | OpPutBlobUndecided _ _ _ | OpDeleteBlobUndecided _ _ => true
  | _ => false
  end.

Lemma run_op_decided_same op : op_undecided op = true → steps decided_same (run_op op).
Proof.
  destruct op; cbn [run_op op_undecided]; intros Hu; try done.
  3: { intros s. unfold bind. destruct (prune_run h s) as (ks & ks' & fs & Hp).
       destruct (prune h s) as [s' []]; simpl in *; by destruct Hp as [-> | ->]. }
  all: store_steps; [auto with steps|open_body].
Qed.

(** The height whose records an operation may write. *)
Definition op_records (op : StoreOp) : option Height :=
  match op with
  | OpStoreDecidedBlock h _ _ | OpPutConsensus h _ => Some h
  | _ => None
  end.

Lemma run_op_records_same op h : op_records op ≠ Some h → steps (records_same h) (run_op op).
Proof.
  destruct op; cbn [run_op op_records]; intros Hne.
  4: { intros s. unfold bind. destruct (prune_run h0 s) as (ks & ks' & fs & Hp).
       destruct (prune h0 s) as [s' []]; simpl in *; by destruct Hp as [-> | ->]. }
  12: { unfold seed_genesis_blob_metadata. apply steps_bind; [apply _|apply steps_lift, _|intros m].
        apply steps_blocking, steps_write_tx; [apply _|auto with steps|open_body]. }
  6, 7: store_steps; [auto with steps|open_body; unfold insert_if_absent; try case_match;
    rewrite ?lookup_insert_ne by congruence; done].
  all: store_steps; [auto with steps|open_body].
Qed.
End store_runs.

(** ** Runs without database failures *)

Lemma read_tx_ok {A} (body : Store → outcome StoreError A) s :
  tx_faults s = [] → read_tx body s = (s, body s).
Proof. intros Hf. unfold read_tx, bind, next_fault, get, lift. by rewrite Hf. Qed.

Lemma write_tx_ok {A} (body : Store → outcome StoreError (Store * A)) s s' a :
  tx_faults s = [] → body s = Ok (s', a) → write_tx body s = (s', Ok a).
Proof. intros Hf Hb. unfold write_tx, bind, next_fault. rewrite Hf. by rewrite Hb. Qed.

Lemma blocking_ok {A} (c : StoreM A) s s' a : c s = (s', Ok a) → blocking c s = (s', Ok a).
Proof. intros Hc. unfold blocking. by rewrite Hc. Qed.

Lemma pair_rank_lt h z R :
  -1 ≤ z < 2^32 → pair_rank (h, z) < pair_rank (round_key R Nil) ↔ h < R.
Proof. unfold pair_rank, round_key; simpl. lia. Qed.

Lemma remove_keys_lookup (ks : list (Z * Z)) (t : HRTable) (k : Z * Z) :
  remove_keys ks t !! k = if decide (k ∈ ks) then None else t !! k.
Proof.
  revert t; induction ks as [|k' ks IH]; intros t; [done|]. simpl. rewrite IH.
  destruct (decide (k = k')) as [->|Hne].
  - rewrite lookup_delete_eq, (decide_True (P := k' ∈ k' :: ks)) by left. by case_decide.
  - rewrite lookup_delete_ne by done. apply decide_ext. rewrite elem_of_cons. tauto.
Qed.

Lemma elem_of_sorted_pairs (t : HRTable) (k : Z * Z) : k ∈ sorted_pairs t ↔ is_Some (t !! k).
Proof.
  unfold sorted_pairs. rewrite sort_by_key_Permutation, list_elem_of_fmap. split.
  - intros ([k' v] & -> & Hin%elem_of_map_to_list). eauto.
  - intros [v Hv]. exists (k, v). split; [done|]. by apply elem_of_map_to_list.
Qed.

Lemma elem_of_sorted_heights (t : HTable) (h : Z) : h ∈ sorted_heights t ↔ is_Some (t !! h).
Proof.
  unfold sorted_heights. rewrite sort_by_key_Permutation, list_elem_of_fmap. split.
  - intros ([k' v] & -> & Hin%elem_of_map_to_list). eauto.
  - intros [v Hv]. exists (h, v). split; [done|]. by apply elem_of_map_to_list.
Qed.

Lemma keys_below_remove (R : Z) (t : HRTable) (h z : Z) :
  -1 ≤ z < 2^32 →
  remove_keys (keys_below R t) t !! (h, z) = if decide (h < R) then None else t !! (h, z).
Proof.
  intros Hz. rewrite remove_keys_lookup.
  destruct (t !! (h, z)) as [v|] eqn:Hv; [|by repeat case_decide]. apply decide_ext.
  unfold keys_below. rewrite list_elem_of_filter, elem_of_sorted_pairs, pair_rank_lt by done.
  rewrite Hv. split; [tauto|eauto].
Qed.

Lemma round_key_range r : round_wf r → -1 ≤ Round_as_i64 r < 2^32.
Proof. destruct r; simpl; unfold is_u32; lia. Qed.

(** The keys of a table below a height, in order: what the iteration that stops
    at the first key at or above it collects. *)
Lemma take_while_below b (l : list (Z * Z)) :
  StronglySorted (λ x y, pair_rank x ≤ pair_rank y) l →
  Forall (λ k, - 2^63 ≤ k.2 < 2^63) l →
  take_while (λ k, negb (b <=? k.1)) l = filter (λ k, k.1 < b) l.
Proof.
  induction 1 as [|k l Hs IH Hk]; intros Hr; [done|]. apply Forall_cons in Hr as [Hrk Hr].
  simpl take_while. rewrite filter_cons. destruct (b <=? k.1) eqn:E; simpl.
  - rewrite decide_False by lia. symmetry. apply filter_none. rewrite Forall_forall in Hk, Hr |- *.
    intros k' Hin Hlt. specialize (Hk k' Hin). specialize (Hr k' Hin). unfold pair_rank in Hk. lia.
  - rewrite decide_True by lia. f_equal. by apply IH.
Qed.

(** ** Archive records come back with the metadata *)

Section hydration.
Context `{KA : Codec ArchiveRecord}.

(** The stored archive entries of a height are readable and belong to its
    blobs. *)
Definition archival_ok (s : Store) (h : Height) (n : Z) : Prop :=
  ∀ i b, blob_archival s !! (h, i) = Some b → is_u16 i →
    ∃ r, decode b = Ok r ∧ an_blob_index (ar_body r) = i ∧ i < n.

Lemma elem_of_archival_range (h : Height) (t : HRTable) (i : Z) (b : bytes) :
  (i, b) ∈ archival_range h t ↔ t !! (h, i) = Some b ∧ is_u16 i.
Proof.
  unfold archival_range, is_u16. rewrite sort_by_key_Permutation, list_elem_of_omap. split.
  - intros ([[h' i'] b'] & Hin%elem_of_map_to_list & Hc). simpl in Hc.
    destruct (_ && _) eqn:E; [|done]. simplify_eq. assert (h' = h) as -> by lia. split; [done|lia].
  - intros [Hb Hi]. exists ((h, i), b). split; [by apply elem_of_map_to_list|]. simpl.
    by replace ((h =? h) && (0 <=? i) && (i <=? 65535)) with true by lia.
Qed.

Lemma hydrate_records_total (rs : list bytes) : ∀ m,
  blob_metadata_wf m →
  Forall (λ b, ∃ r, decode b = Ok r ∧ 0 ≤ an_blob_index (ar_body r) < bm_blob_count m) rs →
  ∃ m', hydrate_records rs m = Ok m'.
Proof.
  induction rs as [|b rs IH]; intros m Hwf Hrs; simpl; [eauto|].
  apply Forall_cons in Hrs as [(r & Hr & Hi) Hrs]. rewrite Hr. simpl.
  destruct (set_archive_record_Ok (E:=StoreError) m r Hwf Hi) as [m1 Hm1]. rewrite Hm1. simpl.
  apply IH; [by eapply set_archive_record_wf; [|done..]; lia|].
  unfold set_archive_record in Hm1. case_match; [|done]. by simplify_eq.
Qed.

(** What a successful hydration changes: only archival slots, each with a
    record of the list, and every record of the list is in. *)
Lemma hydrate_records_spec (rs : list bytes) : ∀ m m',
  hydrate_records rs m = Ok m' →
  with_archival_records m' (bm_archival_records m) = m ∧
  length (bm_archival_records m') = length (bm_archival_records m) ∧
  (∀ j r, archival_status m' j = Archived r →
     archival_status m j = Archived r ∨
     ∃ b, b ∈ rs ∧ decode b = Ok r ∧ Z.to_nat (an_blob_index (ar_body r)) = j) ∧
  (∀ j, is_archived (archival_status m j) = true → is_archived (archival_status m' j) = true) ∧
  (∀ b, b ∈ rs → ∃ r, decode b = Ok r ∧
     is_archived (archival_status m' (Z.to_nat (an_blob_index (ar_body r)))) = true).
Proof.
  induction rs as [|b rs IH]; intros m m'; simpl.
  { intros [= <-]. split_and!; [by destruct m|done|by left|done|by intros ? ?%elem_of_nil]. }
  destruct (decode b) as [r| |] eqn:Hr; simpl; try done.
  destruct (set_archive_record m r) as [m1| |] eqn:Hm1; simpl; try done. intros Hh.
  destruct (IH m1 m' Hh) as (Hsame & Hlen & H1 & H2 & H3).
  pose proof (archival_status_set (E:=StoreError) m r m1) as Hst.
  split_and!.
  - unfold set_archive_record in Hm1. case_match; [|done]. simplify_eq.
    unfold with_archival_records in *. simpl in *. destruct m, m'; simpl in *. congruence.
  - unfold set_archive_record in Hm1. case_match; [|done]. simplify_eq. simpl in Hlen.
    by rewrite length_insert in Hlen.
  - intros j r' Hj. apply H1 in Hj as [Hj|(b' & Hb' & Hd & Hi)].
    + rewrite Hst in Hj by done. case_decide as Hjj; [|by left]. right. simplify_eq.
      exists b. split_and!; [left|done..].
    + right. exists b'. split_and!; [by right|done..].
  - intros j Hj. apply H2. rewrite Hst by done. by case_decide.
  - intros b' [->|Hb']%elem_of_cons; [|by apply H3]. exists r. split; [done|].
    apply H2. rewrite Hst by done. by rewrite decide_True.
Qed.
End hydration.

(** ** Undecided records are written once *)

(** The operations that may remove undecided data of a key. *)
Definition op_removes (k : Z * Z) (op : StoreOp) : bool :=
  match op with
  | OpDeleteProposal h r | OpDeleteUndecidedBlock h r | OpMarkDecided h r
  | OpDeleteBlobUndecided h r => bool_decide (round_key h r = k)
  | OpPrune h => k.1 <? h
  | _ => false
  end.

(** The undecided entries of a key, once there, stay as they are. *)
Definition undecided_stable (k : Z * Z) (s s' : Store) : Prop :=
  (∀ b, undecided_values s !! k = Some b → undecided_values s' !! k = Some b) ∧
  (∀ b, undecided_block_data s !! k = Some b → undecided_block_data s' !! k = Some b) ∧
  (∀ b, blob_metadata_undecided s !! k = Some b → blob_metadata_undecided s' !! k = Some b).

#[export] Instance undecided_stable_preorder k : PreOrder (undecided_stable k).
Proof.
  split; [by intros s; split_and!|]. intros s1 s2 s3 (?&?&?) (?&?&?). split_and!; auto.
Qed.

Lemma undecided_stable_faults k s fs : undecided_stable k s (with_tx_faults fs s).
Proof. by split_and!. Qed.

Lemma insert_if_absent_stable {K} `{Countable K} (k k' : K) (b b' : bytes) (t : gmap K (list Z)) :
  t !! k = Some b → insert_if_absent k' b' t !! k = Some b.
Proof.
  intros Hk. unfold insert_if_absent. destruct (t !! k') eqn:E; [done|].
  destruct (decide (k = k')) as [->|]; [congruence|]. by rewrite lookup_insert_ne.
Qed.

Lemma delete_other_stable {K} `{Countable K} (k k' : K) (b : bytes) (t : gmap K (list Z)) :
  bool_decide (k' = k) = false → t !! k = Some b → delete k' t !! k = Some b.
Proof. intros Hne%bool_decide_eq_false_1 Hk. by rewrite lookup_delete_ne. Qed.
#[export] Hint Resolve undecided_stable_faults insert_if_absent_stable delete_other_stable : steps.

Lemma keys_below_take_stable (n : option nat) (R : Z) (t : HRTable) (k : Z * Z) (b : bytes) :
  (k.1 <? R) = false → -1 ≤ k.2 < 2^32 → t !! k = Some b →
  remove_keys (match n with Some n => take n (keys_below R t) | None => keys_below R t end) t !! k
    = Some b.
Proof.
  intros HR Hz Hk. rewrite remove_keys_lookup, decide_False; [done|]. intros Hin.
  assert (k ∈ keys_below R t) as Hin'.
  { destruct n; [|done]. apply elem_of_take in Hin as (i & Hi & _). by apply list_elem_of_lookup_2 in Hi. }
  unfold keys_below in Hin'. apply list_elem_of_filter in Hin' as [Hlt _].
  destruct k as [h z]. apply pair_rank_lt in Hlt; [|done]. simpl in HR. lia.
Qed.

Section stability.
Context `{KV : Codec Value} `{KP : Codec ProposedValue} `{KC : Codec CommitCertificate}
  `{KCM : Codec ConsensusBlockMetadata} `{KB : Codec BlobMetadata} `{KA : Codec ArchiveRecord}
  `{PR : ProstMessage BlockPayloadRecord}.

Lemma prune_stable k R :
  (k.1 <? R) = false → -1 ≤ k.2 < 2^32 → steps (undecided_stable k) (prune R).
Proof.
  intros HR Hz s. unfold prune, blocking, bind, next_fault.
  destruct (tx_faults s) as [|[[|n]|] fs]; simpl; [|done| |];
    (split_and!; simpl; [..|done]; intros b Hb).
  1, 2, 5, 6: by apply (keys_below_take_stable None).
  all: by apply (keys_below_take_stable (Some n)).
Qed.

Ltac open_stable :=
  intros ? ? ?; simpl;
  repeat (let E := fresh "E" in
          match goal with
          | |- context [omap_err Protobuf (encode ?a)] => destruct (encode a) eqn:E; simpl; try done
          | |- context [match ?t !! ?k with _ => _ end] => destruct (t !! k) eqn:E; simpl; try done
          | |- context [if ?b then _ else _] => destruct b eqn:E; simpl; try done
          end);
  intros [= <- <-]; split_and!; simpl; eauto with steps.

Lemma run_op_stable k op :
  -1 ≤ k.2 < 2^32 → op_removes k op = false → steps (undecided_stable k) (run_op op).
Proof.
  intros Hz Hop. destruct op; cbn [run_op]; simpl in Hop.
  4: { apply steps_bind; [apply _|by apply prune_stable|intros; apply steps_ret, _]. }
  1-11, 13: store_steps; [auto with steps|open_stable].
  unfold seed_genesis_blob_metadata.
  apply steps_bind; [apply _|apply steps_lift, _|intros m].
  apply steps_blocking, steps_write_tx; [apply _|auto with steps|open_stable].
Qed.

Lemma run_ops_stable k ops s :
  -1 ≤ k.2 < 2^32 → Forall (λ op, op_removes k op = false) ops →
  undecided_stable k s (run_ops ops s).
Proof.
  intros Hz Hops. revert s; induction Hops as [|op ops Hop _ IH]; intros s; [done|]. simpl.
  etrans; [by apply run_op_stable|apply IH].
Qed.
End stability.

(** ** Properties of the store *)

Section store_theorems.
Context (KV : Codec Value) (KP : Codec ProposedValue) (KC : Codec CommitCertificate)
  (KCM : Codec ConsensusBlockMetadata) (KB : Codec BlobMetadata) (KA : Codec ArchiveRecord)
  (PR : ProstMessage BlockPayloadRecord).
Context (LB : CodecLaws BlobMetadata KB) (LA : CodecLaws ArchiveRecord KA).

(** Whatever operations run and whichever of their transactions fail, no
    decided value, certificate, block payload, consensus or blob metadata and
    no archive record is ever removed from the store. *)
Theorem decided_history_retained (ops : list StoreOp) (s : Store) :
  decided_kept s (run_ops ops s).
Proof. apply run_ops_kept. Qed.

(** The undecided proposal, payload and blob metadata stored for a height
    and round are never overwritten: until they are deleted, promoted or
    pruned, every later read finds the first version written, whatever else is
    stored and whatever fails. *)
Theorem undecided_written_once (ops : list StoreOp) (s : Store) (h : Height) (r : Round) :
  round_wf r → Forall (λ op, op_removes (round_key h r) op = false) ops →
  undecided_stable (round_key h r) s (run_ops ops s).
Proof. intros Hr Hops. apply run_ops_stable; [by apply round_key_range|done]. Qed.

(** Pruning below a height removes exactly the undecided proposals and
    payloads of lower heights, reports no decided height, and leaves every
    other table as it is. *)
Theorem prune_exact (s : Store) (R : Height) :
  tx_faults s = [] →
  ∃ s', prune R s = (s', Ok []) ∧
    s' = with_undecided_values (undecided_values s')
           (with_undecided_block_data (undecided_block_data s') s) ∧
    ∀ h r, round_wf r →
      undecided_values s' !! round_key h r =
        (if decide (h < R) then None else undecided_values s !! round_key h r) ∧
      undecided_block_data s' !! round_key h r =
        (if decide (h < R) then None else undecided_block_data s !! round_key h r).
Proof.
  intros Hf. unfold prune, blocking, bind, next_fault. rewrite Hf.
  eexists. split; [done|]. split; [done|]. intros h r Hr. apply round_key_range in Hr. simpl.
  split; by apply keys_below_remove.
Qed.

Lemma put_blob_metadata_undecided_run (s : Store) (h : Height) (r : Round) (m : BlobMetadata) (b : bytes) :
  tx_faults s = [] → encode m = Ok b → blob_metadata_undecided s !! round_key h r = None →
  put_blob_metadata_undecided h r m s =
    (with_blob_metadata_undecided (<[round_key h r := b]> (blob_metadata_undecided s)) s, Ok tt).
Proof.
  intros Hf He Hn. unfold put_blob_metadata_undecided. apply blocking_ok.
  unfold bind, lift. rewrite He. simpl. apply write_tx_ok; [done|].
  unfold insert_if_absent. by rewrite Hn.
Qed.

Lemma get_blob_metadata_undecided_run (s : Store) (h : Height) (r : Round) :
  tx_faults s = [] →
  get_blob_metadata_undecided h r s =
    blocking (lift (decode_opt (blob_metadata_undecided s !! round_key h r))) s.
Proof. intros Hf. unfold get_blob_metadata_undecided, blocking. by rewrite read_tx_ok. Qed.

Lemma get_blob_metadata_run (s : Store) (h : Height) :
  tx_faults s = [] → get_blob_metadata h s = blocking (lift (read_blob_metadata h s)) s.
Proof. intros Hf. unfold get_blob_metadata, blocking. by rewrite read_tx_ok. Qed.

(** The store after promoting the undecided bytes [b] of a round. *)
Definition promoted (h : Height) (r : Round) (b : bytes) (s : Store) : Store :=
  with_blob_metadata_undecided (delete (round_key h r) (blob_metadata_undecided s))
    (with_blob_metadata_meta (<[LATEST_HEIGHT := be_bytes 8 h]> (blob_metadata_meta s))
       (with_blob_metadata_decided (<[h := b]> (blob_metadata_decided s)) s)).

Lemma mark_blob_metadata_decided_run (s : Store) (h : Height) (r : Round) (b : bytes) :
  tx_faults s = [] → blob_metadata_undecided s !! round_key h r = Some b →
  mark_blob_metadata_decided h r s = (promoted h r b s, Ok tt).
Proof.
  intros Hf Hb. unfold mark_blob_metadata_decided. apply blocking_ok, write_tx_ok; [done|].
  by rewrite Hb.
Qed.

Lemma read_blob_metadata_promoted (s : Store) (h : Height) (r : Round) (b : bytes) (m : BlobMetadata) :
  decode b = Ok m → archival_range h (blob_archival s) = [] →
  read_blob_metadata h (promoted h r b s) = Ok (Some m).
Proof.
  intros Hd Ha. unfold read_blob_metadata. simpl. rewrite lookup_insert_eq, Hd. simpl.
  unfold hydrate_archival_records. simpl. by rewrite Ha.
Qed.

(** Blob metadata stored for a round reads back; promoting that round
    moves it, in one step, to its height: it is then the metadata of the
    height and the latest one, no undecided copy is left, and promoting again
    changes nothing. *)
Theorem blob_metadata_promotion (s : Store) (h : Height) (r : Round) (m : BlobMetadata) :
  tx_faults s = [] → is_u64 h → codec_wf m →
  blob_metadata_undecided s !! round_key h r = None →
  archival_range h (blob_archival s) = [] →
  ∃ s1 s2,
    put_blob_metadata_undecided h r m s = (s1, Ok tt) ∧
    get_blob_metadata_undecided h r s1 = (s1, Ok (Some m)) ∧
    mark_blob_metadata_decided h r s1 = (s2, Ok tt) ∧
    get_blob_metadata h s2 = (s2, Ok (Some m)) ∧
    get_latest_blob_metadata s2 = (s2, Ok (Some (h, m))) ∧
    get_blob_metadata_undecided h r s2 = (s2, Ok None) ∧
    mark_blob_metadata_decided h r s2 = (s2, Ok tt).
Proof using LB.
  intros Hf Hh Hwf Hn Ha. destruct (decode_encode m Hwf) as (b & He & Hd).
  set (s1 := with_blob_metadata_undecided (<[round_key h r := b]> (blob_metadata_undecided s)) s).
  assert (blob_metadata_undecided s1 !! round_key h r = Some b) as Hb by apply lookup_insert_eq.
  exists s1, (promoted h r b s1). split_and!.
  - by apply put_blob_metadata_undecided_run.
  - rewrite get_blob_metadata_undecided_run, Hb by done. unfold decode_opt. by rewrite Hd.
  - by apply mark_blob_metadata_decided_run.
  - rewrite get_blob_metadata_run by done. by rewrite (read_blob_metadata_promoted _ _ _ _ m).
  - unfold get_latest_blob_metadata, blocking. rewrite read_tx_ok by done.
    change (blob_metadata_meta (promoted h r b s1))
      with (<[LATEST_HEIGHT := be_bytes 8 h]> (blob_metadata_meta s1)).
    rewrite lookup_insert_eq, length_be_bytes. simpl negb. cbv iota.
    rewrite of_be_bytes, Z.mod_small by (unfold is_u64 in Hh; lia).
    by rewrite (read_blob_metadata_promoted _ _ _ _ m).
  - rewrite get_blob_metadata_undecided_run by done. simpl. by rewrite lookup_delete_eq.
  - unfold mark_blob_metadata_decided. apply blocking_ok, write_tx_ok; [done|]. simpl.
    by rewrite lookup_delete_eq, lookup_insert_eq.
Qed.

(** The archive records of a height come back with its metadata: when the
    stored entries are readable records of its blobs, reading the metadata
    succeeds and marks exactly the blobs with an entry, or already marked, as
    archived. *)
Theorem archive_records_hydrated (s : Store) (h : Height) (b : bytes) (m : BlobMetadata) :
  tx_faults s = [] → blob_metadata_decided s !! h = Some b → decode b = Ok m →
  blob_metadata_wf m → archival_ok s h (bm_blob_count m) →
  ∃ m', get_blob_metadata h s = (s, Ok (Some m')) ∧ blob_metadata_wf m' ∧
    bm_blob_kzg_commitments m' = bm_blob_kzg_commitments m ∧
    ∀ i, is_u16 i →
      is_archived (archival_status m' (Z.to_nat i)) = true ↔
      is_archived (archival_status m (Z.to_nat i)) = true ∨ is_Some (blob_archival s !! (h, i)).
Proof.
  intros Hf Hb Hd Hwf Hok. set (rs := (archival_range h (blob_archival s)).*2).
  assert (Forall (λ b, ∃ r, decode b = Ok r ∧ 0 ≤ an_blob_index (ar_body r) < bm_blob_count m ∧
            blob_archival s !! (h, an_blob_index (ar_body r)) = Some b) rs) as Hrs.
  { apply Forall_forall. intros b' ([i b''] & -> & Hin)%list_elem_of_fmap.
    apply elem_of_archival_range in Hin as [Hl Hi]. destruct (Hok i b'' Hl Hi) as (r & Hr & Hi' & Hlt).
    exists r. rewrite Hi'. unfold is_u16 in Hi. split_and!; [done|lia|lia|done]. }
  destruct (hydrate_records_total rs m Hwf) as [m' Hm'].
  { eapply Forall_impl; [exact Hrs|]. intros ? (r & ? & ? & _). eauto. }
  destruct (hydrate_records_spec rs m m' Hm') as (Hsame & Hlen & H1 & H2 & H3).
  exists m'. split_and!.
  - rewrite get_blob_metadata_run by done. unfold read_blob_metadata. rewrite Hb, Hd. simpl.
    unfold hydrate_archival_records. fold rs. by rewrite Hm'.
  - destruct Hwf as (Hu & Hc & Hk & Hl & Hr).
    assert (bm_blob_kzg_commitments m' = bm_blob_kzg_commitments m ∧
            bm_blob_count m' = bm_blob_count m ∧ bm_blob_keccak_hashes m' = bm_blob_keccak_hashes m)
      as (E1 & E2 & E3) by (rewrite <-Hsame; done).
    unfold blob_metadata_wf. rewrite E1, E2, E3, Hlen. split_and!; [done..|].
    intros i r Hir. assert (archival_status m' i = Archived r) as Hst.
    { unfold archival_status. by rewrite Hir. }
    apply H1 in Hst as [Hst|(b' & Hb' & Hd' & Hi)].
    + apply Hr. unfold archival_status in Hst. by repeat case_match; simplify_eq.
    + rewrite Forall_forall in Hrs. destruct (Hrs _ Hb') as (r' & Hd'' & Hr' & _).
      rewrite Hd' in Hd''. simplify_eq. lia.
  - by rewrite <-Hsame.
  - intros i Hi. split.
    + intros Ha. destruct (archival_status m' (Z.to_nat i)) as [|r] eqn:Hst; [done|].
      apply H1 in Hst as [->|(b' & Hb' & Hd' & Hj)]; [by left|right].
      rewrite Forall_forall in Hrs. destruct (Hrs _ Hb') as (r' & Hd'' & Hr' & Hl).
      rewrite Hd' in Hd''. simplify_eq. unfold is_u16 in Hi.
      replace i with (an_blob_index (ar_body r')) by lia. eauto.
    + intros [Ha|[b' Hb']]; [by apply H2|].
      destruct (H3 b') as (r & Hr & Ha).
      { apply (list_elem_of_fmap_2' _ _ (i, b')); [|done]. by apply elem_of_archival_range. }
      destruct (Hok i b' Hb' Hi) as (r' & Hr' & Hi' & _).
      assert (r' = r) as -> by congruence. by rewrite <-Hi'.
Qed.

(** The undecided metadata listed for cleanup is exactly that of lower
    heights, each round once. *)
Theorem stale_metadata_listed (s : Store) (before : Height) :
  tx_faults s = [] →
  (∀ k b, blob_metadata_undecided s !! k = Some b → ∃ h r, round_wf r ∧ k = round_key h r) →
  ∃ ks, get_all_undecided_blob_metadata_before before s = (s, Ok ks) ∧ NoDup ks ∧
    ∀ h r, round_wf r →
      (h, r) ∈ ks ↔ h < before ∧ is_Some (blob_metadata_undecided s !! round_key h r).
Proof.
  intros Hf Hk. eexists. split.
  { unfold get_all_undecided_blob_metadata_before, blocking. by rewrite read_tx_ok. }
  assert (∀ k, k ∈ sorted_pairs (blob_metadata_undecided s) →
            ∃ h r, round_wf r ∧ k = round_key h r) as Hk'.
  { intros k [b Hb]%elem_of_sorted_pairs. by eapply Hk. }
  assert (∀ r, round_wf r → Round_from_i64 (Round_as_i64 r) = r) as Hround.
  { intros [|z] Hr; [done|]. simpl in *. unfold Round_from_i64, is_u32 in *.
    destruct (z <? 0) eqn:E; [lia|]. by rewrite Z.mod_small by lia. }
  rewrite take_while_below.
  2: apply sort_by_key_sorted.
  2: { apply Forall_forall. intros k (h & r & Hr & ->)%Hk'. apply round_key_range in Hr. simpl. lia. }
  split.
  - apply NoDup_fmap_2_strong.
    + intros k1 k2 [_ H1]%list_elem_of_filter [_ H2]%list_elem_of_filter.
      destruct (Hk' _ H1) as (h1 & r1 & Hr1 & ->), (Hk' _ H2) as (h2 & r2 & Hr2 & ->). simpl.
      rewrite !Hround by done. congruence.
    + apply NoDup_filter. unfold sorted_pairs. rewrite sort_by_key_Permutation.
      apply NoDup_fst_map_to_list.
  - intros h r Hr. rewrite list_elem_of_fmap. split.
    + intros (k & Heq & [Hlt Hin]%list_elem_of_filter).
      destruct (Hk' _ Hin) as (h' & r' & Hr' & ->). simpl in *. rewrite Hround in Heq by done.
      simplify_eq. split; [done|]. by apply elem_of_sorted_pairs.
    + intros [Hlt Hs]. exists (round_key h r). simpl. rewrite Hround by done. split; [done|].
      apply list_elem_of_filter. split; [done|]. by apply elem_of_sorted_pairs.
Qed.
End store_theorems.

(** ** Concrete inputs *)

#[local] Instance demo_value_codec : Codec Value := countable_codec Value.
#[local] Instance demo_proposed_codec : Codec ProposedValue := countable_codec ProposedValue.
#[local] Instance demo_certificate_codec : Codec CommitCertificate :=
  countable_codec CommitCertificate.
#[local] Instance demo_consensus_codec : Codec ConsensusBlockMetadata :=
  countable_codec ConsensusBlockMetadata.
#[local] Instance demo_metadata_codec : Codec BlobMetadata := countable_codec BlobMetadata.
#[local] Instance demo_metadata_codec_laws : CodecLaws BlobMetadata demo_metadata_codec :=
  countable_codec_laws BlobMetadata.
#[local] Instance demo_record_codec : Codec ArchiveRecord := countable_codec ArchiveRecord.
#[local] Instance demo_record_codec_laws : CodecLaws ArchiveRecord demo_record_codec :=
  countable_codec_laws ArchiveRecord.
#[local] Instance demo_payload_prost : ProstMessage BlockPayloadRecord :=
  countable_prost BlockPayloadRecord.

(** The store of a node that never ran. *)
Definition empty_store (fs : list (option TxFault)) : Store := mkStore ∅ ∅ ∅ ∅ ∅ ∅ ∅ ∅ ∅ ∅ fs.

Definition demo_metadata : BlobMetadata :=
  mkBlobMetadata 7 B256_ZERO [replicate 48 1; replicate 48 2] 2 [B256_ZERO; B256_ZERO]
    [None; None] false (zero_header 0) (Some 0).
Definition demo_record : ArchiveRecord :=
  mkRecord (mkNoticeBody 7 (RSome 0) 1 (replicate 48 2) B256_ZERO "s3" "loc" (zeros 20) 99) (zeros 64).

(** A stored payload survives a failing overwrite and a prune of lower
    heights. *)
Lemma undecided_written_once_witness :
  undecided_stable (round_key 7 (RSome 0))
    (with_undecided_block_data {[round_key 7 (RSome 0) := [1; 2]]} (empty_store [Some TxFailed]))
    (run_ops [OpStoreUndecidedBlock 7 (RSome 0) [3] []; OpPrune 7; OpStoreUndecidedBlock 7 (RSome 0) [4] []]
      (with_undecided_block_data {[round_key 7 (RSome 0) := [1; 2]]} (empty_store [Some TxFailed]))).
Proof.
  apply (undecided_written_once demo_value_codec demo_proposed_codec demo_certificate_codec
    demo_consensus_codec demo_metadata_codec demo_record_codec demo_payload_prost).
  - simpl. unfold is_u32. lia.
  - repeat constructor.
Defined.

Lemma prune_exact_witness :
  ∃ s', prune 5 (empty_store []) = (s', Ok []) ∧
    s' = with_undecided_values (undecided_values s')
           (with_undecided_block_data (undecided_block_data s') (empty_store [])) ∧
    ∀ h r, round_wf r →
      undecided_values s' !! round_key h r =
        (if decide (h < 5) then None else undecided_values (empty_store []) !! round_key h r) ∧
      undecided_block_data s' !! round_key h r =
        (if decide (h < 5) then None else undecided_block_data (empty_store []) !! round_key h r).
Proof. apply (prune_exact (empty_store []) 5). reflexivity. Defined.

Lemma blob_metadata_promotion_witness :
  ∃ s1 s2,
    put_blob_metadata_undecided 7 (RSome 0) demo_metadata (empty_store []) = (s1, Ok tt) ∧
    get_blob_metadata_undecided 7 (RSome 0) s1 = (s1, Ok (Some demo_metadata)) ∧
    mark_blob_metadata_decided 7 (RSome 0) s1 = (s2, Ok tt) ∧
    get_blob_metadata 7 s2 = (s2, Ok (Some demo_metadata)) ∧
    get_latest_blob_metadata s2 = (s2, Ok (Some (7, demo_metadata))) ∧
    get_blob_metadata_undecided 7 (RSome 0) s2 = (s2, Ok None) ∧
    mark_blob_metadata_decided 7 (RSome 0) s2 = (s2, Ok tt).
Proof.
  apply (blob_metadata_promotion demo_metadata_codec demo_record_codec demo_metadata_codec_laws
           (empty_store []) 7 (RSome 0) demo_metadata).
  - reflexivity.
  - unfold is_u64. lia.
  - exact I.
  - reflexivity.
  - reflexivity.
Defined.

Definition demo_archived_store (b rb : bytes) : Store :=
  with_blob_archival {[(7, 1) := rb]} (with_blob_metadata_decided {[7 := b]} (empty_store [])).

Lemma archive_records_hydrated_witness :
  ∃ b rb m', encode demo_metadata = Ok b ∧ encode demo_record = Ok rb ∧
    get_blob_metadata 7 (demo_archived_store b rb) =
      (demo_archived_store b rb, Ok (Some m')) ∧
    is_archived (archival_status m' 1) = true.
Proof.
  destruct (decode_encode (CodecLaws := demo_metadata_codec_laws) demo_metadata I) as (b & He & Hd).
  destruct (decode_encode (CodecLaws := demo_record_codec_laws) demo_record I) as (rb & Her & Hdr).
  destruct (archive_records_hydrated demo_metadata_codec demo_record_codec
              (demo_archived_store b rb) 7 b demo_metadata) as (m' & Hg & _ & _ & Ha).
  - reflexivity.
  - apply lookup_singleton_eq.
  - exact Hd.
  - unfold blob_metadata_wf, is_u16. simpl. split_and!; try lia.
    intros [|[|i]] r Hr; done.
  - intros i b' Hb' Hi. simpl in Hb'. apply lookup_singleton_Some in Hb' as [Hk <-].
    injection Hk as <-. exists demo_record. split_and!; [exact Hdr|done|simpl; lia].
  - exists b, rb, m'. split_and!; [exact He|exact Her|exact Hg|].
    apply (Ha 1); [unfold is_u16; lia|]. right. simpl. rewrite lookup_singleton_eq. eauto.
Defined.

Lemma stale_metadata_listed_witness :
  let s := with_blob_metadata_undecided {[round_key 3 (RSome 1) := [0]]} (empty_store []) in
  ∃ ks, get_all_undecided_blob_metadata_before 5 s = (s, Ok ks) ∧ NoDup ks ∧
    ∀ h r, round_wf r →
      (h, r) ∈ ks ↔ h < 5 ∧ is_Some (blob_metadata_undecided s !! round_key h r).
Proof.
  apply (stale_metadata_listed
           (with_blob_metadata_undecided {[round_key 3 (RSome 1) := [0]]} (empty_store [])) 5).
  - reflexivity.
  - intros k b Hk. simpl in Hk. apply lookup_singleton_Some in Hk as [<- _].
    exists 3, (RSome 1). split; [simpl; unfold is_u32; lia|done].
Defined.
