(* ===== verification/Keys.v ===== *)
(** * Keys and tables of the database ([crates/consensus/src/store/keys.rs])

    [Store.v] has the tables as finite maps over heights and pairs of integers.
    The database keeps sorted tables of bytes: [redb] encodes and compares keys
    by the implementations of its traits [Value] and [Key] for [HeightKey],
    [RoundKey] and [BlobIndexKey].  Here are these, the accesses [store.rs] makes
    to tables of bytes, and the theorem that the maps of [Store.v] give the same
    answers.  [redb] itself, its integers, pairs and tables, is a parameter. *)
From S2P Require Import Prelude Types Merkle Metadata Store.
Open Scope Z_scope.

(** ** The traits of keys *)

(** [redb::Value] and [redb::Key] *)
Record KeyType (A : Type) := mkKeyType {
  fixed_width : option nat;
  from_bytes : bytes → A;
  as_bytes : A → bytes;
  compare_bytes : bytes → bytes → comparison }.
Arguments mkKeyType {A} _ _ _ _.
Arguments fixed_width {A} _.
Arguments from_bytes {A} _ _.
Arguments as_bytes {A} _ _.
Arguments compare_bytes {A} _ _ _.

(** What a table needs of its keys: on the values [ok], the encoding has the
    declared width and is read back, and the order is that of the ranks. *)
Record lawful {A} (kt : KeyType A) (ok : A → Prop) (rank : A → Z) : Prop := {
  law_width a w : ok a → fixed_width kt = Some w → length (as_bytes kt a) = w;
  law_round_trip a : ok a → from_bytes kt (as_bytes kt a) = a;
  law_order a b : ok a → ok b → compare_bytes kt (as_bytes kt a) (as_bytes kt b) = (rank a ?= rank b) }.

Definition is_u64_key (z : Z) : Prop := 0 ≤ z < 2^64.
Definition is_i64_key (z : Z) : Prop := - 2^63 ≤ z < 2^63.
Definition is_u16_key (z : Z) : Prop := 0 ≤ z < 2^16.

(** *** Tables *)

Inductive Bound := Unbounded | Included (b : bytes) | Excluded (b : bytes).

Section sorted.
Context {K V : Type} (cmp : K → K → comparison).

(** A table as the list of its entries in order. *)
Fixpoint put (k : K) (v : V) (l : list (K * V)) : list (K * V) :=
  match l with
  | [] => [(k, v)]
  | (k', v') :: l' =>
    match cmp k k' with
    | Lt => (k, v) :: l
    | Eq => (k, v) :: l'
    | Gt => (k', v') :: put k v l'
    end
  end.
Definition same_key (k : K) (e : K * V) : bool := match cmp k e.1 with Eq => true | _ => false end.
Definition del (k : K) (l : list (K * V)) : list (K * V) := filter (λ e, same_key k e = false) l.
Definition find_key (k : K) (l : list (K * V)) : option V := snd <$> find_first (same_key k) l.
End sorted.

Definition above (cmp : bytes → bytes → comparison) (lo : Bound) (k : bytes) : bool :=
  match lo with
  | Unbounded => true
  | Included b => match cmp b k with Gt => false | _ => true end
  | Excluded b => match cmp b k with Lt => true | _ => false end
  end.
Definition below (cmp : bytes → bytes → comparison) (hi : Bound) (k : bytes) : bool :=
  match hi with
  | Unbounded => true
  | Included b => match cmp k b with Gt => false | _ => true end
  | Excluded b => match cmp k b with Lt => true | _ => false end
  end.

(** The keys are totally ordered by the comparison, as [redb::Key] asks. *)
Definition orders (cmp : bytes → bytes → comparison) (ks : list bytes) : Prop :=
  ∃ rank : bytes → Z, ∀ a b, a ∈ ks → b ∈ ks → cmp a b = (rank a ?= rank b).

(** [redb]: the integer keys, the pairs, and tables that list their entries in
    the order of the keys. *)
Class Redb := {
  u64_key : KeyType Z; i64_key : KeyType Z; u16_key : KeyType Z;
  pair_key : ∀ {A B}, KeyType A → KeyType B → KeyType (A * B);
  Table : Type; t_new : Table; t_iter : Table → list (bytes * bytes);
  t_get : (bytes → bytes → comparison) → bytes → Table → option bytes;
  t_insert : (bytes → bytes → comparison) → bytes → bytes → Table → Table;
  t_remove : (bytes → bytes → comparison) → bytes → Table → Table;
  t_range : (bytes → bytes → comparison) → Bound → Bound → Table → list (bytes * bytes) }.
Class RedbLaws (R : Redb) : Prop := {
  u64_lawful : lawful u64_key is_u64_key id ∧ ∀ h, length (as_bytes u64_key h) = 8%nat;
  i64_lawful : lawful i64_key is_i64_key id ∧ ∀ z, length (as_bytes i64_key z) = 8%nat;
  u16_lawful : lawful u16_key is_u16_key id ∧ ∀ z, length (as_bytes u16_key z) = 2%nat;
  (** Pairs of fixed width compare by the first, then by the second. *)
  pair_round_trip A B (ka : KeyType A) (kb : KeyType B) oka okb ra rb wa wb :
    lawful ka oka ra → lawful kb okb rb → fixed_width ka = Some wa → fixed_width kb = Some wb →
    ∀ p, oka p.1 → okb p.2 → from_bytes (pair_key ka kb) (as_bytes (pair_key ka kb) p) = p;
  pair_width A B (ka : KeyType A) (kb : KeyType B) wa wb :
    fixed_width ka = Some wa → fixed_width kb = Some wb → fixed_width (pair_key ka kb) = Some (wa + wb)%nat ∧
    ∀ p, length (as_bytes ka p.1) = wa → length (as_bytes kb p.2) = wb →
      length (as_bytes (pair_key ka kb) p) = (wa + wb)%nat;
  pair_order A B (ka : KeyType A) (kb : KeyType B) wa wb (p q : A * B) :
    fixed_width ka = Some wa → fixed_width kb = Some wb →
    length (as_bytes ka p.1) = wa → length (as_bytes ka q.1) = wa →
    length (as_bytes kb p.2) = wb → length (as_bytes kb q.2) = wb →
    compare_bytes (pair_key ka kb) (as_bytes (pair_key ka kb) p) (as_bytes (pair_key ka kb) q)
    = match compare_bytes ka (as_bytes ka p.1) (as_bytes ka q.1) with
      | Eq => compare_bytes kb (as_bytes kb p.2) (as_bytes kb q.2)
      | c => c
      end;
  new_empty : t_iter t_new = [];
  get_finds cmp k t : orders cmp (k :: (t_iter t).*1) → t_get cmp k t = find_key cmp k (t_iter t);
  insert_puts cmp k v t : orders cmp (k :: (t_iter t).*1) → t_iter (t_insert cmp k v t) = put cmp k v (t_iter t);
  remove_deletes cmp k t : orders cmp (k :: (t_iter t).*1) → t_iter (t_remove cmp k t) = del cmp k (t_iter t);
  range_filters cmp lo hi t :
    orders cmp ((t_iter t).*1 ++ match lo with Unbounded => [] | Included b | Excluded b => [b] end
                ++ match hi with Unbounded => [] | Included b | Excluded b => [b] end) →
    t_range cmp lo hi t = filter (λ e, above cmp lo e.1 && below cmp hi e.1 = true) (t_iter t) }.

(** ** The keys *)

Section keys.
Context `{R : Redb}.

Definition HeightKey : KeyType Height :=
  mkKeyType (Some 8%nat) (λ data, Height_new (from_bytes u64_key data)) (λ h, as_bytes u64_key h)
    (compare_bytes u64_key).
Definition RoundKey : KeyType Round :=
  mkKeyType (Some 8%nat) (λ data, Round_from_i64 (from_bytes i64_key data))
    (λ r, as_bytes i64_key (Round_as_i64 r)) (compare_bytes i64_key).
Definition BlobIndexKey : KeyType Z :=
  mkKeyType (Some 2%nat) (from_bytes u16_key) (as_bytes u16_key) (compare_bytes u16_key).

Definition UndecidedValueKey : KeyType (Height * Round) := pair_key HeightKey RoundKey.
Definition BlobArchivalKey : KeyType (Height * Z) := pair_key HeightKey BlobIndexKey.

(** ** Accesses of [store.rs] to tables of bytes *)

Section access.
Context {A : Type} (kt : KeyType A).

Definition tb_get (a : A) (t : Table) : option bytes := t_get (compare_bytes kt) (as_bytes kt a) t.
Definition tb_insert (a : A) (v : bytes) (t : Table) : Table := t_insert (compare_bytes kt) (as_bytes kt a) v t.
Definition tb_remove (a : A) (t : Table) : Table := t_remove (compare_bytes kt) (as_bytes kt a) t.
(** [if table.get(&key)?.is_none() { table.insert(key, value)? }] *)
Definition tb_insert_if_absent (a : A) (v : bytes) (t : Table) : Table :=
  match tb_get a t with None => tb_insert a v t | Some _ => t end.
(** [key.value()] of the entries of an iteration *)
Definition tb_keys (es : list (bytes * bytes)) : list A := from_bytes kt ∘ fst <$> es.
Definition tb_entries (es : list (bytes * bytes)) : list (A * bytes) := (λ e, (from_bytes kt e.1, e.2)) <$> es.
End access.

(** [min_decided_value_height], [max_decided_value_height] *)
Definition first_height (t : Table) : option Height := head (tb_keys HeightKey (t_iter t)).
Definition last_height (t : Table) : option Height := last (tb_keys HeightKey (t_iter t)).
(** [decided_heights] *)
Definition all_heights (t : Table) : list Height := tb_keys HeightKey (t_iter t).
(** [undecided_proposals_range] and the loop of [prune] *)
Definition undecided_range (retain_height : Height) (t : Table) : list (Height * Round) :=
  tb_keys UndecidedValueKey
    (t_range (compare_bytes UndecidedValueKey) Unbounded
       (Excluded (as_bytes UndecidedValueKey (retain_height, Nil))) t).
Definition prune_table (retain_height : Height) (t : Table) : Table :=
  foldl (λ t k, tb_remove UndecidedValueKey k t) t (undecided_range retain_height t).
(** [get_all_undecided_blob_metadata_before] *)
Definition undecided_before (before_height : Height) (t : Table) : list (Height * Round) :=
  take_while (λ k : Height * Round, negb (before_height <=? k.1)) (tb_keys UndecidedValueKey (t_iter t)).
(** [table.range((height, 0u16)..=(height, u16::MAX))] *)
Definition archival_entries (height : Height) (t : Table) : list (Z * bytes) :=
  (λ e : (Height * Z) * bytes, (e.1.2, e.2)) <$>
    tb_entries BlobArchivalKey
      (t_range (compare_bytes BlobArchivalKey) (Included (as_bytes BlobArchivalKey (height, 0)))
         (Included (as_bytes BlobArchivalKey (height, 65535))) t).
End keys.

(** ** The keys are lawful *)

Section key_laws.
Context `{RL : RedbLaws}.

Lemma HeightKey_lawful : lawful HeightKey is_u64_key id.
Proof using RL. destruct u64_lawful as [Hu Hw]. split; [|apply Hu..]. intros a w _ [= <-]; apply Hw. Qed.

Lemma RoundKey_lawful : lawful RoundKey round_wf Round_as_i64.
Proof using RL.
  destruct i64_lawful as [Hi Hw]. assert (∀ r, round_wf r → is_i64_key (Round_as_i64 r)) as Hr.
  { intros r Hr%round_key_range. unfold is_i64_key. lia. }
  split; [intros a w _ [= <-]; apply Hw| |].
  - intros r Hwf. cbn. rewrite (law_round_trip _ _ _ Hi) by auto. unfold Round_from_i64.
    destruct r as [|z]; [done|]. cbn in *. unfold is_u32 in Hwf. destruct (z <? 0) eqn:?; [lia|].
    by rewrite Z.mod_small.
  - intros a b Ha Hb. cbn. by rewrite (law_order _ _ _ Hi) by auto.
Qed.

Lemma BlobIndexKey_lawful : lawful BlobIndexKey is_u16_key id.
Proof using RL. destruct u16_lawful as [Hu Hw]. split; [|apply Hu..]. intros a w _ [= <-]; apply Hw. Qed.

(** A height above all that the second component can weigh. *)
Lemma rank_compare (a a' b b' : Z) : is_i64_key b → is_i64_key b' →
  (a * 2^64 + b ?= a' * 2^64 + b') = match a ?= a' with Eq => b ?= b' | c => c end.
Proof.
  unfold is_i64_key. intros Hb Hb'. destruct (Z.compare_spec a a') as [->|Ha|Ha].
  - apply Z.add_compare_mono_l.
  - apply Z.compare_lt_iff. lia.
  - apply Z.compare_gt_iff. lia.
Qed.

Lemma pair_lawful {A B} (ka : KeyType A) (kb : KeyType B) oka okb ra rb wa wb :
  lawful ka oka ra → lawful kb okb rb → fixed_width ka = Some wa → fixed_width kb = Some wb →
  (∀ b, okb b → is_i64_key (rb b)) →
  lawful (pair_key ka kb) (λ p, oka p.1 ∧ okb p.2) (λ p, ra p.1 * 2^64 + rb p.2).
Proof using RL.
  intros La Lb Ha Hb Hrb. destruct (pair_width _ _ ka kb wa wb Ha Hb) as [Hfw Hlen]. split.
  - intros p w [Hp1 Hp2] Hw. rewrite Hfw in Hw. injection Hw as <-.
    apply Hlen; [by apply (law_width _ _ _ La)|by apply (law_width _ _ _ Lb)].
  - intros p [Hp1 Hp2]. by eapply pair_round_trip.
  - intros p q [Hp1 Hp2] [Hq1 Hq2].
    rewrite (pair_order _ _ ka kb wa wb) by (done || by apply (law_width _ _ _ La) || by apply (law_width _ _ _ Lb)).
    rewrite rank_compare, (law_order _ _ _ La), (law_order _ _ _ Lb) by auto. done.
Qed.

Definition undecided_ok (p : Height * Round) : Prop := is_u64_key p.1 ∧ round_wf p.2.
Definition archival_ok (p : Height * Z) : Prop := is_u64_key p.1 ∧ is_u16_key p.2.

Lemma UndecidedValueKey_lawful : lawful UndecidedValueKey undecided_ok (λ p, pair_rank (round_key p.1 p.2)).
Proof using RL.
  apply (pair_lawful _ _ _ _ _ _ 8 8 HeightKey_lawful RoundKey_lawful); [done..|].
  intros r Hr%round_key_range. unfold is_i64_key. lia.
Qed.
Lemma BlobArchivalKey_lawful : lawful BlobArchivalKey archival_ok pair_rank.
Proof using RL.
  apply (pair_lawful _ _ _ _ _ _ 8 2 HeightKey_lawful BlobIndexKey_lawful); [done..|].
  unfold is_u16_key, is_i64_key. cbn. lia.
Qed.
End key_laws.

(** ** Tables of bytes and maps *)

Lemma Forall_filter {A} (Q P : A → Prop) `{!∀ x, Decision (P x)} l : Forall Q l → Forall Q (filter P l).
Proof. rewrite !Forall_forall. intros Hl x [_ Hx]%list_elem_of_filter. auto. Qed.
Lemma StronglySorted_filter {A} (R : A → A → Prop) (P : A → Prop) `{!∀ x, Decision (P x)} l :
  StronglySorted R l → StronglySorted R (filter P l).
Proof.
  induction 1 as [|x l Hs IH Hx]; [constructor|]. rewrite filter_cons. case_decide; [|done].
  constructor; [done|]. by apply Forall_filter.
Qed.
Lemma orders_sub cmp (ks ks' : list bytes) : ks ⊆ ks' → orders cmp ks' → orders cmp ks.
Proof. intros Hsub [rank Hr]. exists rank. intros a b Ha Hb. apply Hr; by apply Hsub. Qed.

Section refines.
Context `{RL : RedbLaws} {A K : Type} `{Countable K}.
Context (kt : KeyType A) (ok : A → Prop) (ix : A → K) (rank : K → Z).

(** A table holds the map: in order, and under the encodings of its keys. *)
Definition rep (t : Table) (m : gmap K (list Z)) : Prop :=
  ∃ L : list (A * bytes),
    Forall (λ e, ok e.1) L ∧ StronglySorted (λ e e', rank (ix e.1) < rank (ix e'.1)) L ∧
    t_iter t = prod_map (as_bytes kt) id <$> L ∧ m = list_to_map (prod_map ix id <$> L).

Context (Hlaw : lawful kt ok (rank ∘ ix)).
Context (Hinj : ∀ a b, ok a → ok b → rank (ix a) = rank (ix b) → ix a = ix b).

Let cmpA (a b : A) : comparison := rank (ix a) ?= rank (ix b).

Lemma encoded_orders (l : list A) : Forall ok l → orders (compare_bytes kt) (as_bytes kt <$> l).
Proof using Hlaw.
  intros Hl. rewrite Forall_forall in Hl. exists (λ b, rank (ix (from_bytes kt b))).
  intros ? ? (a & -> & Ha)%list_elem_of_fmap (b & -> & Hb)%list_elem_of_fmap.
  rewrite (law_order _ _ _ Hlaw), !(law_round_trip _ _ _ Hlaw) by auto. done.
Qed.
Lemma entries_orders (l : list A) (L : list (A * bytes)) (t : Table) :
  Forall ok l → Forall (λ e, ok e.1) L → t_iter t = prod_map (as_bytes kt) id <$> L →
  orders (compare_bytes kt) ((as_bytes kt <$> l) ++ (t_iter t).*1).
Proof using Hlaw.
  intros Hl HL ->. replace (_ ++ _) with (as_bytes kt <$> (l ++ L.*1)).
  - apply encoded_orders, Forall_app. split; [done|]. by rewrite Forall_fmap.
  - rewrite fmap_app, <-!list_fmap_compose. done.
Qed.

Lemma cmpA_spec (a b : A) :
  CompareSpec (rank (ix a) = rank (ix b)) (rank (ix a) < rank (ix b)) (rank (ix b) < rank (ix a)) (cmpA a b).
Proof. apply Z.compare_spec. Qed.
Lemma cmp_encoded (a b : A) : ok a → ok b → compare_bytes kt (as_bytes kt a) (as_bytes kt b) = cmpA a b.
Proof using Hlaw. apply (law_order _ _ _ Hlaw). Qed.

Lemma same_key_encoded (a : A) (e : A * bytes) : ok a → ok e.1 →
  same_key (compare_bytes kt) (as_bytes kt a) (prod_map (as_bytes kt) id e) = same_key cmpA a e.
Proof using Hlaw. intros. unfold same_key. destruct e. cbn in *. by rewrite cmp_encoded. Qed.

Lemma same_key_ix (a : A) (e : A * bytes) : ok a → ok e.1 → same_key cmpA a e = true ↔ ix a = ix e.1.
Proof using Hinj.
  intros Ha He. unfold same_key. destruct (cmpA_spec a e.1) as [Hc|Hc|Hc]; split;
    try done; [auto|intros Heq; rewrite Heq in Hc; lia..].
Qed.

(** *** Lists of entries *)

Lemma find_encoded (a : A) (L : list (A * bytes)) : ok a → Forall (λ e, ok e.1) L →
  find_key (compare_bytes kt) (as_bytes kt a) (prod_map (as_bytes kt) id <$> L)
  = list_to_map (M := gmap K (list Z)) (prod_map ix id <$> L) !! ix a.
Proof using Hlaw Hinj.
  intros Ha. unfold find_key, find_first. induction 1 as [|[b v] L Hb HL IH]; [done|].
  rewrite fmap_cons, filter_cons. cbn in Hb. rewrite same_key_encoded by done.
  cbn [fmap list_fmap prod_map list_to_map foldr uncurry fst snd id]. case_decide as Hc.
  - apply same_key_ix in Hc; [|done..]. cbn in Hc. rewrite Hc, lookup_insert_eq. done.
  - rewrite lookup_insert_ne, <-IH; [done|]. intros Heq. apply Hc. by apply same_key_ix.
Qed.

Lemma put_encoded (a : A) (v : bytes) (L : list (A * bytes)) : ok a → Forall (λ e, ok e.1) L →
  put (compare_bytes kt) (as_bytes kt a) v (prod_map (as_bytes kt) id <$> L)
  = prod_map (as_bytes kt) id <$> put cmpA a v L.
Proof using Hlaw.
  intros Ha. induction 1 as [|[b w] L Hb HL IH]; [done|]. cbn in Hb |- *. rewrite cmp_encoded by done.
  destruct (cmpA a b); [done..|]. cbn. by rewrite IH.
Qed.
Lemma put_map (a : A) (v : bytes) (L : list (A * bytes)) : ok a → Forall (λ e, ok e.1) L →
  list_to_map (M := gmap K (list Z)) (prod_map ix id <$> put cmpA a v L)
  = <[ix a := v]> (list_to_map (prod_map ix id <$> L)).
Proof using Hinj.
  intros Ha. induction 1 as [|[b w] L Hb HL IH]; [done|]. cbn in Hb |- *.
  destruct (cmpA_spec a b) as [Hc|Hc|Hc]; cbn.
  - rewrite (Hinj a b) by done. by rewrite insert_insert_eq.
  - done.
  - rewrite IH. apply insert_insert_ne. intros Heq. rewrite Heq in Hc. lia.
Qed.
Lemma put_ok (a : A) (v : bytes) (L : list (A * bytes)) (P : A → Prop) :
  P a → Forall (λ e, P e.1) L → Forall (λ e, P e.1) (put cmpA a v L).
Proof.
  intros Ha. induction 1 as [|[b w] L Hb HL IH]; cbn; [by repeat constructor|].
  destruct (cmpA a b); repeat constructor; auto.
Qed.
Lemma put_sorted (a : A) (v : bytes) (L : list (A * bytes)) :
  StronglySorted (λ e e', rank (ix e.1) < rank (ix e'.1)) L →
  StronglySorted (λ e e', rank (ix e.1) < rank (ix e'.1)) (put cmpA a v L).
Proof.
  induction 1 as [|[b w] L Hs IH Hb]; cbn; [by repeat constructor|].
  destruct (cmpA_spec a b) as [Hc|Hc|Hc]; cbn in Hb.
  - constructor; [done|]. cbn. by rewrite Hc.
  - repeat constructor; [done..|]. cbn. eapply Forall_impl; [exact Hb|]. cbn. lia.
  - constructor; [done|]. cbn. by apply (put_ok a v L (λ x, rank (ix b) < rank (ix x))).
Qed.

Lemma del_encoded (a : A) (L : list (A * bytes)) : ok a → Forall (λ e, ok e.1) L →
  del (compare_bytes kt) (as_bytes kt a) (prod_map (as_bytes kt) id <$> L)
  = prod_map (as_bytes kt) id <$> del cmpA a L.
Proof using Hlaw.
  intros Ha. unfold del. induction 1 as [|e L He HL IH]; [done|].
  rewrite fmap_cons, !filter_cons, same_key_encoded by done. case_decide; [|done]. by rewrite fmap_cons, IH.
Qed.
Lemma del_map (a : A) (L : list (A * bytes)) : ok a → Forall (λ e, ok e.1) L →
  list_to_map (M := gmap K (list Z)) (prod_map ix id <$> del cmpA a L)
  = delete (ix a) (list_to_map (prod_map ix id <$> L)).
Proof using Hinj.
  intros Ha. unfold del. induction 1 as [|[b w] L Hb HL IH]; [symmetry; apply delete_empty|].
  rewrite filter_cons. case_decide as Hc; cbn [fmap list_fmap prod_map list_to_map foldr uncurry fst snd id].
  - rewrite IH, delete_insert_ne; [done|]. intros Heq. cbn in Hb.
    apply (same_key_ix a (b, w)) in Heq; [congruence|done..].
  - rewrite IH. apply not_false_is_true, (same_key_ix a (b, w)) in Hc; [|done..]. cbn in Hc.
    by rewrite Hc, delete_insert_eq.
Qed.

(** *** Accesses *)

Lemma decoded_entries (L : list (A * bytes)) : Forall (λ e, ok e.1) L →
  tb_entries kt (prod_map (as_bytes kt) id <$> L) = L.
Proof using Hlaw.
  unfold tb_entries. induction 1 as [|[a v] L Ha HL IH]; [done|]. cbn in *.
  by rewrite (law_round_trip _ _ _ Hlaw), IH.
Qed.
Lemma tb_keys_entries (es : list (bytes * bytes)) : tb_keys kt es = (tb_entries kt es).*1.
Proof. unfold tb_keys, tb_entries. by rewrite <-list_fmap_compose. Qed.

Lemma rep_new : rep t_new ∅.
Proof using RL. exists []. repeat split; [constructor..|apply new_empty]. Qed.

Lemma rep_get (a : A) (t : Table) (m : gmap K (list Z)) : ok a → rep t m → tb_get kt a t = m !! ix a.
Proof using RL Hlaw Hinj.
  intros Ha (L & HL & _ & Ht & ->). unfold tb_get. rewrite get_finds, Ht, find_encoded; [done..|].
  by apply (entries_orders [a] L t); [repeat constructor|..].
Qed.
Lemma rep_insert (a : A) (v : bytes) (t : Table) (m : gmap K (list Z)) :
  ok a → rep t m → rep (tb_insert kt a v t) (<[ix a := v]> m).
Proof using RL Hlaw Hinj.
  intros Ha (L & HL & Hs & Ht & ->). exists (put cmpA a v L).
  split_and!; [by apply put_ok|by apply put_sorted| |by rewrite put_map].
  unfold tb_insert. rewrite insert_puts, Ht, put_encoded; [done..|].
  by apply (entries_orders [a] L t); [repeat constructor|..].
Qed.
Lemma rep_remove (a : A) (t : Table) (m : gmap K (list Z)) :
  ok a → rep t m → rep (tb_remove kt a t) (delete (ix a) m).
Proof using RL Hlaw Hinj.
  intros Ha (L & HL & Hs & Ht & ->). exists (del cmpA a L).
  split_and!; [by apply Forall_filter|by apply StronglySorted_filter| |by rewrite del_map].
  unfold tb_remove. rewrite remove_deletes, Ht, del_encoded; [done..|].
  by apply (entries_orders [a] L t); [repeat constructor|..].
Qed.
Lemma rep_insert_if_absent (a : A) (v : bytes) (t : Table) (m : gmap K (list Z)) :
  ok a → rep t m → rep (tb_insert_if_absent kt a v t) (insert_if_absent (ix a) v m).
Proof using RL Hlaw Hinj.
  intros Ha Hr. unfold tb_insert_if_absent, insert_if_absent. rewrite (rep_get a t m) by done.
  destruct (m !! ix a); [done|]. by apply rep_insert.
Qed.

(** What an iteration gives is the sorted content of the map. *)
Lemma rep_entries (t : Table) (m : gmap K (list Z)) : rep t m →
  Forall (λ e, ok e.1) (tb_entries kt (t_iter t)) ∧
  prod_map ix id <$> tb_entries kt (t_iter t) = sort_by_key (rank ∘ fst) (map_to_list m).
Proof using Hlaw.
  intros (L & HL & Hs & Ht & ->). rewrite Ht, decoded_entries by done. split; [done|].
  assert (NoDup ((rank ∘ fst) <$> (prod_map ix id <$> L))) as Hnd.
  { clear -Hs. induction Hs as [|[a v] L Hs IH Ha]; cbn; constructor; [|done].
    rewrite Forall_forall in Ha. intros (e & Heq & (e' & -> & Hin)%list_elem_of_fmap)%list_elem_of_fmap.
    specialize (Ha _ Hin). destruct e'; cbn in *; lia. }
  rewrite (sort_by_key_Permutation_eq _ _ (prod_map ix id <$> L)).
  - symmetry. apply sort_by_key_id. clear -Hs. induction Hs as [|[a v] L Hs IH Ha]; cbn; constructor; [done|].
    apply Forall_fmap. eapply Forall_impl; [exact Ha|]. intros []; cbn; lia.
  - rewrite map_to_list_to_map; [done|]. rewrite list_fmap_compose in Hnd. by apply NoDup_fmap_1 in Hnd.
  - apply map_to_list_to_map. rewrite list_fmap_compose in Hnd. by apply NoDup_fmap_1 in Hnd.
Qed.

Lemma sort_by_key_fst {B} (f : K → Z) (l : list (K * B)) :
  (sort_by_key (f ∘ fst) l).*1 = sort_by_key f l.*1.
Proof.
  induction l as [|e l IH]; [done|].
  change ((insert_by_key (f ∘ fst) e (sort_by_key (f ∘ fst) l)).*1 = insert_by_key f e.1 (sort_by_key f l.*1)).
  rewrite <-IH. clear IH. generalize (sort_by_key (f ∘ fst) l). intros l'.
  induction l' as [|e' l' IH]; [done|]. cbn. case_match; [done|]. cbn. by rewrite IH.
Qed.
Lemma rep_keys (t : Table) (m : gmap K (list Z)) : rep t m →
  Forall ok (tb_keys kt (t_iter t)) ∧ ix <$> tb_keys kt (t_iter t) = sort_by_key rank (map_to_list m).*1.
Proof using Hlaw.
  intros [Hok Heq]%rep_entries. rewrite tb_keys_entries. split; [by apply Forall_fmap|].
  rewrite <-sort_by_key_fst, <-Heq, <-!list_fmap_compose. done.
Qed.

(** *** Ranges *)

Lemma filter_encoded (P : A * bytes → Prop) (Q : bytes * bytes → Prop) `{!∀ e, Decision (P e)} `{!∀ e, Decision (Q e)} L :
  (∀ e, ok e.1 → Q (prod_map (as_bytes kt) id e) ↔ P e) → Forall (λ e, ok e.1) L →
  tb_entries kt (filter Q (prod_map (as_bytes kt) id <$> L)) = filter P L.
Proof using Hlaw.
  intros HPQ HL. rewrite <-(decoded_entries (filter P L)) by by apply Forall_filter. f_equal.
  induction HL as [|e L He HL IH]; [done|]. rewrite fmap_cons, !filter_cons.
  destruct (decide (P e)) as [Hp|Hp].
  - rewrite decide_True by by apply HPQ. by rewrite fmap_cons, IH.
  - by rewrite decide_False by by rewrite HPQ.
Qed.

Lemma rep_range_to (a : A) (t : Table) (m : gmap K (list Z)) : ok a → rep t m →
  tb_entries kt (t_range (compare_bytes kt) Unbounded (Excluded (as_bytes kt a)) t)
  = filter (λ e, rank (ix e.1) < rank (ix a)) (tb_entries kt (t_iter t)).
Proof using RL Hlaw.
  intros Ha (L & HL & _ & Ht & _). rewrite range_filters, Ht, decoded_entries; [|done|].
  - apply filter_encoded; [|done]. intros [b v] Hb. cbn in *. rewrite cmp_encoded by done.
    destruct (cmpA_spec b a); split; done || lia.
  - eapply orders_sub; [|apply (entries_orders [a] L t); [by repeat constructor|done..]].
    cbn. intros k. rewrite elem_of_app, !elem_of_cons, elem_of_nil. tauto.
Qed.
Lemma rep_range_incl (a b : A) (t : Table) (m : gmap K (list Z)) : ok a → ok b → rep t m →
  tb_entries kt (t_range (compare_bytes kt) (Included (as_bytes kt a)) (Included (as_bytes kt b)) t)
  = filter (λ e, rank (ix a) ≤ rank (ix e.1) ≤ rank (ix b)) (tb_entries kt (t_iter t)).
Proof using RL Hlaw.
  intros Ha Hb (L & HL & _ & Ht & _). rewrite range_filters, Ht, decoded_entries; [|done|].
  - apply filter_encoded; [|done]. intros [c v] Hc. cbn in *. rewrite !cmp_encoded by done.
    destruct (cmpA_spec a c), (cmpA_spec c b); cbn; split; done || lia.
  - eapply orders_sub; [|apply (entries_orders [a; b] L t); [by repeat constructor|done..]].
    cbn. intros k. rewrite elem_of_app, !elem_of_cons, elem_of_nil. tauto.
Qed.
End refines.

(** ** The tables of the store *)

(** What [store.rs] does with a table of heights, of rounds, and of archive
    records. *)
Inductive HeightOp :=
| HGet (h : Height) | HInsert (h : Height) (v : bytes) | HInsertIfAbsent (h : Height) (v : bytes)
| HFirst | HLast | HAll.
Inductive RoundOp :=
| RGet (h : Height) (r : Round) | RInsertIfAbsent (h : Height) (r : Round) (v : bytes)
| RRemove (h : Height) (r : Round) | RPrune (h : Height) | RBefore (h : Height).
Inductive ArchiveOp := AInsert (h : Height) (i : Z) (v : bytes) | ARange (h : Height).
Inductive Answer :=
| Done | Got (v : option bytes) | GotHeight (h : option Height) | GotHeights (hs : list Height)
| GotKeys (ks : list (Height * Round)) | GotRecords (rs : list (Z * bytes)).

Definition decode_key (k : Z * Z) : Height * Round := (k.1, Round_from_i64 k.2).

(** On the maps of [Store.v] *)
Definition height_map (op : HeightOp) (t : HTable) : HTable * Answer :=
  match op with
  | HGet h => (t, Got (t !! h))
  | HInsert h v => (<[h := v]> t, Done)
  | HInsertIfAbsent h v => (insert_if_absent h v t, Done)
  | HFirst => (t, GotHeight (head (sorted_heights t)))
  | HLast => (t, GotHeight (last (sorted_heights t)))
  | HAll => (t, GotHeights (sorted_heights t))
  end.
Definition round_map (op : RoundOp) (t : HRTable) : HRTable * Answer :=
  match op with
  | RGet h r => (t, Got (t !! round_key h r))
  | RInsertIfAbsent h r v => (insert_if_absent (round_key h r) v t, Done)
  | RRemove h r => (delete (round_key h r) t, Done)
  | RPrune h => (remove_keys (keys_below h t) t, Done)
  | RBefore h =>
    (t, GotKeys (decode_key <$> take_while (λ k : Z * Z, negb (h <=? k.1)) (sorted_pairs t)))
  end.
Definition archive_map (op : ArchiveOp) (t : HRTable) : HRTable * Answer :=
  match op with
  | AInsert h i v => (<[(h, i) := v]> t, Done)
  | ARange h => (t, GotRecords (archival_range h t))
  end.

(** On tables of bytes *)
Section on_bytes.
Context `{R : Redb}.
Definition height_table (op : HeightOp) (t : Table) : Table * Answer :=
  match op with
  | HGet h => (t, Got (tb_get HeightKey h t))
  | HInsert h v => (tb_insert HeightKey h v t, Done)
  | HInsertIfAbsent h v => (tb_insert_if_absent HeightKey h v t, Done)
  | HFirst => (t, GotHeight (first_height t))
  | HLast => (t, GotHeight (last_height t))
  | HAll => (t, GotHeights (all_heights t))
  end.
Definition round_table (op : RoundOp) (t : Table) : Table * Answer :=
  match op with
  | RGet h r => (t, Got (tb_get UndecidedValueKey (h, r) t))
  | RInsertIfAbsent h r v => (tb_insert_if_absent UndecidedValueKey (h, r) v t, Done)
  | RRemove h r => (tb_remove UndecidedValueKey (h, r) t, Done)
  | RPrune h => (prune_table h t, Done)
  | RBefore h => (t, GotKeys (undecided_before h t))
  end.
Definition archive_table (op : ArchiveOp) (t : Table) : Table * Answer :=
  match op with
  | AInsert h i v => (tb_insert BlobArchivalKey (h, i) v t, Done)
  | ARange h => (t, GotRecords (archival_entries h t))
  end.
End on_bytes.

(** The answers of a sequence of accesses. *)
Fixpoint answers {Op T} (step : Op → T → T * Answer) (ops : list Op) (t : T) : list Answer :=
  match ops with
  | [] => []
  | op :: ops => let (t', a) := step op t in a :: answers step ops t'
  end.

Definition HeightOp_ok (op : HeightOp) : Prop :=
  match op with HGet h | HInsert h _ | HInsertIfAbsent h _ => is_u64_key h | _ => True end.
Definition RoundOp_ok (op : RoundOp) : Prop :=
  match op with
  | RGet h r | RInsertIfAbsent h r _ | RRemove h r => is_u64_key h ∧ round_wf r
  | RPrune h | RBefore h => is_u64_key h
  end.
Definition ArchiveOp_ok (op : ArchiveOp) : Prop :=
  match op with AInsert h i _ => is_u64_key h ∧ is_u16_key i | ARange h => is_u64_key h end.

(** A step that keeps the representation gives the same answers for ever. *)
Lemma answers_simulate {Op T T'} (step : Op → T → T * Answer) (step' : Op → T' → T' * Answer)
    (ok : Op → Prop) (rel : T → T' → Prop) :
  (∀ op t t', ok op → rel t t' → rel (step op t).1 (step' op t').1 ∧ (step op t).2 = (step' op t').2) →
  ∀ ops t t', Forall ok ops → rel t t' → answers step ops t = answers step' ops t'.
Proof.
  intros Hstep ops. induction ops as [|op ops IH]; intros t t' Hok Hr; [done|].
  apply Forall_cons in Hok as [Hop Hok]. cbn. destruct (Hstep op t t' Hop Hr) as [Hr' Ha].
  destruct (step op t), (step' op t'). cbn in *. subst. f_equal. by apply IH.
Qed.

(** *** Lists that go through an injection *)

Lemma filter_fmap {A B} (f : A → B) (P : B → Prop) `{!∀ b, Decision (P b)} (l : list A) :
  f <$> filter (λ a, P (f a)) l = filter P (f <$> l).
Proof.
  induction l as [|a l IH]; [done|]. rewrite fmap_cons, !filter_cons. case_decide; [|done]. by rewrite fmap_cons, IH.
Qed.
Lemma take_while_fmap {A B} (f : A → B) (p : B → bool) (l : list A) :
  f <$> take_while (p ∘ f) l = take_while p (f <$> l).
Proof. induction l as [|a l IH]; [done|]. cbn. destruct (p (f a)); [|done]. cbn. by rewrite IH. Qed.

Section tables.
Context `{RL : RedbLaws}.

Abbreviation hrep := (rep HeightKey is_u64_key id id) (only parsing).
Abbreviation rrep := (rep UndecidedValueKey undecided_ok (λ p, round_key p.1 p.2) pair_rank) (only parsing).
Abbreviation arep := (rep BlobArchivalKey archival_ok id pair_rank) (only parsing).

Lemma height_table_step (op : HeightOp) (t : Table) (m : HTable) : HeightOp_ok op → hrep t m →
  hrep (height_table op t).1 (height_map op m).1 ∧ (height_table op t).2 = (height_map op m).2.
Proof using RL.
  pose proof HeightKey_lawful as Hlaw. assert (∀ a b : Z, is_u64_key a → is_u64_key b → id (id a) = id (id b) → id a = id b)
    as Hinj by done. intros Hop Hr.
  assert (all_heights t = sorted_heights m) as Hall.
  { destruct (rep_keys HeightKey _ id id Hlaw t m Hr) as [_ Hk]. rewrite list_fmap_id in Hk. exact Hk. }
  destruct op; cbn in *; split; try done; try by rewrite <-Hall.
  - by rewrite (rep_get HeightKey _ id id Hlaw Hinj h t m).
  - by apply (rep_insert HeightKey _ id id Hlaw Hinj).
  - by apply (rep_insert_if_absent HeightKey _ id id Hlaw Hinj).
Qed.

Lemma pair_rank_inj (p q : Z * Z) : is_i64_key p.2 → is_i64_key q.2 → pair_rank p = pair_rank q → p = q.
Proof.
  destruct p as [a b], q as [c d]. unfold pair_rank. cbn. intros Hb Hd Heq%Z.compare_eq_iff.
  rewrite rank_compare in Heq by done. destruct (Z.compare_spec a c); [|done..].
  apply Z.compare_eq_iff in Heq. by subst.
Qed.

Lemma round_wf_i64 (r : Round) : round_wf r → is_i64_key (Round_as_i64 r).
Proof. intros Hr%round_key_range. unfold is_i64_key. lia. Qed.

Lemma undecided_inj (p q : Height * Round) : undecided_ok p → undecided_ok q →
  pair_rank (round_key p.1 p.2) = pair_rank (round_key q.1 q.2) → round_key p.1 p.2 = round_key q.1 q.2.
Proof. intros [_ Hp] [_ Hq]. apply pair_rank_inj; by apply round_wf_i64. Qed.

Lemma decode_round_key (p : Height * Round) : undecided_ok p → decode_key (round_key p.1 p.2) = p.
Proof.
  destruct p as [h [|z]]; intros [_ Hr]; [done|]. unfold decode_key, Round_from_i64. cbn in *. unfold is_u32 in Hr.
  destruct (z <? 0) eqn:?; [lia|]. by rewrite Z.mod_small.
Qed.

Lemma rep_remove_all (ks : list (Height * Round)) : ∀ t m, Forall undecided_ok ks → rrep t m →
  rrep (foldl (λ t k, tb_remove UndecidedValueKey k t) t ks) (remove_keys ((λ p, round_key p.1 p.2) <$> ks) m).
Proof using RL.
  induction ks as [|k ks IH]; intros t m Hks Hr; [done|]. apply Forall_cons in Hks as [Hk Hks]. cbn.
  apply IH; [done|]. by apply (rep_remove UndecidedValueKey _ _ _ UndecidedValueKey_lawful undecided_inj).
Qed.

Lemma undecided_range_keys (h : Height) (t : Table) (m : HRTable) : is_u64_key h → rrep t m →
  Forall undecided_ok (undecided_range h t) ∧
  (λ p, round_key p.1 p.2) <$> undecided_range h t = keys_below h m.
Proof using RL.
  intros Hh Hr. pose proof UndecidedValueKey_lawful as Hlaw. unfold undecided_range. rewrite tb_keys_entries.
  rewrite (rep_range_to UndecidedValueKey _ _ _ Hlaw (h, Nil) t m) by done.
  destruct (rep_entries _ _ _ _ Hlaw t m Hr) as [Hok _]. split; [by apply Forall_fmap, Forall_filter|].
  destruct (rep_keys _ _ _ _ Hlaw t m Hr) as [_ Hk]. unfold keys_below, sorted_pairs.
  rewrite <-Hk, tb_keys_entries, <-!list_fmap_compose.
  by rewrite <-(filter_fmap ((λ p : Height * Round, round_key p.1 p.2) ∘ fst)
    (λ k, pair_rank k < pair_rank (round_key h Nil))).
Qed.

Lemma round_table_step (op : RoundOp) (t : Table) (m : HRTable) : RoundOp_ok op → rrep t m →
  rrep (round_table op t).1 (round_map op m).1 ∧ (round_table op t).2 = (round_map op m).2.
Proof using RL.
  pose proof UndecidedValueKey_lawful as Hlaw. intros Hop Hr. destruct op; cbn in *; split; try done.
  - by rewrite (rep_get _ _ _ _ Hlaw undecided_inj (h, r) t m).
  - by apply (rep_insert_if_absent _ _ _ _ Hlaw undecided_inj (h, r)).
  - by apply (rep_remove _ _ _ _ Hlaw undecided_inj (h, r)).
  - destruct (undecided_range_keys h t m Hop Hr) as [Hok <-]. by apply rep_remove_all.
  - f_equal. destruct (rep_keys _ _ _ _ Hlaw t m Hr) as [Hok Hk]. unfold sorted_pairs. rewrite <-Hk.
    rewrite <-take_while_fmap, <-list_fmap_compose. unfold undecided_before. clear Hk.
    induction Hok as [|k ks Hk Hks IH]; [done|]. cbn. destruct (negb (h <=? k.1)); [|done]. cbn.
    f_equal; [by rewrite decode_round_key|exact IH].
Qed.

(** The records of a height, by index, are those between its bounds. *)
Lemma between_height (h : Height) (k : Z * Z) : archival_ok k →
  pair_rank (h, 0) ≤ pair_rank k ≤ pair_rank (h, 65535) ↔ k.1 = h ∧ 0 ≤ k.2 ≤ 65535.
Proof. destruct k as [h' i]. unfold archival_ok, is_u16_key, pair_rank. cbn. lia. Qed.

Definition at_height (h : Height) (e : (Z * Z) * bytes) : option (Z * bytes) :=
  if (e.1.1 =? h) && (0 <=? e.1.2) && (e.1.2 <=? 65535) then Some (e.1.2, e.2) else None.

Lemma omap_at_height (h : Height) (L : list ((Z * Z) * bytes)) : Forall (λ e, archival_ok e.1) L →
  (λ e : (Z * Z) * bytes, (e.1.2, e.2)) <$> filter (λ e, pair_rank (h, 0) ≤ pair_rank e.1 ≤ pair_rank (h, 65535)) L
  = omap (at_height h) L.
Proof.
  induction 1 as [|e L He HL IH]; [done|]. rewrite filter_cons. cbn [omap list_omap]. unfold at_height at 1.
  destruct (between_height h e.1 He) as [H1 H2]. case_decide as Hc.
  - destruct (H1 Hc) as [-> ?]. rewrite Z.eqb_refl. replace (0 <=? e.1.2) with true by lia.
    replace (e.1.2 <=? 65535) with true by lia. cbn [andb]. by rewrite fmap_cons, IH.
  - destruct ((e.1.1 =? h) && (0 <=? e.1.2) && (e.1.2 <=? 65535)) eqn:E; [|done].
    destruct Hc. apply H2. lia.
Qed.

Lemma at_height_sorted (h : Height) (L : list ((Z * Z) * bytes)) :
  StronglySorted (λ e e', pair_rank e.1 < pair_rank e'.1) L →
  StronglySorted (λ e e' : Z * bytes, e.1 < e'.1) (omap (at_height h) L).
Proof.
  induction 1 as [|e L Hs IH He]; [constructor|]. cbn. destruct (at_height h e) as [x|] eqn:Ex; [|done].
  constructor; [done|]. rewrite Forall_forall in He. apply Forall_forall. intros y (e' & Hin & Hy)%list_elem_of_omap.
  specialize (He e' Hin). unfold at_height in Ex, Hy. unfold pair_rank in He.
  destruct (_ && _) eqn:E1 in Ex; [|done]. destruct (_ && _) eqn:E2 in Hy; [|done]. simplify_eq. cbn. lia.
Qed.

Lemma strictly_sorted_keys {B} (l : list (Z * B)) : StronglySorted (λ e e' : Z * B, e.1 < e'.1) l →
  NoDup (fst <$> l) ∧ StronglySorted (λ e e' : Z * B, e.1 ≤ e'.1) l.
Proof.
  induction 1 as [|e l Hs [IHn IHs] He]; [by split; constructor|]. rewrite Forall_forall in He. split; constructor; auto.
  - intros (e' & Heq & Hin)%list_elem_of_fmap. specialize (He e' Hin). lia.
  - apply Forall_forall. intros e' Hin. specialize (He e' Hin). lia.
Qed.

Lemma archival_entries_range (h : Height) (t : Table) (m : HRTable) : is_u64_key h → arep t m →
  archival_entries h t = archival_range h m.
Proof using RL.
  intros Hh Hr. pose proof BlobArchivalKey_lawful as Hlaw. unfold archival_entries.
  rewrite (rep_range_incl BlobArchivalKey archival_ok id pair_rank Hlaw (h, 0) (h, 65535) t m) by done.
  destruct (rep_entries _ _ id pair_rank Hlaw t m Hr) as [Hok Hent]. destruct Hr as (L & HL & Hs & Ht & _).
  rewrite Ht, (decoded_entries _ archival_ok id pair_rank Hlaw) in * by done. cbn [id]. rewrite omap_at_height by done.
  destruct (strictly_sorted_keys _ (at_height_sorted h L Hs)) as [Hnd Hle]. unfold archival_range.
  assert (omap (at_height h) (map_to_list m) ≡ₚ omap (at_height h) L) as Hp.
  { apply omap_Permutation. rewrite <-(sort_by_key_Permutation (pair_rank ∘ fst)), <-Hent.
    by replace (prod_map id id <$> L) with L by (symmetry; rewrite <-(list_fmap_id L) at 2; apply list_fmap_ext; by intros ? []). }
  rewrite (sort_by_key_Permutation_eq fst _ (omap (at_height h) L)); [by rewrite sort_by_key_id| |exact Hp].
  by rewrite Hp.
Qed.

Lemma archive_table_step (op : ArchiveOp) (t : Table) (m : HRTable) : ArchiveOp_ok op → arep t m →
  arep (archive_table op t).1 (archive_map op m).1 ∧ (archive_table op t).2 = (archive_map op m).2.
Proof using RL.
  intros Hop Hr. destruct op; cbn in *; split; try done.
  - apply (rep_insert BlobArchivalKey archival_ok id pair_rank BlobArchivalKey_lawful); [|done..].
    intros p q [_ Hp] [_ Hq]. apply pair_rank_inj; unfold is_u16_key, is_i64_key in *; cbn in *; lia.
  - f_equal. by apply archival_entries_range.
Qed.

(** C37: the maps of the store refine its tables of bytes.  Whatever sequence of
    accesses is made to a new table of heights, of rounds or of archive records,
    with heights of 64 bits, rounds that are [Nil] or of 32 bits and indices of 16
    bits, the table of encoded keys, compared by the implementations of
    [redb::Key], gives the answers that the maps give: a lookup finds what was
    last written under that very key, [Nil] included, the first and the last
    height are the lowest and the highest, pruning below a height removes every
    round of the lower heights and nothing else, and the archive records of a
    height come by ascending index and belong to that height alone. *)
Theorem tables_refine_maps (hops : list HeightOp) (rops : list RoundOp) (aops : list ArchiveOp) :
  Forall HeightOp_ok hops → Forall RoundOp_ok rops → Forall ArchiveOp_ok aops →
  answers height_table hops t_new = answers height_map hops ∅ ∧
  answers round_table rops t_new = answers round_map rops ∅ ∧
  answers archive_table aops t_new = answers archive_map aops ∅.
Proof using RL.
  intros Hh Hr Ha. split_and!.
  - apply (answers_simulate _ _ HeightOp_ok hrep); [exact height_table_step|done|apply rep_new].
  - apply (answers_simulate _ _ RoundOp_ok rrep); [exact round_table_step|done|apply rep_new].
  - apply (answers_simulate _ _ ArchiveOp_ok arep); [exact archive_table_step|done|apply rep_new].
Qed.
End tables.

(** ** Concrete inputs *)

Module KeysDemo.
(** Little-endian integers, pairs one after the other, and sorted lists. *)
Definition le_key (w : nat) (signed : bool) : KeyType Z :=
  let read b := if signed then to_i64 (of_le b) else of_le b in
  mkKeyType (Some w) read (λ z, le_bytes w (wrap64 z)) (λ a b, read a ?= read b).
Definition demo_pair {A B} (ka : KeyType A) (kb : KeyType B) : KeyType (A * B) :=
  let w := default O (fixed_width ka) in
  mkKeyType (match fixed_width ka, fixed_width kb with Some a, Some b => Some (a + b)%nat | _, _ => None end)
    (λ d, (from_bytes ka (take w d), from_bytes kb (drop w d)))
    (λ p, as_bytes ka p.1 ++ as_bytes kb p.2)
    (λ d e, match compare_bytes ka (take w d) (take w e) with
            | Eq => compare_bytes kb (drop w d) (drop w e)
            | c => c
            end).
#[local] Instance demo_redb : Redb := {|
  u64_key := le_key 8 false; i64_key := le_key 8 true; u16_key := le_key 2 false;
  pair_key := @demo_pair; Table := list (bytes * bytes); t_new := []; t_iter l := l;
  t_get := find_key; t_insert := put; t_remove := del;
  t_range cmp lo hi l := filter (λ e, above cmp lo e.1 && below cmp hi e.1 = true) l |}.

Lemma le_key_lawful (w : nat) (signed : bool) (ok : Z → Prop) :
  (∀ z, ok z → from_bytes (le_key w signed) (as_bytes (le_key w signed) z) = z) → lawful (le_key w signed) ok id.
Proof.
  intros Hrt. split; [|exact Hrt|].
  - intros a w' _ [= <-]. apply length_le_bytes.
  - intros a b Ha Hb. cbn in *. by rewrite !Hrt.
Qed.

#[local] Instance demo_redb_laws : RedbLaws demo_redb.
Proof.
  split; try done; cbn [u64_key i64_key u16_key pair_key demo_redb].
  - split; [|intros; apply length_le_bytes]. apply le_key_lawful. unfold is_u64_key. intros z Hz. unfold le_key. cbn [from_bytes as_bytes].
    rewrite of_le_bytes. unfold wrap64. change (256 ^ Z.of_nat 8) with (2^64). by rewrite Zmod_mod, Z.mod_small.
  - split; [|intros; apply length_le_bytes]. apply le_key_lawful. intros z Hz. unfold le_key. cbn [from_bytes as_bytes].
    rewrite of_le_bytes. unfold wrap64. change (256 ^ Z.of_nat 8) with (2^64). rewrite Zmod_mod. by apply to_i64_mod.
  - split; [|intros; apply length_le_bytes]. apply le_key_lawful. unfold is_u16_key. intros z Hz. unfold le_key. cbn [from_bytes as_bytes].
    rewrite of_le_bytes. unfold wrap64. change (256 ^ Z.of_nat 2) with (2^16).
    rewrite (Z.mod_small z) by lia. by apply Z.mod_small.
  - intros A B ka kb oka okb ra rb wa wb La Lb Ha Hb p Hp1 Hp2. cbn. rewrite Ha. cbn.
    assert (length (as_bytes ka p.1) = wa) as <- by by apply (law_width _ _ _ La).
    rewrite take_app_length, drop_app_length, (law_round_trip _ _ _ La), (law_round_trip _ _ _ Lb) by done.
    by destruct p.
  - intros A B ka kb wa wb Ha Hb. cbn. rewrite Ha, Hb. split; [done|]. intros p <- <-. apply length_app.
  - intros A B ka kb wa wb p q Ha Hb Hp1 Hq1 Hp2 Hq2. cbn. rewrite Ha. cbn.
    by rewrite !take_app_length', !drop_app_length' by done.
Qed.

(** A few rounds at two heights, [Nil] among them, two of which are pruned. *)
Definition demo_rounds : list RoundOp :=
  [RInsertIfAbsent 300 (RSome 0) [3]; RInsertIfAbsent 2 (RSome 7) [1]; RInsertIfAbsent 2 Nil [2];
   RInsertIfAbsent 2 Nil [9]; RGet 2 Nil; RBefore 301; RPrune 3; RBefore 301].
Lemma tables_refine_maps_witness :
  answers height_table [HInsert 256 [1]; HInsert 3 [2]; HFirst; HLast] t_new
    = [Done; Done; GotHeight (Some 3); GotHeight (Some 256)] ∧
  answers round_table demo_rounds t_new
    = [Done; Done; Done; Done; Got (Some [2]); GotKeys [(2, Nil); (2, RSome 7); (300, RSome 0)]; Done;
       GotKeys [(300, RSome 0)]] ∧
  answers archive_table [AInsert 5 256 [1]; AInsert 5 1 [2]; AInsert 6 0 [3]; ARange 5] t_new
    = [Done; Done; Done; GotRecords [(1, [2]); (256, [1])]].
Proof.
  destruct (tables_refine_maps [HInsert 256 [1]; HInsert 3 [2]; HFirst; HLast] demo_rounds
    [AInsert 5 256 [1]; AInsert 5 1 [2]; AInsert 6 0 [3]; ARange 5]) as (-> & -> & ->);
    [repeat constructor; cbn; unfold is_u64_key, is_u16_key, is_u32; lia..|]. vm_compute. repeat split.
Defined.
End KeysDemo.
