(* ===== verification/Proto.v ===== *)
(** * Protobuf representations ([crates/types], [codec/proto/mod.rs])

    The generated messages, the conversions [to_proto] and [from_proto], and
    the codecs of the store and of the network built from them.  [prost]'s wire
    format is a parameter.  Round trips hold for values whose fixed-size
    fields have their sizes; converting foreign messages can fail or, where
    the source slices hashes without checking their length, panic. *)
From S2P Require Import Prelude Types Metadata Store Streaming.
Open Scope outcome_scope.

(** ** Messages *)

Record MsgHeader := mkPHeader {
  ph_block_hash : bytes; ph_parent_hash : bytes; ph_state_root : bytes;
  ph_receipts_root : bytes; ph_logs_bloom : bytes; ph_block_number : Z; ph_gas_limit : Z;
  ph_gas_used : Z; ph_timestamp : Z; ph_base_fee_per_gas : bytes; ph_blob_gas_used : Z;
  ph_excess_blob_gas : Z; ph_prev_randao : bytes; ph_fee_recipient : bytes;
  ph_extra_data : bytes; ph_transactions_root : bytes; ph_withdrawals_root : bytes;
  ph_requests_hash : bytes }.

Record MsgValueMetadata := mkPValueMetadata {
  pm_header : option MsgHeader; pm_commitments : list bytes; pm_blob_count : Z;
  pm_total_blob_bytes : Z }.

Record MsgValue := mkPValue {
  pval_value : Z; pval_metadata : option MsgValueMetadata; pval_extensions : bytes }.

Record MsgArchiveNoticeBody := mkPNoticeBody {
  pn_height : Z; pn_round : Z; pn_blob_index : Z; pn_kzg_commitment : bytes;
  pn_blob_keccak : bytes; pn_provider_id : string; pn_locator : string;
  pn_archived_by : option bytes; pn_archived_at : Z }.

(** [ArchiveNotice] and [ArchiveRecord] have the same two fields. *)
Record MsgArchiveNotice := mkPNotice {
  pno_body : option MsgArchiveNoticeBody; pno_signature : option bytes }.
Record MsgArchiveRecord := mkPRecord {
  pr_body : option MsgArchiveNoticeBody; pr_archive_signature : option bytes }.

Record MsgBlobMetadata := mkPBlobMetadata {
  pb_height : Z; pb_parent_blob_root : bytes; pb_kzg_commitments : list bytes;
  pb_blob_count : Z; pb_header : option MsgHeader; pb_proposer_index_hint : option Z;
  pb_blob_keccak : list bytes; pb_archival_records : list MsgArchiveRecord; pb_pruned : bool }.

Record MsgConsensusBlockMetadata := mkPConsensus {
  pc_height : Z; pc_round : Z; pc_proposer : option bytes; pc_timestamp : Z;
  pc_validator_set_hash : bytes; pc_execution_block_hash : bytes; pc_gas_limit : Z;
  pc_gas_used : Z }.

Record MsgBeaconBlockHeader := mkPBeaconHeader {
  pbh_slot : Z; pbh_proposer_index : Z; pbh_parent_root : bytes; pbh_state_root : bytes;
  pbh_body_root : bytes }.
Record MsgSignedHeader := mkPSignedHeader {
  psh_message : option MsgBeaconBlockHeader; psh_signature : option bytes }.
Record MsgBlobSidecar := mkPSidecar {
  ps_index : Z; ps_blob : bytes; ps_kzg_commitment : bytes; ps_kzg_proof : bytes;
  ps_signed_block_header : option MsgSignedHeader; ps_inclusion_proof : list bytes }.

Record MsgProposedValue := mkPProposed {
  pp_height' : Z; pp_round' : Z; pp_valid_round : option Z; pp_proposer' : option bytes;
  pp_value : option MsgValue; pp_validity : bool }.

Record MsgCommitSignature := mkPCommitSignature {
  pcs_validator_address : option bytes; pcs_signature : option bytes }.
Record MsgCommitCertificate := mkPCertificate {
  pcc_height : Z; pcc_round : Z; pcc_value_id : option Z; pcc_signatures : list MsgCommitSignature }.

Inductive MsgPart :=
| PartInit (height round : Z) (proposer : option bytes)
| PartData (data : bytes) (execution_requests : list bytes)
| PartBlobSidecar (s : MsgBlobSidecar)
| PartArchiveNotice (n : MsgArchiveNotice)
| PartFin (signature : option bytes).
Record MsgProposalPart := mkPPart { ppart : option MsgPart }.

Inductive MsgStreamContent := PContentData (b : bytes) | PContentFin (b : bool).
Record MsgStreamMessage := mkPStream {
  pst_stream_id : bytes; pst_sequence : Z; pst_content : option MsgStreamContent }.

Inductive MsgPackage :=
| PackageFull (value : option MsgValue) (payload : bytes) (sidecars : list MsgBlobSidecar)
    (execution_requests : list bytes) (notices : list MsgArchiveNotice)
| PackageMetadataOnly (value : option MsgValue) (notices : list MsgArchiveNotice) (payload : bytes)
    (execution_requests : list bytes).
Record MsgSyncedValuePackage := mkPPackage { ppackage : option MsgPackage }.

(** ** Addresses and signatures *)

Definition Address_from_proto (b : bytes) : outcome string Address :=
  if negb (length b =? 20)%nat then Err "Invalid address length"%string else Ok b.
Definition Address_to_proto (a : Address) : bytes := a.

Definition decode_signature (b : bytes) : outcome string Signature :=
  if decide (length b = 64%nat) then Ok b else Err "Invalid signature length"%string.
Definition encode_signature (s : Signature) : bytes := s.

Definition missing {A} (o : option A) (field : string) : outcome string A := ok_or o field.

(** ** [ExecutionPayloadHeader] *)

Definition bytes_to_b256 (b : bytes) : outcome string B256 :=
  match b with
  | [] => Ok B256_ZERO
  | _ => if negb (length b =? 32)%nat then Err "Expected 32 bytes"%string else B256_from_slice b
  end.
Definition bytes_to_bloom (b : bytes) : outcome string bytes :=
  match b with
  | [] => Ok (zeros 256)
  | _ => if negb (length b =? 256)%nat then Err "Expected 256 bytes for bloom"%string else Ok b
  end.
Definition bytes_to_u256 (b : bytes) : outcome string Z :=
  match b with
  | [] => Ok 0
  | _ => if (32 <? length b)%nat then Err "U256 bytes too long"%string else Ok (of_le b)
  end.

Definition header_from_proto (p : MsgHeader) : outcome string ExecutionPayloadHeader :=
  let? block_hash := bytes_to_b256 (ph_block_hash p) in
  let? parent_hash := bytes_to_b256 (ph_parent_hash p) in
  let? state_root := bytes_to_b256 (ph_state_root p) in
  let? receipts_root := bytes_to_b256 (ph_receipts_root p) in
  let? logs_bloom := bytes_to_bloom (ph_logs_bloom p) in
  let? base_fee := bytes_to_u256 (ph_base_fee_per_gas p) in
  let? transactions_root := bytes_to_b256 (ph_transactions_root p) in
  let? withdrawals_root := bytes_to_b256 (ph_withdrawals_root p) in
  let? prev_randao := bytes_to_b256 (ph_prev_randao p) in
  let? fee_recipient := Address_from_proto (ph_fee_recipient p) in
  let? requests_hash := match ph_requests_hash p with
                        | [] => Ok None
                        | b => let? h := bytes_to_b256 b in Ok (Some h)
                        end in
  Ok (mkHeader block_hash parent_hash state_root receipts_root logs_bloom (ph_block_number p)
        (ph_gas_limit p) (ph_gas_used p) (ph_timestamp p) base_fee (ph_extra_data p)
        transactions_root withdrawals_root (ph_blob_gas_used p) (ph_excess_blob_gas p)
        prev_randao fee_recipient requests_hash).

Definition header_to_proto (h : ExecutionPayloadHeader) : MsgHeader := {|
  ph_block_hash := eh_block_hash h; ph_parent_hash := eh_parent_hash h;
  ph_state_root := eh_state_root h; ph_receipts_root := eh_receipts_root h;
  ph_logs_bloom := eh_logs_bloom h; ph_block_number := eh_block_number h;
  ph_gas_limit := eh_gas_limit h; ph_gas_used := eh_gas_used h; ph_timestamp := eh_timestamp h;
  ph_base_fee_per_gas := le_bytes 32 (eh_base_fee_per_gas h);
  ph_blob_gas_used := eh_blob_gas_used h; ph_excess_blob_gas := eh_excess_blob_gas h;
  ph_prev_randao := eh_prev_randao h; ph_fee_recipient := Address_to_proto (eh_fee_recipient h);
  ph_extra_data := eh_extra_data h; ph_transactions_root := eh_transactions_root h;
  ph_withdrawals_root := eh_withdrawals_root h;
  ph_requests_hash := match eh_requests_hash h with Some r => r | None => [] end |}.

(** ** [ValueMetadata], [Value] *)

Definition ValueMetadata_from_proto (p : MsgValueMetadata) : outcome string ValueMetadata :=
  let? ph := missing (pm_header p) "execution_payload_header" in
  let? h := header_from_proto ph in
  let? cs := omapM KzgCommitment_from_slice (pm_commitments p) in
  let? n := ok_or (try_u16 (pm_blob_count p)) "blob_count exceeds u16::MAX"%string in
  Ok (mkValueMetadata h cs n (pm_total_blob_bytes p)).

Definition ValueMetadata_to_proto (m : ValueMetadata) : MsgValueMetadata :=
  mkPValueMetadata (Some (header_to_proto (vm_execution_payload_header m)))
    (vm_blob_kzg_commitments m) (vm_blob_count m) (vm_total_blob_bytes m).

Definition Value_from_proto (p : MsgValue) : outcome string Value :=
  let? m := match pval_metadata p with
            | Some pm => ValueMetadata_from_proto pm
            | None => ValueMetadata_new (zero_header 0) []
            end in
  Ok (mkValue (pval_value p) m (pval_extensions p)).

Definition Value_to_proto (v : Value) : MsgValue :=
  mkPValue (v_value v) (Some (ValueMetadata_to_proto (v_metadata v))) (v_extensions v).

(** ** Archive notices and records ([archive.rs]) *)

(** [as i32] *)
Definition to_i32 (z : Z) : Z := let w := z mod 2^32 in if w <? 2^31 then w else w - 2^32.

Definition round_to_proto (r : Round) : Z :=
  match r with Nil => -1 | RSome z => to_i32 z end.
Definition round_from_proto (v : Z) : Round := if v <? 0 then Nil else RSome v.

Definition notice_body_to_proto (b : ArchiveNoticeBody) : MsgArchiveNoticeBody :=
  mkPNoticeBody (an_height b) (round_to_proto (an_round b)) (an_blob_index b)
    (an_kzg_commitment b) (an_blob_keccak b) (an_provider_id b) (an_locator b)
    (Some (Address_to_proto (an_archived_by b))) (an_archived_at b).

Definition notice_body_from_proto (p : MsgArchiveNoticeBody) : outcome string ArchiveNoticeBody :=
  let? idx := ok_or (try_u16 (pn_blob_index p)) "blob_index does not fit in u16"%string in
  let? c := KzgCommitment_from_slice (pn_kzg_commitment p) in
  let? keccak := B256_from_slice (pn_blob_keccak p) in
  let? by_proto := missing (pn_archived_by p) "archived_by" in
  let? archived_by := Address_from_proto by_proto in
  Ok (mkNoticeBody (pn_height p) (round_from_proto (pn_round p)) idx c keccak
        (pn_provider_id p) (pn_locator p) archived_by (pn_archived_at p)).

Definition ArchiveNotice_from_proto (p : MsgArchiveNotice) : outcome string ArchiveNotice :=
  let? pb := missing (pno_body p) "body" in
  let? body := notice_body_from_proto pb in
  let? ps := missing (pno_signature p) "signature" in
  let? sig := decode_signature ps in
  Ok (mkNotice body sig).
Definition ArchiveNotice_to_proto (n : ArchiveNotice) : MsgArchiveNotice :=
  mkPNotice (Some (notice_body_to_proto (nt_body n))) (Some (encode_signature (nt_signature n))).

Definition ArchiveRecord_from_proto (p : MsgArchiveRecord) : outcome string ArchiveRecord :=
  let? pb := missing (pr_body p) "body" in
  let? body := notice_body_from_proto pb in
  let? ps := missing (pr_archive_signature p) "archive_signature" in
  let? sig := decode_signature ps in
  Ok (mkRecord body sig).
Definition ArchiveRecord_to_proto (r : ArchiveRecord) : MsgArchiveRecord :=
  mkPRecord (Some (notice_body_to_proto (ar_body r))) (Some (encode_signature (ar_signature r))).

(** What an archive notice signs: a domain tag and the encoded body. *)
Definition ARCHIVE_NOTICE_DOMAIN : bytes :=
  [65; 114; 99; 104; 105; 118; 101; 78; 111; 116; 105; 99; 101; 86; 48].

Section signing.
Context `{Crypto} `{ProstMessage MsgArchiveNoticeBody}.

Definition notice_signing_root (b : ArchiveNoticeBody) : B256 :=
  sha256 (ARCHIVE_NOTICE_DOMAIN ++ encode_to_vec (notice_body_to_proto b)).
Definition ArchiveNotice_sign (b : ArchiveNoticeBody) (signing_key : bytes) : ArchiveNotice :=
  mkNotice b (ed25519_sign signing_key (notice_signing_root b)).
Definition ArchiveNotice_verify (n : ArchiveNotice) (pk : PublicKey) : bool :=
  ed25519_verify pk (notice_signing_root (nt_body n)) (nt_signature n).
End signing.

(** ** [BlobMetadata] *)

(** The loop that files each record under its index. *)
Fixpoint place_records (slots : list (option ArchiveRecord)) (ps : list MsgArchiveRecord)
    : outcome string (list (option ArchiveRecord)) :=
  match ps with
  | [] => Ok slots
  | p :: ps =>
    let? r := ArchiveRecord_from_proto p in
    let idx := Z.to_nat (an_blob_index (ar_body r)) in
    if (length slots <=? idx)%nat then Err "archive record index out of bounds"%string
    else place_records (<[idx := Some r]> slots) ps
  end.

Definition BlobMetadata_from_proto (p : MsgBlobMetadata) : outcome string BlobMetadata :=
  let? cs := omapM KzgCommitment_from_slice (pb_kzg_commitments p) in
  let? hashes := omapM B256_from_slice (pb_blob_keccak p) in
  if negb (length hashes =? length cs)%nat then Err "blob_keccak count mismatch"%string
  else
    let? n := ok_or (try_u16 (pb_blob_count p)) "blob_count exceeds u16::MAX"%string in
    if negb (n =? Z.of_nat (length cs)) then Err "blob_count mismatch"%string
    else
      let? records := place_records (replicate (length cs) None) (pb_archival_records p) in
      let? ph := missing (pb_header p) "execution_payload_header" in
      let? h := header_from_proto ph in
      let? root := B256_from_slice (pb_parent_blob_root p) in
      Ok (mkBlobMetadata (pb_height p) root cs n hashes records (pb_pruned p) h
            (pb_proposer_index_hint p)).

Definition BlobMetadata_to_proto (m : BlobMetadata) : MsgBlobMetadata := {|
  pb_height := bm_height m; pb_parent_blob_root := bm_parent_blob_root m;
  pb_kzg_commitments := bm_blob_kzg_commitments m;
  pb_blob_count := Z.of_nat (length (bm_blob_kzg_commitments m)) mod 2^32;
  pb_header := Some (header_to_proto (bm_execution_payload_header m));
  pb_proposer_index_hint := bm_proposer_index_hint m;
  pb_blob_keccak := bm_blob_keccak_hashes m;
  pb_archival_records := ArchiveRecord_to_proto <$> archive_records m;
  pb_pruned := bm_pruned m |}.

(** ** [ConsensusBlockMetadata] *)

Definition Consensus_from_proto (p : MsgConsensusBlockMetadata)
    : outcome string ConsensusBlockMetadata :=
  if pc_round p <? 0 then Err "round cannot be negative"%string
  else
    let? round := ok_or (try_u32 (pc_round p)) "round exceeds u32::MAX"%string in
    let? pp := missing (pc_proposer p) "proposer" in
    let? proposer := Address_from_proto pp in
    let? vsh := B256_from_slice (pc_validator_set_hash p) in
    let? ebh := B256_from_slice (pc_execution_block_hash p) in
    Ok (mkConsensusMetadata (pc_height p) (RSome round) proposer (pc_timestamp p) vsh ebh
          (pc_gas_limit p) (pc_gas_used p)).

(** [i32::try_from] *)
Definition try_i32 (z : Z) : option Z := if (- 2^31 <=? z) && (z <? 2^31) then Some z else None.

Definition Consensus_to_proto (m : ConsensusBlockMetadata) : outcome string MsgConsensusBlockMetadata :=
  let? round := ok_or (try_i32 (Round_as_i64 (cm_round m)))
                  "round exceeds i32::MAX and cannot be represented in protobuf"%string in
  Ok (mkPConsensus (cm_height m) round (Some (Address_to_proto (cm_proposer m))) (cm_timestamp m)
        (cm_validator_set_hash m) (cm_execution_block_hash m) (cm_gas_limit m) (cm_gas_used m)).

(** ** Blob sidecars and proposal parts ([proposal_part.rs]) *)

Definition SignedHeader_from_proto (p : MsgSignedHeader) : outcome string SignedBeaconBlockHeader :=
  let? m := missing (psh_message p) "message" in
  let? parent := B256_from_slice (pbh_parent_root m) in
  let? state := B256_from_slice (pbh_state_root m) in
  let? body := B256_from_slice (pbh_body_root m) in
  let? ps := missing (psh_signature p) "signature" in
  let? sig := decode_signature ps in
  Ok (mkSignedHeader (mkBeaconHeader (pbh_slot m) (pbh_proposer_index m) parent state body) sig).

Definition SignedHeader_to_proto (h : SignedBeaconBlockHeader) : MsgSignedHeader :=
  let m := sh_message h in
  mkPSignedHeader
    (Some (mkPBeaconHeader (bh_slot m) (bh_proposer_index m) (bh_parent_root m) (bh_state_root m)
             (bh_body_root m)))
    (Some (encode_signature (sh_signature h))).

Definition BlobSidecar_from_proto (p : MsgBlobSidecar) : outcome string BlobSidecar :=
  let? blob := Blob_new (ps_blob p) in
  let? c := KzgCommitment_from_slice (ps_kzg_commitment p) in
  let? pf := KzgProof_from_slice (ps_kzg_proof p) in
  let? ph := missing (ps_signed_block_header p) "signed_block_header" in
  let? header := SignedHeader_from_proto ph in
  let? branch := omapM B256_from_slice (ps_inclusion_proof p) in
  let? index := ok_or (try_u16 (ps_index p)) "Blob index exceeds u16::MAX"%string in
  Ok (mkSidecar index blob c pf header branch).

Definition BlobSidecar_to_proto (s : BlobSidecar) : MsgBlobSidecar :=
  mkPSidecar (sc_index s) (sc_blob s) (sc_kzg_commitment s) (sc_kzg_proof s)
    (Some (SignedHeader_to_proto (sc_signed_block_header s)))
    (sc_kzg_commitment_inclusion_proof s).

Definition ProposalPart_from_proto (p : MsgProposalPart) : outcome string ProposalPart :=
  let? part := missing (ppart p) "part" in
  match part with
  | PartInit height round proposer =>
    let? pp := missing proposer "proposer" in
    let? a := Address_from_proto pp in
    Ok (PInit (mkInit height (RSome round) a))
  | PartData data reqs => Ok (PData (mkData data reqs))
  | PartBlobSidecar s => let? s := BlobSidecar_from_proto s in Ok (PBlobSidecar s)
  | PartArchiveNotice n => let? n := ArchiveNotice_from_proto n in Ok (PArchiveNotice n)
  | PartFin sig =>
    let? ps := missing sig "signature" in
    let? s := decode_signature ps in
    Ok (PFin s)
  end.

Definition ProposalPart_to_proto (p : ProposalPart) : outcome string MsgProposalPart :=
  match p with
  | PInit i =>
    let? r := ok_or (Round_as_u32 (init_round i)) "proposal init round is nil"%string in
    Ok (mkPPart (Some (PartInit (init_height i) r (Some (Address_to_proto (init_proposer i))))))
  | PData d => Ok (mkPPart (Some (PartData (pd_bytes d) (pd_execution_requests d))))
  | PBlobSidecar s => Ok (mkPPart (Some (PartBlobSidecar (BlobSidecar_to_proto s))))
  | PArchiveNotice n => Ok (mkPPart (Some (PartArchiveNotice (ArchiveNotice_to_proto n))))
  | PFin s => Ok (mkPPart (Some (PartFin (Some (encode_signature s)))))
  end.

(** ** Sync packages ([sync.rs]) *)

(** On the wire an empty payload stands for a missing one. *)
Definition SyncedValuePackage_from_proto (p : MsgSyncedValuePackage) : outcome string SyncedValuePackage :=
  match ppackage p with
  | Some (PackageFull value payload scs reqs notices) =>
    let? pv := missing value "value" in
    let? v := Value_from_proto pv in
    let? scs := omapM BlobSidecar_from_proto scs in
    let? ns := omapM ArchiveNotice_from_proto notices in
    Ok (SyncFull v payload scs reqs ns)
  | Some (PackageMetadataOnly value notices payload reqs) =>
    let? pv := missing value "value" in
    let? v := Value_from_proto pv in
    let? ns := omapM ArchiveNotice_from_proto notices in
    Ok (SyncMetadataOnly v ns (match payload with [] => None | _ => Some payload end) reqs)
  | None => Err "package"%string
  end.

Definition SyncedValuePackage_to_proto (p : SyncedValuePackage) : MsgSyncedValuePackage :=
  mkPPackage (Some (match p with
  | SyncFull v payload scs reqs ns =>
    PackageFull (Some (Value_to_proto v)) payload (BlobSidecar_to_proto <$> scs) reqs
      (ArchiveNotice_to_proto <$> ns)
  | SyncMetadataOnly v ns payload reqs =>
    PackageMetadataOnly (Some (Value_to_proto v)) (ArchiveNotice_to_proto <$> ns) (default [] payload) reqs
  end)).

(** ** Proposed values, certificates and stream messages ([codec/proto/mod.rs]) *)

Definition ProposedValue_from_proto (p : MsgProposedValue) : outcome string ProposedValue :=
  let? pp := missing (pp_proposer' p) "proposer" in
  let? pv := missing (pp_value p) "value" in
  let? proposer := Address_from_proto pp in
  let? value := Value_from_proto pv in
  Ok (mkProposed (pp_height' p) (RSome (pp_round' p))
        (match pp_valid_round p with Some r => RSome r | None => Nil end)
        proposer value (if pp_validity p then Valid else Invalid)).

Definition ProposedValue_to_proto (v : ProposedValue) : outcome string MsgProposedValue :=
  let? r := ok_or (Round_as_u32 (pv_round v)) "round is nil"%string in
  Ok (mkPProposed (pv_height v) r (Round_as_u32 (pv_valid_round v))
        (Some (Address_to_proto (pv_proposer v))) (Some (Value_to_proto (pv_value v)))
        (match pv_validity v with Valid => true | Invalid => false end)).

Definition decode_commit_signature (p : MsgCommitSignature) : outcome string (Address * Signature) :=
  let? ps := missing (pcs_signature p) "signature" in
  let? sig := decode_signature ps in
  let? pa := missing (pcs_validator_address p) "validator_address" in
  let? a := Address_from_proto pa in
  Ok (a, sig).
Definition encode_commit_signature (s : Address * Signature) : MsgCommitSignature :=
  mkPCommitSignature (Some (Address_to_proto s.1)) (Some (encode_signature s.2)).

Definition decode_certificate (p : MsgCommitCertificate) : outcome string CommitCertificate :=
  let? vid := missing (pcc_value_id p) "value_id" in
  let? sigs := omapM decode_commit_signature (pcc_signatures p) in
  Ok (mkCertificate (pcc_height p) (RSome (pcc_round p)) vid sigs).
Definition encode_certificate (c : CommitCertificate) : outcome string MsgCommitCertificate :=
  let? r := ok_or (Round_as_u32 (cc_round c)) "certificate round is nil"%string in
  Ok (mkPCertificate (cc_height c) r (Some (cc_value_id c))
        (encode_commit_signature <$> cc_signatures c)).

(** A message type with its conversions and wire format is a codec. *)
Definition proto_codec {A P} `{ProstMessage P} (to_p : A → outcome string P)
    (from_p : P → outcome string A) (wf : A → Prop) : Codec A := {|
  encode a := let? p := to_p a in Ok (encode_to_vec p);
  decode b := match prost_decode b with Some p => from_p p | None => Err "malformed"%string end;
  codec_wf := wf |}.

(** ** Round trips *)

Create Rewrite HintDb proto.

Lemma Address_roundtrip (a : Address) : has_length 20 a → Address_from_proto (Address_to_proto a) = Ok a.
Proof. unfold has_length, Address_from_proto, Address_to_proto. by intros ->. Qed.
Lemma signature_roundtrip (s : Signature) : has_length 64 s → decode_signature (encode_signature s) = Ok s.
Proof. unfold decode_signature, encode_signature. intros Hs. by rewrite decide_True. Qed.
Lemma b256_roundtrip (h : B256) : has_length 32 h → bytes_to_b256 h = Ok h.
Proof.
  intros Hh. unfold bytes_to_b256, B256_from_slice. unfold has_length in Hh.
  destruct h; [done|]. rewrite Hh. by rewrite decide_True.
Qed.
Lemma b256_slice_roundtrip {E} (h : B256) : has_length 32 h → B256_from_slice (E:=E) h = Ok h.
Proof. intros. by apply B256_from_slice_Ok. Qed.
Lemma bloom_roundtrip (b : bytes) : has_length 256 b → bytes_to_bloom b = Ok b.
Proof. unfold has_length, bytes_to_bloom. intros Hb. destruct b; [done|]. by rewrite Hb. Qed.
Lemma u256_roundtrip (z : Z) : 0 ≤ z < 2^256 → bytes_to_u256 (le_bytes 32 z) = Ok z.
Proof.
  intros Hz. unfold bytes_to_u256.
  destruct (le_bytes 32 z) as [|x l] eqn:E; [done|]. rewrite <-E, length_le_bytes, of_le_bytes.
  simpl. f_equal. apply Z.mod_small. lia.
Qed.
Lemma commitment_roundtrip (c : KzgCommitment) :
  has_length BYTES_PER_COMMITMENT c → KzgCommitment_from_slice c = Ok c.
Proof. unfold KzgCommitment_from_slice. intros Hc. by rewrite decide_True. Qed.
Lemma proof_roundtrip (c : KzgProof) : has_length BYTES_PER_PROOF c → KzgProof_from_slice c = Ok c.
Proof. unfold KzgProof_from_slice. intros Hc. by rewrite decide_True. Qed.
Lemma omapM_id {E A} (f : A → outcome E A) (l : list A) : Forall (λ x, f x = Ok x) l → omapM f l = Ok l.
Proof. intros Hl. apply omapM_Ok_iff. induction Hl; by constructor. Qed.

#[export] Hint Rewrite Address_roundtrip signature_roundtrip b256_roundtrip @b256_slice_roundtrip
  bloom_roundtrip u256_roundtrip commitment_roundtrip proof_roundtrip using done : proto.

(** Step through a conversion whose parts are known to round-trip. *)
Ltac proto_tac := repeat (autorewrite with proto; cbn [obind missing ok_or]).

Definition header_wf (h : ExecutionPayloadHeader) : Prop :=
  has_length 32 (eh_block_hash h) ∧ has_length 32 (eh_parent_hash h) ∧
  has_length 32 (eh_state_root h) ∧ has_length 32 (eh_receipts_root h) ∧
  has_length 256 (eh_logs_bloom h) ∧ 0 ≤ eh_base_fee_per_gas h < 2^256 ∧
  has_length 32 (eh_transactions_root h) ∧ has_length 32 (eh_withdrawals_root h) ∧
  has_length 32 (eh_prev_randao h) ∧ has_length 20 (eh_fee_recipient h) ∧
  (∀ r, eh_requests_hash h = Some r → has_length 32 r).

#[local] Opaque bytes_to_b256 bytes_to_bloom bytes_to_u256 le_bytes.

Lemma header_roundtrip (h : ExecutionPayloadHeader) :
  header_wf h → header_from_proto (header_to_proto h) = Ok h.
Proof.
  intros (?&?&?&?&?&?&?&?&?&?&Hr). unfold header_from_proto, header_to_proto. simpl.
  proto_tac. destruct h as [? ? ? ? ? ? ? ? ? ? ? ? ? ? ? ? ? [r|]]; simpl in *; [|done].
  specialize (Hr r eq_refl).  destruct r as [|x r']; [done|]. by rewrite b256_roundtrip.
Qed.

Definition value_metadata_wf (m : ValueMetadata) : Prop :=
  header_wf (vm_execution_payload_header m) ∧
  Forall (has_length BYTES_PER_COMMITMENT) (vm_blob_kzg_commitments m) ∧
  is_u16 (vm_blob_count m).

Lemma commitments_roundtrip (cs : list KzgCommitment) :
  Forall (has_length BYTES_PER_COMMITMENT) cs → omapM KzgCommitment_from_slice cs = Ok cs.
Proof. intros Hcs. apply omapM_id. eapply Forall_impl; [done|]. apply commitment_roundtrip. Qed.
Lemma hashes_roundtrip (hs : list B256) :
  Forall (has_length 32) hs → omapM (E:=string) B256_from_slice hs = Ok hs.
Proof. intros Hh. apply omapM_id. eapply Forall_impl; [done|]. apply b256_slice_roundtrip. Qed.
#[export] Hint Rewrite header_roundtrip commitments_roundtrip hashes_roundtrip using done : proto.

Lemma ValueMetadata_roundtrip (m : ValueMetadata) :
  value_metadata_wf m → ValueMetadata_from_proto (ValueMetadata_to_proto m) = Ok m.
Proof.
  intros (?&?&?). unfold ValueMetadata_from_proto, ValueMetadata_to_proto. simpl.
  proto_tac. rewrite try_u16_id by done. by destruct m.
Qed.

Definition value_wf (v : Value) : Prop := value_metadata_wf (v_metadata v).
Lemma Value_roundtrip (v : Value) : value_wf v → Value_from_proto (Value_to_proto v) = Ok v.
Proof.
  intros Hv. unfold Value_from_proto, Value_to_proto. simpl.
  rewrite ValueMetadata_roundtrip by done. by destruct v.
Qed.

(** Archive rounds travel as [i32]: the round trip needs a round below 2^31. *)
Definition i32_round (r : Round) : Prop := match r with Nil => True | RSome z => 0 ≤ z < 2^31 end.

Definition notice_body_wf (b : ArchiveNoticeBody) : Prop :=
  i32_round (an_round b) ∧ is_u16 (an_blob_index b) ∧
  has_length BYTES_PER_COMMITMENT (an_kzg_commitment b) ∧ has_length 32 (an_blob_keccak b) ∧
  has_length 20 (an_archived_by b).

Lemma round_proto_roundtrip r : i32_round r → round_from_proto (round_to_proto r) = r.
Proof.
  destruct r as [|z]; [done|]. simpl. intros Hz. unfold to_i32.
  rewrite Z.mod_small by lia. destruct (z <? 2^31) eqn:E; [|lia].
  unfold round_from_proto. by destruct (z <? 0) eqn:E'; [lia|].
Qed.

Lemma notice_body_roundtrip (b : ArchiveNoticeBody) :
  notice_body_wf b → notice_body_from_proto (notice_body_to_proto b) = Ok b.
Proof.
  intros (?&?&?&?&?). unfold notice_body_from_proto, notice_body_to_proto. simpl.
  rewrite try_u16_id by done. proto_tac. rewrite round_proto_roundtrip by done. by destruct b.
Qed.
#[export] Hint Rewrite Value_roundtrip notice_body_roundtrip using done : proto.

Definition notice_wf (n : ArchiveNotice) : Prop :=
  notice_body_wf (nt_body n) ∧ has_length 64 (nt_signature n).
Definition record_wf (r : ArchiveRecord) : Prop :=
  notice_body_wf (ar_body r) ∧ has_length 64 (ar_signature r).

Lemma ArchiveNotice_roundtrip (n : ArchiveNotice) :
  notice_wf n → ArchiveNotice_from_proto (ArchiveNotice_to_proto n) = Ok n.
Proof. intros (?&?). unfold ArchiveNotice_from_proto, ArchiveNotice_to_proto. simpl. proto_tac. by destruct n. Qed.
Lemma ArchiveRecord_roundtrip (r : ArchiveRecord) :
  record_wf r → ArchiveRecord_from_proto (ArchiveRecord_to_proto r) = Ok r.
Proof. intros (?&?). unfold ArchiveRecord_from_proto, ArchiveRecord_to_proto. simpl. proto_tac. by destruct r. Qed.
#[export] Hint Rewrite ArchiveNotice_roundtrip ArchiveRecord_roundtrip using done : proto.

(** *** Blob metadata: the sparse list of records is put back in place *)

Lemma place_records_spec (rs : list (option ArchiveRecord)) : ∀ (pre : list (option ArchiveRecord)),
  (∀ i r, rs !! i = Some (Some r) →
     record_wf r ∧ an_blob_index (ar_body r) = Z.of_nat (length pre + i)) →
  place_records (pre ++ replicate (length rs) None) (ArchiveRecord_to_proto <$> omap id rs)
    = Ok (pre ++ rs).
Proof.
  induction rs as [|[r|] rs IH]; intros pre Hrs; [done|..].
  - destruct (Hrs 0%nat r eq_refl) as [Hwf Hi]. rewrite Nat.add_0_r in Hi.
    cbn [omap list_omap id fmap list_fmap place_records].
    rewrite ArchiveRecord_roundtrip by done. cbn [obind]. rewrite Hi, Nat2Z.id.
    rewrite length_app, length_replicate. cbn [length].
    destruct (_ <=? _)%nat eqn:E; [apply Nat.leb_le in E; lia|].
    rewrite insert_app_r_alt by lia. rewrite Nat.sub_diag. cbn [replicate insert list_insert].
    rewrite cons_middle, app_assoc. rewrite (IH (pre ++ [Some r])).
    + by rewrite <-app_assoc.
    + intros i r' Hr'. rewrite length_app. simpl.
      destruct (Hrs (S i) r' Hr') as [? ->]. split; [done|lia].
  - cbn [omap list_omap id length replicate]. rewrite cons_middle, app_assoc.
    rewrite (IH (pre ++ [None])); [by rewrite <-app_assoc|].
    intros i r' Hr'. rewrite length_app. simpl.
    destruct (Hrs (S i) r' Hr') as [? ->]. split; [done|lia].
Qed.

Definition metadata_codec_wf (m : BlobMetadata) : Prop :=
  blob_metadata_wf m ∧ has_length 32 (bm_parent_blob_root m) ∧
  Forall (has_length BYTES_PER_COMMITMENT) (bm_blob_kzg_commitments m) ∧
  Forall (has_length 32) (bm_blob_keccak_hashes m) ∧
  header_wf (bm_execution_payload_header m) ∧ Forall record_wf (archive_records m).

Lemma BlobMetadata_roundtrip (m : BlobMetadata) :
  metadata_codec_wf m → BlobMetadata_from_proto (BlobMetadata_to_proto m) = Ok m.
Proof.
  intros ((Hu & Hc & Hk & Ha & Hr) & ? & ? & ? & ? & Hrec).
  unfold BlobMetadata_from_proto, BlobMetadata_to_proto. simpl. proto_tac.
  rewrite Hk, Nat.eqb_refl. simpl negb. cbv iota. rewrite Hc.
  unfold is_u16 in Hu. rewrite Z.mod_small by lia. rewrite try_u16_id by done.
  cbn [ok_or obind]. rewrite Z.eqb_refl. simpl negb. cbv iota.
  pose proof (place_records_spec (bm_archival_records m) []) as Hpl. cbn [app] in Hpl.
  unfold archive_records. rewrite <-Ha, Hpl.
  - cbn [obind missing ok_or]. proto_tac. by destruct m.
  - intros i r Hir. split; [|by apply Hr]. rewrite Forall_forall in Hrec. apply Hrec.
    unfold archive_records. apply list_elem_of_omap. exists (Some r). split; [|done].
    by eapply list_elem_of_lookup_2.
Qed.

Lemma try_i32_id z : - 2^31 ≤ z < 2^31 → try_i32 z = Some z.
Proof. intros Hz. unfold try_i32. by destruct (_ && _) eqn:E; [|lia]. Qed.

Definition consensus_wf (m : ConsensusBlockMetadata) : Prop :=
  (∃ z, cm_round m = RSome z ∧ 0 ≤ z < 2^31) ∧ has_length 20 (cm_proposer m) ∧
  has_length 32 (cm_validator_set_hash m) ∧ has_length 32 (cm_execution_block_hash m).

Lemma Consensus_roundtrip (m : ConsensusBlockMetadata) :
  consensus_wf m → obind (Consensus_to_proto m) Consensus_from_proto = Ok m.
Proof.
  intros ((z & Hz & Hr) & ? & ? & ?). unfold Consensus_to_proto. rewrite Hz. simpl Round_as_i64.
  rewrite try_i32_id by lia. cbn [ok_or obind].
  unfold Consensus_from_proto. simpl. destruct (z <? 0) eqn:E'; [lia|].
  rewrite try_u32_id by (unfold is_u32; lia). proto_tac. destruct m; simpl in *. by subst.
Qed.

Definition sidecar_wf (s : BlobSidecar) : Prop :=
  is_u16 (sc_index s) ∧ Z.of_nat (length (sc_blob s)) = BYTES_PER_BLOB ∧
  has_length BYTES_PER_COMMITMENT (sc_kzg_commitment s) ∧ has_length BYTES_PER_PROOF (sc_kzg_proof s) ∧
  has_length 32 (bh_parent_root (sh_message (sc_signed_block_header s))) ∧
  has_length 32 (bh_state_root (sh_message (sc_signed_block_header s))) ∧
  has_length 32 (bh_body_root (sh_message (sc_signed_block_header s))) ∧
  has_length 64 (sh_signature (sc_signed_block_header s)) ∧
  Forall (has_length 32) (sc_kzg_commitment_inclusion_proof s).

Lemma BlobSidecar_roundtrip (s : BlobSidecar) :
  sidecar_wf s → BlobSidecar_from_proto (BlobSidecar_to_proto s) = Ok s.
Proof.
  intros (?&Hb&?&?&?&?&?&?&?). unfold BlobSidecar_from_proto, BlobSidecar_to_proto. simpl.
  unfold Blob_new. rewrite Hb, Z.eqb_refl. cbn [obind]. proto_tac.
  unfold SignedHeader_from_proto, SignedHeader_to_proto. simpl. proto_tac.
  rewrite try_u16_id by done. by destruct s as [? ? ? ? [[] ?] ?].
Qed.
#[export] Hint Rewrite BlobSidecar_roundtrip using done : proto.

Lemma omapM_roundtrip {A P} (to_p : A → P) (from_p : P → outcome string A) (wf : A → Prop) (l : list A) :
  (∀ a, wf a → from_p (to_p a) = Ok a) → Forall wf l → omapM from_p (to_p <$> l) = Ok l.
Proof.
  intros Hrt Hl. apply omapM_Ok_iff. induction Hl; simpl; constructor; auto.
Qed.

Definition package_wf (p : SyncedValuePackage) : Prop :=
  match p with
  | SyncFull v _ scs _ ns => value_wf v ∧ Forall sidecar_wf scs ∧ Forall notice_wf ns
  | SyncMetadataOnly v ns payload _ => value_wf v ∧ Forall notice_wf ns ∧ payload ≠ Some []
  end.

Lemma SyncedValuePackage_roundtrip (p : SyncedValuePackage) :
  package_wf p → SyncedValuePackage_from_proto (SyncedValuePackage_to_proto p) = Ok p.
Proof.
  unfold SyncedValuePackage_from_proto, SyncedValuePackage_to_proto. cbn [ppackage].
  destruct p as [v pl scs q ns|v ns pl q]; intros (Hv & Hs & Hn); cbn [missing ok_or obind];
    rewrite Value_roundtrip by done; cbn [obind].
  - rewrite (omapM_roundtrip _ _ sidecar_wf) by (done || apply BlobSidecar_roundtrip). cbn [obind].
    by rewrite (omapM_roundtrip _ _ notice_wf) by (done || apply ArchiveNotice_roundtrip).
  - rewrite (omapM_roundtrip _ _ notice_wf) by (done || apply ArchiveNotice_roundtrip). cbn [obind].
    by destruct pl as [[|]|].
Qed.

Definition part_wf (p : ProposalPart) : Prop :=
  match p with
  | PInit i => init_round i ≠ Nil ∧ has_length 20 (init_proposer i)
  | PData _ => True
  | PBlobSidecar s => sidecar_wf s
  | PArchiveNotice n => notice_wf n
  | PFin s => has_length 64 s
  end.

Lemma ProposalPart_roundtrip (p : ProposalPart) :
  part_wf p → obind (ProposalPart_to_proto p) ProposalPart_from_proto = Ok p.
Proof.
  destruct p as [[h [|r] a]|[]|s|n|s]; simpl; intros Hwf; try done.
  - by destruct Hwf.
  - destruct Hwf. cbn [ProposalPart_to_proto]. unfold ProposalPart_from_proto. simpl. by proto_tac.
  - unfold ProposalPart_from_proto. simpl. by proto_tac.
  - unfold ProposalPart_from_proto. simpl. by proto_tac.
  - unfold ProposalPart_from_proto. simpl. by proto_tac.
Qed.

Definition proposed_wf (v : ProposedValue) : Prop :=
  pv_round v ≠ Nil ∧ has_length 20 (pv_proposer v) ∧ value_wf (pv_value v).

Lemma ProposedValue_roundtrip (v : ProposedValue) :
  proposed_wf v → obind (ProposedValue_to_proto v) ProposedValue_from_proto = Ok v.
Proof.
  destruct v as [h [|r] vr a val vd]; intros (Hr & ? & ?); [done|].
  unfold ProposedValue_to_proto, ProposedValue_from_proto. simpl in *. proto_tac.
  by destruct vr, vd.
Qed.

Definition certificate_wf (c : CommitCertificate) : Prop :=
  cc_round c ≠ Nil ∧ Forall (λ s, has_length 20 s.1 ∧ has_length 64 s.2) (cc_signatures c).

Lemma certificate_roundtrip (c : CommitCertificate) :
  certificate_wf c → obind (encode_certificate c) decode_certificate = Ok c.
Proof.
  destruct c as [h [|r] vid sigs]; intros (Hr & Hs); [done|].
  unfold encode_certificate, decode_certificate. simpl in *.
  rewrite (omapM_fmap_Ok _ _ id), list_fmap_id; [done|].
  intros [a s] Hin. rewrite Forall_forall in Hs. destruct (Hs _ Hin) as [Ha Hs'].
  unfold decode_commit_signature, encode_commit_signature. simpl in *. by proto_tac.
Qed.

(** ** The codecs of the store *)

Section codecs.
Context `{ProstMessage MsgValue} `{ProstMessage MsgProposedValue} `{ProstMessage MsgCommitCertificate}
  `{ProstMessage MsgConsensusBlockMetadata} `{ProstMessage MsgBlobMetadata}
  `{ProstMessage MsgArchiveRecord} `{ProstMessage MsgBlobSidecar} `{ProstMessage MsgProposalPart}.

Definition value_codec : Codec Value := proto_codec (λ v, Ok (Value_to_proto v)) Value_from_proto value_wf.
Definition proposed_codec : Codec ProposedValue :=
  proto_codec ProposedValue_to_proto ProposedValue_from_proto proposed_wf.
Definition certificate_codec : Codec CommitCertificate :=
  proto_codec encode_certificate decode_certificate certificate_wf.
Definition consensus_codec : Codec ConsensusBlockMetadata :=
  proto_codec Consensus_to_proto Consensus_from_proto consensus_wf.
Definition metadata_codec : Codec BlobMetadata :=
  proto_codec (λ m, Ok (BlobMetadata_to_proto m)) BlobMetadata_from_proto metadata_codec_wf.
Definition record_codec : Codec ArchiveRecord :=
  proto_codec (λ r, Ok (ArchiveRecord_to_proto r)) ArchiveRecord_from_proto record_wf.
Definition sidecar_codec : Codec BlobSidecar :=
  proto_codec (λ s, Ok (BlobSidecar_to_proto s)) BlobSidecar_from_proto sidecar_wf.
Definition part_codec : Codec ProposalPart :=
  proto_codec ProposalPart_to_proto ProposalPart_from_proto part_wf.
End codecs.

Lemma proto_codec_laws {A P} (W : ProstMessage P) (LW : ProstLaws P W)
    (to_p : A → outcome string P) (from_p : P → outcome string A) (wf : A → Prop) :
  (∀ a, wf a → obind (to_p a) from_p = Ok a) → CodecLaws A (proto_codec to_p from_p wf).
Proof.
  intros Hrt. constructor. intros a Ha. specialize (Hrt a Ha). simpl.
  destruct (to_p a) as [p| |]; simpl in *; try done.
  exists (encode_to_vec p). split; [done|]. by rewrite prost_decode_encode.
Qed.

(** *** Stream messages of the network codec *)

Section stream_codec.
Context `{ProstMessage MsgProposalPart} `{ProstMessage MsgStreamMessage}.

Definition stream_to_proto (m : StreamMessage) : outcome string MsgStreamMessage :=
  let? content := match sm_content m with
                  | SData p => let? b := encode (Codec := part_codec) p in Ok (PContentData b)
                  | SFin => Ok (PContentFin true)
                  end in
  Ok (mkPStream (sm_stream_id m) (sm_sequence m) (Some content)).

Definition stream_from_proto (p : MsgStreamMessage) : outcome string StreamMessage :=
  let? pc := missing (pst_content p) "content" in
  let? content := match pc with
                  | PContentData b => let? part := decode (Codec := part_codec) b in Ok (SData part)
                  | PContentFin _ => Ok SFin
                  end in
  Ok (mkMsg (pst_stream_id p) (pst_sequence p) content).

Definition stream_wf (m : StreamMessage) : Prop :=
  match sm_content m with SData p => part_wf p | SFin => True end.

(** [SyncedValuePackage::encode] and [decode]. *)
Definition package_codec `{ProstMessage MsgSyncedValuePackage} : Codec SyncedValuePackage :=
  proto_codec (λ p, Ok (SyncedValuePackage_to_proto p)) SyncedValuePackage_from_proto package_wf.

Definition stream_codec : Codec StreamMessage := proto_codec stream_to_proto stream_from_proto stream_wf.
End stream_codec.

(** ** What metadata can be *)

(** Take a decoder that succeeded apart. *)
Ltac decoded :=
  repeat match goal with
  | H : obind _ _ = Ok _ |- _ => apply obind_Ok in H as (? & ? & H)
  | H : ok_or ?o _ = Ok _ |- _ => destruct o eqn:?; [injection H as ->|done]
  end.

Lemma record_index_u16 (p : MsgArchiveRecord) (r : ArchiveRecord) :
  ArchiveRecord_from_proto p = Ok r → is_u16 (an_blob_index (ar_body r)).
Proof.
  unfold ArchiveRecord_from_proto, notice_body_from_proto, missing. intros H. decoded. simplify_eq.
  by match goal with Hu : try_u16 _ = Some _ |- _ => apply try_u16_Some in Hu as [-> ?] end.
Qed.

(** Records are filed under their own index. *)
Definition slots_wf (slots : list (option ArchiveRecord)) : Prop :=
  ∀ i r, slots !! i = Some (Some r) → an_blob_index (ar_body r) = Z.of_nat i.

Lemma place_records_wf (ps : list MsgArchiveRecord) : ∀ slots slots',
  place_records slots ps = Ok slots' → slots_wf slots → length slots' = length slots ∧ slots_wf slots'.
Proof.
  induction ps as [|p ps IH]; intros slots slots' Hp Hs; [by injection Hp as <-|]. simpl in Hp.
  apply obind_Ok in Hp as (r & Hr & Hp). apply record_index_u16 in Hr as [Hr _].
  destruct (_ <=? _)%nat eqn:Hlen; [done|]. apply IH in Hp as [Hl Hw].
  - by rewrite Hl, length_insert.
  - intros i r'. destruct (decide (i = Z.to_nat (an_blob_index (ar_body r)))) as [->|Hne].
    + apply Nat.leb_gt in Hlen. rewrite list_lookup_insert_eq by lia. intros [= <-]. lia.
    + rewrite list_lookup_insert_ne by done. apply Hs.
Qed.

Lemma metadata_from_proto_wf (p : MsgBlobMetadata) (m : BlobMetadata) :
  BlobMetadata_from_proto p = Ok m → blob_metadata_wf m.
Proof.
  unfold BlobMetadata_from_proto. intros H. apply obind_Ok in H as (cs & _ & H).
  apply obind_Ok in H as (hs & _ & H). destruct (length hs =? length cs)%nat eqn:Hl; [|done]. cbn [negb] in H.
  apply obind_Ok in H as (n & Hn & H). destruct (try_u16 _) as [n'|] eqn:Hu; [injection Hn as ->|done].
  apply try_u16_Some in Hu as [-> Hu]. destruct (_ =? Z.of_nat (length cs)) eqn:Hc; [|done]. cbn [negb] in H.
  apply obind_Ok in H as (rs & Hrs & H). decoded. injection H as <-.
  apply place_records_wf in Hrs as [Hlen Hw]; [|by intros i r [=]%lookup_replicate_1%proj1].
  rewrite length_replicate in Hlen. unfold blob_metadata_wf. simpl.
  apply Nat.eqb_eq in Hl. apply Z.eqb_eq in Hc. by split_and!.
Qed.

(** The metadata the program can hold: what its constructors return, what comes
    off the disk, and what its updates make of that. *)
Inductive held_metadata : BlobMetadata → Prop :=
| held_new height root cs hashes h hint m :
    BlobMetadata_new (E := string) height root cs hashes h hint = Ok m → held_metadata m
| held_blobless height root h hint m :
    BlobMetadata_blobless (E := string) height root h hint = Ok m → held_metadata m
| held_genesis m : BlobMetadata_genesis (E := string) = Ok m → held_metadata m
| held_decoded p m : BlobMetadata_from_proto p = Ok m → held_metadata m
| held_archived m r m' :
    held_metadata m → is_u16 (an_blob_index (ar_body r)) → set_archive_record (E := string) m r = Ok m' →
    held_metadata m'
| held_hashed m i h : held_metadata m → held_metadata (update_keccak_hash m i h).1
| held_pruned m : held_metadata m → held_metadata (mark_pruned m).

(** C27: blob metadata is well typed wherever the program holds it.  However a
    record was made (new, for a block without blobs, for genesis, or decoded from
    arbitrary bytes) and updated since, its count is a [u16], it has as many
    commitments, hashes and archive slots as it counts, and each archive record
    is in the slot of its blob. *)
Theorem held_metadata_well_typed (m : BlobMetadata) :
  held_metadata m →
  is_u16 (bm_blob_count m) ∧ Z.of_nat (length (bm_blob_kzg_commitments m)) = bm_blob_count m ∧
  length (bm_blob_keccak_hashes m) = length (bm_blob_kzg_commitments m) ∧
  length (bm_archival_records m) = length (bm_blob_kzg_commitments m) ∧
  (∀ i r, bm_archival_records m !! i = Some (Some r) → an_blob_index (ar_body r) = Z.of_nat i).
Proof.
  change (held_metadata m → blob_metadata_wf m). induction 1 as [| | | |m r m' _ IH [Hr _] Hset| |].
  - by eapply BlobMetadata_new_wf.
  - by eapply BlobMetadata_new_wf.
  - by eapply BlobMetadata_new_wf.
  - by eapply metadata_from_proto_wf.
  - by eapply set_archive_record_wf.
  - by apply update_keccak_hash_wf.
  - by apply mark_pruned_wf.
Qed.

(** ** Properties *)

Section proto_theorems.
Context (WP : ProstMessage MsgProposalPart) (LP : ProstLaws MsgProposalPart WP).
Context (WS : ProstMessage MsgStreamMessage) (LS : ProstLaws MsgStreamMessage WS).
Context (WB : ProstMessage MsgBlobMetadata) (LB : ProstLaws MsgBlobMetadata WB).
Context (WY : ProstMessage MsgSyncedValuePackage) (LY : ProstLaws MsgSyncedValuePackage WY).

Lemma stream_roundtrip (m : StreamMessage) :
  stream_wf m → obind (stream_to_proto m) stream_from_proto = Ok m.
Proof using LP.
  intros Hm. pose proof (proto_codec_laws _ LP _ _ _ ProposalPart_roundtrip) as Hl.
  destruct m as [sid q [p|]]; [|done].
  destruct (decode_encode (CodecLaws := Hl) p Hm) as (b & He & Hd).
  unfold stream_to_proto, stream_from_proto. cbn [sm_content].
  change (encode (Codec := part_codec) p = Ok b) in He.
  change (decode (Codec := part_codec) b = Ok p) in Hd.
  rewrite He. cbn [obind missing ok_or pst_content]. by rewrite Hd.
Qed.

(** Every message a proposer streams (a part of a proposal, or the end
    marker) is encoded, and decodes to itself. *)
Theorem stream_message_roundtrip (m : StreamMessage) :
  stream_wf m → ∃ b, encode (Codec := stream_codec) m = Ok b ∧ decode (Codec := stream_codec) b = Ok m.
Proof using LP LS.
  apply (decode_encode (CodecLaws := proto_codec_laws _ LS _ _ _ stream_roundtrip)).
Qed.

(** Blob metadata survives storage: with sizes respected and each record
    in its slot, encoding succeeds and decoding gives the same commitments,
    hashes, pruned flag and, slot by slot, the same archive records. *)
Theorem blob_metadata_roundtrip (m : BlobMetadata) :
  metadata_codec_wf m →
  ∃ b, encode (Codec := metadata_codec) m = Ok b ∧ decode (Codec := metadata_codec) b = Ok m.
Proof using LB.
  apply (decode_encode (CodecLaws := proto_codec_laws _ LB
    (λ m, Ok (BlobMetadata_to_proto m)) _ _ BlobMetadata_roundtrip)).
Qed.

(** A sync package, full or without its blobs, reaches the peer as it was
    sent: it is encoded, and decodes to itself, but for a package without blobs
    whose payload is present and empty, which would be read as having none. *)
Theorem synced_package_roundtrip (p : SyncedValuePackage) :
  package_wf p →
  ∃ b, encode (Codec := package_codec) p = Ok b ∧ decode (Codec := package_codec) b = Ok p.
Proof using LY.
  apply (decode_encode (CodecLaws := proto_codec_laws _ LY
    (λ p, Ok (SyncedValuePackage_to_proto p)) _ _ SyncedValuePackage_roundtrip)).
Qed.

(** An archive notice keeps its round through encoding exactly when the
    round is nil or below 2^31; a larger round is read back as nil. *)
Theorem archive_round_survives (r : Round) :
  round_wf r →
  (round_from_proto (round_to_proto r) = r ↔ i32_round r) ∧
  (¬ i32_round r → round_from_proto (round_to_proto r) = Nil).
Proof.
  intros Hr. assert (¬ i32_round r → round_from_proto (round_to_proto r) = Nil) as Hbig.
  { destruct r as [|z]; simpl in *; [done|]. unfold is_u32 in Hr. intros Hz.
    unfold to_i32. rewrite Z.mod_small by lia. destruct (z <? 2^31) eqn:E; [lia|].
    unfold round_from_proto. by destruct (z - 2^32 <? 0) eqn:E'; [|lia]. }
  split; [|done]. split; [|apply round_proto_roundtrip].
  intros Heq. destruct r as [|z]; [done|]. simpl in Hr |- *. unfold is_u32 in Hr.
  destruct (decide (z < 2^31)); [lia|]. rewrite Hbig in Heq by (simpl; lia). done.
Qed.

(** A blob sidecar message whose header carries a root that is not 32
    bytes long, otherwise well formed, makes the receiver panic instead of
    rejecting it. *)
Theorem short_root_panics (p : MsgBlobSidecar) (h : MsgSignedHeader) (m : MsgBeaconBlockHeader) :
  Z.of_nat (length (ps_blob p)) = BYTES_PER_BLOB →
  has_length BYTES_PER_COMMITMENT (ps_kzg_commitment p) →
  has_length BYTES_PER_PROOF (ps_kzg_proof p) →
  ps_signed_block_header p = Some h → psh_message h = Some m →
  ¬ has_length 32 (pbh_parent_root m) →
  ProposalPart_from_proto (mkPPart (Some (PartBlobSidecar p))) = Panic.
Proof.
  intros Hb Hc Hp Hh Hm Hl. unfold ProposalPart_from_proto. cbn [ppart missing ok_or obind].
  unfold BlobSidecar_from_proto, Blob_new. rewrite Hb, Z.eqb_refl. cbn [obind]. proto_tac.
  rewrite Hh. cbn [missing ok_or obind]. unfold SignedHeader_from_proto. rewrite Hm.
  cbn [missing ok_or obind]. unfold B256_from_slice. by rewrite decide_False.
Qed.
End proto_theorems.

(** ** Concrete inputs *)

(** Any injective encoding is a wire format with the law, so the messages are
    made countable. *)
#[export] Instance MsgHeader_eq_dec : EqDecision MsgHeader.
Proof. solve_decision. Defined.
#[export] Instance MsgHeader_countable : Countable MsgHeader.
Proof.
  refine (inj_countable'
    (λ x, (
      ph_block_hash x, ph_parent_hash x, ph_state_root x, ph_receipts_root x,
      ph_logs_bloom x, ph_block_number x, ph_gas_limit x, ph_gas_used x,
      ph_timestamp x, ph_base_fee_per_gas x, ph_blob_gas_used x, ph_excess_blob_gas x,
      ph_prev_randao x, ph_fee_recipient x, ph_extra_data x, ph_transactions_root x,
      ph_withdrawals_root x, ph_requests_hash x))
    (λ '(
      x0, x1, x2, x3, x4, x5, x6, x7, x8, x9, x10, x11, x12, x13, x14, x15, x16, x17), mkPHeader x0 x1 x2 x3 x4 x5 x6 x7 x8 x9 x10 x11 x12 x13 x14 x15 x16 x17) _). by intros [].
Defined.
#[export] Instance MsgArchiveNoticeBody_eq_dec : EqDecision MsgArchiveNoticeBody.
Proof. solve_decision. Defined.
#[export] Instance MsgArchiveNoticeBody_countable : Countable MsgArchiveNoticeBody.
Proof.
  refine (inj_countable'
    (λ x, (
      pn_height x, pn_round x, pn_blob_index x, pn_kzg_commitment x, pn_blob_keccak x,
      pn_provider_id x, pn_locator x, pn_archived_by x, pn_archived_at x))
    (λ '(
      x0, x1, x2, x3, x4, x5, x6, x7, x8), mkPNoticeBody x0 x1 x2 x3 x4 x5 x6 x7 x8) _). by intros [].
Defined.
#[export] Instance MsgArchiveRecord_eq_dec : EqDecision MsgArchiveRecord.
Proof. solve_decision. Defined.
#[export] Instance MsgArchiveRecord_countable : Countable MsgArchiveRecord.
Proof.
  refine (inj_countable'
    (λ x, (
      pr_body x, pr_archive_signature x))
    (λ '(
      x0, x1), mkPRecord x0 x1) _). by intros [].
Defined.
#[export] Instance MsgArchiveNotice_eq_dec : EqDecision MsgArchiveNotice.
Proof. solve_decision. Defined.
#[export] Instance MsgArchiveNotice_countable : Countable MsgArchiveNotice.
Proof.
  refine (inj_countable'
    (λ x, (
      pno_body x, pno_signature x))
    (λ '(
      x0, x1), mkPNotice x0 x1) _). by intros [].
Defined.
#[export] Instance MsgBlobMetadata_eq_dec : EqDecision MsgBlobMetadata.
Proof. solve_decision. Defined.
#[export] Instance MsgBlobMetadata_countable : Countable MsgBlobMetadata.
Proof.
  refine (inj_countable'
    (λ x, (
      pb_height x, pb_parent_blob_root x, pb_kzg_commitments x, pb_blob_count x,
      pb_header x, pb_proposer_index_hint x, pb_blob_keccak x, pb_archival_records x,
      pb_pruned x))
    (λ '(
      x0, x1, x2, x3, x4, x5, x6, x7, x8), mkPBlobMetadata x0 x1 x2 x3 x4 x5 x6 x7 x8) _). by intros [].
Defined.
#[export] Instance MsgBeaconBlockHeader_eq_dec : EqDecision MsgBeaconBlockHeader.
Proof. solve_decision. Defined.
#[export] Instance MsgBeaconBlockHeader_countable : Countable MsgBeaconBlockHeader.
Proof.
  refine (inj_countable'
    (λ x, (
      pbh_slot x, pbh_proposer_index x, pbh_parent_root x, pbh_state_root x,
      pbh_body_root x))
    (λ '(
      x0, x1, x2, x3, x4), mkPBeaconHeader x0 x1 x2 x3 x4) _). by intros [].
Defined.
#[export] Instance MsgSignedHeader_eq_dec : EqDecision MsgSignedHeader.
Proof. solve_decision. Defined.
#[export] Instance MsgSignedHeader_countable : Countable MsgSignedHeader.
Proof.
  refine (inj_countable'
    (λ x, (
      psh_message x, psh_signature x))
    (λ '(
      x0, x1), mkPSignedHeader x0 x1) _). by intros [].
Defined.
#[export] Instance MsgBlobSidecar_eq_dec : EqDecision MsgBlobSidecar.
Proof. solve_decision. Defined.
#[export] Instance MsgBlobSidecar_countable : Countable MsgBlobSidecar.
Proof.
  refine (inj_countable'
    (λ x, (
      ps_index x, ps_blob x, ps_kzg_commitment x, ps_kzg_proof x,
      ps_signed_block_header x, ps_inclusion_proof x))
    (λ '(
      x0, x1, x2, x3, x4, x5), mkPSidecar x0 x1 x2 x3 x4 x5) _). by intros [].
Defined.
#[export] Instance MsgPart_eq_dec : EqDecision MsgPart.
Proof. solve_decision. Defined.
#[export] Instance MsgPart_countable : Countable MsgPart.
Proof.
  refine (inj_countable'
    (λ p, match p with
          | PartInit a b c => inl (inl (a, b, c))
          | PartData a b => inl (inr (a, b))
          | PartBlobSidecar a => inr (inl (inl a))
          | PartArchiveNotice a => inr (inl (inr a))
          | PartFin a => inr (inr a)
          end)
    (λ p, match p with
          | inl (inl (a, b, c)) => PartInit a b c
          | inl (inr (a, b)) => PartData a b
          | inr (inl (inl a)) => PartBlobSidecar a
          | inr (inl (inr a)) => PartArchiveNotice a
          | inr (inr a) => PartFin a
          end) _). by intros [].
Defined.
#[export] Instance MsgProposalPart_eq_dec : EqDecision MsgProposalPart.
Proof. solve_decision. Defined.
#[export] Instance MsgProposalPart_countable : Countable MsgProposalPart.
Proof.
  refine (inj_countable'
    (λ x, (
      ppart x))
    (λ x0, mkPPart x0) _). by intros [].
Defined.
#[export] Instance MsgStreamContent_eq_dec : EqDecision MsgStreamContent.
Proof. solve_decision. Defined.
#[export] Instance MsgStreamContent_countable : Countable MsgStreamContent.
Proof.
  refine (inj_countable'
    (λ c, match c with PContentData b => inl b | PContentFin b => inr b end)
    (λ c, match c with inl b => PContentData b | inr b => PContentFin b end) _). by intros [].
Defined.
#[export] Instance MsgStreamMessage_eq_dec : EqDecision MsgStreamMessage.
Proof. solve_decision. Defined.
#[export] Instance MsgStreamMessage_countable : Countable MsgStreamMessage.
Proof.
  refine (inj_countable' (λ m, (pst_stream_id m, pst_sequence m, pst_content m))
    (λ '(a, b, c), mkPStream a b c) _). by intros [].
Defined.

#[export] Instance MsgValueMetadata_eq_dec : EqDecision MsgValueMetadata.
Proof. solve_decision. Defined.
#[export] Instance MsgValueMetadata_countable : Countable MsgValueMetadata.
Proof.
  refine (inj_countable' (λ m, (pm_header m, pm_commitments m, pm_blob_count m, pm_total_blob_bytes m))
    (λ '(a, b, c, d), mkPValueMetadata a b c d) _). by intros [].
Defined.
#[export] Instance MsgValue_eq_dec : EqDecision MsgValue.
Proof. solve_decision. Defined.
#[export] Instance MsgValue_countable : Countable MsgValue.
Proof.
  refine (inj_countable' (λ v, (pval_value v, pval_metadata v, pval_extensions v))
    (λ '(a, b, c), mkPValue a b c) _). by intros [].
Defined.
#[export] Instance MsgPackage_eq_dec : EqDecision MsgPackage.
Proof. solve_decision. Defined.
#[export] Instance MsgPackage_countable : Countable MsgPackage.
Proof.
  refine (inj_countable'
    (λ p, match p with
          | PackageFull a b c d e => inl (a, b, c, d, e)
          | PackageMetadataOnly a b c d => inr (a, b, c, d)
          end)
    (λ p, match p with
          | inl (a, b, c, d, e) => PackageFull a b c d e
          | inr (a, b, c, d) => PackageMetadataOnly a b c d
          end) _). by intros [].
Defined.
#[export] Instance MsgSyncedValuePackage_eq_dec : EqDecision MsgSyncedValuePackage.
Proof. solve_decision. Defined.
#[export] Instance MsgSyncedValuePackage_countable : Countable MsgSyncedValuePackage.
Proof. refine (inj_countable' ppackage mkPPackage _). by intros []. Defined.

(** A height whose blobs are pruned, with its payload. *)
Definition demo_pruned_package : SyncedValuePackage :=
  SyncMetadataOnly (mkValue 5 (mkValueMetadata (zero_header 0) [replicate 48 1] 1 0) []) [] (Some [1; 2]) [].

Lemma synced_package_roundtrip_witness :
  ∃ b, encode (Codec := @package_codec (countable_prost _)) demo_pruned_package = Ok b ∧
       decode (Codec := @package_codec (countable_prost _)) b = Ok demo_pruned_package.
Proof.
  apply (synced_package_roundtrip (countable_prost _) (countable_prost_laws _) demo_pruned_package).
  split; [split; [|split]|split; [constructor|discriminate]].
  - unfold header_wf. simpl. split_and!; try reflexivity; try lia; done.
  - repeat constructor.
  - unfold is_u16. simpl. lia.
Defined.

Lemma stream_message_roundtrip_witness :
  ∃ b, encode (Codec := @stream_codec (countable_prost _) (countable_prost _))
         (mkMsg [9] 2 (SData (PFin (zeros 64)))) = Ok b ∧
       decode (Codec := @stream_codec (countable_prost _) (countable_prost _)) b
         = Ok (mkMsg [9] 2 (SData (PFin (zeros 64)))).
Proof.
  apply (stream_message_roundtrip (countable_prost _) (countable_prost_laws _)
           (countable_prost _) (countable_prost_laws _) (mkMsg [9] 2 (SData (PFin (zeros 64))))).
  reflexivity.
Defined.

(** Two blobs, the second one archived. *)
Definition demo_archived_metadata : BlobMetadata :=
  mkBlobMetadata 7 B256_ZERO [replicate 48 1; replicate 48 2] 2 [B256_ZERO; B256_ZERO]
    [None; Some demo_record] false (zero_header 0) (Some 0).

Lemma blob_metadata_roundtrip_witness :
  ∃ b, encode (Codec := @metadata_codec (countable_prost _)) demo_archived_metadata = Ok b ∧
       decode (Codec := @metadata_codec (countable_prost _)) b = Ok demo_archived_metadata.
Proof.
  apply (blob_metadata_roundtrip (countable_prost _) (countable_prost_laws _) demo_archived_metadata).
  split_and!.
  - unfold blob_metadata_wf, is_u16. simpl. split_and!; try lia.
    intros [|[|i]] r Hr; simpl in Hr; simplify_eq. reflexivity.
  - reflexivity.
  - repeat constructor.
  - repeat constructor.
  - unfold header_wf. simpl. split_and!; try reflexivity; try lia; done.
  - repeat constructor; unfold is_u16; simpl; try lia; reflexivity.
Defined.

Lemma archive_round_survives_witness :
  (round_from_proto (round_to_proto (RSome (2^31))) = RSome (2^31) ↔ i32_round (RSome (2^31))) ∧
  (¬ i32_round (RSome (2^31)) → round_from_proto (round_to_proto (RSome (2^31))) = Nil).
Proof. apply (archive_round_survives (RSome (2^31))). simpl. unfold is_u32. lia. Defined.

Definition demo_bad_sidecar : MsgBlobSidecar :=
  mkPSidecar 0 (replicate (Z.to_nat BYTES_PER_BLOB) 0) (replicate 48 1) (replicate 48 1)
    (Some (mkPSignedHeader (Some (mkPBeaconHeader 7 0 [1; 2; 3] (zeros 32) (zeros 32)))
             (Some (zeros 64)))) [].

Lemma short_root_panics_witness :
  ProposalPart_from_proto (mkPPart (Some (PartBlobSidecar demo_bad_sidecar))) = Panic.
Proof.
  apply (short_root_panics demo_bad_sidecar
    (mkPSignedHeader (Some (mkPBeaconHeader 7 0 [1; 2; 3] (zeros 32) (zeros 32))) (Some (zeros 64)))
    (mkPBeaconHeader 7 0 [1; 2; 3] (zeros 32) (zeros 32))).
  - unfold demo_bad_sidecar, BYTES_PER_BLOB. cbn [ps_blob]. rewrite length_replicate. lia.
  - reflexivity.
  - reflexivity.
  - reflexivity.
  - reflexivity.
  - discriminate.
Defined.

(** A height with a blob, archived and pruned. *)
Definition demo_held : BlobMetadata :=
  mkBlobMetadata 7 B256_ZERO [zeros 48] 1 [B256_ZERO] [None] false (zero_header 0) None.
Definition demo_held_record : ArchiveRecord :=
  mkRecord (mkNoticeBody 7 (RSome 0) 0 (zeros 48) B256_ZERO EmptyString EmptyString (zeros 20) 0) (zeros 64).
Lemma held_metadata_well_typed_witness :
  ∃ m, set_archive_record (E := string) demo_held demo_held_record = Ok m ∧
    length (bm_archival_records (mark_pruned m)) = 1%nat.
Proof.
  eexists. split; [reflexivity|]. refine (proj1 (proj2 (proj2 (proj2 (held_metadata_well_typed _ _))))).
  apply held_pruned, (held_archived demo_held demo_held_record); [|unfold is_u16; simpl; lia|reflexivity].
  apply (held_new 7 B256_ZERO [zeros 48] [B256_ZERO] (zero_header 0) None). reflexivity.
Defined.
