(* ===== verification/Votes.v ===== *)
(** * Votes, proposals and their signatures ([vote.rs], [proposal.rs], [signing.rs])

    The two messages validators sign, their protobuf messages, the signing
    provider of the node and the check of a commit signature.  What is signed is
    the encoded message, so the theorems rest on the round trip of the encoding:
    a signed message still verifies after it has travelled, a signature is bound
    to one vote, and two certificates for one height and round that differ in
    their value convict more than a third of the voting power. *)
From S2P Require Import Prelude Types Metadata Proposal Proto.
Open Scope outcome_scope.

(** ** Votes *)

Inductive VoteType := Prevote | Precommit.
Inductive NilOrVal := NVNil | NVVal (id : Z).

(** [SignedExtension]: the bytes of an extension and their signature. *)
Record SignedExtension := mkExtension { ext_message : bytes; ext_signature : Signature }.

Record Vote := mkVote {
  vt_typ : VoteType; vt_height : Height; vt_round : Round; vt_value : NilOrVal;
  vt_validator_address : Address; vt_extension : option SignedExtension }.

Definition new_prevote (height : Height) (round : Round) (value : NilOrVal) (a : Address) : Vote :=
  mkVote Prevote height round value a None.
Definition new_precommit (height : Height) (round : Round) (value : NilOrVal) (a : Address) : Vote :=
  mkVote Precommit height round value a None.

Definition take_extension (v : Vote) : Vote * option SignedExtension :=
  (mkVote (vt_typ v) (vt_height v) (vt_round v) (vt_value v) (vt_validator_address v) None, vt_extension v).
Definition extend (v : Vote) (e : SignedExtension) : Vote :=
  mkVote (vt_typ v) (vt_height v) (vt_round v) (vt_value v) (vt_validator_address v) (Some e).

(** The generated message; its type is an [i32], and the generated getter reads
    a number that is no variant as the first one. *)
Record MsgVote := mkPVote {
  pvo_vote_type : Z; pvo_height : Z; pvo_round : Z; pvo_value : option Z;
  pvo_validator_address : option bytes }.

Definition encode_votetype (t : VoteType) : Z := match t with Prevote => 0 | Precommit => 1 end.
Definition decode_votetype (z : Z) : VoteType := if z =? 1 then Precommit else Prevote.

Definition NilOrVal_to_proto (v : NilOrVal) : option Z :=
  match v with NVNil => None | NVVal id => Some id end.
Definition NilOrVal_from_proto (p : option Z) : NilOrVal :=
  match p with Some id => NVVal id | None => NVNil end.

Definition Vote_from_proto (p : MsgVote) : outcome string Vote :=
  let? pa := missing (pvo_validator_address p) "validator_address" in
  let? a := Address_from_proto pa in
  Ok (mkVote (decode_votetype (pvo_vote_type p)) (pvo_height p) (RSome (pvo_round p))
        (NilOrVal_from_proto (pvo_value p)) a None).

Definition Vote_to_proto (v : Vote) : outcome string MsgVote :=
  let? round := ok_or (Round_as_u32 (vt_round v)) "vote round is nil"%string in
  Ok (mkPVote (encode_votetype (vt_typ v)) (vt_height v) round (NilOrVal_to_proto (vt_value v))
        (Some (Address_to_proto (vt_validator_address v)))).

(** ** Proposals *)

Record Proposal := mkProposal {
  pl_height : Height; pl_round : Round; pl_value : Value; pl_pol_round : Round;
  pl_validator_address : Address }.

Record MsgProposal := mkPProposal {
  ppl_height : Z; ppl_round : Z; ppl_value : option MsgValue; ppl_pol_round : option Z;
  ppl_validator_address : option bytes }.

(** [Round::from] an optional number. *)
Definition Round_from (o : option Z) : Round := match o with Some r => RSome r | None => Nil end.

Definition Proposal_to_proto (p : Proposal) : outcome string MsgProposal :=
  let? round := ok_or (Round_as_u32 (pl_round p)) "proposal round is nil"%string in
  Ok (mkPProposal (pl_height p) round (Some (Value_to_proto (pl_value p))) (Round_as_u32 (pl_pol_round p))
        (Some (Address_to_proto (pl_validator_address p)))).

Definition Proposal_from_proto (p : MsgProposal) : outcome string Proposal :=
  let? pv := missing (ppl_value p) "value" in
  let? v := Value_from_proto pv in
  let? pa := missing (ppl_validator_address p) "validator_address" in
  let? a := Address_from_proto pa in
  Ok (mkProposal (ppl_height p) (RSome (ppl_round p)) v (Round_from (ppl_pol_round p)) a).

(** ** Round trips *)

(** A vote as a peer sees it: extensions are not part of the message. *)
Definition on_wire (v : Vote) : Vote := (take_extension v).1.

Definition vote_wf (v : Vote) : Prop := vt_round v ≠ Nil ∧ has_length 20 (vt_validator_address v).
Definition proposal_wf (p : Proposal) : Prop :=
  pl_round p ≠ Nil ∧ has_length 20 (pl_validator_address p) ∧ value_wf (pl_value p).

Lemma votetype_roundtrip (t : VoteType) : decode_votetype (encode_votetype t) = t.
Proof. by destruct t. Qed.
Lemma NilOrVal_roundtrip (v : NilOrVal) : NilOrVal_from_proto (NilOrVal_to_proto v) = v.
Proof. by destruct v. Qed.
Lemma Round_from_as_u32 (r : Round) : Round_from (Round_as_u32 r) = r.
Proof. by destruct r. Qed.
#[export] Hint Rewrite votetype_roundtrip NilOrVal_roundtrip Round_from_as_u32 : proto.

Lemma Vote_roundtrip (v : Vote) : vote_wf v → obind (Vote_to_proto v) Vote_from_proto = Ok (on_wire v).
Proof.
  destruct v as [t h [|r] id a e]; intros [Hr Ha]; [done|]. simpl in *.
  unfold Vote_from_proto, Vote_to_proto. simpl. by proto_tac.
Qed.

Lemma Proposal_roundtrip (p : Proposal) :
  proposal_wf p → obind (Proposal_to_proto p) Proposal_from_proto = Ok p.
Proof.
  destruct p as [h [|r] v pol a]; intros (Hr & Ha & Hv); [done|]. simpl in *.
  unfold Proposal_from_proto, Proposal_to_proto. simpl. by proto_tac.
Qed.

(** The message determines the vote but for its extension. *)
Lemma Vote_to_proto_inj (v1 v2 : Vote) (p : MsgVote) :
  Vote_to_proto v1 = Ok p → Vote_to_proto v2 = Ok p → on_wire v1 = on_wire v2.
Proof.
  destruct v1 as [t1 h1 [|r1] i1 a1 e1], v2 as [t2 h2 [|r2] i2 a2 e2]; try done.
  unfold Vote_to_proto, Address_to_proto. simpl. intros [= <-] [= Ht -> -> Hv ->]. unfold on_wire. simpl.
  f_equal; [by destruct t1, t2|by destruct i1, i2; simplify_eq/=].
Qed.

Lemma Vote_to_proto_Ok (v : Vote) : vt_round v ≠ Nil → ∃ p, Vote_to_proto v = Ok p.
Proof. destruct v as [t h [|r] i a e]; [done|]. intros _. by eexists. Qed.

Lemma Vote_to_proto_on_wire (v : Vote) : Vote_to_proto (on_wire v) = Vote_to_proto v.
Proof. by destruct v. Qed.

(** ** The signing provider *)

Inductive VerificationResult := Valid_ | Invalid_.
Definition VerificationResult_from_bool (b : bool) : VerificationResult := if b then Valid_ else Invalid_.
Definition is_invalid (r : VerificationResult) : bool := match r with Valid_ => false | Invalid_ => true end.

Record SignedMessage (A : Type) := mkSigned { sg_message : A; sg_signature : Signature }.
Arguments mkSigned {A}. Arguments sg_message {A}. Arguments sg_signature {A}.

(** [Ed25519Provider] *)
Record Ed25519Provider := mkProvider { private_key : bytes }.

(** [Result::unwrap] *)
Definition unwrap {E F A} (o : outcome E A) : outcome F A := match o with Ok a => Ok a | _ => Panic end.

Section signing_provider.
Context `{Crypto} `{ProstMessage MsgVote} `{ProstMessage MsgProposal} `{ProstMessage MsgProposalPart}.

(** [Protobuf::to_bytes(self).unwrap()] *)
Definition Vote_to_bytes {E} (v : Vote) : outcome E bytes :=
  unwrap (let? p := Vote_to_proto v in Ok (encode_to_vec p)).
Definition Proposal_to_bytes {E} (p : Proposal) : outcome E bytes :=
  unwrap (let? p := Proposal_to_proto p in Ok (encode_to_vec p)).
Definition to_sign_bytes {E} (p : ProposalPart) : outcome E bytes :=
  unwrap (let? p := ProposalPart_to_proto p in Ok (encode_to_vec p)).

Definition sign (pr : Ed25519Provider) (data : bytes) : Signature := ed25519_sign (private_key pr) data.
Definition verify (data : bytes) (signature : Signature) (public_key : PublicKey) : bool :=
  ed25519_verify public_key data signature.

(** [SigningError] has no case the provider returns. *)
Definition sign_vote (pr : Ed25519Provider) (v : Vote) : outcome string (SignedMessage Vote) :=
  let? b := Vote_to_bytes v in Ok (mkSigned v (sign pr b)).
Definition verify_signed_vote (v : Vote) (signature : Signature) (public_key : PublicKey)
    : outcome string VerificationResult :=
  let? b := Vote_to_bytes v in Ok (VerificationResult_from_bool (ed25519_verify public_key b signature)).

Definition sign_proposal (pr : Ed25519Provider) (p : Proposal) : outcome string (SignedMessage Proposal) :=
  let? b := Proposal_to_bytes p in Ok (mkSigned p (sign pr b)).
Definition verify_signed_proposal (p : Proposal) (signature : Signature) (public_key : PublicKey)
    : outcome string VerificationResult :=
  let? b := Proposal_to_bytes p in Ok (VerificationResult_from_bool (ed25519_verify public_key b signature)).

Definition sign_proposal_part (pr : Ed25519Provider) (p : ProposalPart)
    : outcome string (SignedMessage ProposalPart) :=
  let? b := to_sign_bytes p in Ok (mkSigned p (sign pr b)).
Definition verify_signed_proposal_part (p : ProposalPart) (signature : Signature) (public_key : PublicKey)
    : outcome string VerificationResult :=
  let? b := to_sign_bytes p in Ok (VerificationResult_from_bool (ed25519_verify public_key b signature)).

(** [unimplemented!] *)
Definition sign_vote_extension (extension : bytes) : outcome string (SignedMessage bytes) := Panic.
Definition verify_signed_vote_extension (extension : bytes) (signature : Signature) (public_key : PublicKey)
    : outcome string VerificationResult := Panic.

(** The vote is rebuilt for the validator; the address the signature came with
    is not read. *)
Definition verify_commit_signature (c : CommitCertificate) (s : Address * Signature) (v : Validator)
    : outcome string Z :=
  let vote := new_precommit (cc_height c) (cc_round c) (NVVal (cc_value_id c)) (val_address v) in
  let? result := verify_signed_vote vote s.2 (val_public_key v) in
  if is_invalid result then Err "Invalid commit signature from validator"%string
  else Ok (val_voting_power v).

End signing_provider.

(** ** Properties *)

Section vote_theorems.
Context {C : Crypto} {CL : CryptoLaws C}.
Context (WV : ProstMessage MsgVote) (LV : ProstLaws MsgVote WV).
Context (WP : ProstMessage MsgProposal) (LP : ProstLaws MsgProposal WP).

(** *** What the bytes fix *)

Lemma Vote_to_bytes_Ok {E} (v : Vote) (b : bytes) :
  Vote_to_bytes (E := E) v = Ok b ↔ ∃ p, Vote_to_proto v = Ok p ∧ b = encode_to_vec p.
Proof.
  unfold Vote_to_bytes. destruct (Vote_to_proto v); simpl; split; try done.
  - intros [= <-]. by eexists.
  - by intros (? & [= ->] & ->).
  - by intros (? & [=] & _).
  - by intros (? & [=] & _).
Qed.

Lemma Vote_to_bytes_inj {E} (v1 v2 : Vote) (b : bytes) :
  Vote_to_bytes (E := E) v1 = Ok b → Vote_to_bytes (E := E) v2 = Ok b → on_wire v1 = on_wire v2.
Proof using LV.
  rewrite !Vote_to_bytes_Ok. intros (p1 & Hp1 & ->) (p2 & Hp2 & Heq).
  apply (f_equal (prost_decode (A := MsgVote))) in Heq. rewrite !prost_decode_encode in Heq. injection Heq as ->.
  by eapply Vote_to_proto_inj.
Qed.

Lemma verify_commit_signature_Ok (c : CommitCertificate) (s : Address * Signature) (v : Validator) (n : Z) :
  verify_commit_signature c s v = Ok n ↔
  n = val_voting_power v ∧ ∃ b,
    Vote_to_bytes (E := string)
      (new_precommit (cc_height c) (cc_round c) (NVVal (cc_value_id c)) (val_address v)) = Ok b ∧
    ed25519_verify (val_public_key v) b s.2 = true.
Proof.
  unfold verify_commit_signature, verify_signed_vote.
  destruct (Vote_to_bytes _) as [b| |]; simpl; [|by split; [|intros (_ & ? & ? & _)]..].
  destruct (ed25519_verify _ b _) eqn:Hv; simpl; split; try done.
  - intros [= <-]. split; [done|]. by exists b.
  - by intros [-> _].
  - intros (_ & b' & [= <-] & Hv'). by rewrite Hv in Hv'.
Qed.

(** A signature is bound to one vote: bytes that two votes share to be signed
    have the same type, height, round, value and validator. *)
Theorem signature_binds_vote (v1 v2 : Vote) (b : bytes) :
  Vote_to_bytes (E := string) v1 = Ok b → Vote_to_bytes (E := string) v2 = Ok b →
  vt_typ v1 = vt_typ v2 ∧ vt_height v1 = vt_height v2 ∧ vt_round v1 = vt_round v2 ∧
  vt_value v1 = vt_value v2 ∧ vt_validator_address v1 = vt_validator_address v2.
Proof using LV.
  intros Hb1 Hb2. pose proof (Vote_to_bytes_inj v1 v2 b Hb1 Hb2) as [=]. by split_and!.
Qed.

(** A provider signs every vote of a round, and its signature is accepted for
    the vote as a peer reads it; only a vote of the nil round cannot be signed,
    and the attempt panics. *)
Lemma signed_vote_verifies (pr : Ed25519Provider) (v : Vote) :
  match vt_round v with
  | Nil => sign_vote pr v = Panic
  | RSome _ => ∃ sv, sign_vote pr v = Ok sv ∧ sg_message sv = v ∧
      verify_signed_vote (on_wire v) (sg_signature sv) (ed25519_public (private_key pr)) = Ok Valid_
  end.
Proof using CL.
  destruct (vt_round v) eqn:Hr.
  - unfold sign_vote, Vote_to_bytes, Vote_to_proto. by rewrite Hr.
  - destruct (Vote_to_proto_Ok v) as [p Hp]; [congruence|].
    unfold sign_vote, verify_signed_vote, Vote_to_bytes. rewrite Vote_to_proto_on_wire, Hp. simpl.
    eexists. split_and!; [done..|]. simpl. unfold sign. by rewrite (ed25519_correct (private_key pr)).
Qed.

Lemma signed_proposal_verifies (pr : Ed25519Provider) (p : Proposal) :
  match pl_round p with
  | Nil => sign_proposal pr p = Panic
  | RSome _ => ∃ sp, sign_proposal pr p = Ok sp ∧ sg_message sp = p ∧
      verify_signed_proposal p (sg_signature sp) (ed25519_public (private_key pr)) = Ok Valid_
  end.
Proof using CL.
  unfold sign_proposal, verify_signed_proposal, Proposal_to_bytes, Proposal_to_proto.
  destruct (pl_round p); simpl; [done|].
  eexists. split_and!; [done..|]. simpl. unfold sign. by rewrite (ed25519_correct (private_key pr)).
Qed.

(** *** Commit signatures *)

(** A certificate with the precommits of validators verifies, each signature
    for its validator's voting power. *)
Theorem precommits_make_certificate (c : CommitCertificate) (pr : Ed25519Provider) (v : Validator) :
  cc_round c ≠ Nil → val_public_key v = ed25519_public (private_key pr) →
  ∃ sv, sign_vote pr (new_precommit (cc_height c) (cc_round c) (NVVal (cc_value_id c)) (val_address v)) = Ok sv ∧
    verify_commit_signature c (val_address v, sg_signature sv) v = Ok (val_voting_power v).
Proof using CL.
  intros Hr Hk.
  pose proof (signed_vote_verifies pr (new_precommit (cc_height c) (cc_round c) (NVVal (cc_value_id c)) (val_address v)))
    as Hs. cbn [vt_round new_precommit] in Hs. destruct (cc_round c) as [|r] eqn:Hround; [done|].
  destruct Hs as (sv & Hs & _ & Hv). exists sv. split; [done|].
  unfold verify_commit_signature. rewrite Hround, Hk. cbn [snd].
  change (new_precommit _ _ _ _) with (on_wire (new_precommit (cc_height c) (RSome r) (NVVal (cc_value_id c)) (val_address v))).
  by rewrite Hv.
Qed.

(** The validators with a signature in a certificate that is accepted for them,
    and the power of a list of validators. *)
Definition accepted_for (c : CommitCertificate) (v : Validator) : bool :=
  existsb (λ s, match verify_commit_signature c s v with Ok _ => true | _ => false end) (cc_signatures c).
Definition power (l : list Validator) : Z := foldr Z.add 0 (val_voting_power <$> l).
Definition signers (vs : ValidatorSet) (c : CommitCertificate) : list Validator :=
  List.filter (accepted_for c) (vs_validators vs).
(** The validators convicted by a pair of certificates. *)
Definition convicted (vs : ValidatorSet) (c1 c2 : CommitCertificate) : list Validator :=
  List.filter (λ v, accepted_for c1 v && accepted_for c2 v) (vs_validators vs).

Lemma power_cons (v : Validator) (l : list Validator) : power (v :: l) = val_voting_power v + power l.
Proof. done. Qed.

Lemma power_nonneg (l : list Validator) : Forall (λ v, 0 ≤ val_voting_power v) l → 0 ≤ power l.
Proof. induction 1; [done|]. rewrite power_cons. lia. Qed.

Lemma power_intersection (f g : Validator → bool) (l : list Validator) :
  Forall (λ v, 0 ≤ val_voting_power v) l →
  power (List.filter f l) + power (List.filter g l) ≤ power l + power (List.filter (λ v, f v && g v) l).
Proof.
  induction 1 as [|v l Hv _ IH]; [done|]. cbn [List.filter].
  destruct (f v), (g v); cbn [andb]; rewrite ?power_cons; lia.
Qed.

Lemma total_voting_power_sum (vs : ValidatorSet) :
  Forall (λ v, 0 ≤ val_voting_power v) (vs_validators vs) → power (vs_validators vs) < 2^64 →
  total_voting_power vs = power (vs_validators vs).
Proof.
  unfold total_voting_power. destruct vs as [l]. cbn [vs_validators]. intros Hl.
  assert (∀ acc, 0 ≤ acc → acc + power l < 2^64 →
    foldl (λ acc v, add64 acc (val_voting_power v)) acc l = acc + power l) as Hf.
  { induction Hl as [|v l Hv Hl IH]; intros acc Ha Hb; [simpl; unfold power; simpl; lia|].
    rewrite power_cons in *. pose proof (power_nonneg l Hl). cbn [foldl].
    rewrite add64_small by lia. rewrite IH by lia. lia. }
  intros Hb. rewrite Hf by lia. lia.
Qed.

Lemma accepted_for_true (c : CommitCertificate) (v : Validator) :
  accepted_for c v = true ↔ ∃ s, s ∈ cc_signatures c ∧ verify_commit_signature c s v = Ok (val_voting_power v).
Proof.
  unfold accepted_for. rewrite existsb_exists. split; intros (s & Hs & Hv); exists s;
    (split; [by apply list_elem_of_In|]).
  - destruct (verify_commit_signature c s v) as [n| |] eqn:E; [|done..].
    by apply verify_commit_signature_Ok in E as H; destruct H as [-> _].
  - by rewrite Hv.
Qed.

(** C17: conflicting certificates convict.  If two certificates of one height and
    round name different values, and each has signatures accepted for more than
    two thirds of the voting power, then validators with more than a third of the
    power can be shown to have signed twice: each has two signatures, one from
    each certificate, that verify under its key over two different precommits. *)
Theorem conflicting_certificates_convict (vs : ValidatorSet) (c1 c2 : CommitCertificate) :
  Forall (λ v, 0 ≤ val_voting_power v) (vs_validators vs) → power (vs_validators vs) < 2^64 →
  cc_height c1 = cc_height c2 → cc_round c1 = cc_round c2 → cc_value_id c1 ≠ cc_value_id c2 →
  2 * total_voting_power vs < 3 * power (signers vs c1) →
  2 * total_voting_power vs < 3 * power (signers vs c2) →
  total_voting_power vs < 3 * power (convicted vs c1 c2) ∧
  ∀ v, v ∈ convicted vs c1 c2 → v ∈ vs_validators vs ∧
    ∃ s1 s2 b1 b2, s1 ∈ cc_signatures c1 ∧ s2 ∈ cc_signatures c2 ∧ b1 ≠ b2 ∧
      Vote_to_bytes (E := string)
        (new_precommit (cc_height c1) (cc_round c1) (NVVal (cc_value_id c1)) (val_address v)) = Ok b1 ∧
      Vote_to_bytes (E := string)
        (new_precommit (cc_height c1) (cc_round c1) (NVVal (cc_value_id c2)) (val_address v)) = Ok b2 ∧
      ed25519_verify (val_public_key v) b1 s1.2 = true ∧ ed25519_verify (val_public_key v) b2 s2.2 = true.
Proof using LV.
  intros Hnn Hb Hh Hr Hid Hq1 Hq2. rewrite total_voting_power_sum in * by done. split.
  { pose proof (power_intersection (accepted_for c1) (accepted_for c2) (vs_validators vs) Hnn).
    unfold signers, convicted in *. lia. }
  intros v Hv. unfold convicted in Hv. apply list_elem_of_In, filter_In in Hv as [Hin Hacc].
  apply andb_true_iff in Hacc as [Ha1 Ha2]. split; [by apply list_elem_of_In|].
  apply accepted_for_true in Ha1 as (s1 & Hs1 & Hv1), Ha2 as (s2 & Hs2 & Hv2).
  apply verify_commit_signature_Ok in Hv1 as (_ & b1 & Hb1 & Hv1), Hv2 as (_ & b2 & Hb2 & Hv2).
  rewrite <-Hh, <-Hr in Hb2. exists s1, s2, b1, b2. split_and!; try done. intros ->.
  pose proof (Vote_to_bytes_inj _ _ _ Hb1 Hb2) as [=]. done.
Qed.
End vote_theorems.

(** ** Concrete inputs *)

(** A wire format for votes, field by field. *)
Definition demo_vote_prost : ProstMessage MsgVote := {|
  encode_to_vec p := pvo_vote_type p :: pvo_height p :: pvo_round p ::
    match pvo_value p with None => 0 | Some _ => 1 end :: default 0 (pvo_value p) ::
    match pvo_validator_address p with None => [0] | Some a => 1 :: a end;
  prost_decode b := match b with
    | t :: h :: r :: f :: id :: g :: a =>
      Some (mkPVote t h r (if f =? 1 then Some id else None) (if g =? 1 then Some a else None))
    | _ => None
    end |}.
Lemma demo_vote_prost_laws : ProstLaws MsgVote demo_vote_prost.
Proof. constructor. by intros [t h r [] []]. Qed.

(** Signatures of 64 bytes, the key before the message. *)
Definition demo_signature (key msg : bytes) : Signature := take 64 (key ++ msg ++ zeros 64).
Definition short_crypto : Crypto := {|
  keccak256 m := take 32 (m ++ zeros 32); sha256 _ := zeros 32; default_hasher _ := 0;
  ed25519_sign := demo_signature; ed25519_public k := k;
  ed25519_verify pk m s := bool_decide (s = demo_signature pk m);
  hash32_concat _ _ := zeros 32; merkle_hasher _ _ := zeros 32; tree_hash_bytes48 _ := zeros 32;
  beacon_header_tree_hash _ _ _ _ _ := zeros 32; requests_hash _ := zeros 32 |}.
Lemma short_crypto_laws : CryptoLaws short_crypto.
Proof. constructor. intros sk msg. by apply bool_decide_eq_true. Qed.

(** Four validators of one power; all precommit to value 5, three of them to
    value 6 as well. *)
Definition demo_validator (k : Z) : Validator := mkValidator (replicate 20 k) [k] 10.
Definition demo_validators : ValidatorSet := mkValidatorSet (demo_validator <$> [1; 2; 3; 4]).
Definition demo_commit_signature (id k : Z) : Address * Signature :=
  (replicate 20 k, demo_signature [k] ([1; 7; 0; 1; id; 1] ++ replicate 20 k)).
Definition demo_conflict (id : Z) (ks : list Z) : CommitCertificate :=
  mkCertificate 7 (RSome 0) id (demo_commit_signature id <$> ks).

Lemma conflicting_certificates_convict_witness :
  power (convicted (C := short_crypto) demo_vote_prost demo_validators
    (demo_conflict 5 [1; 2; 3; 4]) (demo_conflict 6 [2; 3; 4])) = 30 ∧
  total_voting_power demo_validators = 40 ∧
  40 < 3 * power (convicted (C := short_crypto) demo_vote_prost demo_validators
    (demo_conflict 5 [1; 2; 3; 4]) (demo_conflict 6 [2; 3; 4])).
Proof.
  split; [vm_compute; reflexivity|]. split; [vm_compute; reflexivity|].
  apply (conflicting_certificates_convict (C := short_crypto) demo_vote_prost demo_vote_prost_laws
    demo_validators (demo_conflict 5 [1; 2; 3; 4]) (demo_conflict 6 [2; 3; 4]));
    try (vm_compute; reflexivity).
  - repeat constructor; vm_compute; discriminate.
  - vm_compute. discriminate.
Defined.
