(* ===== verification/State.v ===== *)
(** * The consensus state: archival, pruning and start-up ([state.rs])

    [State] is what a node keeps between consensus messages: the store, the
    blob engine it is generic over, the streams being reassembled, and its
    view of heights, rounds and pending archival work.  A method is a
    computation over it; what it has written stays written when it fails. *)
From S2P Require Import Prelude Types Merkle Streaming Metadata BlobStore BlobEngine Store Proto.
Open Scope monad_scope.

(** ** The state *)

Record State (E : Type) := mkState {
  s_genesis_validators : ValidatorSet;
  s_signing_key : bytes;
  s_address : Address;
  s_store : Store;
  s_stream_nonce : Z;
  s_streams_map : gmap (list Z * list Z) StreamState;
  s_blob_engine : E;
  s_current_height : Height;
  s_current_round : Round;
  s_current_proposer : option Address;
  s_latest_block : option ExecutionBlock;
  s_executed_height : Height;
  s_el_degraded : bool;
  s_el_degraded_since : option Z;
  s_el_last_error : option string;
  s_last_fcu_head : option B256;
  s_last_fcu_success : option Z;
  s_blob_rounds : gmap Z (gset Z);
  s_last_blob_sidecar_root : B256;
  s_last_blob_sidecar_height : Height;
  s_blob_retention_window : Z;
  s_pending_archive_heights : gset Z;
  s_pending_prune_heights : gset Z;
  s_latest_finalized_height : Height;
  s_archiver_enabled : bool;
  s_txs_count : Z;
  s_chain_bytes : Z }.
Arguments mkState {E}.
Arguments s_genesis_validators {E} _.
Arguments s_signing_key {E} _.
Arguments s_address {E} _.
Arguments s_store {E} _.
Arguments s_stream_nonce {E} _.
Arguments s_streams_map {E} _.
Arguments s_blob_engine {E} _.
Arguments s_current_height {E} _.
Arguments s_current_round {E} _.
Arguments s_current_proposer {E} _.
Arguments s_latest_block {E} _.
Arguments s_executed_height {E} _.
Arguments s_el_degraded {E} _.
Arguments s_el_degraded_since {E} _.
Arguments s_el_last_error {E} _.
Arguments s_last_fcu_head {E} _.
Arguments s_last_fcu_success {E} _.
Arguments s_blob_rounds {E} _.
Arguments s_last_blob_sidecar_root {E} _.
Arguments s_last_blob_sidecar_height {E} _.
Arguments s_blob_retention_window {E} _.
Arguments s_pending_archive_heights {E} _.
Arguments s_pending_prune_heights {E} _.
Arguments s_latest_finalized_height {E} _.
Arguments s_archiver_enabled {E} _.
Arguments s_txs_count {E} _.
Arguments s_chain_bytes {E} _.

Section setters.
Context {E : Type}.
Definition set_store (v : Store) (s : State E) : State E :=
  mkState (s_genesis_validators s) (s_signing_key s) (s_address s) v (s_stream_nonce s)
    (s_streams_map s) (s_blob_engine s) (s_current_height s) (s_current_round s)
    (s_current_proposer s) (s_latest_block s) (s_executed_height s) (s_el_degraded s)
    (s_el_degraded_since s) (s_el_last_error s) (s_last_fcu_head s) (s_last_fcu_success s)
    (s_blob_rounds s) (s_last_blob_sidecar_root s) (s_last_blob_sidecar_height s)
    (s_blob_retention_window s) (s_pending_archive_heights s) (s_pending_prune_heights s)
    (s_latest_finalized_height s) (s_archiver_enabled s) (s_txs_count s) (s_chain_bytes s).
Definition set_stream_nonce (v : Z) (s : State E) : State E :=
  mkState (s_genesis_validators s) (s_signing_key s) (s_address s) (s_store s) v
    (s_streams_map s) (s_blob_engine s) (s_current_height s) (s_current_round s)
    (s_current_proposer s) (s_latest_block s) (s_executed_height s) (s_el_degraded s)
    (s_el_degraded_since s) (s_el_last_error s) (s_last_fcu_head s) (s_last_fcu_success s)
    (s_blob_rounds s) (s_last_blob_sidecar_root s) (s_last_blob_sidecar_height s)
    (s_blob_retention_window s) (s_pending_archive_heights s) (s_pending_prune_heights s)
    (s_latest_finalized_height s) (s_archiver_enabled s) (s_txs_count s) (s_chain_bytes s).
Definition set_streams_map (v : gmap (list Z * list Z) StreamState) (s : State E) : State E :=
  mkState (s_genesis_validators s) (s_signing_key s) (s_address s) (s_store s)
    (s_stream_nonce s) v (s_blob_engine s) (s_current_height s) (s_current_round s)
    (s_current_proposer s) (s_latest_block s) (s_executed_height s) (s_el_degraded s)
    (s_el_degraded_since s) (s_el_last_error s) (s_last_fcu_head s) (s_last_fcu_success s)
    (s_blob_rounds s) (s_last_blob_sidecar_root s) (s_last_blob_sidecar_height s)
    (s_blob_retention_window s) (s_pending_archive_heights s) (s_pending_prune_heights s)
    (s_latest_finalized_height s) (s_archiver_enabled s) (s_txs_count s) (s_chain_bytes s).
Definition set_blob_engine (v : E) (s : State E) : State E :=
  mkState (s_genesis_validators s) (s_signing_key s) (s_address s) (s_store s)
    (s_stream_nonce s) (s_streams_map s) v (s_current_height s) (s_current_round s)
    (s_current_proposer s) (s_latest_block s) (s_executed_height s) (s_el_degraded s)
    (s_el_degraded_since s) (s_el_last_error s) (s_last_fcu_head s) (s_last_fcu_success s)
    (s_blob_rounds s) (s_last_blob_sidecar_root s) (s_last_blob_sidecar_height s)
    (s_blob_retention_window s) (s_pending_archive_heights s) (s_pending_prune_heights s)
    (s_latest_finalized_height s) (s_archiver_enabled s) (s_txs_count s) (s_chain_bytes s).
Definition set_current_height (v : Height) (s : State E) : State E :=
  mkState (s_genesis_validators s) (s_signing_key s) (s_address s) (s_store s)
    (s_stream_nonce s) (s_streams_map s) (s_blob_engine s) v (s_current_round s)
    (s_current_proposer s) (s_latest_block s) (s_executed_height s) (s_el_degraded s)
    (s_el_degraded_since s) (s_el_last_error s) (s_last_fcu_head s) (s_last_fcu_success s)
    (s_blob_rounds s) (s_last_blob_sidecar_root s) (s_last_blob_sidecar_height s)
    (s_blob_retention_window s) (s_pending_archive_heights s) (s_pending_prune_heights s)
    (s_latest_finalized_height s) (s_archiver_enabled s) (s_txs_count s) (s_chain_bytes s).
Definition set_current_round (v : Round) (s : State E) : State E :=
  mkState (s_genesis_validators s) (s_signing_key s) (s_address s) (s_store s)
    (s_stream_nonce s) (s_streams_map s) (s_blob_engine s) (s_current_height s) v
    (s_current_proposer s) (s_latest_block s) (s_executed_height s) (s_el_degraded s)
    (s_el_degraded_since s) (s_el_last_error s) (s_last_fcu_head s) (s_last_fcu_success s)
    (s_blob_rounds s) (s_last_blob_sidecar_root s) (s_last_blob_sidecar_height s)
    (s_blob_retention_window s) (s_pending_archive_heights s) (s_pending_prune_heights s)
    (s_latest_finalized_height s) (s_archiver_enabled s) (s_txs_count s) (s_chain_bytes s).
Definition set_current_proposer (v : option Address) (s : State E) : State E :=
  mkState (s_genesis_validators s) (s_signing_key s) (s_address s) (s_store s)
    (s_stream_nonce s) (s_streams_map s) (s_blob_engine s) (s_current_height s)
    (s_current_round s) v (s_latest_block s) (s_executed_height s) (s_el_degraded s)
    (s_el_degraded_since s) (s_el_last_error s) (s_last_fcu_head s) (s_last_fcu_success s)
    (s_blob_rounds s) (s_last_blob_sidecar_root s) (s_last_blob_sidecar_height s)
    (s_blob_retention_window s) (s_pending_archive_heights s) (s_pending_prune_heights s)
    (s_latest_finalized_height s) (s_archiver_enabled s) (s_txs_count s) (s_chain_bytes s).
Definition set_latest_block (v : option ExecutionBlock) (s : State E) : State E :=
  mkState (s_genesis_validators s) (s_signing_key s) (s_address s) (s_store s)
    (s_stream_nonce s) (s_streams_map s) (s_blob_engine s) (s_current_height s)
    (s_current_round s) (s_current_proposer s) v (s_executed_height s) (s_el_degraded s)
    (s_el_degraded_since s) (s_el_last_error s) (s_last_fcu_head s) (s_last_fcu_success s)
    (s_blob_rounds s) (s_last_blob_sidecar_root s) (s_last_blob_sidecar_height s)
    (s_blob_retention_window s) (s_pending_archive_heights s) (s_pending_prune_heights s)
    (s_latest_finalized_height s) (s_archiver_enabled s) (s_txs_count s) (s_chain_bytes s).
Definition set_executed_height (v : Height) (s : State E) : State E :=
  mkState (s_genesis_validators s) (s_signing_key s) (s_address s) (s_store s)
    (s_stream_nonce s) (s_streams_map s) (s_blob_engine s) (s_current_height s)
    (s_current_round s) (s_current_proposer s) (s_latest_block s) v (s_el_degraded s)
    (s_el_degraded_since s) (s_el_last_error s) (s_last_fcu_head s) (s_last_fcu_success s)
    (s_blob_rounds s) (s_last_blob_sidecar_root s) (s_last_blob_sidecar_height s)
    (s_blob_retention_window s) (s_pending_archive_heights s) (s_pending_prune_heights s)
    (s_latest_finalized_height s) (s_archiver_enabled s) (s_txs_count s) (s_chain_bytes s).
Definition set_el_degraded (v : bool) (s : State E) : State E :=
  mkState (s_genesis_validators s) (s_signing_key s) (s_address s) (s_store s)
    (s_stream_nonce s) (s_streams_map s) (s_blob_engine s) (s_current_height s)
    (s_current_round s) (s_current_proposer s) (s_latest_block s) (s_executed_height s) v
    (s_el_degraded_since s) (s_el_last_error s) (s_last_fcu_head s) (s_last_fcu_success s)
    (s_blob_rounds s) (s_last_blob_sidecar_root s) (s_last_blob_sidecar_height s)
    (s_blob_retention_window s) (s_pending_archive_heights s) (s_pending_prune_heights s)
    (s_latest_finalized_height s) (s_archiver_enabled s) (s_txs_count s) (s_chain_bytes s).
Definition set_el_degraded_since (v : option Z) (s : State E) : State E :=
  mkState (s_genesis_validators s) (s_signing_key s) (s_address s) (s_store s)
    (s_stream_nonce s) (s_streams_map s) (s_blob_engine s) (s_current_height s)
    (s_current_round s) (s_current_proposer s) (s_latest_block s) (s_executed_height s)
    (s_el_degraded s) v (s_el_last_error s) (s_last_fcu_head s) (s_last_fcu_success s)
    (s_blob_rounds s) (s_last_blob_sidecar_root s) (s_last_blob_sidecar_height s)
    (s_blob_retention_window s) (s_pending_archive_heights s) (s_pending_prune_heights s)
    (s_latest_finalized_height s) (s_archiver_enabled s) (s_txs_count s) (s_chain_bytes s).
Definition set_el_last_error (v : option string) (s : State E) : State E :=
  mkState (s_genesis_validators s) (s_signing_key s) (s_address s) (s_store s)
    (s_stream_nonce s) (s_streams_map s) (s_blob_engine s) (s_current_height s)
    (s_current_round s) (s_current_proposer s) (s_latest_block s) (s_executed_height s)
    (s_el_degraded s) (s_el_degraded_since s) v (s_last_fcu_head s) (s_last_fcu_success s)
    (s_blob_rounds s) (s_last_blob_sidecar_root s) (s_last_blob_sidecar_height s)
    (s_blob_retention_window s) (s_pending_archive_heights s) (s_pending_prune_heights s)
    (s_latest_finalized_height s) (s_archiver_enabled s) (s_txs_count s) (s_chain_bytes s).
Definition set_last_fcu_head (v : option B256) (s : State E) : State E :=
  mkState (s_genesis_validators s) (s_signing_key s) (s_address s) (s_store s)
    (s_stream_nonce s) (s_streams_map s) (s_blob_engine s) (s_current_height s)
    (s_current_round s) (s_current_proposer s) (s_latest_block s) (s_executed_height s)
    (s_el_degraded s) (s_el_degraded_since s) (s_el_last_error s) v (s_last_fcu_success s)
    (s_blob_rounds s) (s_last_blob_sidecar_root s) (s_last_blob_sidecar_height s)
    (s_blob_retention_window s) (s_pending_archive_heights s) (s_pending_prune_heights s)
    (s_latest_finalized_height s) (s_archiver_enabled s) (s_txs_count s) (s_chain_bytes s).
Definition set_last_fcu_success (v : option Z) (s : State E) : State E :=
  mkState (s_genesis_validators s) (s_signing_key s) (s_address s) (s_store s)
    (s_stream_nonce s) (s_streams_map s) (s_blob_engine s) (s_current_height s)
    (s_current_round s) (s_current_proposer s) (s_latest_block s) (s_executed_height s)
    (s_el_degraded s) (s_el_degraded_since s) (s_el_last_error s) (s_last_fcu_head s) v
    (s_blob_rounds s) (s_last_blob_sidecar_root s) (s_last_blob_sidecar_height s)
    (s_blob_retention_window s) (s_pending_archive_heights s) (s_pending_prune_heights s)
    (s_latest_finalized_height s) (s_archiver_enabled s) (s_txs_count s) (s_chain_bytes s).
Definition set_blob_rounds (v : gmap Z (gset Z)) (s : State E) : State E :=
  mkState (s_genesis_validators s) (s_signing_key s) (s_address s) (s_store s)
    (s_stream_nonce s) (s_streams_map s) (s_blob_engine s) (s_current_height s)
    (s_current_round s) (s_current_proposer s) (s_latest_block s) (s_executed_height s)
    (s_el_degraded s) (s_el_degraded_since s) (s_el_last_error s) (s_last_fcu_head s)
    (s_last_fcu_success s) v (s_last_blob_sidecar_root s) (s_last_blob_sidecar_height s)
    (s_blob_retention_window s) (s_pending_archive_heights s) (s_pending_prune_heights s)
    (s_latest_finalized_height s) (s_archiver_enabled s) (s_txs_count s) (s_chain_bytes s).
Definition set_last_blob_sidecar_root (v : B256) (s : State E) : State E :=
  mkState (s_genesis_validators s) (s_signing_key s) (s_address s) (s_store s)
    (s_stream_nonce s) (s_streams_map s) (s_blob_engine s) (s_current_height s)
    (s_current_round s) (s_current_proposer s) (s_latest_block s) (s_executed_height s)
    (s_el_degraded s) (s_el_degraded_since s) (s_el_last_error s) (s_last_fcu_head s)
    (s_last_fcu_success s) (s_blob_rounds s) v (s_last_blob_sidecar_height s)
    (s_blob_retention_window s) (s_pending_archive_heights s) (s_pending_prune_heights s)
    (s_latest_finalized_height s) (s_archiver_enabled s) (s_txs_count s) (s_chain_bytes s).
Definition set_last_blob_sidecar_height (v : Height) (s : State E) : State E :=
  mkState (s_genesis_validators s) (s_signing_key s) (s_address s) (s_store s)
    (s_stream_nonce s) (s_streams_map s) (s_blob_engine s) (s_current_height s)
    (s_current_round s) (s_current_proposer s) (s_latest_block s) (s_executed_height s)
    (s_el_degraded s) (s_el_degraded_since s) (s_el_last_error s) (s_last_fcu_head s)
    (s_last_fcu_success s) (s_blob_rounds s) (s_last_blob_sidecar_root s) v
    (s_blob_retention_window s) (s_pending_archive_heights s) (s_pending_prune_heights s)
    (s_latest_finalized_height s) (s_archiver_enabled s) (s_txs_count s) (s_chain_bytes s).
Definition set_blob_retention_window (v : Z) (s : State E) : State E :=
  mkState (s_genesis_validators s) (s_signing_key s) (s_address s) (s_store s)
    (s_stream_nonce s) (s_streams_map s) (s_blob_engine s) (s_current_height s)
    (s_current_round s) (s_current_proposer s) (s_latest_block s) (s_executed_height s)
    (s_el_degraded s) (s_el_degraded_since s) (s_el_last_error s) (s_last_fcu_head s)
    (s_last_fcu_success s) (s_blob_rounds s) (s_last_blob_sidecar_root s)
    (s_last_blob_sidecar_height s) v (s_pending_archive_heights s) (s_pending_prune_heights s)
    (s_latest_finalized_height s) (s_archiver_enabled s) (s_txs_count s) (s_chain_bytes s).
Definition set_pending_archive_heights (v : gset Z) (s : State E) : State E :=
  mkState (s_genesis_validators s) (s_signing_key s) (s_address s) (s_store s)
    (s_stream_nonce s) (s_streams_map s) (s_blob_engine s) (s_current_height s)
    (s_current_round s) (s_current_proposer s) (s_latest_block s) (s_executed_height s)
    (s_el_degraded s) (s_el_degraded_since s) (s_el_last_error s) (s_last_fcu_head s)
    (s_last_fcu_success s) (s_blob_rounds s) (s_last_blob_sidecar_root s)
    (s_last_blob_sidecar_height s) (s_blob_retention_window s) v (s_pending_prune_heights s)
    (s_latest_finalized_height s) (s_archiver_enabled s) (s_txs_count s) (s_chain_bytes s).
Definition set_pending_prune_heights (v : gset Z) (s : State E) : State E :=
  mkState (s_genesis_validators s) (s_signing_key s) (s_address s) (s_store s)
    (s_stream_nonce s) (s_streams_map s) (s_blob_engine s) (s_current_height s)
    (s_current_round s) (s_current_proposer s) (s_latest_block s) (s_executed_height s)
    (s_el_degraded s) (s_el_degraded_since s) (s_el_last_error s) (s_last_fcu_head s)
    (s_last_fcu_success s) (s_blob_rounds s) (s_last_blob_sidecar_root s)
    (s_last_blob_sidecar_height s) (s_blob_retention_window s) (s_pending_archive_heights s) v
    (s_latest_finalized_height s) (s_archiver_enabled s) (s_txs_count s) (s_chain_bytes s).
Definition set_latest_finalized_height (v : Height) (s : State E) : State E :=
  mkState (s_genesis_validators s) (s_signing_key s) (s_address s) (s_store s)
    (s_stream_nonce s) (s_streams_map s) (s_blob_engine s) (s_current_height s)
    (s_current_round s) (s_current_proposer s) (s_latest_block s) (s_executed_height s)
    (s_el_degraded s) (s_el_degraded_since s) (s_el_last_error s) (s_last_fcu_head s)
    (s_last_fcu_success s) (s_blob_rounds s) (s_last_blob_sidecar_root s)
    (s_last_blob_sidecar_height s) (s_blob_retention_window s) (s_pending_archive_heights s)
    (s_pending_prune_heights s) v (s_archiver_enabled s) (s_txs_count s) (s_chain_bytes s).
Definition set_archiver_enabled (v : bool) (s : State E) : State E :=
  mkState (s_genesis_validators s) (s_signing_key s) (s_address s) (s_store s)
    (s_stream_nonce s) (s_streams_map s) (s_blob_engine s) (s_current_height s)
    (s_current_round s) (s_current_proposer s) (s_latest_block s) (s_executed_height s)
    (s_el_degraded s) (s_el_degraded_since s) (s_el_last_error s) (s_last_fcu_head s)
    (s_last_fcu_success s) (s_blob_rounds s) (s_last_blob_sidecar_root s)
    (s_last_blob_sidecar_height s) (s_blob_retention_window s) (s_pending_archive_heights s)
    (s_pending_prune_heights s) (s_latest_finalized_height s) v (s_txs_count s)
    (s_chain_bytes s).
Definition set_txs_count (v : Z) (s : State E) : State E :=
  mkState (s_genesis_validators s) (s_signing_key s) (s_address s) (s_store s)
    (s_stream_nonce s) (s_streams_map s) (s_blob_engine s) (s_current_height s)
    (s_current_round s) (s_current_proposer s) (s_latest_block s) (s_executed_height s)
    (s_el_degraded s) (s_el_degraded_since s) (s_el_last_error s) (s_last_fcu_head s)
    (s_last_fcu_success s) (s_blob_rounds s) (s_last_blob_sidecar_root s)
    (s_last_blob_sidecar_height s) (s_blob_retention_window s) (s_pending_archive_heights s)
    (s_pending_prune_heights s) (s_latest_finalized_height s) (s_archiver_enabled s) v
    (s_chain_bytes s).
Definition set_chain_bytes (v : Z) (s : State E) : State E :=
  mkState (s_genesis_validators s) (s_signing_key s) (s_address s) (s_store s)
    (s_stream_nonce s) (s_streams_map s) (s_blob_engine s) (s_current_height s)
    (s_current_round s) (s_current_proposer s) (s_latest_block s) (s_executed_height s)
    (s_el_degraded s) (s_el_degraded_since s) (s_el_last_error s) (s_last_fcu_head s)
    (s_last_fcu_success s) (s_blob_rounds s) (s_last_blob_sidecar_root s)
    (s_last_blob_sidecar_height s) (s_blob_retention_window s) (s_pending_archive_heights s)
    (s_pending_prune_heights s) (s_latest_finalized_height s) (s_archiver_enabled s)
    (s_txs_count s) v.
End setters.


(** The serialised types of the store. *)
Class NodeCodecs := {
  nc_value :: Codec Value;
  nc_proposed :: Codec ProposedValue;
  nc_certificate :: Codec CommitCertificate;
  nc_consensus :: Codec ConsensusBlockMetadata;
  nc_metadata :: Codec BlobMetadata;
  nc_record :: Codec ArchiveRecord;
  nc_payload :: ProstMessage BlockPayloadRecord;
  nc_notice_body :: ProstMessage MsgArchiveNoticeBody }.

Definition BLOB_RETENTION_WINDOW : Z := 4096.
Definition STALE_ROUND_BLOB_RETENTION : Z := 3.

Definition store_msg (e : StoreError) : string :=
  match e with
  | StorageFailed => "Storage error"
  | Protobuf m => m
  | TaskJoin => "Failed to join on task"
  | MissingBlobMetadata _ _ => "Blob metadata not found"
  end.
Definition engine_msg (e : BlobEngineError) : string :=
  match e with
  | VerificationFailed _ _ _ => "Blob verification failed"
  | Storage _ => "Storage error"
  | BlobsPruned _ _ _ => "Blobs pruned"
  end.

(** Every blob of the height has an archive record. *)
Definition all_archived (m : BlobMetadata) : bool :=
  forallb (λ i, is_archived (archival_status m i)) (seq 0 (Z.to_nat (bm_blob_count m))).

(** The locators of the archived blobs, by index. *)
Definition archive_locators (m : BlobMetadata) : list string :=
  omap (λ i, match archival_status m i with
             | Archived r => Some (an_locator (ar_body r))
             | Pending => None
             end) (seq 0 (Z.to_nat (bm_blob_count m))).

(** Ascending iteration of a [BTreeSet]. *)
Definition ascending (s : gset Z) : list Z := sort_by_key id (elements s).

Section state.
Context {E : Type} {B : BlobEngine E} `{Crypto} `{MerkleTreeLib} `{NodeCodecs}.

Abbreviation StM A := (M (State E) string A) (only parsing).

Definition with_store {A} (c : M Store StoreError A) : StM A :=
  zoom s_store set_store (map_err store_msg c).
Definition with_engine {A} (c : M E BlobEngineError A) : StM A :=
  zoom s_blob_engine set_blob_engine (map_err engine_msg c).

Definition State_new (vs : ValidatorSet) (signing_key : bytes) (address : Address)
    (height : Height) (store : Store) (engine : E) : State E := {|
  s_genesis_validators := vs; s_signing_key := signing_key; s_address := address;
  s_store := store; s_stream_nonce := 0; s_streams_map := ∅; s_blob_engine := engine;
  s_current_height := height; s_current_round := RSome 0; s_current_proposer := None;
  s_latest_block := None; s_executed_height := 0; s_el_degraded := false;
  s_el_degraded_since := None; s_el_last_error := None; s_last_fcu_head := None;
  s_last_fcu_success := None; s_blob_rounds := ∅;
  s_last_blob_sidecar_root := B256_ZERO; s_last_blob_sidecar_height := 0;
  s_blob_retention_window := BLOB_RETENTION_WINDOW; s_pending_archive_heights := ∅;
  s_pending_prune_heights := ∅; s_latest_finalized_height := 0; s_archiver_enabled := false;
  s_txs_count := 0; s_chain_bytes := 0 |}.

(** [now] is the reading of the clock, in milliseconds. *)
Definition mark_el_degraded (now : Z) (error : string) (s : State E) : State E :=
  let s := if s_el_degraded s then s else set_el_degraded_since (Some now) s in
  set_last_fcu_success None
    (set_last_fcu_head None (set_el_last_error (Some error) (set_el_degraded true s))).
Definition clear_el_degraded (s : State E) : State E :=
  set_el_last_error None (set_el_degraded_since None (set_el_degraded false s)).

(** ** Reading *)

Definition get_earliest_height : StM Height :=
  let* genesis := attempt (F := string) (with_store (get_blob_metadata 0)) in
  match genesis with
  | inr (Some _) => ret 0
  | _ =>
    let* m := with_store min_decided_value_height in
    let* s := get in
    ret (default (s_current_height s) m)
  end.

Definition load_archive_notices (height : Height) : StM (list ArchiveNotice) :=
  let* rs := with_store (store_archive_records height) in
  ret (ArchiveRecord_into_notice <$> rs).

Definition serve_pruned {A} (height : Height) (m : BlobMetadata)
    : M (State E) BlobEngineError A :=
  fail (BlobsPruned height (Z.of_nat (length (archive_locators m))) (archive_locators m)).

Definition get_blobs_with_status_check (height : Height)
    : M (State E) BlobEngineError (list BlobSidecar) :=
  let* r := attempt (with_store (get_blob_metadata height)) in
  match r with
  | inr (Some m) =>
    if bm_pruned m then serve_pruned height m
    else zoom s_blob_engine set_blob_engine (be_get_for_import height)
  | _ => zoom s_blob_engine set_blob_engine (be_get_for_import height)
  end.

Definition get_undecided_blobs_with_status_check (height : Height) (round : Round)
    : M (State E) BlobEngineError (list BlobSidecar) :=
  let* r := attempt (with_store (get_blob_metadata height)) in
  match r with
  | inr (Some m) =>
    if bm_pruned m && (0 <? bm_blob_count m) then serve_pruned height m
    else zoom s_blob_engine set_blob_engine (be_get_undecided_blobs height (Round_as_i64 round))
  | _ => zoom s_blob_engine set_blob_engine (be_get_undecided_blobs height (Round_as_i64 round))
  end.

Definition proposer_address_for_height (height : Height) (hint : option Z)
    : StM (option Address) :=
  let* s := get in
  match hint ≫= get_by_index (s_genesis_validators s) with
  | Some v => ret (Some (val_address v))
  | None =>
    let* m := with_store (get_consensus_block_metadata height) in
    ret (cm_proposer <$> m)
  end.

(** The parent root is always derived from the decided store. *)
Definition resolve_parent_root_for_height (height : Height) : StM B256 :=
  if height =? 0 then ret B256_ZERO
  else
    let* m := with_store (get_blob_metadata (sub64 height 1)) in
    match m with
    | Some m => ret (hash_tree_root (to_beacon_header m))
    | None => fail "Missing decided BlobMetadata for parent height"%string
    end.

(** ** Archival and pruning *)

(** The highest height known to be decided, from either signal. *)
Definition effective_finalized (s : State E) : Height :=
  Z.max (default 0 (Height_decrement (s_current_height s))) (s_latest_finalized_height s).

Definition is_height_finalized (s : State E) (height : Height) : bool :=
  height <=? effective_finalized s.

Definition prune_archived_height (height : Height) (m : BlobMetadata) : StM unit :=
  if bm_pruned m || (bm_blob_count m =? 0) then ret tt
  else
    let indices := Z.of_nat <$> seq 0 (Z.to_nat (bm_blob_count m)) in
    with_engine (be_mark_archived height indices) ;;;
    with_store (update_blob_metadata height (mark_pruned m)) ;;;
    modify (λ s, set_pending_archive_heights (s_pending_archive_heights s ∖ {[height]}) s) ;;;
    modify (λ s, set_pending_prune_heights (s_pending_prune_heights s ∖ {[height]}) s).

Definition add_pending_prune (height : Height) : StM unit :=
  modify (λ s, set_pending_prune_heights ({[height]} ∪ s_pending_prune_heights s) s).
Definition add_pending_archive (height : Height) : StM unit :=
  modify (λ s, set_pending_archive_heights ({[height]} ∪ s_pending_archive_heights s) s).

Definition rehydrate_height (height : Height) : StM unit :=
  let* om := with_store (get_blob_metadata height) in
  match om with
  | None => ret tt
  | Some m =>
    if (bm_blob_count m =? 0) || bm_pruned m then ret tt
    else if negb (all_archived m) then
      let* s := get in
      if s_archiver_enabled s then
        let* p := proposer_address_for_height height (bm_proposer_index_hint m) in
        if decide (p = Some (s_address s)) then add_pending_archive height else ret tt
      else ret tt
    else
      let* s := get in
      if is_height_finalized s height then prune_archived_height height m
      else add_pending_prune height
  end.

Definition rehydrate_pending_prunes : StM unit :=
  let* latest := with_store max_decided_value_height in
  match latest with
  | Some l => modify (set_latest_finalized_height l)
  | None => ret tt
  end ;;;
  modify (set_pending_prune_heights ∅) ;;;
  modify (set_pending_archive_heights ∅) ;;;
  let* heights := with_store decided_heights in
  foreach heights rehydrate_height.

Definition flush_height (height : Height) : StM unit :=
  modify (λ s, set_pending_prune_heights (s_pending_prune_heights s ∖ {[height]}) s) ;;;
  let* om := with_store (get_blob_metadata height) in
  match om with
  | None => ret tt
  | Some m =>
    if bm_blob_count m =? 0 then ret tt
    else if all_archived m then prune_archived_height height m
    else add_pending_prune height
  end.

Definition flush_pending_prunes : StM unit :=
  let* s := get in
  if decide (s_pending_prune_heights s = ∅) then ret tt
  else
    let ready := filter (λ h, h ≤ effective_finalized s) (ascending (s_pending_prune_heights s)) in
    foreach ready flush_height.

(** The checks of a notice against the metadata of its height, in the order of
    the code; on success the metadata, with a learned hash. *)
Definition check_notice_blob (m : BlobMetadata) (n : ArchiveNotice) : outcome string BlobMetadata :=
  let idx := Z.to_nat (an_blob_index (nt_body n)) in
  match bm_blob_kzg_commitments m !! idx with
  | None => Panic
  | Some c =>
    if negb (bool_decide (c = an_kzg_commitment (nt_body n)))
    then Err "ArchiveNotice commitment mismatch"%string
    else match bm_blob_keccak_hashes m !! idx with
         | None => Panic
         | Some stored =>
           if decide (stored = B256_ZERO)
           then Ok (update_keccak_hash m idx (an_blob_keccak (nt_body n))).1
           else if decide (stored = an_blob_keccak (nt_body n)) then Ok m
           else Err "ArchiveNotice blob hash mismatch"%string
         end
  end.

Definition same_receipt (a b : ArchiveNoticeBody) : bool :=
  bool_decide (an_provider_id a = an_provider_id b) && bool_decide (an_locator a = an_locator b)
  && bool_decide (an_blob_keccak a = an_blob_keccak b).

(** Persist the record, then prune the height if it was the last one missing. *)
Definition record_archive (m : BlobMetadata) (n : ArchiveNotice) : StM unit :=
  let height := an_height (nt_body n) in
  let record := ArchiveRecord_from_notice n in
  with_store (insert_archive_record height (an_blob_index (nt_body n)) record) ;;;
  let* m := lift (set_archive_record m record) in
  with_store (update_blob_metadata height m) ;;;
  if all_archived m && (0 <? bm_blob_count m) then
    modify (λ s, set_pending_archive_heights (s_pending_archive_heights s ∖ {[height]}) s) ;;;
    let* s := get in
    if is_height_finalized s height then prune_archived_height height m
    else add_pending_prune height
  else ret tt.

Definition handle_archive_notice (n : ArchiveNotice) : StM unit :=
  let height := an_height (nt_body n) in
  let* s := get in
  match find_first (λ v, bool_decide (val_address v = an_archived_by (nt_body n)))
          (vs_validators (s_genesis_validators s)) with
  | None => fail "ArchiveNotice from unknown validator"%string
  | Some v =>
    if negb (ArchiveNotice_verify n (val_public_key v))
    then fail "Invalid ArchiveNotice signature"%string
    else
      let* om := with_store (get_blob_metadata height) in
      let* m := lift (ok_or om "Missing BlobMetadata for ArchiveNotice"%string) in
      if bm_blob_count m <=? an_blob_index (nt_body n)
      then fail "ArchiveNotice blob_index exceeds blob_count"%string
      else
        let* expected := proposer_address_for_height height (bm_proposer_index_hint m) in
        if match expected with
           | Some p => negb (bool_decide (an_archived_by (nt_body n) = p))
           | None => false
           end
        then fail "ArchiveNotice archived_by does not match proposer"%string
        else
          let* m := lift (check_notice_blob m n) in
          match archival_status m (Z.to_nat (an_blob_index (nt_body n))) with
          | Archived existing =>
            if same_receipt (ar_body existing) (nt_body n) then ret tt
            else fail "Conflicting ArchiveNotice"%string
          | Pending => record_archive m n
          end
  end.

(** The job for the archiver: the decided blobs without an archive record. *)
Definition build_archive_job (height : Height) (round : Round) : StM (option ArchiveJob) :=
  let* om := with_store (get_blob_metadata height) in
  match om with
  | None => ret None
  | Some m =>
    if bm_blob_count m =? 0 then ret None
    else
      let* archived := with_store (archived_blob_indexes height) in
      let* blobs := with_engine (be_get_for_import height) in
      let todo := filter (λ s, sc_index s ∉ archived) blobs in
      match todo with
      | [] => ret None
      | _ => ret (Some (mkJob height round (sc_index <$> todo) (sc_kzg_commitment <$> todo)
                          (blob_keccak <$> todo) (versioned_hashes_from_sidecars todo)))
      end
  end.

Definition recover_height_job (jobs : list ArchiveJob) (height : Height) : StM (list ArchiveJob) :=
  let* om := with_store (get_blob_metadata height) in
  match om with
  | None => ret jobs
  | Some m =>
    if (bm_blob_count m =? 0) || bm_pruned m || all_archived m then ret jobs
    else
      let* cm := with_store (get_consensus_block_metadata height) in
      let* round := match cm with
                    | Some cm => ret (Some (cm_round cm))
                    | None =>
                      let* dv := with_store (get_decided_value height) in
                      ret ((λ dv, cc_round (dv_certificate dv)) <$> dv)
                    end in
      match round with
      | None => ret jobs
      | Some round =>
        let* s := get in
        let is_local :=
          match bm_proposer_index_hint m ≫= get_by_index (s_genesis_validators s) with
          | Some v => bool_decide (val_address v = s_address s)
          | None => false
          end in
        if negb is_local then ret jobs
        else
          let* job := build_archive_job height round in
          ret (jobs ++ option_list job)
      end
  end.

Definition recover_pending_archive_jobs : StM (list ArchiveJob) :=
  let* heights := with_store decided_heights in
  foldM recover_height_job [] heights.

(** ** Start-up and round clean-up *)

Definition hydrate_blob_parent_root : StM unit :=
  let* latest := with_store get_latest_blob_metadata in
  match latest with
  | Some (height, m) =>
    modify (set_last_blob_sidecar_root (hash_tree_root (to_beacon_header m))) ;;;
    modify (set_last_blob_sidecar_height height)
  | None =>
    let* g := lift BlobMetadata_genesis in
    with_store seed_genesis_blob_metadata ;;;
    modify (set_last_blob_sidecar_root (hash_tree_root (to_beacon_header g))) ;;;
    modify (set_last_blob_sidecar_height 0)
  end.

Definition cleanup_stale_blob_metadata : StM unit :=
  let* s := get in
  let* stale := with_store (get_all_undecided_blob_metadata_before (s_current_height s)) in
  foreach stale (λ k,
    attempt (F := string) (with_store (delete_blob_metadata_undecided k.1 k.2)) ;;; ret tt).

(** One stale round; [1] when its blobs were dropped. *)
Definition cleanup_round (height : Height) (cleaned : Z) (round_i64 : Z) : StM Z :=
  match try_u32 round_i64 with
  | None => ret cleaned
  | Some r =>
    attempt (F := string) (with_store (delete_blob_metadata_undecided height (RSome r))) ;;;
    attempt (F := string) (with_store (delete_undecided_proposal height (RSome r))) ;;;
    attempt (F := string) (with_store (delete_undecided_block_data height (RSome r))) ;;;
    let* d := attempt (with_engine (be_drop_round height round_i64)) in
    ret (match d with inr _ => cleaned + 1 | inl _ => cleaned end)
  end.

Definition cleanup_stale_round_blobs (height : Height) (current_round : Round) : StM Z :=
  let cutoff := saturating_sub_i64 (Round_as_i64 current_round) STALE_ROUND_BLOB_RETENTION in
  if cutoff <=? 0 then ret 0
  else
    let* s := get in
    match s_blob_rounds s !! height with
    | None => ret 0
    | Some rounds =>
      let stale := filter (λ r, r < cutoff) (elements rounds) in
      match stale with
      | [] => ret 0
      | _ =>
        let* cleaned := foldM (cleanup_round height) 0 stale in
        modify (λ s, set_blob_rounds
          (alter (λ rounds : gset Z, filter (λ r, cutoff ≤ r) rounds) height (s_blob_rounds s)) s) ;;;
        ret cleaned
      end
    end.
End state.
