(* ===== verification/Archival.v ===== *)
(** * What archival and pruning guarantee

    The handlers of [State.v] that delete blob bytes or record receipts, proved
    against the interface of the blob engine: a decided blob goes only when its
    height is final and every blob of the height is archived; a receipt is
    recorded only when a validator signed it for a blob the node knows. *)
From S2P Require Import Prelude Types Merkle Streaming Metadata BlobStore BlobEngine Store Proto State.
Open Scope monad_scope.

(** ** Reading the store *)

(** Two stores that differ only in the failures to come. *)
Definition same_tables (s s' : Store) : Prop := ∃ fs, s' = with_tx_faults fs s.
#[export] Instance same_tables_preorder : PreOrder same_tables.
Proof.
  split; [intros s; exists (tx_faults s); by destruct s|].
  intros s1 s2 s3 [f1 ->] [f2 ->]. by exists f2.
Qed.

Lemma same_tables_faults s fs : same_tables s (with_tx_faults fs s).
Proof. by exists fs. Qed.
#[export] Hint Resolve same_tables_faults : steps.

Lemma read_tx_same {A} (body : Store → outcome StoreError A) : steps same_tables (read_tx body).
Proof. apply steps_read_tx; [apply _|auto with steps]. Qed.

Lemma read_tx_run {A} (body : Store → outcome StoreError A) s s' a :
  (∀ s fs, body (with_tx_faults fs s) = body s) →
  blocking (read_tx body) s = (s', Ok a) → body s = Ok a ∧ same_tables s s'.
Proof.
  intros Hb Hr. split; [|pose proof (steps_blocking _ _ (read_tx_same body) s) as Hs; by rewrite Hr in Hs].
  revert Hr. unfold blocking, read_tx, bind, next_fault.
  destruct (tx_faults s) as [|[f|] fs]; simpl; [|done|]; rewrite ?Hb;
    by destruct (body s); intros [= _ ->].
Qed.

Section archival.
Context {E : Type} {B : BlobEngine E} {V : DecidedView E} (L : BlobEngineLaws E B V).
Context {HC : Crypto} {HM : MerkleTreeLib} {NC : NodeCodecs}.

Lemma with_store_run {A} (c : M Store StoreError A) (s s' : State E) (a : A) :
  with_store c s = (s', Ok a) → ∃ st, c (s_store s) = (st, Ok a) ∧ s' = set_store st s.
Proof.
  unfold with_store, zoom, map_err. destruct (c (s_store s)) as [st [x| |]]; intros [= <- <-]. eauto.
Qed.

Lemma get_blob_metadata_reads (h : Height) (st st' : Store) (r : option BlobMetadata) :
  get_blob_metadata h st = (st', Ok r) → read_blob_metadata h st = Ok r ∧ same_tables st st'.
Proof. apply read_tx_run. done. Qed.

Lemma with_store_get_blob_metadata (h : Height) (s s' : State E) (r : option BlobMetadata) :
  with_store (get_blob_metadata h) s = (s', Ok r) →
  read_blob_metadata h (s_store s) = Ok r ∧ ∃ st, same_tables (s_store s) st ∧ s' = set_store st s.
Proof.
  unfold with_store, zoom, map_err.
  destruct (get_blob_metadata h (s_store s)) as [st [r'|e|]] eqn:Hg; simpl; try done.
  intros [= <- ->]. apply get_blob_metadata_reads in Hg as [Hr Hs]. eauto.
Qed.

(** ** Deleting decided blobs *)

(** The store shows that every blob of the height has been archived. *)
Definition archived_height (st : Store) (h : Height) : Prop :=
  ∃ m, read_blob_metadata h st = Ok (Some m) ∧ all_archived m = true ∧ 0 ≠ bm_blob_count m.

(** What a step from finality [F] may do: metadata changes only at archived
    heights, and decided blobs only at archived heights that are final. *)
Definition prune_step (F : Height) (s s' : State E) : Prop :=
  effective_finalized s = F →
  effective_finalized s' = F ∧
  (∀ h, read_blob_metadata h (s_store s') = read_blob_metadata h (s_store s) ∨
        archived_height (s_store s) h) ∧
  (∀ h i, decided_blob (s_blob_engine s') h i = decided_blob (s_blob_engine s) h i ∨
     ∃ H j, same_slot H j h i ∧ H ≤ F ∧ archived_height (s_store s) H).

Lemma archived_height_back (st st' : Store) (h : Height) :
  (∀ h, read_blob_metadata h st' = read_blob_metadata h st ∨ archived_height st h) →
  archived_height st' h → archived_height st h.
Proof.
  intros Hm (m & Hr & Ha). destruct (Hm h) as [Heq|]; [|done]. exists m. by rewrite <-Heq.
Qed.

#[export] Instance prune_step_preorder (F : Height) : PreOrder (prune_step F).
Proof.
  unfold prune_step. split; [by intros s HF; split_and!; auto|].
  intros s1 s2 s3 H12 H23 HF. destruct (H12 HF) as (HF2 & Hm2 & Hb2).
  destruct (H23 HF2) as (HF3 & Hm3 & Hb3). split_and!; [done|..].
  - intros h. destruct (Hm3 h) as [->|Ha]; [apply Hm2|right]. by eapply archived_height_back.
  - intros h i. destruct (Hb3 h i) as [->|(H & j & Hs & HFH & Ha)]; [apply Hb2|right].
    exists H, j. split_and!; [done..|]. by eapply archived_height_back.
Qed.

(** Steps that touch neither metadata, blobs nor finality. *)
Lemma prune_step_same (F : Height) (s s' : State E) :
  effective_finalized s' = effective_finalized s →
  same_tables (s_store s) (s_store s') → s_blob_engine s' = s_blob_engine s → prune_step F s s'.
Proof.
  intros HF [fs Hst] He <-. split_and!; [done|..].
  - intros h. left. by rewrite Hst.
  - intros h i. left. by rewrite He.
Qed.

Lemma steps_with_store {A} (R : State E → State E → Prop) (Q : Store → Store → Prop)
    (c : M Store StoreError A) :
  steps Q c → (∀ s st, Q (s_store s) st → R s (set_store st s)) → steps R (with_store c).
Proof. intros Hc HR. apply (steps_zoom _ Q); [by apply steps_map_err|done]. Qed.

Lemma steps_with_engine {A} (R : State E → State E → Prop) (Q : E → E → Prop)
    (c : M E BlobEngineError A) :
  steps Q c → (∀ s e, Q (s_blob_engine s) e → R s (set_blob_engine e s)) → steps R (with_engine c).
Proof. intros Hc HR. apply (steps_zoom _ Q); [by apply steps_map_err|done]. Qed.

Lemma with_store_read_prune_step {A} (F : Height) (c : M Store StoreError A) :
  steps same_tables c → steps (prune_step F) (with_store c).
Proof.
  intros Hc. apply (steps_with_store _ _ _ Hc). intros s st Hs. by apply prune_step_same.
Qed.

Lemma get_blob_metadata_same (h : Height) : steps same_tables (get_blob_metadata h).
Proof. apply steps_blocking, read_tx_same. Qed.
Lemma get_consensus_block_metadata_same (h : Height) :
  steps same_tables (get_consensus_block_metadata h).
Proof. apply steps_blocking, read_tx_same. Qed.
Lemma decided_heights_same : steps same_tables decided_heights.
Proof. apply steps_blocking, read_tx_same. Qed.
Lemma max_decided_value_height_same : steps same_tables max_decided_value_height.
Proof.
  intros s. unfold max_decided_value_height.
  pose proof (steps_blocking _ _ (read_tx_same (λ s, Ok (last (sorted_heights (decided_values s))))) s) as Hs.
  by destruct (blocking _ s) as [s' [a|e|]].
Qed.
#[local] Hint Resolve with_store_read_prune_step get_blob_metadata_same
  get_consensus_block_metadata_same decided_heights_same max_decided_value_height_same : steps.

Lemma modify_prune_step (F : Height) (f : State E → State E) :
  (∀ s, effective_finalized (f s) = effective_finalized s ∧ s_store (f s) = s_store s ∧
        s_blob_engine (f s) = s_blob_engine s) →
  steps (E := string) (prune_step F) (modify f).
Proof.
  intros Hf. apply steps_modify. intros s. destruct (Hf s) as (H1 & H2 & H3).
  apply prune_step_same; [done|by rewrite H2|done].
Qed.

Lemma proposer_address_prune_step (F : Height) (h : Height) (hint : option Z) :
  steps (prune_step F) (proposer_address_for_height h hint).
Proof. unfold proposer_address_for_height. steps_tac. Qed.
#[local] Hint Resolve proposer_address_prune_step : steps.

Lemma update_blob_metadata_others (h : Height) (m : BlobMetadata) :
  steps (λ st st', ∀ h', h' ≠ h → read_blob_metadata h' st' = read_blob_metadata h' st)
    (update_blob_metadata h m).
Proof.
  set (R := λ st st' : Store, ∀ h', h' ≠ h → read_blob_metadata h' st' = read_blob_metadata h' st).
  assert (PreOrder R).
  { split; [by intros ??|]. intros s1 s2 s3 H1 H2 h' Hne. by rewrite H2, H1. }
  store_steps; [by intros ???|]. intros st st' [] [= <-] h' Hne.
  unfold read_blob_metadata. simpl. by rewrite lookup_insert_ne.
Qed.

(** Steps that touch only the metadata and the blobs of one height. *)
Definition only_height (h : Height) (s s' : State E) : Prop :=
  effective_finalized s' = effective_finalized s ∧
  (∀ h', h' ≠ h → read_blob_metadata h' (s_store s') = read_blob_metadata h' (s_store s)) ∧
  (∀ h' i, decided_blob (s_blob_engine s') h' i = decided_blob (s_blob_engine s) h' i ∨
     ∃ j, same_slot h j h' i).
#[export] Instance only_height_preorder (h : Height) : PreOrder (only_height h).
Proof.
  split; [intros s; split_and!; auto|].
  intros s1 s2 s3 (F1 & M1 & B1) (F2 & M2 & B2). split_and!; [congruence|..].
  - intros h' Hne. by rewrite M2, M1.
  - intros h' i. destruct (B2 h' i) as [->|]; auto.
Qed.

Lemma prune_archived_height_only (h : Height) (m : BlobMetadata) :
  steps (only_height h) (prune_archived_height h m).
Proof using L.
  unfold prune_archived_height. destruct (_ || _); [apply steps_ret, _|].
  repeat (apply steps_bind; [apply _| |intros _]).
  - apply (steps_with_engine _ _ _ (law_mark_archived h _)). intros s e Hb. split_and!; [done..|].
    intros h' i. destruct (Hb h' i) as [|(j & _ & Hj)]; eauto.
  - apply (steps_with_store _ _ _ (update_blob_metadata_others h _)). intros s st Hm. split_and!; auto.
  - apply steps_modify. intros s. split_and!; auto.
  - apply steps_modify. intros s. split_and!; auto.
Qed.

(** Pruning a final height whose stored metadata is fully archived. *)
Lemma prune_archived_height_step (F h : Height) (m : BlobMetadata) (s : State E) :
  h ≤ F → archived_height (s_store s) h → prune_step F s (prune_archived_height h m s).1.
Proof using L.
  intros HF Ha <-. destruct (prune_archived_height_only h m s) as (HF' & Hm & Hb).
  split_and!; [done|..].
  - intros h'. destruct (decide (h' = h)) as [->|]; [by right|left; auto].
  - intros h' i. destruct (Hb h' i) as [|[j Hj]]; [by left|right]. exists h, j. auto.
Qed.

Lemma archived_height_same (st st' : Store) (h : Height) :
  same_tables st st' → archived_height st h → archived_height st' h.
Proof. intros [fs ->] (m & Hr & Hx). by exists m. Qed.

Lemma flush_height_step (F h : Height) : h ≤ F → steps (prune_step F) (flush_height h).
Proof using L.
  intros HF. unfold flush_height.
  apply steps_bind; [apply _|by apply modify_prune_step|intros _].
  apply steps_bind_run; [apply _|auto with steps|]. intros s s' om Hg.
  apply with_store_get_blob_metadata in Hg as (Hr & st & Hst & ->).
  destruct om as [m|]; [|apply steps_ret, _].
  destruct (bm_blob_count m =? 0) eqn:Hc; [apply steps_ret, _|].
  destruct (all_archived m) eqn:Ha; [|by apply (modify_prune_step F)].
  apply prune_archived_height_step; [done|]. apply (archived_height_same _ _ _ Hst).
  exists m. split_and!; [done..|lia].
Qed.

Lemma rehydrate_height_step (F h : Height) : steps (prune_step F) (rehydrate_height h).
Proof using L.
  unfold rehydrate_height.
  apply steps_bind_run; [apply _|auto with steps|]. intros s s' om Hg.
  apply with_store_get_blob_metadata in Hg as (Hr & st & Hst & ->).
  destruct om as [m|]; [|apply steps_ret, _].
  destruct ((bm_blob_count m =? 0) || bm_pruned m) eqn:Hc; [apply steps_ret, _|].
  assert (∀ h, steps (prune_step F) (add_pending_archive h)) by (intros; by apply modify_prune_step).
  assert (∀ h, steps (prune_step F) (add_pending_prune h)) as Hadd by (intros; by apply modify_prune_step).
  destruct (all_archived m) eqn:Ha; cbn [negb].
  - unfold bind, get. destruct (is_height_finalized (set_store st s) h) eqn:Hf; [|by apply Hadd].
    intros HF. refine (prune_archived_height_step F h m _ _ _ HF).
    + unfold is_height_finalized in Hf. lia.
    + apply (archived_height_same _ _ _ Hst). exists m. split_and!; [done..|lia].
  - match goal with |- prune_step F ?s0 (?c ?s0).1 => enough (steps (prune_step F) c) as Hc' by apply Hc' end.
    steps_tac.
Qed.

(** The scan at start-up is a loop over heights, from a state with the same
    tables and blobs. *)
Lemma rehydrate_run (s : State E) :
  ∃ s1 hs, same_tables (s_store s) (s_store s1) ∧ s_blob_engine s1 = s_blob_engine s ∧
    (rehydrate_pending_prunes s).1 = (foreach hs rehydrate_height s1).1.
Proof.
  unfold rehydrate_pending_prunes, bind, with_store, zoom, map_err.
  pose proof (max_decided_value_height_same (s_store s)) as H1.
  destruct (max_decided_value_height (s_store s)) as [st1 [o|e|]]; simpl in H1 |- *.
  2,3: by exists (set_store st1 s), [].
  set (s1 := set_pending_archive_heights ∅ (set_pending_prune_heights ∅
               (match o with Some l => set_latest_finalized_height l (set_store st1 s)
                           | None => set_store st1 s end))).
  assert (s_store s1 = st1 ∧ s_blob_engine s1 = s_blob_engine s) as [Hs1 He1] by (by destruct o).
  pose proof (decided_heights_same st1) as H2. destruct (decided_heights st1) as [st2 r] eqn:Hd.
  exists (set_store st2 s1), (match r with Ok hs => hs | _ => [] end).
  split_and!; [by etrans|done|].
  transitivity ((let* hs := with_store decided_heights in foreach hs rehydrate_height) s1).1.
  { by destruct o. }
  unfold bind, with_store, zoom, map_err. rewrite Hs1, Hd. by destruct r.
Qed.

(** C5: neither the flush of pending prunes nor the scan at start-up deletes a
    decided blob unless the store shows, before the operation, that every blob
    of its height is archived, and the height is final; this holds in failing
    runs too. *)
Theorem prune_only_archived_and_final (s : State E) (h : Height) (i : Z) :
  is_u64 h → (∀ H, is_Some (blob_metadata_decided (s_store s) !! H) → is_u64 H) →
  (let s' := (flush_pending_prunes s).1 in
   decided_blob (s_blob_engine s') h i = decided_blob (s_blob_engine s) h i ∨
   is_height_finalized s' h = true ∧ archived_height (s_store s) h) ∧
  (let s' := (rehydrate_pending_prunes s).1 in
   decided_blob (s_blob_engine s') h i = decided_blob (s_blob_engine s) h i ∨
   is_height_finalized s' h = true ∧ archived_height (s_store s) h).
Proof using L.
  intros Hh Hk.
  assert (∀ s1 s', same_tables (s_store s) (s_store s1) →
    s_blob_engine s1 = s_blob_engine s → prune_step (effective_finalized s1) s1 s' →
    decided_blob (s_blob_engine s') h i = decided_blob (s_blob_engine s) h i ∨
    is_height_finalized s' h = true ∧ archived_height (s_store s) h) as Hfin.
  { intros s1 s' Hst He Hp. destruct (Hp eq_refl) as (HF & _ & Hb). rewrite <-He.
    destruct (Hb h i) as [|(H & j & [Hs _] & HF' & Ha)]; [by left|right].
    assert (archived_height (s_store s) H) as Ha'.
    { destruct Hst as [fs Hfs]. rewrite Hfs in Ha. exact Ha. }
    assert (H = h) as ->.
    { assert (is_u64 H) as HH.
      { apply Hk. destruct Ha' as (m & Hr & _). unfold read_blob_metadata in Hr.
        destruct (blob_metadata_decided (s_store s) !! H); [eauto|done]. }
      unfold is_u64 in *. by rewrite !Z.mod_small in Hs by lia. }
    split; [|done]. unfold is_height_finalized. lia. }
  split.
  - apply (Hfin s); [done..|]. set (F := effective_finalized s).
    unfold flush_pending_prunes, bind, get. case_decide; [by apply prune_step_same|].
    apply (steps_foreach (prune_step F)).
    intros h' [Hle _]%list_elem_of_filter. by apply flush_height_step.
  - destruct (rehydrate_run s) as (s1 & hs & Hst & He & Hrun). cbv zeta. rewrite Hrun.
    apply (Hfin s1); [done..|]. apply (steps_foreach (prune_step _)).
    intros; apply rehydrate_height_step.
Qed.

(** ** Receipts *)

(** The proposer of a height as the node can tell it: the validator the metadata
    points at, or else the one the consensus record of the height names. *)
Definition known_proposer (s : State E) (h : Height) (m : BlobMetadata) : option Address :=
  match bm_proposer_index_hint m ≫= get_by_index (s_genesis_validators s) with
  | Some v => Some (val_address v)
  | None =>
    match decode_opt (A := ConsensusBlockMetadata) (consensus_block_metadata (s_store s) !! h) with
    | Ok (Some c) => Some (cm_proposer c)
    | _ => None
    end
  end.

(** A notice the node accepts: signed by the validator it names, for a blob of
    a height whose metadata is stored, with its commitment, its hash unless the
    node has only the placeholder for it, and by the proposer when that is
    known. *)
Record notice_valid (s : State E) (n : ArchiveNotice) (m : BlobMetadata) : Prop := {
  nv_signed : ∃ v, v ∈ vs_validators (s_genesis_validators s) ∧
    val_address v = an_archived_by (nt_body n) ∧ ArchiveNotice_verify n (val_public_key v) = true;
  nv_stored : read_blob_metadata (an_height (nt_body n)) (s_store s) = Ok (Some m);
  nv_index : an_blob_index (nt_body n) < bm_blob_count m;
  nv_commitment : bm_blob_kzg_commitments m !! Z.to_nat (an_blob_index (nt_body n)) =
    Some (an_kzg_commitment (nt_body n));
  nv_hash : ∃ k, bm_blob_keccak_hashes m !! Z.to_nat (an_blob_index (nt_body n)) = Some k ∧
    (k = B256_ZERO ∨ k = an_blob_keccak (nt_body n));
  nv_proposer : ∀ p, known_proposer s (an_height (nt_body n)) m = Some p → p = an_archived_by (nt_body n) }.

Lemma check_notice_blob_Ok (m m' : BlobMetadata) (n : ArchiveNotice) :
  check_notice_blob m n = Ok m' →
  bm_blob_kzg_commitments m !! Z.to_nat (an_blob_index (nt_body n)) =
    Some (an_kzg_commitment (nt_body n)) ∧
  (∃ k, bm_blob_keccak_hashes m !! Z.to_nat (an_blob_index (nt_body n)) = Some k ∧
    (k = B256_ZERO ∨ k = an_blob_keccak (nt_body n))) ∧
  bm_archival_records m' = bm_archival_records m ∧ bm_blob_count m' = bm_blob_count m.
Proof.
  unfold check_notice_blob. destruct (bm_blob_kzg_commitments m !! _) as [c|] eqn:Hc; [|done].
  case_bool_decide as Hcc; simpl; [|done]. rewrite Hcc.
  destruct (bm_blob_keccak_hashes m !! _) as [k|] eqn:Hk; [|done].
  case_decide as Hz.
  { intros [= <-]. unfold update_keccak_hash. destruct (_ && _); split_and!; eauto. }
  case_decide as Heq; [|done]. intros [= <-]. split_and!; eauto.
Qed.

(** A state that differs only in the failures to come. *)
Definition same_state (s s' : State E) : Prop := ∃ st, same_tables (s_store s) st ∧ s' = set_store st s.
#[export] Instance same_state_preorder : PreOrder same_state.
Proof.
  split; [intros s; exists (s_store s); split; [done|by destruct s]|].
  intros s1 s2 s3 (st1 & H1 & ->) (st2 & H2 & ->). exists st2. split; [by etrans|done].
Qed.

Lemma with_store_read_same {A} (c : M Store StoreError A) :
  steps same_tables c → steps same_state (with_store c).
Proof. intros Hc. apply (steps_with_store _ _ _ Hc). intros s st Hs. by exists st. Qed.
#[local] Hint Resolve with_store_read_same : steps.

Lemma proposer_address_same (h : Height) (hint : option Z) :
  steps same_state (proposer_address_for_height h hint).
Proof. unfold proposer_address_for_height. steps_tac. Qed.

(** What [proposer_address_for_height] finds is the known proposer. *)
Lemma proposer_address_known (h : Height) (m : BlobMetadata) (s s' : State E) (p : option Address) :
  proposer_address_for_height h (bm_proposer_index_hint m) s = (s', Ok p) → p = known_proposer s h m.
Proof.
  unfold proposer_address_for_height, known_proposer. unfold bind at 1, get.
  destruct (bm_proposer_index_hint m ≫= _) as [v|]; [by intros [= _ <-]|].
  intros (c & s1 & Hc & Hr)%bind_run_Ok. injection Hr as _ <-.
  apply with_store_run in Hc as (st & Hc & _). apply read_tx_run in Hc as [Hc _]; [|done]. rewrite Hc. by destruct c.
Qed.

Lemma same_state_notice (s s' : State E) (n : ArchiveNotice) (m : BlobMetadata) :
  same_state s s' → notice_valid s' n m → notice_valid s n m.
Proof. intros (st & [fs ->] & ->) []. by split. Qed.

(** Every run of the handler either stops before any effect or reaches
    [record_archive] or an existing receipt with a valid notice. *)
Lemma handle_archive_notice_run (n : ArchiveNotice) (s s' : State E) (r : outcome string unit) :
  handle_archive_notice n s = (s', r) →
  (same_state s s' ∧ is_ok r = false) ∨
  ∃ m m1 s1, notice_valid s n m ∧ same_state s s1 ∧ check_notice_blob m n = Ok m1 ∧
    match archival_status m1 (Z.to_nat (an_blob_index (nt_body n))) with
    | Pending => record_archive m1 n s1 = (s', r)
    | Archived a => s' = s1 ∧ r = if same_receipt (ar_body a) (nt_body n) then Ok tt
                                  else Err "Conflicting ArchiveNotice"%string
    end.
Proof.
  unfold handle_archive_notice. unfold bind at 1, get. cbv beta iota.
  destruct (find_first _ _) as [v|] eqn:Hv; [|by intros [= <- <-]; left].
  apply find_first_Some in Hv as [Hin Hv%bool_decide_eq_true_1].
  destruct (ArchiveNotice_verify n (val_public_key v)) eqn:Hsig; cbn [negb]; [|by intros [= <- <-]; left].
  intros [(om & s1 & Hg & Hrun)|(r0 & Hg & _ & Hr)]%bind_run.
  2: { left. split; [|done]. pose proof (with_store_read_same _ (get_blob_metadata_same (an_height (nt_body n))) s) as Hs.
       by rewrite Hg in Hs. }
  apply with_store_get_blob_metadata in Hg as (Hread & st & Hst & ->).
  assert (same_state s (set_store st s)) as Hs1 by (by exists st).
  destruct om as [m|]; [|by injection Hrun as <- <-; left].
  unfold bind at 1, lift at 1, ok_or in Hrun.
  destruct (_ <=? _) eqn:Hidx in Hrun; [by injection Hrun as <- <-; left|].
  apply bind_run in Hrun as [(p & s2 & Hp & Hrun)|(r0 & Hp & _ & Hr)].
  2: { left. split; [|done]. pose proof (proposer_address_same (an_height (nt_body n)) (bm_proposer_index_hint m) (set_store st s)) as Hs.
       rewrite Hp in Hs. by etrans. }
  pose proof (proposer_address_same (an_height (nt_body n)) (bm_proposer_index_hint m) (set_store st s)) as Hs2.
  rewrite Hp in Hs2. simpl in Hs2. assert (same_state s s2) as Hs by (by etrans).
  destruct (match p with Some _ => _ | None => _ end) eqn:Hprop in Hrun; [by injection Hrun as <- <-; left|].
  unfold bind at 1, lift in Hrun.
  destruct (check_notice_blob m n) as [m1|e|] eqn:Hck; [|by injection Hrun as <- <-; left..].
  right. exists m, m1, s2. apply check_notice_blob_Ok in Hck as Hck'. destruct Hck' as (Hc & Hk & _).
  split_and!; [|done..|].
  - split; [eauto|done|lia|done..|]. intros q Hq. apply proposer_address_known in Hp.
    destruct Hst as [fs ->]. change (known_proposer (set_store (with_tx_faults fs (s_store s)) s) _ m)
      with (known_proposer s (an_height (nt_body n)) m) in Hp. rewrite Hp, Hq in Hprop.
    by apply negb_false_iff, bool_decide_eq_true_1 in Hprop.
  - destruct (archival_status m1 _) as [|a]; [done|]. destruct (same_receipt _ _); by injection Hrun as <- <-.
Qed.

(** Steps that leave the blobs and the view of finality alone. *)
Definition keeps_blobs (s s' : State E) : Prop :=
  s_blob_engine s' = s_blob_engine s ∧ effective_finalized s' = effective_finalized s ∧
  s_genesis_validators s' = s_genesis_validators s.
#[export] Instance keeps_blobs_preorder : PreOrder keeps_blobs.
Proof. split; [by intros s; split_and!|]. intros ??? (?&?&?) (?&?&?). split_and!; congruence. Qed.

Lemma with_store_keeps_blobs {A} (c : M Store StoreError A) : steps keeps_blobs (with_store c).
Proof. apply (steps_with_store _ (λ _ _, True)); [by intros ?|]. done. Qed.

Lemma all_archived_spec (m : BlobMetadata) :
  all_archived m = true ↔
  ∀ k, (k < Z.to_nat (bm_blob_count m))%nat → is_archived (archival_status m k) = true.
Proof.
  unfold all_archived. rewrite forallb_forall. setoid_rewrite in_seq. split; intros Ha k Hk; apply Ha; lia.
Qed.

Lemma record_archive_blobs (m : BlobMetadata) (n : ArchiveNotice) (s : State E) (h : Height) (i : Z) :
  let s' := (record_archive m n s).1 in
  decided_blob (s_blob_engine s') h i = decided_blob (s_blob_engine s) h i ∨
  (∃ j, same_slot (an_height (nt_body n)) j h i) ∧
  is_height_finalized s (an_height (nt_body n)) = true ∧
  ∃ m2, set_archive_record (E := string) m (ArchiveRecord_from_notice n) = Ok m2 ∧
    all_archived m2 = true.
Proof using L.
  intros s'. destruct (record_archive m n s) as [s0 r] eqn:Hrun. subst s'. simpl.
  unfold record_archive in Hrun.
  apply bind_run in Hrun as [([] & s1 & H1 & Hrun)|(r0 & H1 & _)]; 
    apply (run_steps _ _ _ _ _ (with_store_keeps_blobs _)) in H1; [|by left; rewrite (proj1 H1)].
  unfold bind at 1, lift in Hrun.
  destruct (set_archive_record _ _) as [m2| |] eqn:Hset in Hrun;
    [|by injection Hrun as <- <-; left; rewrite (proj1 H1)..].
  apply bind_run in Hrun as [([] & s2 & H2 & Hrun)|(r0 & H2 & _)];
    apply (run_steps _ _ _ _ _ (with_store_keeps_blobs _)) in H2;
    [|by left; rewrite (proj1 H2), (proj1 H1)].
  assert (keeps_blobs s s2) as (He & HF & _) by (by etrans). clear H1 H2.
  destruct (all_archived m2 && _) eqn:Ha; [|by injection Hrun as <- <-; left; rewrite He].
  unfold bind, modify, get in Hrun. apply andb_true_iff in Ha as [Ha _].
  set (s3 := set_pending_archive_heights _ s2) in Hrun.
  destruct (is_height_finalized s3 (an_height (nt_body n))) eqn:Hf;
    [|by injection Hrun as <- <-; left; rewrite <-He].
  pose proof (run_steps _ _ _ _ _ (prune_archived_height_only (an_height (nt_body n)) m2) Hrun)
    as (_ & _ & Hb).
  destruct (Hb h i) as [Heq|Hj]; [left; by rewrite Heq, <-He|right].
  split_and!; [done| |by exists m2]. unfold is_height_finalized in *. by rewrite <-HF.
Qed.

(** C20: a receipt has an effect only if it is authentic: unless the notice is
    signed by the validator it names, is for a blob of a height with stored
    metadata, matches the blob's commitment and, unless the node has only the
    placeholder, its hash, and comes from the proposer when the metadata or the
    consensus record of the height tells who that is, handling it fails and
    changes no table, blob or pending height.  An authentic one deletes blobs only
    at its own height, and only if that height is final and every other blob was archived. *)
Theorem archive_notice_authentic (n : ArchiveNotice) (s : State E) :
  let s' := (handle_archive_notice n s).1 in
  (same_state s s' ∧ is_ok (handle_archive_notice n s).2 = false) ∨
  ∃ m, notice_valid s n m ∧
    ∀ h i, decided_blob (s_blob_engine s') h i = decided_blob (s_blob_engine s) h i ∨
      (∃ j, same_slot (an_height (nt_body n)) j h i) ∧
      is_height_finalized s (an_height (nt_body n)) = true ∧
      ∀ k, (k < Z.to_nat (bm_blob_count m))%nat → k ≠ Z.to_nat (an_blob_index (nt_body n)) →
        is_archived (archival_status m k) = true.
Proof using L.
  cbv zeta. destruct (handle_archive_notice n s) as [s' r] eqn:Hrun. simpl.
  apply handle_archive_notice_run in Hrun as [|(m & m1 & s1 & Hv & (st & Hst & ->) & Hck & Hrun)];
    [by left|right].
  exists m. split; [done|]. intros h i.
  apply check_notice_blob_Ok in Hck as (_ & _ & Hrec & Hcnt).
  destruct (archival_status m1 _); [|by destruct Hrun as [-> _]; left].
  pose proof (record_archive_blobs m1 n (set_store st s) h i) as Hb. rewrite Hrun in Hb.
  destruct Hb as [Heq|(Hj & Hf & m2 & Hset & Ha)]; [by left|right].
  split_and!; [done..|]. intros k Hk Hne.
  rewrite all_archived_spec in Ha. specialize (Ha k).
  rewrite (archival_status_set _ _ _ _ Hset), decide_False in Ha by (by destruct n).
  unfold archival_status in *. rewrite <-Hrec. apply Ha.
  unfold set_archive_record in Hset. destruct (_ <? _)%nat in Hset; [|done]. injection Hset as <-. simpl. by rewrite Hcnt.
Qed.

(** ** Serving a pruned height *)

Lemma archive_locators_lookup (m : BlobMetadata) :
  all_archived m = true → is_u16 (bm_blob_count m) →
  Z.of_nat (length (archive_locators m)) = bm_blob_count m ∧
  ∀ i, (i < Z.to_nat (bm_blob_count m))%nat →
    ∃ r, archival_status m i = Archived r ∧ archive_locators m !! i = Some (an_locator (ar_body r)).
Proof.
  intros Ha Hu. rewrite all_archived_spec in Ha. unfold archive_locators.
  set (f := λ i, match archival_status m i with
                 | Archived r => Some (an_locator (ar_body r)) | Pending => None end).
  set (g := λ i, default EmptyString (f i)). set (n := Z.to_nat (bm_blob_count m)) in *.
  assert (∀ l : list nat, (∀ i, i ∈ l → (i < n)%nat) → omap f l = g <$> l) as Hom.
  { induction l as [|x l IH]; intros Hl; [done|]. simpl.
    specialize (Ha x (Hl x ltac:(left))). unfold g, f in *.
    destruct (archival_status m x); [done|]. simpl. f_equal. apply IH. intros i Hi. apply Hl. by right. }
  rewrite Hom by (intros i [_ Hi]%elem_of_seq; lia). rewrite length_fmap, length_seq.
  unfold is_u16 in Hu. split; [lia|]. intros i Hi. specialize (Ha i Hi).
  destruct (archival_status m i) as [|r] eqn:Hst; [done|]. exists r. split; [done|].
  rewrite list_lookup_fmap, lookup_seq_lt by done. simpl. unfold g, f. by rewrite Hst.
Qed.

(** Once a height is pruned, a request for its blobs is answered with the
    number of blobs and, in index order, the locator of the archived copy of
    every one of them, and never with blobs. *)
Theorem pruned_height_gives_locators (s : State E) (h : Height) (m : BlobMetadata) :
  tx_faults (s_store s) = [] → read_blob_metadata h (s_store s) = Ok (Some m) →
  bm_pruned m = true → all_archived m = true → is_u16 (bm_blob_count m) →
  ∃ locators, (get_blobs_with_status_check h s).2 = Err (BlobsPruned h (bm_blob_count m) locators) ∧
    (bm_blob_count m ≠ 0 → ∀ r,
      (get_undecided_blobs_with_status_check h r s).2 =
        Err (BlobsPruned h (bm_blob_count m) locators)) ∧
    ∀ i, (i < Z.to_nat (bm_blob_count m))%nat →
      ∃ a, archival_status m i = Archived a ∧ locators !! i = Some (an_locator (ar_body a)).
Proof.
  intros Hf Hr Hp Ha Hu. destruct (archive_locators_lookup m Ha Hu) as [Hlen Hloc].
  exists (archive_locators m).
  assert (attempt (F := BlobEngineError) (with_store (get_blob_metadata h)) s =
            (set_store (s_store s) s, Ok (inr (Some m)))) as Hg.
  { unfold attempt, with_store, zoom, map_err, get_blob_metadata, blocking.
    rewrite read_tx_ok by done. by rewrite Hr. }
  split_and!; [..|done].
  - unfold get_blobs_with_status_check, bind. rewrite Hg, Hp. unfold serve_pruned. by rewrite Hlen.
  - intros Hne r. unfold get_undecided_blobs_with_status_check, bind. rewrite Hg, Hp.
    unfold is_u16 in Hu. rewrite (proj2 (Z.ltb_lt 0 _)) by lia. simpl. unfold serve_pruned. by rewrite Hlen.
Qed.

(** ** Cleaning up stale rounds *)

(** What a clean-up may touch: nothing decided, no undecided entry of a key
    outside [gone], no key of the table of tracked rounds. *)
Definition cleanup_step (k : Z * Z) (s s' : State E) : Prop :=
  undecided_stable k (s_store s) (s_store s') ∧ decided_kept (s_store s) (s_store s') ∧
  (∀ h i, decided_blob (s_blob_engine s') h i = decided_blob (s_blob_engine s) h i) ∧
  s_blob_rounds s' = s_blob_rounds s.
#[export] Instance cleanup_step_preorder (k : Z * Z) : PreOrder (cleanup_step k).
Proof.
  split; [by intros s; split_and!|]. intros s1 s2 s3 (A1 & B1 & C1 & D1) (A2 & B2 & C2 & D2).
  split_and!; [by etrans..| |congruence]. intros h i. by rewrite C2, C1.
Qed.

Lemma run_op_cleanup_step (k : Z * Z) (op : StoreOp) :
  -1 ≤ k.2 < 2^32 → op_removes k op = false → steps (cleanup_step k) (with_store (run_op op)).
Proof.
  intros Hz Hop. apply (steps_with_store _ (λ st st', undecided_stable k st st' ∧ decided_kept st st')).
  - intros st. split; [by apply run_op_stable|apply run_op_kept].
  - intros s st [H1 H2]. by split_and!.
Qed.

Lemma cleanup_round_step (k : Z * Z) (h : Height) (cleaned r : Z) :
  -1 ≤ k.2 < 2^32 → k ≠ (h, r) → steps (cleanup_step k) (cleanup_round h cleaned r).
Proof using L NC.
  intros Hz Hne. unfold cleanup_round. destruct (try_u32 r) as [r'|] eqn:Hr; [|apply steps_ret, _].
  assert (r' = r) as ->. { unfold try_u32 in Hr. by destruct (_ && _); simplify_eq. }
  assert (bool_decide (round_key h (RSome r) = k) = false) as Hk by (by apply bool_decide_eq_false_2).
  repeat (apply steps_bind; [apply _| |intros ?]).
  - by apply steps_attempt, (run_op_cleanup_step k (OpDeleteBlobUndecided h (RSome r))).
  - by apply steps_attempt, (run_op_cleanup_step k (OpDeleteProposal h (RSome r))).
  - by apply steps_attempt, (run_op_cleanup_step k (OpDeleteUndecidedBlock h (RSome r))).
  - apply steps_attempt, (steps_with_engine _ _ _ (law_drop_round h r)).
    intros s e He. by split_and!.
  - apply steps_ret, _.
Qed.

(** Dropping stale rounds touches nothing decided and, at the height being
    cleaned, only rounds more than [STALE_ROUND_BLOB_RETENTION] behind the
    current one: proposals, payloads and metadata of every other height and
    round stay, and those rounds stay tracked. *)
Theorem cleanup_only_stale_rounds (s : State E) (h : Height) (cur : Round) (h' : Height) (r : Round) :
  round_wf cur → round_wf r →
  h' ≠ h ∨ Round_as_i64 cur - STALE_ROUND_BLOB_RETENTION ≤ Round_as_i64 r →
  let s' := (cleanup_stale_round_blobs h cur s).1 in
  undecided_stable (round_key h' r) (s_store s) (s_store s') ∧
  decided_kept (s_store s) (s_store s') ∧
  (∀ h i, decided_blob (s_blob_engine s') h i = decided_blob (s_blob_engine s) h i) ∧
  (∀ rounds, s_blob_rounds s !! h' = Some rounds →
     ∃ rounds', s_blob_rounds s' !! h' = Some rounds' ∧ rounds' ⊆ rounds ∧
       (Round_as_i64 r ∈ rounds → Round_as_i64 r ∈ rounds')).
Proof using L NC.
  intros Hcur Hr Hkeep. apply round_key_range in Hr. apply round_key_range in Hcur.
  set (k := round_key h' r). set (c := Round_as_i64 cur - STALE_ROUND_BLOB_RETENTION) in *.
  unfold STALE_ROUND_BLOB_RETENTION in c.
  assert (saturating_sub_i64 (Round_as_i64 cur) STALE_ROUND_BLOB_RETENTION = c) as Hc.
  { unfold saturating_sub_i64, STALE_ROUND_BLOB_RETENTION, c. lia. }
  set (P := λ s' : State E,
    undecided_stable k (s_store s) (s_store s') ∧ decided_kept (s_store s) (s_store s') ∧
    (∀ h i, decided_blob (s_blob_engine s') h i = decided_blob (s_blob_engine s) h i) ∧
    (∀ rounds, s_blob_rounds s !! h' = Some rounds →
     ∃ rounds', s_blob_rounds s' !! h' = Some rounds' ∧ rounds' ⊆ rounds ∧
       (Round_as_i64 r ∈ rounds → Round_as_i64 r ∈ rounds'))).
  assert (∀ s', cleanup_step k s s' → P s') as Hsame.
  { intros s' (A1 & B1 & C1 & D1). split_and!; [done..|]. intros rounds Hro. rewrite D1. eauto. }
  change (P (cleanup_stale_round_blobs h cur s).1). unfold cleanup_stale_round_blobs. rewrite Hc.
  destruct (c <=? 0) eqn:Hcz; [by apply Hsame|]. unfold bind at 1, get. cbv iota.
  destruct (s_blob_rounds s !! h) as [rounds|] eqn:Hro; [|by apply Hsame].
  destruct (filter _ (elements rounds)) as [|x stale] eqn:Hst; [by apply Hsame|]. rewrite <-Hst.
  assert (steps (cleanup_step k) (foldM (cleanup_round h) 0 (filter (λ r, r < c) (elements rounds)))) as Hf.
  { apply steps_foldM; [apply _|]. intros b y [Hy _]%list_elem_of_filter.
    apply cleanup_round_step; [done|]. unfold k, round_key. intros Heq. injection Heq. lia. }
  specialize (Hf s). unfold bind. destruct (foldM _ _ _ s) as [s1 [cleaned|e|]]; [|by apply Hsame..].
  unfold P, modify, ret. simpl in Hf |- *. destruct Hf as (A1 & B1 & C1 & D1). split_and!; [done..|].
  rewrite D1. intros rounds' Hro'. destruct (decide (h' = h)) as [->|Hne].
  - rewrite lookup_alter_eq, Hro'. simpl. eexists. split; [done|].
    split; [by intros z [_ Hz]%elem_of_filter|].
    intros Hin. apply elem_of_filter. split; [|done]. destruct Hkeep; [done|lia].
  - rewrite lookup_alter_ne by done. eauto.
Qed.
End archival.

(** ** Concrete inputs *)
#[local] Existing Instance demo_crypto.
#[local] Existing Instance demo_merkle.

Definition demo_locator (i : Z) : string := if i =? 0 then "loc0"%string else "loc1"%string.
#[local] Instance demo_notice_prost : ProstMessage MsgArchiveNoticeBody :=
  {| encode_to_vec _ := [1]; prost_decode _ := None |}.
Definition demo_notice (i : Z) : ArchiveNotice :=
  ArchiveNotice_sign
    (mkNoticeBody 7 (RSome 0) i (replicate 48 (i + 1)) B256_ZERO "s3" (demo_locator i) (zeros 20) 99)
    (zeros 32).
Definition demo_receipt (i : Z) : ArchiveRecord := ArchiveRecord_from_notice (demo_notice i).
(** Height 7 with two blobs, both archived. *)
Definition demo_all_archived (pruned : bool) : BlobMetadata :=
  mkBlobMetadata 7 B256_ZERO [replicate 48 1; replicate 48 2] 2 [B256_ZERO; B256_ZERO]
    [Some (demo_receipt 0); Some (demo_receipt 1)] pruned (zero_header 0) (Some 0).
(** Blob 1 has no receipt yet. *)
Definition demo_half_archived : BlobMetadata :=
  mkBlobMetadata 7 B256_ZERO [replicate 48 1; replicate 48 2] 2 [B256_ZERO; B256_ZERO]
    [Some (demo_receipt 0); None] false (zero_header 0) (Some 0).

#[local] Instance demo_codecs : NodeCodecs := {|
  nc_value := demo_value_codec; nc_proposed := demo_proposed_codec;
  nc_certificate := demo_certificate_codec; nc_consensus := demo_consensus_codec;
  nc_metadata := table_codec [demo_half_archived; demo_all_archived false; demo_all_archived true];
  nc_record := table_codec [demo_receipt 0; demo_receipt 1];
  nc_payload := demo_payload_prost; nc_notice_body := demo_notice_prost |}.

Definition demo_rocksdb_engine : BlobEngine BlobEngineImpl :=
  @rocksdb_engine demo_kzg demo_sidecar_codec.
Definition demo_engine_laws : BlobEngineLaws BlobEngineImpl demo_rocksdb_engine rocksdb_view :=
  @rocksdb_engine_laws demo_kzg demo_sidecar_codec.

Definition demo_store_with (m : BlobMetadata) : Store :=
  with_blob_metadata_decided
    {[7 := match @encode BlobMetadata nc_metadata m with Ok b => b | _ => [] end]} (empty_store []).
Definition demo_validators : ValidatorSet := mkValidatorSet [mkValidator (zeros 20) (zeros 32) 1].

(** A node at height 9 with the blobs of height 7 stored. *)
Definition demo_state (m : BlobMetadata) : State BlobEngineImpl :=
  set_blob_rounds {[8 := {[0; 1; 5]}]}
    (set_pending_prune_heights {[7]}
       (State_new demo_validators (zeros 32) (zeros 20) 9 (demo_store_with m)
          (mkEngine (mkBlobDb ∅ {[to_decided_key (mkBlobKey 7 0 0) := [1]]} []) demo_metrics))).

Lemma demo_state_heights (m : BlobMetadata) (H : Z) :
  is_Some (blob_metadata_decided (s_store (demo_state m)) !! H) → is_u64 H.
Proof.
  intros [b Hb]. simpl in Hb. apply lookup_singleton_Some in Hb as [<- _]. unfold is_u64. lia.
Qed.

Lemma prune_only_archived_and_final_witness :
  let s := demo_state (demo_all_archived false) in
  decided_blob (s_blob_engine (flush_pending_prunes (B := demo_rocksdb_engine) s).1) 7 0 = None ∧
  archived_height s.(s_store) 7.
Proof.
  intros s.
  assert (decided_blob (s_blob_engine (flush_pending_prunes (B := demo_rocksdb_engine) s).1) 7 0
            = None) as Hgone by (vm_compute; reflexivity).
  split; [exact Hgone|].
  destruct (prune_only_archived_and_final demo_engine_laws s 7 0) as [Hfl _].
  - unfold is_u64. lia.
  - apply demo_state_heights.
  - destruct Hfl as [Heq|[_ Ha]]; [|exact Ha].
    exfalso. rewrite Hgone in Heq. vm_compute in Heq. discriminate.
Defined.

Lemma archive_notice_authentic_witness :
  let s := demo_state demo_half_archived in
  (handle_archive_notice (B := demo_rocksdb_engine) (demo_notice 1) s).2 = Ok tt ∧
  ∃ m, notice_valid s (demo_notice 1) m.
Proof.
  intros s.
  assert ((handle_archive_notice (B := demo_rocksdb_engine) (demo_notice 1) s).2 = Ok tt) as Hok
    by (vm_compute; reflexivity).
  split; [exact Hok|].
  destruct (archive_notice_authentic demo_engine_laws (demo_notice 1) s) as [[_ Hno]|(m & Hm & _)].
  - exfalso. rewrite Hok in Hno. discriminate.
  - exists m. exact Hm.
Defined.

Lemma pruned_height_gives_locators_witness :
  ∃ locators,
    (get_blobs_with_status_check (B := demo_rocksdb_engine) 7 (demo_state (demo_all_archived true))).2
      = Err (BlobsPruned 7 2 locators) ∧ locators !! 1%nat = Some "loc1"%string.
Proof.
  destruct (pruned_height_gives_locators (B := demo_rocksdb_engine)
    (demo_state (demo_all_archived true)) 7 (demo_all_archived true)) as (locs & Hg & _ & Hl).
  - reflexivity.
  - vm_compute. reflexivity.
  - reflexivity.
  - reflexivity.
  - unfold is_u16. simpl. lia.
  - exists locs. split; [exact Hg|]. destruct (Hl 1%nat) as (a & Ha & Hi); [simpl; lia|].
    rewrite Hi. simpl in Ha. injection Ha as <-. reflexivity.
Defined.

Lemma cleanup_only_stale_rounds_witness :
  let s := demo_state demo_half_archived in
  let s' := (cleanup_stale_round_blobs (B := demo_rocksdb_engine) 8 (RSome 5) s).1 in
  ∃ rounds', s_blob_rounds s' !! 8 = Some rounds' ∧ 5 ∈ rounds' ∧ 0 ∉ rounds'.
Proof.
  intros s s'.
  destruct (cleanup_only_stale_rounds demo_engine_laws s 8 (RSome 5) 8 (RSome 5)) as (_ & _ & _ & Hr).
  - simpl. unfold is_u32. lia.
  - simpl. unfold is_u32. lia.
  - right. simpl. unfold STALE_ROUND_BLOB_RETENTION. lia.
  - destruct (Hr {[0; 1; 5]}) as (rounds' & Hro & _ & Hin); [reflexivity|].
    exists rounds'. split; [exact Hro|]. split; [apply Hin; simpl; set_solver|].
    assert (s_blob_rounds s' !! 8 = Some {[5]}) as Hs' by (vm_compute; reflexivity).
    change (s_blob_rounds s' !! 8 = Some rounds') in Hro. rewrite Hs' in Hro. injection Hro as <-.
    intros H0. apply elem_of_singleton in H0. discriminate.
Defined.
