(* ===== verification/BlobProposal.v ===== *)
(** * Proposals with blobs ([state.rs])

    The proposer turns the bundle of the execution layer into sidecars, each
    with a signed beacon header and an inclusion proof; a follower checks them
    against its own store, stores the blobs through the engine and the metadata
    of the round next to them.  Sidecars can be rebuilt from storage when a
    proposal is streamed again. *)
From S2P Require Import Prelude Types Merkle Streaming Proposal Metadata BlobStore BlobEngine Store Proto State Archival.
Open Scope monad_scope.

(** [ExecutionPayloadV3::from_ssz_bytes] *)
Class PayloadSsz := { payload_from_ssz : bytes → option ExecutionPayloadV3 }.

Section headers.
Context `{Crypto} `{MerkleTreeLib}.
Open Scope outcome_scope.

Definition build_sidecar_header_message (vs : ValidatorSet) (height : Height) (proposer : Address)
    (m : ValueMetadata) (body_root parent_root : B256) : outcome string BeaconBlockHeader :=
  let? proposer_index := ok_or (validator_index vs proposer)
                           "Proposer not found in validator set"%string in
  Ok (mkBeaconHeader height proposer_index parent_root
        (eh_state_root (vm_execution_payload_header m)) body_root).

Definition sign_header (signing_key : bytes) (h : BeaconBlockHeader) : SignedBeaconBlockHeader :=
  mkSignedHeader h (ed25519_sign signing_key (hash_tree_root h)).

Definition metadata_body (m : ValueMetadata) : BeaconBlockBodyMinimal :=
  from_ultramarine_data (vm_blob_kzg_commitments m) (vm_execution_payload_header m).

(** The sidecar of one blob, both when proposing and when rebuilding: the
    commitment has to be the one at its index. *)
Definition make_sidecar (cs : list KzgCommitment) (body : BeaconBlockBodyMinimal)
    (h : SignedBeaconBlockHeader) (index : nat) (blob : bytes) (c : KzgCommitment) (p : KzgProof)
    : outcome string BlobSidecar :=
  match cs !! index with
  | None => Err "Missing commitment for blob index"%string
  | Some c' =>
    if negb (bool_decide (c' = c)) then Err "Blob commitment mismatch"%string
    else
      let? proof := generate_kzg_commitment_inclusion_proof cs index body in
      let? i := ok_or (try_u16 (Z.of_nat index)) "Blob index exceeds u16::MAX"%string in
      Ok (mkSidecar i blob c p h proof)
  end.

Fixpoint make_sidecars (cs : list KzgCommitment) (body : BeaconBlockBodyMinimal)
    (h : SignedBeaconBlockHeader) (index : nat) (items : list (bytes * KzgCommitment * KzgProof))
    : outcome string (list BlobSidecar) :=
  match items with
  | [] => Ok []
  | (blob, c, p) :: items =>
    let? s := make_sidecar cs body h index blob c p in
    let? scs := make_sidecars cs body h (S index) items in
    Ok (s :: scs)
  end.

Definition bundle_items (b : BlobsBundle) : list (bytes * KzgCommitment * KzgProof) :=
  zip (zip (bb_blobs b) (bb_commitments b)) (bb_proofs b).

(** The shape check of a proposal against its bundle. *)
Definition check_bundle (expected : nat) (bundle : option BlobsBundle) : outcome string unit :=
  match bundle with
  | Some b =>
    if negb (expected =? length (bb_commitments b))%nat
       || negb (expected =? length (bb_blobs b))%nat
       || negb (expected =? length (bb_proofs b))%nat
    then Err "Blob bundle length mismatch"%string else Ok tt
  | None => if negb (expected =? 0)%nat
            then Err "Metadata contains commitments but no blob bundle was provided"%string
            else Ok tt
  end.

Definition build_beacon_header_from_blob_metadata (vs : ValidatorSet) (m : BlobMetadata)
    (proposer : Address) : outcome string BeaconBlockHeader :=
  let? proposer_index := ok_or (match bm_proposer_index_hint m with
                                | Some i => Some i
                                | None => validator_index vs proposer
                                end) "Proposer not found in validator set"%string in
  Ok (mkBeaconHeader (bm_height m) proposer_index (bm_parent_blob_root m)
        (eh_state_root (bm_execution_payload_header m)) (BlobMetadata_compute_body_root m)).

Definition rebuild_blob_sidecars_for_restream (vs : ValidatorSet) (signing_key : bytes)
    (m : BlobMetadata) (proposer : Address) (blobs : list BlobSidecar)
    : outcome string (list BlobSidecar) :=
  if negb (bm_blob_count m =? Z.of_nat (length blobs))
  then Err "Blob metadata count does not match stored blobs"%string
  else
    let? h := build_beacon_header_from_blob_metadata vs m proposer in
    let cs := bm_blob_kzg_commitments m in
    make_sidecars cs (from_ultramarine_data cs (bm_execution_payload_header m))
      (sign_header signing_key h) 0
      ((λ s, (sc_blob s, sc_kzg_commitment s, sc_kzg_proof s)) <$> blobs).

(** One sidecar of a received proposal, against the commitments and the body
    they determine. *)
Definition check_sidecar (cs : list KzgCommitment) (body : BeaconBlockBodyMinimal)
    (body_root : B256) (s : BlobSidecar) : outcome string unit :=
  let index := Z.to_nat (sc_index s) in
  match cs !! index with
  | None => Err "Blob index out of range"%string
  | Some c =>
    if negb (bool_decide (c = sc_kzg_commitment s)) then Err "Commitment mismatch"%string
    else
      let? _ := omap_err (λ _, "Invalid KZG inclusion proof"%string)
                  (reconstruct_roots_from_proof (sc_kzg_commitment s)
                     (sc_kzg_commitment_inclusion_proof s) index) in
      let? _ := generate_kzg_commitment_inclusion_proof cs index body in
      if verify_kzg_commitment_inclusion_proof (sc_kzg_commitment s)
           (sc_kzg_commitment_inclusion_proof s) index body_root
      then Ok tt else Err "Invalid KZG inclusion proof"%string
  end.

Fixpoint check_all {A} (f : A → outcome string unit) (l : list A) : outcome string unit :=
  match l with
  | [] => Ok tt
  | x :: l => let? _ := f x in check_all f l
  end.

(** The checks of [verify_blob_sidecars] that do not read the store; the result
    is the header all sidecars share. *)
Definition check_signed_header (vs : ValidatorSet) (height : Height) (proposer : Address)
    (m : ValueMetadata) (scs : list BlobSidecar) : outcome string SignedBeaconBlockHeader :=
  match scs with
  | [] => Err "verify_blob_sidecars called with empty sidecars"%string
  | s0 :: rest =>
    let h := sc_signed_block_header s0 in
    if negb (forallb (λ s, bool_decide (sc_signed_block_header s = h)) rest)
    then Err "Inconsistent signed headers across blob sidecars"%string
    else if negb (bh_slot (sh_message h) =? height)
    then Err "Signed header slot does not match proposal height"%string
    else
      let? proposer_index := ok_or (validator_index vs proposer)
                               "Proposer not found in validator set"%string in
      if negb (bh_proposer_index (sh_message h) =? proposer_index)
      then Err "Signed header proposer_index does not match"%string
      else
        let? v := ok_or (get_by_address vs proposer) "Proposer not found in validator set"%string in
        if negb (verify_signature h (val_public_key v))
        then Err "Invalid beacon header signature"%string
        else if negb (length (vm_blob_kzg_commitments m) =? length scs)%nat
        then Err "Metadata reports a different number of blobs"%string
        else if negb (bool_decide (bh_body_root (sh_message h) = compute_body_root (metadata_body m)))
        then Err "Beacon header body_root mismatch"%string
        else Ok h
  end.
End headers.

Section blob_proposals.
Context {E : Type} {B : BlobEngine E} `{Crypto} `{MerkleTreeLib} `{NodeCodecs} `{PayloadSsz}
  `{StreamApi}.

Abbreviation StM A := (M (State E) string A) (only parsing).

Definition prepare_blob_sidecar_parts (value : LocallyProposedValue) (bundle : option BlobsBundle)
    : StM (SignedBeaconBlockHeader * list BlobSidecar) :=
  let m := v_metadata (lv_value value) in
  let cs := vm_blob_kzg_commitments m in
  let* _ := lift (check_bundle (length cs) bundle) in
  let body := metadata_body m in
  let* parent_root := resolve_parent_root_for_height (lv_height value) in
  let* s := get in
  let* message := lift (build_sidecar_header_message (s_genesis_validators s) (lv_height value)
                          (s_address s) m (compute_body_root body) parent_root) in
  let signed := sign_header (s_signing_key s) message in
  let* sidecars := lift (make_sidecars cs body signed 0
                           (from_option bundle_items [] bundle)) in
  ret (signed, sidecars).

Definition verify_blob_sidecars (height : Height) (proposer : Address) (m : ValueMetadata)
    (scs : list BlobSidecar) : StM SignedBeaconBlockHeader :=
  let* s := get in
  let* h := lift (check_signed_header (s_genesis_validators s) height proposer m scs) in
  let* expected := resolve_parent_root_for_height height in
  if negb (bool_decide (bh_parent_root (sh_message h) = expected))
  then fail "Beacon header parent_root mismatch"%string
  else
    lift (check_all (check_sidecar (vm_blob_kzg_commitments m) (metadata_body m)
                       (bh_body_root (sh_message h))) scs) ;;;
    ret h.

Definition track_blob_round (height : Height) (round : Round) : StM unit :=
  modify (λ s, set_blob_rounds
    (<[height := {[Round_as_i64 round]} ∪ default ∅ (s_blob_rounds s !! height)]> (s_blob_rounds s)) s).

(** The blobs of a round and, after them, its metadata. *)
Definition store_blob_round (parts : ProposalParts) (m : ValueMetadata) (scs : list BlobSidecar)
    : StM unit :=
  let* signed := verify_blob_sidecars (pp_height parts) (pp_proposer parts) m scs in
  with_engine (be_verify_and_store (pp_height parts) (Round_as_i64 (pp_round parts)) scs) ;;;
  let* s := get in
  let* bm := lift (BlobMetadata_new (pp_height parts) (bh_parent_root (sh_message signed))
                     (vm_blob_kzg_commitments m) (blob_keccak <$> scs)
                     (vm_execution_payload_header m)
                     (validator_index (s_genesis_validators s) (pp_proposer parts))) in
  with_store (put_blob_metadata_undecided (pp_height parts) (pp_round parts) bm).

Definition store_blobless_round (parts : ProposalParts) (m : ValueMetadata) : StM unit :=
  let* parent_root := resolve_parent_root_for_height (pp_height parts) in
  let* s := get in
  let* bm := lift (BlobMetadata_blobless (pp_height parts) parent_root
                     (vm_execution_payload_header m)
                     (validator_index (s_genesis_validators s) (pp_proposer parts))) in
  with_store (put_blob_metadata_undecided (pp_height parts) (pp_round parts) bm).

(** The value a payload and its sidecars determine; a payload that does not
    decode gives a value without metadata, which the timestamp check refuses. *)
Definition assembled_metadata (data : bytes) (reqs : list bytes) (scs : list BlobSidecar)
    : outcome string (option ValueMetadata) :=
  let has_blobs := negb (bool_decide (scs = [])) in
  match data with
  | [] => if has_blobs then Err "Received blob sidecars without execution payload data"%string
          else Ok None
  | _ =>
    match payload_from_ssz data with
    | Some payload =>
      obind (ValueMetadata_new (header_from_payload payload (Some (requests_hash reqs)))
               (sc_kzg_commitment <$> scs)) (λ m, Ok (Some m))
    | None => if has_blobs then Err "Failed to decode execution payload with blobs"%string
              else Ok None
    end
  end.

Definition assemble_and_store_blobs (now : option Z) (parts : ProposalParts)
    : StM (ProposedValue * bytes * list bytes * bool) :=
  let* reqs := lift (collect_requests [] (omap as_data (pp_parts parts))) in
  let* _ := lift (validate_execution_requests reqs) in
  let data := assemble_data (pp_parts parts) in
  let scs := assemble_sidecars (pp_parts parts) in
  let has_blobs := negb (bool_decide (scs = [])) in
  let* om := lift (assembled_metadata data reqs scs) in
  match om with
  | None => fail "Missing execution payload metadata for timestamp validation"%string
  | Some m =>
    let* s := get in
    let* _ := lift (validate_proposed_timestamp now (s_latest_block s)
                      (eh_timestamp (vm_execution_payload_header m))
                      (eh_parent_hash (vm_execution_payload_header m))) in
    (if has_blobs then store_blob_round parts m scs else store_blobless_round parts m) ;;;
    ret (mkProposed (pp_height parts) (pp_round parts) Nil (pp_proposer parts) (Value_new m) Valid,
         data, reqs, has_blobs)
  end.

Definition received_proposal_part (now : option Z) (from : bytes) (part : StreamMessage)
    : StM (option ProposedValue) :=
  let* s := get in
  let '(streams, complete) := PartStreamsMap_insert (s_streams_map s) from part in
  modify (set_streams_map streams) ;;;
  match complete with
  | None => ret None
  | Some parts =>
    if pp_height parts <? s_current_height s then ret None
    else match verify_proposal_signature (s_genesis_validators s) parts with
    | Panic => panic
    | Err _ => ret None
    | Ok _ =>
      let* r := attempt (assemble_and_store_blobs now parts) in
      match r with
      | inl _ => ret None
      | inr (value, data, reqs, has_blobs) =>
        when has_blobs (track_blob_round (pp_height parts) (pp_round parts)) ;;;
        with_store (store_undecided_proposal value) ;;;
        with_store (store_undecided_block_data (pp_height parts) (pp_round parts) data reqs) ;;;
        ret (Some value)
      end
    end
  end.

(** ** Proposing *)

Definition assert_current (height : Height) (round : Round) : StM unit :=
  let* s := get in
  if decide (height = s_current_height s ∧ round = s_current_round s) then ret tt else panic.

Definition propose_value (height : Height) (round : Round) (data : bytes)
    : StM LocallyProposedValue :=
  assert_current height round ;;;
  let* s := get in
  let* value := lift (Value_from_bytes data) in
  with_store (store_undecided_proposal
                (mkProposed height round Nil (s_address s) value Valid)) ;;;
  ret (mkLocal height round value).

Definition propose_value_with_blobs (height : Height) (round : Round)
    (payload : ExecutionPayloadV3) (reqs : list bytes) (bundle : option BlobsBundle)
    : StM LocallyProposedValue :=
  assert_current height round ;;;
  let* _ := lift (validate_execution_requests reqs) in
  let header := header_from_payload payload (Some (requests_hash reqs)) in
  let cs := from_option bb_commitments [] bundle in
  let hashes := from_option blob_keccak_hashes [] bundle in
  let* m := lift (ValueMetadata_new header cs) in
  let value := Value_new m in
  let* s := get in
  with_store (store_undecided_proposal
                (mkProposed height round Nil (s_address s) value Valid)) ;;;
  let index := validator_index (s_genesis_validators s) (s_address s) in
  let* parent_root := resolve_parent_root_for_height height in
  let* bm := lift (if decide (cs = []) then BlobMetadata_blobless height parent_root header index
                   else BlobMetadata_new height parent_root cs hashes header index) in
  with_store (put_blob_metadata_undecided height round bm) ;;;
  when (negb (bool_decide (cs = []))) (track_blob_round height round) ;;;
  ret (mkLocal height round value).

(** Undecided metadata of the round, or else the decided one of the height. *)
Definition load_blob_metadata_for_round (height : Height) (round : Round)
    : StM (option BlobMetadata) :=
  let* u := with_store (get_blob_metadata_undecided height round) in
  match u with
  | Some m => ret (Some m)
  | None => with_store (get_blob_metadata height)
  end.

(** [State::stream_proposal]: the stream nonce of the state moves on. *)
Definition stream_proposal_state (value : LocallyProposedValue) (data : bytes)
    (sidecars : option (list BlobSidecar)) (reqs : list bytes) (proposer : option Address)
    : StM (list StreamMessage) :=
  let* s := get in
  let* (nonce, msgs) := lift (stream_proposal (s_signing_key s) (s_address s) (s_stream_nonce s)
                                value data sidecars reqs proposer) in
  modify (set_stream_nonce nonce) ;;;
  ret msgs.
End blob_proposals.

(** ** What proposer and follower agree on *)

Section agreement.
Context {C : Crypto} {T : MerkleTreeLib} (L : MerkleLaws C T) (CL : CryptoLaws C).

(** The sidecars of a list of items: one per item, in order, each with the
    commitment of its index and its own inclusion proof. *)
Lemma make_sidecars_lookup (cs : list KzgCommitment) (body : BeaconBlockBodyMinimal)
    (h : SignedBeaconBlockHeader) (items : list (bytes * KzgCommitment * KzgProof)) :
  ∀ k scs, make_sidecars cs body h k items = Ok scs →
  length scs = length items ∧
  ∀ i s, scs !! i = Some s →
    ∃ blob c p proof, items !! i = Some (blob, c, p) ∧ cs !! (k + i)%nat = Some c ∧
      generate_kzg_commitment_inclusion_proof cs (k + i) body = Ok proof ∧
      s = mkSidecar (Z.of_nat (k + i)) blob c p h proof.
Proof.
  induction items as [|[[blob c] p] items IH]; intros k scs; cbn [make_sidecars].
  { intros [= <-]. split; [done|]. by intros i s. }
  unfold make_sidecar. destruct (cs !! k) as [c'|] eqn:Hc; [|done].
  case_bool_decide as Hcc; [|done]. subst c'. cbn [negb].
  destruct (generate_kzg_commitment_inclusion_proof cs k body) as [proof| |] eqn:Hg; try done.
  cbn [obind]. destruct (try_u16 (Z.of_nat k)) as [z|] eqn:Hu; [|done]. cbn [ok_or obind].
  apply try_u16_Some in Hu as [-> _].
  destruct (make_sidecars cs body h (S k) items) as [scs'| |] eqn:Hm; try done.
  intros [= <-]. destruct (IH _ _ Hm) as [Hlen Hl]. split; [simpl; lia|].
  intros [|i] s Hs; simpl in Hs.
  - injection Hs as <-. exists blob, c, p, proof. by rewrite Nat.add_0_r.
  - destruct (Hl i s Hs) as (b' & c' & p' & pr & H1 & H2 & H3 & ->).
    exists b', c', p', pr. rewrite Nat.add_succ_r. simpl. auto.
Qed.

Lemma check_all_Ok {A} (f : A → outcome string unit) (l : list A) :
  check_all f l = Ok tt ↔ ∀ i x, l !! i = Some x → f x = Ok tt.
Proof.
  induction l as [|x l IH]; simpl.
  { split; [by intros _ i y|done]. }
  split.
  - destruct (f x) as [[]| |] eqn:Hx; try done. intros Hl [|i] y; simpl; [by intros [= <-]|].
    apply IH, Hl.
  - intros Hl. rewrite (Hl 0%nat x eq_refl). simpl. apply IH. intros i y Hy. apply (Hl (S i) y Hy).
Qed.

(** A sidecar that carries the generated proof of its commitment is accepted. *)
Lemma check_sidecar_generated (cs : list KzgCommitment) (body : BeaconBlockBodyMinimal) (i : nat)
    (c : KzgCommitment) (blob : bytes) (p : KzgProof) (h : SignedBeaconBlockHeader) (proof : list B256) :
  bd_blob_kzg_commitments body = cs →
  Z.of_nat (length cs) ≤ MAX_BLOB_COMMITMENTS_PER_BLOCK →
  cs !! i = Some c → generate_kzg_commitment_inclusion_proof cs i body = Ok proof →
  check_sidecar cs body (compute_body_root body) (mkSidecar (Z.of_nat i) blob c p h proof) = Ok tt.
Proof using L.
  intros Hb Hlen Hc Hg. pose proof (lookup_lt_Some _ _ _ Hc) as Hi.
  pose proof (generate_inclusion_branch C T L cs i body Hlen Hi) as Hgen.
  assert (proof = inclusion_branch C cs i body) as -> by congruence.
  unfold check_sidecar. cbn [sc_index sc_kzg_commitment sc_kzg_commitment_inclusion_proof].
  rewrite Nat2Z.id, Hc, bool_decide_eq_true_2 by done. cbn [negb].
  unfold reconstruct_roots_from_proof at 1.
  rewrite length_inclusion_branch, Nat.eqb_refl, commitments_depth_eq.
  replace (MAX_BLOB_COMMITMENTS_PER_BLOCK <=? Z.of_nat i) with false by lia.
  cbn [negb orb Nat.ltb Nat.leb KZG_COMMITMENT_INCLUSION_PROOF_DEPTH omap_err obind].
  rewrite Hg. cbn [obind].
  by rewrite (verify_inclusion_branch C T L cs i c body).
Qed.

Lemma get_validator_index (vs : ValidatorSet) (a : Address) (v : Validator) :
  get_by_address vs a = Some v → ∃ i, validator_index vs a = Some i.
Proof.
  unfold validator_index, get_by_address. intros Hv.
  destruct (position _ _) as [n|] eqn:Hp; [simpl; eauto|].
  apply position_None in Hp. congruence.
Qed.

Lemma check_signed_header_ok (vs : ValidatorSet) (height : Height) (proposer : Address)
    (m : ValueMetadata) (scs : list BlobSidecar) (h : SignedBeaconBlockHeader) (v : Validator) (i : Z) :
  scs ≠ [] → Forall (λ s, sc_signed_block_header s = h) scs →
  length scs = length (vm_blob_kzg_commitments m) →
  validator_index vs proposer = Some i → get_by_address vs proposer = Some v →
  bh_slot (sh_message h) = height → bh_proposer_index (sh_message h) = i →
  verify_signature h (val_public_key v) = true →
  bh_body_root (sh_message h) = compute_body_root (metadata_body m) →
  check_signed_header vs height proposer m scs = Ok h.
Proof.
  intros Hne Hall Hlen Hi Hv Hs Hp Hsig Hb. unfold check_signed_header.
  destruct scs as [|s0 rest]; [done|]. apply Forall_cons in Hall as [-> Hrest].
  replace (forallb _ rest) with true.
  2: { symmetry. apply forallb_forall. intros x Hx%list_elem_of_In. rewrite Forall_forall in Hrest.
       apply bool_decide_eq_true_2. by apply Hrest. }
  cbn [negb]. rewrite Hs, Z.eqb_refl. cbn [negb]. rewrite Hi. cbn [ok_or obind].
  rewrite Hp, Z.eqb_refl. cbn [negb]. rewrite Hv. cbn [ok_or obind]. rewrite Hsig. cbn [negb].
  rewrite Hlen, Nat.eqb_refl. cbn [negb]. by rewrite bool_decide_eq_true_2.
Qed.

Context {E : Type} {NC : NodeCodecs}.

(** Everything the proposer's run fixes about the header and the sidecars. *)
Lemma prepare_blob_sidecar_parts_run (value : LocallyProposedValue) (bundle : BlobsBundle)
    (s s' : State E) (h : SignedBeaconBlockHeader) (scs : list BlobSidecar) :
  let m := v_metadata (lv_value value) in
  let cs := vm_blob_kzg_commitments m in
  prepare_blob_sidecar_parts value (Some bundle) s = (s', Ok (h, scs)) →
  ∃ root i, (resolve_parent_root_for_height (lv_height value) s).2 = Ok root ∧
    validator_index (s_genesis_validators s) (s_address s) = Some i ∧
    length (bb_blobs bundle) = length cs ∧ length (bb_commitments bundle) = length cs ∧
    length (bb_proofs bundle) = length cs ∧
    h = sign_header (s_signing_key s)
          (mkBeaconHeader (lv_height value) i root (eh_state_root (vm_execution_payload_header m))
             (compute_body_root (metadata_body m))) ∧
    make_sidecars cs (metadata_body m) h 0 (bundle_items bundle) = Ok scs.
Proof.
  cbv zeta. unfold prepare_blob_sidecar_parts. set (m := v_metadata (lv_value value)).
  set (cs := vm_blob_kzg_commitments m). unfold bind at 1, lift at 1, check_bundle.
  destruct (negb _ || negb _ || negb _) eqn:Hlen; [done|].
  apply orb_false_iff in Hlen as [[H1%negb_false_iff%Nat.eqb_eq H2%negb_false_iff%Nat.eqb_eq]%orb_false_iff
                                    H3%negb_false_iff%Nat.eqb_eq].
  unfold bind at 1.
  destruct (resolve_parent_root_for_height (lv_height value) s) as [s1 [root| |]] eqn:Hres; try done.
  assert (s_genesis_validators s1 = s_genesis_validators s ∧ s_address s1 = s_address s ∧
          s_signing_key s1 = s_signing_key s) as (Hv & Ha & Hk).
  { revert Hres. unfold resolve_parent_root_for_height, bind, with_store, zoom, map_err.
    destruct (_ =? 0); [by intros [= <- _]|].
    destruct (get_blob_metadata _ _) as [st [[b|]| |]]; by intros [= <- _]. }
  unfold bind, get, lift, build_sidecar_header_message, ret. rewrite Hv, Ha, Hk.
  destruct (validator_index _ _) as [i|] eqn:Hi; [|done]. cbn [ok_or obind from_option].
  destruct (make_sidecars _ _ _ _ _) as [scs'| |] eqn:Hm; try done. intros [= _ <- <-].
  exists root, i. auto 10.
Qed.

Lemma bundle_items_lookup (b : BlobsBundle) (i : nat) (blob : bytes) (c : KzgCommitment) (p : KzgProof) :
  bundle_items b !! i = Some (blob, c, p) ↔
  bb_blobs b !! i = Some blob ∧ bb_commitments b !! i = Some c ∧ bb_proofs b !! i = Some p.
Proof.
  unfold bundle_items. split.
  - intros (x & y & Heq & Hx & Hp)%lookup_zip_with_Some. injection Heq as <- <-.
    apply lookup_zip_with_Some in Hx as (a & b' & Heq & Ha & Hb). by injection Heq as <- <-.
  - intros (Hb & Hc & Hp). apply lookup_zip_with_Some. exists (blob, c), p. split_and!; [done| |done].
    apply lookup_zip_with_Some. by exists blob, c.
Qed.

Lemma make_sidecars_total (cs : list KzgCommitment) (body : BeaconBlockBodyMinimal)
    (h : SignedBeaconBlockHeader) (items : list (bytes * KzgCommitment * KzgProof)) :
  Z.of_nat (length cs) ≤ MAX_BLOB_COMMITMENTS_PER_BLOCK → ∀ k,
  (∀ i blob c p, items !! i = Some (blob, c, p) → cs !! (k + i)%nat = Some c) →
  ∃ scs, make_sidecars cs body h k items = Ok scs.
Proof using L.
  intros Hmax. induction items as [|[[blob c] p] items IH]; intros k Hcs; cbn [make_sidecars]; [eauto|].
  pose proof (Hcs 0%nat blob c p eq_refl) as Hc. rewrite Nat.add_0_r in Hc.
  pose proof (lookup_lt_Some _ _ _ Hc) as Hk.
  unfold make_sidecar. rewrite Hc, bool_decide_eq_true_2 by done. cbn [negb].
  rewrite (generate_inclusion_branch C T L) by done. cbn [obind].
  rewrite try_u16_id by (unfold is_u16, MAX_BLOB_COMMITMENTS_PER_BLOCK in *; lia). cbn [ok_or obind].
  destruct (IH (S k)) as [scs ->]; [|cbn [obind]; eauto].
  intros i b' c' p' Hi. rewrite <-(Hcs (S i) b' c' p' Hi). f_equal. lia.
Qed.

Lemma resolve_parent_root_same (h : Height) (s : State E) :
  let s1 := (resolve_parent_root_for_height h s).1 in
  s_genesis_validators s1 = s_genesis_validators s ∧ s_address s1 = s_address s ∧
  s_signing_key s1 = s_signing_key s.
Proof.
  cbv zeta. unfold resolve_parent_root_for_height, bind, with_store, zoom, map_err.
  destruct (_ =? 0); [done|]. by destruct (get_blob_metadata _ _) as [st [[b|]| |]].
Qed.

(** Preparing succeeds for a bundle that carries the value's commitments. *)
Lemma prepare_blob_sidecar_parts_total (value : LocallyProposedValue) (bundle : BlobsBundle)
    (s : State E) (i : Z) :
  let cs := vm_blob_kzg_commitments (v_metadata (lv_value value)) in
  bb_commitments bundle = cs → length (bb_blobs bundle) = length cs →
  length (bb_proofs bundle) = length cs → Z.of_nat (length cs) ≤ MAX_BLOB_COMMITMENTS_PER_BLOCK →
  validator_index (s_genesis_validators s) (s_address s) = Some i →
  is_ok (resolve_parent_root_for_height (lv_height value) s).2 = true →
  ∃ s' h scs, prepare_blob_sidecar_parts value (Some bundle) s = (s', Ok (h, scs)).
Proof using L.
  cbv zeta. intros Hc Hb Hp Hmax Hi Hok. unfold prepare_blob_sidecar_parts, check_bundle.
  rewrite Hc, Hb, Hp, !Nat.eqb_refl. cbn [negb orb]. unfold bind at 1, lift at 1.
  destruct (resolve_parent_root_same (lv_height value) s) as (Hv & Ha & Hk).
  unfold bind at 1. destruct (resolve_parent_root_for_height _ s) as [s1 [root| |]]; try done.
  simpl in Hv, Ha, Hk. unfold bind, get, lift, build_sidecar_header_message, ret.
  rewrite Hv, Ha, Hk, Hi. cbn [ok_or obind from_option].
  match goal with |- context [make_sidecars ?a ?b ?c 0 ?d] =>
    destruct (make_sidecars_total a b c d Hmax 0) as [scs ->] end; [|eauto].
  intros k blob c p (_ & Hk' & _)%bundle_items_lookup. by rewrite <-Hc.
Qed.

(** C26: for a bundle that carries its value's commitments, a proposer prepares
    sidecars with the blobs and commitments in index order, and a follower with
    the same validators and the same parent root accepts them under the
    proposer's header. *)
Theorem proposed_sidecars_accepted (value : LocallyProposedValue) (bundle : BlobsBundle)
    (s s2 : State E) (v : Validator) :
  let cs := vm_blob_kzg_commitments (v_metadata (lv_value value)) in
  cs ≠ [] → bb_commitments bundle = cs → length (bb_blobs bundle) = length cs →
  length (bb_proofs bundle) = length cs → Z.of_nat (length cs) ≤ MAX_BLOB_COMMITMENTS_PER_BLOCK →
  get_by_address (s_genesis_validators s) (s_address s) = Some v →
  val_public_key v = ed25519_public (s_signing_key s) →
  is_ok (resolve_parent_root_for_height (lv_height value) s).2 = true →
  s_genesis_validators s2 = s_genesis_validators s →
  (resolve_parent_root_for_height (lv_height value) s2).2 =
    (resolve_parent_root_for_height (lv_height value) s).2 →
  ∃ s' h scs, prepare_blob_sidecar_parts value (Some bundle) s = (s', Ok (h, scs)) ∧
    sc_blob <$> scs = bb_blobs bundle ∧ sc_kzg_commitment <$> scs = cs ∧
    sc_index <$> scs = Z.of_nat <$> seq 0 (length scs) ∧
    (verify_blob_sidecars (lv_height value) (s_address s) (v_metadata (lv_value value)) scs s2).2
      = Ok h.
Proof using L CL.
  cbv zeta. intros Hcne Hbc Hbb Hbp Hmax Hval Hpk Hok Hvs Hpar.
  destruct (get_validator_index _ _ _ Hval) as [i0 Hi0].
  destruct (prepare_blob_sidecar_parts_total value bundle s i0) as (s' & h & scs & Hprep); [done..|].
  exists s', h, scs. split; [done|].
  apply prepare_blob_sidecar_parts_run in Hprep
    as (root & i & Hroot & Hi & Lb & Lc & Lp & Hh & Hmk).
  set (m := v_metadata (lv_value value)) in *. set (cs := vm_blob_kzg_commitments m) in *.
  destruct (make_sidecars_lookup _ _ _ _ _ _ Hmk) as [Hlen Hl].
  assert (length scs = length cs) as Hn.
  { rewrite Hlen. unfold bundle_items. rewrite !length_zip_with. lia. }
  assert (∀ k sc, scs !! k = Some sc → ∃ blob c p proof,
    bb_blobs bundle !! k = Some blob ∧ cs !! k = Some c ∧
    generate_kzg_commitment_inclusion_proof cs k (metadata_body m) = Ok proof ∧
    sc = mkSidecar (Z.of_nat k) blob c p h proof) as Hsc.
  { intros k sc Hk. destruct (Hl k sc Hk) as (blob & c & p & proof & Hit & Hc & Hg & ->).
    apply bundle_items_lookup in Hit as (? & _ & _). eauto 10. }
  split_and!.
  - apply fmap_lookup_eq; [lia|]. by intros k sc (blob & c & p & proof & Hb & _ & _ & ->)%Hsc.
  - apply fmap_lookup_eq; [done|]. by intros k sc (blob & c & p & proof & _ & Hc & _ & ->)%Hsc.
  - apply fmap_lookup_eq; [by rewrite length_fmap, length_seq|]. intros k sc Hk.
    rewrite list_lookup_fmap, lookup_seq_lt by by eapply lookup_lt_Some.
    by destruct (Hsc k sc Hk) as (blob & c & p & proof & _ & _ & _ & ->).
  - unfold verify_blob_sidecars, bind, get, lift.
    assert (scs ≠ []) as Hne by (intros ->; by destruct cs).
    rewrite (check_signed_header_ok _ _ _ m scs h v i); try done.
    + rewrite Hroot in Hpar.
      destruct (resolve_parent_root_for_height (lv_height value) s2) as [s3 r]. simpl in Hpar. subst r.
      assert (bh_parent_root (sh_message h) = root) as Hpr by (by rewrite Hh).
      assert (bh_body_root (sh_message h) = compute_body_root (metadata_body m)) as Hbr by (by rewrite Hh).
      rewrite Hpr, Hbr, bool_decide_eq_true_2 by done. cbn [negb].
      rewrite (proj2 (check_all_Ok _ _)); [done|]. intros k sc Hk.
      destruct (Hsc k sc Hk) as (blob & c & p & proof & _ & Hc & Hg & ->).
      by apply check_sidecar_generated.
    + apply Forall_lookup. intros k sc Hk.
      by destruct (Hsc k sc Hk) as (blob & c & p & proof & _ & _ & _ & ->).
    + by rewrite Hvs.
    + by rewrite Hvs.
    + by rewrite Hh.
    + by rewrite Hh.
    + rewrite Hh, Hpk. apply ed25519_correct.
    + by rewrite Hh.
Qed.

Lemma make_sidecars_items (cs : list KzgCommitment) (body : BeaconBlockBodyMinimal)
    (h : SignedBeaconBlockHeader) (k : nat) (items : list (bytes * KzgCommitment * KzgProof))
    (scs : list BlobSidecar) :
  make_sidecars cs body h k items = Ok scs →
  (λ s, (sc_blob s, sc_kzg_commitment s, sc_kzg_proof s)) <$> scs = items.
Proof.
  intros [Hlen Hl]%make_sidecars_lookup.
  apply fmap_lookup_eq; [done|]. by intros i sc (blob & c & p & proof & Hit & _ & _ & ->)%Hl.
Qed.

(** C34: sidecars rebuilt from the stored blobs and metadata of a node's own
    proposal are the very sidecars it proposed, signature and inclusion proofs
    included. *)
Theorem restream_rebuilds_sidecars (value : LocallyProposedValue) (bundle : BlobsBundle)
    (s s' : State E) (h : SignedBeaconBlockHeader) (scs : list BlobSidecar) (hashes : list B256)
    (bm : BlobMetadata) :
  let m := v_metadata (lv_value value) in
  prepare_blob_sidecar_parts value (Some bundle) s = (s', Ok (h, scs)) →
  BlobMetadata_new (E := string) (lv_height value) (bh_parent_root (sh_message h))
    (vm_blob_kzg_commitments m) hashes (vm_execution_payload_header m)
    (validator_index (s_genesis_validators s) (s_address s)) = Ok bm →
  rebuild_blob_sidecars_for_restream (s_genesis_validators s) (s_signing_key s) bm (s_address s) scs
    = Ok scs.
Proof.
  cbv zeta. intros Hprep Hnew.
  apply prepare_blob_sidecar_parts_run in Hprep as (root & i & _ & Hi & Lb & Lc & Lp & Hh & Hmk).
  set (m := v_metadata (lv_value value)) in *. set (cs := vm_blob_kzg_commitments m) in *.
  assert (length scs = length cs) as Hn.
  { destruct (make_sidecars_lookup _ _ _ _ _ _ Hmk) as [-> _]. unfold bundle_items.
    rewrite !length_zip_with. lia. }
  unfold BlobMetadata_new in Hnew. destruct (try_u16 _) as [n|] eqn:Hu; [|done].
  apply try_u16_Some in Hu as [-> _]. destruct (negb _); [done|]. injection Hnew as <-.
  unfold rebuild_blob_sidecars_for_restream, build_beacon_header_from_blob_metadata.
  cbn [bm_blob_count bm_proposer_index_hint bm_height bm_parent_blob_root bm_blob_kzg_commitments
       bm_execution_payload_header].
  rewrite Hn, Z.eqb_refl. cbn [negb]. rewrite Hi. cbn [ok_or obind].
  rewrite (make_sidecars_items _ _ _ _ _ _ Hmk).
  replace (bh_parent_root (sh_message h)) with root by (by rewrite Hh). rewrite <-Hmk, Hh. done.
Qed.
End agreement.

(** ** Receiving a proposal *)

(** A transaction that commits ran its body on the tables it found. *)
Lemma write_tx_run {A} (body : Store → outcome StoreError (Store * A)) (s s' : Store) (a : A) :
  write_tx body s = (s', Ok a) → ∃ s0, same_tables s s0 ∧ body s0 = Ok (s', a).
Proof.
  unfold write_tx, bind, next_fault.
  destruct (tx_faults s) as [|[f|] fs]; simpl; [|done|].
  - exists s. split; [done|]. by destruct (body s) as [[]| |]; simplify_eq.
  - exists (with_tx_faults fs s). split; [by exists fs|].
    by destruct (body _) as [[]| |]; simplify_eq.
Qed.

Lemma blocking_run {A} (c : StoreM A) (s s' : Store) (a : A) :
  blocking c s = (s', Ok a) → c s = (s', Ok a).
Proof. unfold blocking. destruct (c s) as [s1 [x| |]]; by intros [= -> ->]. Qed.

Lemma insert_if_absent_entry {K} `{Countable K} (k : K) (b : bytes) (t : gmap K (list Z)) :
  insert_if_absent k b t !! k = Some (default b (t !! k)).
Proof.
  unfold insert_if_absent. destruct (t !! k) eqn:Hk; [by rewrite Hk|by rewrite lookup_insert_eq].
Qed.

Section receiving.
Context {E : Type} {B : BlobEngine E} {V : DecidedView E} (L : BlobEngineLaws E B V).
Context {C : Crypto} {T : MerkleTreeLib} {NC : NodeCodecs} {SZ : PayloadSsz} {SA : StreamApi}.

(** What a successful write of undecided data leaves: the first entry of a
    round stays. *)
Lemma store_undecided_proposal_run (p : ProposedValue) (s s' : Store) (u : unit) :
  store_undecided_proposal p s = (s', Ok u) →
  ∃ b fs, encode p = Ok b ∧ s' = with_undecided_values
    (insert_if_absent (round_key (pv_height p) (pv_round p)) b (undecided_values s)) (with_tx_faults fs s).
Proof.
  unfold store_undecided_proposal. intros Hr%blocking_run.
  apply bind_run in Hr as [(b & s1 & Hb & Hw)|(? & _ & _ & ?)]; [|done].
  apply write_tx_run in Hw as (s0 & Hs & [= <- _]). injection Hb as <- Hb.
  destruct Hs as [fs ->]. exists b, fs. split; [|done]. destruct (encode p); simplify_eq/=; done.
Qed.

Lemma store_undecided_block_data_run (h : Height) (r : Round) (d : bytes) (q : list bytes)
    (s s' : Store) (u : unit) :
  store_undecided_block_data h r d q s = (s', Ok u) →
  ∃ fs, s' = with_undecided_block_data
    (insert_if_absent (round_key h r) (encode_to_vec (mkPayloadRecord d q)) (undecided_block_data s))
    (with_tx_faults fs s).
Proof.
  unfold store_undecided_block_data. intros Hr%blocking_run.
  apply write_tx_run in Hr as (s0 & [fs ->] & [= <- _]). by exists fs.
Qed.

Lemma put_round_metadata_run (h : Height) (r : Round) (m : BlobMetadata)
    (s s' : Store) (u : unit) :
  put_blob_metadata_undecided h r m s = (s', Ok u) →
  ∃ b fs, encode m = Ok b ∧ s' = with_blob_metadata_undecided
    (insert_if_absent (round_key h r) b (blob_metadata_undecided s)) (with_tx_faults fs s).
Proof.
  unfold put_blob_metadata_undecided. intros Hr%blocking_run.
  apply bind_run in Hr as [(b & s1 & Hb & Hw)|(? & _ & _ & ?)]; [|done].
  apply write_tx_run in Hw as (s0 & Hs & [= <- _]). injection Hb as <- Hb.
  destruct Hs as [fs ->]. exists b, fs. split; [|done]. destruct (encode m); simplify_eq/=; done.
Qed.

Lemma with_engine_store {A} (c : M E BlobEngineError A) (s : State E) :
  s_store (with_engine c s).1 = s_store s.
Proof. unfold with_engine, zoom, map_err. by destruct (c (s_blob_engine s)). Qed.

(** The value, the payload and the blob metadata of a round were stored, each
    unless the round already had one, and nothing else of the store changed. *)
Definition round_stored (k : Z * Z) (vb bd mb : bytes) (st st' : Store) : Prop :=
  ∃ fs, st' =
    with_undecided_values (insert_if_absent k vb (undecided_values st))
      (with_undecided_block_data (insert_if_absent k bd (undecided_block_data st))
         (with_blob_metadata_undecided (insert_if_absent k mb (blob_metadata_undecided st))
            (with_tx_faults fs st))).

(** Receiving leaves the decided blobs alone. *)
Definition decided_blobs_same (s s' : State E) : Prop :=
  ∀ h i, decided_blob (s_blob_engine s') h i = decided_blob (s_blob_engine s) h i.
#[export] Instance decided_blobs_same_preorder : PreOrder decided_blobs_same.
Proof. split; [by intros s h i|]. intros s1 s2 s3 H12 H23 h i. by rewrite H23, H12. Qed.

Lemma store_blobs_same {A} (c : M Store StoreError A) : steps decided_blobs_same (with_store c).
Proof. apply (steps_with_store _ (λ _ _, True)); [by intros ?|]. by intros s st _ h i. Qed.
Lemma modify_blobs_same (f : State E → State E) :
  (∀ s, s_blob_engine (f s) = s_blob_engine s) → steps (E := string) decided_blobs_same (modify f).
Proof. intros Hf. apply steps_modify. intros s h i. by rewrite Hf. Qed.
#[local] Hint Resolve store_blobs_same : steps.

Lemma received_blobs_same (now : option Z) (from : bytes) (part : StreamMessage) :
  steps decided_blobs_same (received_proposal_part now from part).
Proof using L.
  assert (∀ h r scs, steps decided_blobs_same (with_engine (be_verify_and_store h r scs))) as Hvs.
  { intros h r scs. apply (steps_with_engine _ _ _ (law_verify_and_store h r scs)).
    intros s e He h' i. apply He. }
  assert (∀ parts, steps decided_blobs_same (assemble_and_store_blobs now parts)).
  { intros parts. unfold assemble_and_store_blobs, store_blob_round, store_blobless_round,
      verify_blob_sidecars, resolve_parent_root_for_height. steps_tac. }
  assert (∀ h r, steps decided_blobs_same (track_blob_round h r)) by (intros; by apply modify_blobs_same).
  assert (∀ m, steps (E := string) decided_blobs_same (modify (set_streams_map m)))
    by (intros; by apply modify_blobs_same).
  unfold received_proposal_part. apply steps_bind; [apply _|steps_tac|]. intros s.
  destruct (PartStreamsMap_insert _ _ _) as [streams [parts|]]; steps_tac.
Qed.

(** What a follower knows of the sidecars it accepted under header [h]. *)
Record sidecars_sound (vs : ValidatorSet) (st : Store) (height : Height) (proposer : Address)
    (m : ValueMetadata) (scs : list BlobSidecar) (h : SignedBeaconBlockHeader) : Prop := {
  ss_signed : ∃ v, get_by_address vs proposer = Some v ∧ verify_signature h (val_public_key v) = true;
  ss_slot : bh_slot (sh_message h) = height;
  ss_body : bh_body_root (sh_message h) = compute_body_root (metadata_body m);
  ss_parent : height = 0 ∧ bh_parent_root (sh_message h) = B256_ZERO ∨
    height ≠ 0 ∧ ∃ pm, read_blob_metadata (sub64 height 1) st = Ok (Some pm) ∧
      bh_parent_root (sh_message h) = compute_blob_root pm;
  ss_count : length scs = length (vm_blob_kzg_commitments m);
  ss_each : Forall (λ s, sc_signed_block_header s = h ∧
    vm_blob_kzg_commitments m !! Z.to_nat (sc_index s) = Some (sc_kzg_commitment s) ∧
    verify_kzg_commitment_inclusion_proof (sc_kzg_commitment s)
      (sc_kzg_commitment_inclusion_proof s) (Z.to_nat (sc_index s))
      (compute_body_root (metadata_body m)) = true) scs }.

Lemma resolve_parent_root_run (h : Height) (s s' : State E) (root : B256) :
  resolve_parent_root_for_height h s = (s', Ok root) →
  same_state s s' ∧
  (h = 0 ∧ root = B256_ZERO ∨
   h ≠ 0 ∧ ∃ pm, read_blob_metadata (sub64 h 1) (s_store s) = Ok (Some pm) ∧ root = compute_blob_root pm).
Proof.
  unfold resolve_parent_root_for_height. destruct (h =? 0) eqn:Hz.
  { intros [= <- <-]. split; [done|]. left. split; [lia|done]. }
  intros [(om & s1 & Hg & Hr)|(? & _ & _ & ?)]%bind_run; [|done].
  apply with_store_get_blob_metadata in Hg as (Hread & st & Hst & ->).
  destruct om as [pm|]; [|done]. injection Hr as <- <-. split; [by exists st|]. right. split; [lia|eauto].
Qed.

Lemma check_signed_header_sound (vs : ValidatorSet) (height : Height) (proposer : Address)
    (m : ValueMetadata) (scs : list BlobSidecar) (h : SignedBeaconBlockHeader) :
  check_signed_header vs height proposer m scs = Ok h →
  (∃ v, get_by_address vs proposer = Some v ∧ verify_signature h (val_public_key v) = true) ∧
  bh_slot (sh_message h) = height ∧
  bh_body_root (sh_message h) = compute_body_root (metadata_body m) ∧
  length scs = length (vm_blob_kzg_commitments m) ∧
  Forall (λ s, sc_signed_block_header s = h) scs.
Proof.
  unfold check_signed_header. destruct scs as [|s0 rest]; [done|].
  destruct (forallb _ rest) eqn:Hall; cbn [negb]; [|done].
  destruct (_ =? height) eqn:Hs; cbn [negb]; [|done].
  destruct (validator_index vs proposer) as [i|]; cbn [ok_or obind]; [|done].
  destruct (_ =? i); cbn [negb]; [|done].
  destruct (get_by_address vs proposer) as [v|]; cbn [ok_or obind]; [|done].
  destruct (verify_signature _ _) eqn:Hsig; cbn [negb]; [|done].
  destruct (_ =? _)%nat eqn:Hl; cbn [negb]; [|done].
  case_bool_decide as Hb; cbn [negb]; [|done]. intros [= <-].
  split_and!; [eauto|lia|done|by apply Nat.eqb_eq in Hl|].
  constructor; [done|]. apply Forall_forall. intros x Hx%list_elem_of_In.
  rewrite forallb_forall in Hall. by apply Hall, bool_decide_eq_true_1 in Hx.
Qed.

Lemma check_sidecar_sound (cs : list KzgCommitment) (body : BeaconBlockBodyMinimal) (root : B256)
    (s : BlobSidecar) :
  check_sidecar cs body root s = Ok tt →
  cs !! Z.to_nat (sc_index s) = Some (sc_kzg_commitment s) ∧
  verify_kzg_commitment_inclusion_proof (sc_kzg_commitment s)
    (sc_kzg_commitment_inclusion_proof s) (Z.to_nat (sc_index s)) root = true.
Proof.
  unfold check_sidecar. destruct (cs !! _) as [c|] eqn:Hc; [|done].
  case_bool_decide as Hcc; cbn [negb]; [|done]. subst c.
  destruct (reconstruct_roots_from_proof _ _ _); cbn [omap_err obind]; try done.
  destruct (generate_kzg_commitment_inclusion_proof _ _ _); cbn [obind]; try done.
  by destruct (verify_kzg_commitment_inclusion_proof _ _ _ _).
Qed.

Lemma verify_blob_sidecars_run (height : Height) (proposer : Address) (m : ValueMetadata)
    (scs : list BlobSidecar) (s s' : State E) (h : SignedBeaconBlockHeader) :
  verify_blob_sidecars height proposer m scs s = (s', Ok h) →
  same_state s s' ∧
  sidecars_sound (s_genesis_validators s) (s_store s) height proposer m scs h.
Proof.
  unfold verify_blob_sidecars, bind at 1, get. unfold bind at 1, lift at 1.
  destruct (check_signed_header _ _ _ _ _) as [h'| |] eqn:Hck; try done.
  intros [(root & s1 & Hres & Hr)|(? & _ & _ & ?)]%bind_run; [|done].
  apply resolve_parent_root_run in Hres as [Hs1 Hroot].
  case_bool_decide as Hpr; cbn [negb] in Hr; [|done]. subst root.
  unfold bind, lift, ret in Hr.
  destruct (check_all _ scs) as [[]| |] eqn:Hall; try done. injection Hr as <- <-.
  split; [done|]. destruct (check_signed_header_sound _ _ _ _ _ _ Hck) as (H1 & H2 & H3 & H4 & H5).
  split; try done. apply Forall_lookup. intros i sc Hi.
  apply check_all_Ok with (i := i) (x := sc) in Hall; [|done].
  rewrite H3 in Hall. apply check_sidecar_sound in Hall.
  rewrite Forall_lookup in H5. split; [by eapply H5|done].
Qed.

Lemma lift_bind_run {A A'} (o : outcome string A) (k : A → M (State E) string A') (s s' : State E)
    (a : A') :
  bind (lift o) k s = (s', Ok a) → ∃ x, o = Ok x ∧ k x s = (s', Ok a).
Proof. unfold bind, lift. destruct o; [eauto|done..]. Qed.

(** The metadata of a round as it is stored: that of the value. *)
Definition metadata_stored (parts : ProposalParts) (m : ValueMetadata) (mb : bytes) (st st' : Store) : Prop :=
  ∃ bm fs, encode bm = Ok mb ∧ bm_height bm = pp_height parts ∧
    bm_blob_kzg_commitments bm = vm_blob_kzg_commitments m ∧
    bm_execution_payload_header bm = vm_execution_payload_header m ∧
    st' = with_blob_metadata_undecided
      (insert_if_absent (round_key (pp_height parts) (pp_round parts)) mb (blob_metadata_undecided st))
      (with_tx_faults fs st).

Lemma BlobMetadata_new_run (h : Height) root cs hashes hd hint (bm : BlobMetadata) :
  BlobMetadata_new (E := string) h root cs hashes hd hint = Ok bm →
  bm_height bm = h ∧ bm_blob_kzg_commitments bm = cs ∧ bm_execution_payload_header bm = hd.
Proof. unfold BlobMetadata_new. destruct (try_u16 _); [|done]. destruct (negb _); [done|]. by intros [= <-]. Qed.

(** The round's metadata is stored, under a header the follower verified. *)
Lemma store_blob_round_run (parts : ProposalParts) (m : ValueMetadata) (scs : list BlobSidecar)
    (s s' : State E) :
  store_blob_round parts m scs s = (s', Ok tt) →
  (∃ mb, metadata_stored parts m mb (s_store s) (s_store s')) ∧
  ∃ h, sidecars_sound (s_genesis_validators s) (s_store s) (pp_height parts) (pp_proposer parts) m scs h.
Proof.
  unfold store_blob_round. intros (h & s1 & Hv & Hr)%bind_run_Ok.
  apply verify_blob_sidecars_run in Hv as [(st & [fs ->] & ->) Hv]. split; [|eauto].
  apply bind_run_Ok in Hr as (u & s2 & He & Hr).
  pose proof (with_engine_store (be_verify_and_store (pp_height parts) (Round_as_i64 (pp_round parts)) scs)
    (set_store (with_tx_faults fs (s_store s)) s)) as Hs2. rewrite He in Hs2. simpl in Hs2.
  unfold bind at 1, get in Hr.
  apply lift_bind_run in Hr as (bm & (B1 & B2 & B3)%BlobMetadata_new_run & Hr).
  apply with_store_run in Hr as (st' & (mb & fs' & Hmb & ->)%put_round_metadata_run & ->).
  exists mb, bm, fs'. split_and!; try done. simpl. by rewrite Hs2.
Qed.

Lemma store_blobless_round_run (parts : ProposalParts) (m : ValueMetadata) (s s' : State E) :
  vm_blob_kzg_commitments m = [] → store_blobless_round parts m s = (s', Ok tt) →
  ∃ mb, metadata_stored parts m mb (s_store s) (s_store s').
Proof.
  intros Hm. unfold store_blobless_round. intros (root & s1 & Hroot & Hr)%bind_run_Ok.
  apply resolve_parent_root_run in Hroot as [(st & [fs ->] & ->) _].
  unfold bind at 1, get in Hr.
  apply lift_bind_run in Hr as (bm & (B1 & B2 & B3)%BlobMetadata_new_run & Hr).
  apply with_store_run in Hr as (st' & (mb & fs' & Hmb & ->)%put_round_metadata_run & ->).
  exists mb, bm, fs'. split_and!; try done. congruence.
Qed.

Lemma assembled_metadata_commitments (data : bytes) (reqs : list bytes) (scs : list BlobSidecar)
    (m : ValueMetadata) :
  assembled_metadata data reqs scs = Ok (Some m) → vm_blob_kzg_commitments m = sc_kzg_commitment <$> scs.
Proof.
  unfold assembled_metadata. destruct data as [|x data]; [by destruct (negb _)|].
  destruct (payload_from_ssz _) as [payload|]; [|by destruct (negb _)].
  unfold ValueMetadata_new. destruct (try_u16 _); [|done]. by intros [= <-].
Qed.

Lemma assemble_and_store_blobs_run (now : option Z) (parts : ProposalParts) (s s' : State E)
    (pv : ProposedValue) (data : bytes) (reqs : list bytes) (has_blobs : bool) :
  let scs := assemble_sidecars (pp_parts parts) in
  assemble_and_store_blobs now parts s = (s', Ok (pv, data, reqs, has_blobs)) →
  data = assemble_data (pp_parts parts) ∧
  collect_requests [] (omap as_data (pp_parts parts)) = Ok reqs ∧
  validate_execution_requests reqs = Ok tt ∧
  ∃ m mb, assembled_metadata data reqs scs = Ok (Some m) ∧
    pv = mkProposed (pp_height parts) (pp_round parts) Nil (pp_proposer parts) (Value_new m) Valid ∧
    metadata_stored parts m mb (s_store s) (s_store s') ∧
    validate_proposed_timestamp now (s_latest_block s) (eh_timestamp (vm_execution_payload_header m))
      (eh_parent_hash (vm_execution_payload_header m)) = Ok tt ∧
    (scs ≠ [] → ∃ h, sidecars_sound (s_genesis_validators s) (s_store s) (pp_height parts)
                       (pp_proposer parts) m scs h).
Proof.
  cbv zeta. unfold assemble_and_store_blobs.
  intros (rq & Hrq & Hr)%lift_bind_run. apply lift_bind_run in Hr as ([] & Hval & Hr).
  apply lift_bind_run in Hr as ([m|] & Hm & Hr); [|done].
  unfold bind at 1, get in Hr. apply lift_bind_run in Hr as ([] & Hts & Hr).
  apply bind_run_Ok in Hr as ([] & s1 & Hst & Hr). injection Hr as <- <- <- <- <-.
  split_and!; [done..|].
  case_bool_decide as Hb; cbn [negb] in Hst.
  - apply store_blobless_round_run in Hst as [mb Hmb].
    2: { rewrite (assembled_metadata_commitments _ _ _ _ Hm). by rewrite Hb. }
    exists m, mb. by split_and!.
  - apply store_blob_round_run in Hst as [[mb Hmb] Hs]. exists m, mb. by split_and!.
Qed.

(** C7: a proposal is handed to consensus only if it is current, signed by its
    proposer and dated after the latest block, its value is the one its payload,
    requests and sidecars determine, and its sidecars, when it has any, are
    included in its body and chained to the decided parent.  By then its value,
    payload and blob metadata are in the store, each unless the round already
    had one; nothing else of the store has changed, no decided table in
    particular, and neither has any decided blob. *)
Theorem accepted_proposal_sound (now : option Z) (from : bytes) (part : StreamMessage)
    (s s' : State E) (pv : ProposedValue) :
  received_proposal_part now from part s = (s', Ok (Some pv)) →
  ∃ parts reqs m bm vb mb,
    let data := assemble_data (pp_parts parts) in
    let scs := assemble_sidecars (pp_parts parts) in
    (PartStreamsMap_insert (s_streams_map s) from part).2 = Some parts ∧
    s_current_height s ≤ pp_height parts ∧
    verify_proposal_signature (s_genesis_validators s) parts = Ok tt ∧
    collect_requests [] (omap as_data (pp_parts parts)) = Ok reqs ∧
    validate_execution_requests reqs = Ok tt ∧
    assembled_metadata data reqs scs = Ok (Some m) ∧
    pv = mkProposed (pp_height parts) (pp_round parts) Nil (pp_proposer parts) (Value_new m) Valid ∧
    (let hd := vm_execution_payload_header m in
     validate_proposed_timestamp now (s_latest_block s) (eh_timestamp hd) (eh_parent_hash hd) = Ok tt) ∧
    (scs ≠ [] → ∃ h, sidecars_sound (s_genesis_validators s) (s_store s) (pp_height parts)
       (pp_proposer parts) m scs h) ∧
    encode pv = Ok vb ∧ encode bm = Ok mb ∧ bm_height bm = pp_height parts ∧
    bm_blob_kzg_commitments bm = vm_blob_kzg_commitments m ∧
    bm_execution_payload_header bm = vm_execution_payload_header m ∧
    round_stored (round_key (pp_height parts) (pp_round parts)) vb
      (encode_to_vec (mkPayloadRecord data reqs)) mb (s_store s) (s_store s') ∧
    decided_same (s_store s) (s_store s') ∧
    (∀ h i, decided_blob (s_blob_engine s') h i = decided_blob (s_blob_engine s) h i).
Proof using L.
  intros Hrun. pose proof (run_steps _ _ _ _ _ (received_blobs_same now from part) Hrun) as Hblobs.
  unfold received_proposal_part, bind at 1, get in Hrun.
  destruct (PartStreamsMap_insert (s_streams_map s) from part) as [streams [parts|]] eqn:Hins;
    unfold bind at 1, modify in Hrun; [|done].
  destruct (pp_height parts <? s_current_height s) eqn:Hcur; [done|].
  destruct (verify_proposal_signature (s_genesis_validators s) parts) as [[]| |] eqn:Hsig; [|done..].
  apply bind_run_Ok in Hrun as (r & s1 & Hatt & Hrun).
  destruct r as [e|[[[pv' data] reqs] hb]]; [done|].
  assert (assemble_and_store_blobs now parts (set_streams_map streams s) = (s1, Ok (pv', data, reqs, hb)))
    as Has.
  { revert Hatt. unfold attempt. destruct (assemble_and_store_blobs _ _ _) as [s2 [x| |]]; by intros [= -> ->]. }
  apply assemble_and_store_blobs_run in Has as (-> & Hrq & Hval & m & mb & Hm & -> & Hms & Hts & Hss).
  destruct Hms as (bm & fs1 & Hbm & Hh & Hcs & Hhd & Hs1). simpl in Hs1.
  apply bind_run_Ok in Hrun as (u1 & s2 & Htr & Hrun).
  assert (s_store s2 = s_store s1) as Hs2.
  { destruct hb; simpl in Htr; by injection Htr as <-. }
  apply bind_run_Ok in Hrun as (u2 & s3 & Hsp & Hrun).
  apply bind_run_Ok in Hrun as (u3 & s4 & Hbd & Hrun). injection Hrun as <- <-.
  apply with_store_run in Hsp as (st3 & (vb & fs2 & Hvb & ->)%store_undecided_proposal_run & ->).
  apply with_store_run in Hbd as (st4 & [fs3 ->]%store_undecided_block_data_run & ->).
  exists parts, reqs, m, bm, vb, mb. cbv zeta. simpl. rewrite Hs2, Hs1.
  split_and!; try done; [lia|by exists fs3].
Qed.
End receiving.

(** ** Concrete inputs *)
#[local] Existing Instance demo_crypto.
#[local] Existing Instance demo_merkle.
#[local] Existing Instance demo_codecs.

Definition demo_bundle : BlobsBundle :=
  mkBundle [replicate 48 1; replicate 48 2] [replicate 48 3; replicate 48 4] [[10]; [11]].
Definition demo_blob_value : LocallyProposedValue :=
  mkLocal 8 (RSome 0)
    (mkValue 5 (mkValueMetadata (zero_header 0) [replicate 48 1; replicate 48 2] 2 0) []).
Definition demo_proposer : State BlobEngineImpl := demo_state (demo_all_archived false).
Definition demo_follower : State BlobEngineImpl :=
  set_executed_height 3 (set_current_height 8 demo_proposer).

Lemma proposed_sidecars_accepted_witness :
  ∃ s' h scs, prepare_blob_sidecar_parts demo_blob_value (Some demo_bundle) demo_proposer
      = (s', Ok (h, scs)) ∧
    sc_blob <$> scs = [[10]; [11]] ∧
    (verify_blob_sidecars 8 (zeros 20) (v_metadata (lv_value demo_blob_value)) scs demo_follower).2
      = Ok h.
Proof.
  destruct (proposed_sidecars_accepted demo_merkle_laws demo_crypto_laws demo_blob_value demo_bundle
              demo_proposer demo_follower (mkValidator (zeros 20) (zeros 32) 1))
    as (s' & h & scs & Hp & Hb & _ & _ & Hv).
  - discriminate.
  - reflexivity.
  - reflexivity.
  - reflexivity.
  - unfold MAX_BLOB_COMMITMENTS_PER_BLOCK. simpl. lia.
  - reflexivity.
  - reflexivity.
  - reflexivity.
  - reflexivity.
  - reflexivity.
  - exists s', h, scs. split; [exact Hp|]. split; [exact Hb|exact Hv].
Defined.

Lemma restream_rebuilds_sidecars_witness :
  ∃ h scs bm, rebuild_blob_sidecars_for_restream demo_validators (zeros 32) bm (zeros 20) scs = Ok scs ∧
    (prepare_blob_sidecar_parts demo_blob_value (Some demo_bundle) demo_proposer).2 = Ok (h, scs).
Proof.
  destruct (prepare_blob_sidecar_parts_total demo_merkle_laws demo_blob_value demo_bundle demo_proposer 0)
    as (s' & h & scs & Hp).
  - reflexivity.
  - reflexivity.
  - reflexivity.
  - unfold MAX_BLOB_COMMITMENTS_PER_BLOCK. simpl. lia.
  - reflexivity.
  - reflexivity.
  - exists h, scs. eexists. rewrite Hp. split; [|reflexivity].
    apply (restream_rebuilds_sidecars demo_blob_value demo_bundle demo_proposer s' h scs
             [B256_ZERO; B256_ZERO] _ Hp). reflexivity.
Defined.

(** A proposal without blobs, its last message just arriving, at a node whose
    hashes and signatures are trivial. *)
Definition null_crypto : Crypto := {|
  keccak256 _ := B256_ZERO; sha256 _ := B256_ZERO; default_hasher _ := 0;
  ed25519_sign _ _ := zeros 64; ed25519_public k := k; ed25519_verify _ _ _ := true;
  hash32_concat _ _ := B256_ZERO; merkle_hasher _ _ := B256_ZERO; tree_hash_bytes48 _ := B256_ZERO;
  beacon_header_tree_hash _ _ _ _ _ := B256_ZERO; requests_hash _ := B256_ZERO |}.
Definition constant_codec {A} (a : A) : Codec A :=
  {| encode _ := Ok [0]; decode _ := Ok a; codec_wf _ := True |}.
Definition demo_payload : ExecutionPayloadV3 :=
  mkPayload B256_ZERO (zeros 20) B256_ZERO B256_ZERO (zeros 256) B256_ZERO 1 0 0 101 [] 0 B256_ZERO [] [] 0 0.
Definition demo_value_of_payload : Value :=
  mkValue 0 (mkValueMetadata (@header_from_payload null_crypto demo_payload (Some B256_ZERO)) [] 0 0) [].
Definition null_codecs : NodeCodecs := {|
  nc_value := constant_codec demo_value_of_payload;
  nc_proposed := constant_codec (mkProposed 8 (RSome 0) Nil (zeros 20) demo_value_of_payload Valid);
  nc_certificate := demo_certificate_codec; nc_consensus := demo_consensus_codec;
  nc_metadata := constant_codec (demo_all_archived false);
  nc_record := demo_record_codec; nc_payload := demo_payload_prost;
  nc_notice_body := demo_notice_prost |}.
Definition demo_ssz : PayloadSsz := {| payload_from_ssz _ := Some demo_payload |}.
Definition demo_messages : list StreamMessage :=
  stream_messages [9]
    [PInit (mkInit 8 (RSome 0) (zeros 20)); PData (mkData [1] []); PFin (zeros 64)].
Definition demo_receiver : State BlobEngineImpl :=
  set_latest_block (Some (mkExecutionBlock B256_ZERO 7 B256_ZERO 100 B256_ZERO))
    (set_current_height 8
       (set_streams_map
          (@feed demo_stream_api ∅ (pair [5] <$> take 3 demo_messages)).1 demo_proposer)).

Lemma accepted_proposal_sound_witness :
  ∃ s' pv, @received_proposal_part BlobEngineImpl demo_rocksdb_engine null_crypto demo_merkle null_codecs
      demo_ssz demo_stream_api (Some 101) [5] (mkMsg [9] 3 SFin) demo_receiver = (s', Ok (Some pv)) ∧
    is_Some (blob_metadata_undecided (s_store s') !! round_key 8 (RSome 0)) ∧
    decided_same (s_store demo_receiver) (s_store s').
Proof.
  destruct (@received_proposal_part BlobEngineImpl demo_rocksdb_engine null_crypto demo_merkle null_codecs
      demo_ssz demo_stream_api (Some 101) [5] (mkMsg [9] 3 SFin) demo_receiver) as [s' r] eqn:Hrun.
  assert (r = Ok (Some (mkProposed 8 (RSome 0) Nil (zeros 20) demo_value_of_payload Valid))) as ->.
  { apply (f_equal snd) in Hrun. cbn [snd] in Hrun. rewrite <-Hrun. vm_compute. reflexivity. }
  eexists s', _. split; [reflexivity|].
  destruct (accepted_proposal_sound demo_engine_laws (Some 101) [5] (mkMsg [9] 3 SFin)
    demo_receiver s' _ Hrun) as (parts & reqs & m & bm & vb & mb & _ & _ & _ & _ & _ & _ & Hpv & _ & _ & _ & _
      & _ & _ & _ & [fs Hst] & Hsame & _).
  injection Hpv as Hh Hr _ _. rewrite <-Hh, <-Hr in Hst. rewrite Hst. split; [|by rewrite <-Hst].
  simpl. rewrite insert_if_absent_entry. by eexists.
Defined.
