(* ===== verification/Commit.v ===== *)
(** * Committing a decided value ([State::commit])

    A commit persists the decided value, promotes the three layers of metadata,
    moves the cached parent root on, prunes what is no longer needed and
    advances the height.  When the value is already decided, as on replay of
    the write-ahead log, only the missing pieces are put in place. *)
From S2P Require Import Prelude Types Merkle Streaming Metadata BlobStore BlobEngine Store Proto State Archival BlobProposal.
Open Scope monad_scope.

(** [tree_hash::merkle_root]: bytes, number of leaves. *)
Class TreeHashLib := { tree_merkle_root : bytes → nat → B256 }.

Section commit.
Context {E : Type} {B : BlobEngine E} `{Crypto} `{MerkleTreeLib} `{NodeCodecs} `{TreeHashLib}.

Abbreviation StM A := (M (State E) string A) (only parsing).

(** The root of the validators' addresses, each padded to 32 bytes. *)
Definition validator_set_hash (vs : ValidatorSet) : B256 :=
  match vs_validators vs with
  | [] => B256_ZERO
  | vals => tree_merkle_root (concat ((λ v, val_address v ++ zeros 12) <$> vals)) (length vals)
  end.

(** The proposal to commit; [true] when the value is already decided. *)
Definition commit_proposal (cert : CommitCertificate) : StM (ProposedValue * bool) :=
  let* p := with_store (get_undecided_proposal (cc_height cert) (cc_round cert)) in
  match p with
  | Some p => ret (p, false)
  | None =>
    let* d := with_store (get_decided_value (cc_height cert)) in
    match d with
    | Some d => ret (mkProposed (cc_height cert) (cc_round cert) Nil (zeros 20) (dv_value d) Valid, true)
    | None => fail "Cannot commit: neither undecided proposal nor decided value found"%string
    end
  end.

(** The decided value, read back before going on. *)
Definition persist_decided (cert : CommitCertificate) (p : ProposedValue) : StM unit :=
  with_store (store_decided_value cert (pv_value p)) ;;;
  let* d := with_store (get_decided_value (cc_height cert)) in
  match d with
  | None => fail "Decided value not persisted"%string
  | Some _ => ret tt
  end.

Definition commit_metadata (vs : ValidatorSet) (cert : CommitCertificate) (p : ProposedValue)
    : ConsensusBlockMetadata :=
  let h := vm_execution_payload_header (v_metadata (pv_value p)) in
  mkConsensusMetadata (cc_height cert) (cc_round cert) (pv_proposer p) (eh_timestamp h)
    (validator_set_hash vs) (eh_block_hash h) (eh_gas_limit h) (eh_gas_used h).

Definition set_parent_cache (height : Height) (m : BlobMetadata) : StM unit :=
  modify (set_last_blob_sidecar_root (hash_tree_root (to_beacon_header m))) ;;;
  modify (set_last_blob_sidecar_height height).

(** Layers 1 and 2: consensus metadata, then blob metadata and the cached
    parent root. *)
Definition promote_layers (cert : CommitCertificate) (p : ProposedValue) : StM unit :=
  let* s := get in
  with_store (put_consensus_block_metadata (cc_height cert)
                (commit_metadata (s_genesis_validators s) cert p)) ;;;
  with_store (mark_blob_metadata_decided (cc_height cert) (cc_round cert)) ;;;
  let* om := with_store (get_blob_metadata (cc_height cert)) in
  match om with
  | None => fail "Promoted BlobMetadata missing"%string
  | Some m => set_parent_cache (cc_height cert) m
  end.

Definition commit_block_data (cert : CommitCertificate) : StM unit :=
  let* data := with_store (get_block_data (cc_height cert) (cc_round cert)) in
  let* reqs := with_store (get_execution_requests (cc_height cert) (cc_round cert)) in
  match data, reqs with
  | Some data, Some reqs => with_store (store_decided_block_data (cc_height cert) data reqs)
  | _, _ => ret tt
  end.

(** The lowest height to keep: the retention window, or a height whose blobs
    still wait for their archive. *)
Definition retain_height (s : State E) (cert : CommitCertificate) : Height :=
  let window := Z.max (s_blob_retention_window s) 1 in
  let floor := saturating_sub64 (cc_height cert) (window - 1) in
  match head (ascending (s_pending_archive_heights s)) with
  | Some pending => if pending <? floor then pending else floor
  | None => floor
  end.

(** A round of the height that was not decided. *)
Definition drop_orphan (cert : CommitCertificate) (round : Z) : StM unit :=
  if round =? Round_as_i64 (cc_round cert) then ret tt
  else match try_u32 round with
  | None => ret tt
  | Some r =>
    attempt (F := string) (with_store (get_blob_metadata_undecided (cc_height cert) (RSome r))) ;;;
    attempt (F := string) (with_store (delete_blob_metadata_undecided (cc_height cert) (RSome r))) ;;;
    attempt (F := string) (with_engine (be_drop_round (cc_height cert) round)) ;;;
    ret tt
  end.

(** After the layers: the payload, the prune, the orphaned rounds. *)
Definition commit_cleanup (cert : CommitCertificate) : StM unit :=
  commit_block_data cert ;;;
  let* s := get in
  with_store (prune (retain_height s cert)) ;;;
  let* s := get in
  foreach (from_option elements [] (s_blob_rounds s !! cc_height cert)) (drop_orphan cert) ;;;
  modify (λ s, set_blob_rounds (delete (cc_height cert) (s_blob_rounds s)) s).

Definition commit_fresh (cert : CommitCertificate) (p : ProposedValue) : StM unit :=
  persist_decided cert p ;;;
  promote_layers cert p ;;;
  commit_cleanup cert.

(** Replay: promote whatever is left undecided, then refresh the cache. *)
Definition commit_replay (cert : CommitCertificate) : StM unit :=
  attempt (F := string)
    (with_engine (be_mark_decided (cc_height cert) (Round_as_i64 (cc_round cert)))) ;;;
  let* d := attempt (with_store (get_blob_metadata (cc_height cert))) in
  let* om := match d with
             | inr (Some m) => ret (Some m)
             | inr None =>
               let* u := attempt (with_store (get_blob_metadata_undecided (cc_height cert)
                                                (cc_round cert))) in
               match u with
               | inr (Some m) =>
                 attempt (F := string) (with_store (mark_blob_metadata_decided (cc_height cert)
                                                      (cc_round cert))) ;;;
                 ret (Some m)
               | _ => ret None
               end
             | inl _ => ret None
             end in
  match om with
  | Some m => set_parent_cache (cc_height cert) m
  | None => ret tt
  end.

Definition advance_height (cert : CommitCertificate) : StM unit :=
  modify (λ s, set_current_height
                 (Z.max (s_current_height s) (Height_increment (cc_height cert))) s) ;;;
  modify (set_current_round (RSome 0)).

(** Everything up to the flush of pending prunes. *)
Definition commit_persist (cert : CommitCertificate) : StM unit :=
  let* (p, replay) := commit_proposal cert in
  (if replay then commit_replay cert else commit_fresh cert p) ;;;
  modify (λ s, if s_latest_finalized_height s <? cc_height cert
               then set_latest_finalized_height (cc_height cert) s else s).

Definition commit (cert : CommitCertificate) : StM unit :=
  commit_persist cert ;;;
  flush_pending_prunes ;;;
  advance_height cert.
End commit.

(** ** What a commit keeps *)

Lemma get_undecided_proposal_same `{Codec ProposedValue} (h : Height) (r : Round) :
  steps same_tables (get_undecided_proposal h r).
Proof.
  apply steps_blocking. apply steps_bind; [apply _|apply steps_next_fault; [apply _|auto with steps]|].
  intros [[]|]; steps_tac.
Qed.
Lemma get_decided_value_same `{Codec Value} `{Codec CommitCertificate} (h : Height) :
  steps same_tables (get_decided_value h).
Proof. apply steps_blocking, read_tx_same. Qed.
Lemma get_blob_metadata_undecided_same `{Codec BlobMetadata} (h : Height) (r : Round) :
  steps same_tables (get_blob_metadata_undecided h r).
Proof. apply steps_blocking, read_tx_same. Qed.
Lemma get_block_data_same `{ProstMessage BlockPayloadRecord} (h : Height) (r : Round) :
  steps same_tables (get_block_data h r).
Proof.
  apply steps_blocking. apply steps_bind; [apply _|apply read_tx_same|]. intros; apply steps_ret, _.
Qed.
Lemma get_execution_requests_same `{ProstMessage BlockPayloadRecord} (h : Height) (r : Round) :
  steps same_tables (get_execution_requests h r).
Proof.
  apply steps_blocking. apply steps_bind; [apply _|apply read_tx_same|]. intros; apply steps_ret, _.
Qed.
#[export] Hint Resolve get_undecided_proposal_same get_decided_value_same
  get_blob_metadata_undecided_same get_block_data_same get_execution_requests_same
  get_blob_metadata_same get_consensus_block_metadata_same : steps.

(** ** What a decision writes *)

(** The only operation that writes the tables of decided values. *)
Definition decides (op : StoreOp) : bool :=
  match op with OpStoreDecided _ _ => true | _ => false end.

(** The tables of decisions are as they were. *)
Record log_same (s s' : Store) : Prop := {
  same_values : decided_values s' = decided_values s;
  same_certificates : certificates s' = certificates s }.
#[export] Instance log_same_preorder : PreOrder log_same.
Proof. split; [by intros s; split|]. intros s1 s2 s3 [] []. split; congruence. Qed.

Lemma log_same_faults (s : Store) (fs : list (option TxFault)) : log_same s (with_tx_faults fs s).
Proof. by split. Qed.
#[export] Hint Resolve log_same_faults : steps.

(** The certificate may have been entered, with a value. *)
Definition log_entered `{Codec CommitCertificate} (cert : CommitCertificate) (s s' : Store) : Prop :=
  log_same s s' ∨ ∃ vb cb, encode cert = Ok cb ∧
    decided_values s' = <[cc_height cert := vb]> (decided_values s) ∧
    certificates s' = <[cc_height cert := cb]> (certificates s).
#[export] Instance log_entered_preorder `{Codec CommitCertificate} cert : PreOrder (log_entered cert).
Proof.
  split; [by left|]. intros s1 s2 s3 [[Hv Hc]|(vb & cb & Hcb & Hv & Hc)] [[Hv' Hc']|(vb' & cb' & Hcb' & Hv' & Hc')].
  - left. split; congruence.
  - right. exists vb', cb'. split_and!; congruence.
  - right. exists vb, cb. split_and!; congruence.
  - right. exists vb', cb'. rewrite Hv', Hv, Hc', Hc, !insert_insert_eq. done.
Qed.

(** Decided block data is never overwritten. *)
Record blocks_kept (s s' : Store) : Prop := { bk_data : decided_block_data s ⊆ decided_block_data s' }.
#[export] Instance blocks_kept_preorder : PreOrder blocks_kept.
Proof. split; [by intros s|]. intros s1 s2 s3 [] []. split. by etrans. Qed.

Lemma insert_if_absent_subseteq (h : Height) (b : bytes) (t : HTable) : t ⊆ insert_if_absent h b t.
Proof. unfold insert_if_absent. destruct (t !! h) eqn:E; [done|by apply insert_subseteq]. Qed.

(** What deciding [cert] may write of the decided tables: its own value and
    certificate together, and the block data and consensus metadata of its own
    height. *)
Record decided_write `{Codec CommitCertificate} (cert : CommitCertificate) (s s' : Store) : Prop := {
  dw_log : log_entered cert s s';
  dw_block : blocks_kept s s';
  dw_records : ∀ h, h ≠ cc_height cert → records_same h s s' }.
#[export] Instance decided_write_preorder `{Codec CommitCertificate} cert : PreOrder (decided_write cert).
Proof.
  split; [by intros s; split|]. intros s1 s2 s3 [] []. split; [by etrans..|]. intros h Hh.
  etrans; eauto.
Qed.

Section decision_relations.
Context {NC : NodeCodecs}.

Lemma run_op_log_same (op : StoreOp) : decides op = false → steps log_same (run_op op).
Proof.
  destruct op; cbn [run_op decides]; intros Hd; try done.
  3: { intros s. unfold bind. destruct (prune_run h s) as (ks & ks' & fs & Hp).
       destruct (prune h s) as [s' []]; simpl in *; by destruct Hp as [-> | ->]. }
  1-10, 12: store_steps; [auto with steps|open_body].
  unfold seed_genesis_blob_metadata.
  apply steps_bind; [apply _|apply steps_lift, _|intros m].
  apply steps_blocking, steps_write_tx; [apply _|auto with steps|open_body].
Qed.

Lemma run_op_entered (cert : CommitCertificate) (op : StoreOp) :
  decides op = false → steps (log_entered cert) (run_op op).
Proof. intros Hd s. left. by apply run_op_log_same. Qed.

Lemma store_decided_entered (cert : CommitCertificate) (v : Value) :
  steps (log_entered cert) (store_decided_value cert v).
Proof.
  apply steps_blocking, steps_write_tx; [apply _|intros; left; by split|].
  intros s s' []. destruct (encode v) as [vb| |]; simpl; try done.
  destruct (encode cert) as [cb| |] eqn:Hcb; simpl; try done. intros [= <-]. right. by exists vb, cb.
Qed.

Lemma run_op_blocks (op : StoreOp) : steps blocks_kept (run_op op).
Proof.
  destruct op; cbn [run_op].
  4: { intros s. unfold bind. destruct (prune_run h s) as (ks & ks' & fs & Hp).
       destruct (prune h s) as [s' []]; simpl in *; by destruct Hp as [-> | ->]. }
  6: { store_steps; [by split|]. intros s s' [] [= <-]. split. apply insert_if_absent_subseteq. }
  11: { unfold seed_genesis_blob_metadata. apply steps_bind; [apply _|apply steps_lift, _|intros m].
        apply steps_blocking, steps_write_tx; [apply _|by split|open_body; reflexivity]. }
  all: store_steps; [by split|open_body; reflexivity].
Qed.

Lemma run_op_decided_write (cert : CommitCertificate) (op : StoreOp) :
  decides op = false → op_records op = None ∨ op_records op = Some (cc_height cert) →
  steps (decided_write cert) (run_op op).
Proof.
  intros Hd Hr s. split; [by apply run_op_entered|apply run_op_blocks|].
  intros h Hh. apply run_op_records_same. destruct Hr as [-> | ->]; congruence.
Qed.

Lemma store_decided_write (cert : CommitCertificate) (v : Value) :
  steps (decided_write cert) (store_decided_value cert v).
Proof.
  intros s. split; [by apply store_decided_entered|apply (run_op_blocks (OpStoreDecided cert v))|].
  intros h _. by apply (run_op_records_same (OpStoreDecided cert v)).
Qed.
End decision_relations.

(** ** The steps of a commit *)

Section commit_proofs.
Context {E : Type} {B : BlobEngine E} {V : DecidedView E} (L : BlobEngineLaws E B V).
Context {C : Crypto} {T : MerkleTreeLib} {NC : NodeCodecs} {TH : TreeHashLib}.

(** A relation on states that the clean-up after the layers respects. *)
Record cleanup_rel (cert : CommitCertificate) (R : State E → State E → Prop) : Prop := {
  cr_preorder : PreOrder R;
  cr_read : ∀ s fs, R s (set_store (with_tx_faults fs (s_store s)) s);
  cr_block : ∀ d q, steps R (with_store (store_decided_block_data (cc_height cert) d q));
  cr_delete : ∀ r, steps R (with_store (delete_blob_metadata_undecided (cc_height cert) r));
  cr_prune : ∀ s, R s (with_store (prune (retain_height s cert)) s).1;
  cr_drop : ∀ h r, steps R (with_engine (be_drop_round h r));
  cr_rounds : ∀ t s, R s (set_blob_rounds t s) }.

(** One that every step of [commit] outside the flush respects. *)
Record commit_rel (cert : CommitCertificate) (R : State E → State E → Prop) : Prop := {
  cr_cleanup : cleanup_rel cert R;
  cr_value : ∀ v, steps R (with_store (store_decided_value cert v));
  cr_consensus : ∀ m, steps R (with_store (put_consensus_block_metadata (cc_height cert) m));
  cr_promote : steps R (with_store (mark_blob_metadata_decided (cc_height cert) (cc_round cert)));
  cr_mark : ∀ h r, steps R (with_engine (be_mark_decided h r));
  cr_cache : ∀ m s, R s (set_last_blob_sidecar_root (hash_tree_root (to_beacon_header m)) s);
  cr_cache_height : ∀ s, R s (set_last_blob_sidecar_height (cc_height cert) s);
  cr_final : ∀ s, s_latest_finalized_height s < cc_height cert →
    R s (set_latest_finalized_height (cc_height cert) s) }.

Lemma cleanup_read (cert : CommitCertificate) (R : State E → State E → Prop) {A}
    (c : M Store StoreError A) :
  cleanup_rel cert R → steps same_tables c → steps R (with_store c).
Proof.
  intros HR Hc. apply (steps_with_store _ _ _ Hc). intros s st [fs ->]. apply (cr_read _ _ HR).
Qed.

Lemma commit_cleanup_rel (cert : CommitCertificate) (R : State E → State E → Prop) :
  cleanup_rel cert R → steps R (commit_cleanup cert).
Proof.
  intros HR. pose proof (λ A c, cleanup_read cert R (A := A) c HR) as Hr.
  destruct HR as [Hpre _ Hbd Hdel Hprune Hdrop Hrounds].
  assert (∀ t, steps (E := string) R (modify (λ s, set_blob_rounds (delete t (s_blob_rounds s)) s))) as Hrd.
  { intros t. apply steps_modify. intros s. apply Hrounds. }
  assert (∀ r, steps R (drop_orphan cert r)) as Hdo.
  { intros r. unfold drop_orphan. steps_tac. }
  unfold commit_cleanup, commit_block_data.
  apply steps_bind; [done|steps_tac|]. intros _. apply steps_bind_get. intros s.
  unfold bind at 1. specialize (Hprune s).
  destruct (with_store (prune (retain_height s cert)) s) as [s1 [u| |]]; try done.
  simpl in Hprune. etrans; [exact Hprune|].
  enough (steps R (let* s := get in
    foreach (from_option elements [] (s_blob_rounds s !! cc_height cert)) (drop_orphan cert) ;;;
    modify (λ s, set_blob_rounds (delete (cc_height cert) (s_blob_rounds s)) s))) as Hrest by apply Hrest.
  steps_tac.
Qed.

(** The same without the write of the value itself. *)
Record layers_rel (cert : CommitCertificate) (R : State E → State E → Prop) : Prop := {
  lr_cleanup : cleanup_rel cert R;
  lr_consensus : ∀ m, steps R (with_store (put_consensus_block_metadata (cc_height cert) m));
  lr_promote : steps R (with_store (mark_blob_metadata_decided (cc_height cert) (cc_round cert)));
  lr_mark : ∀ h r, steps R (with_engine (be_mark_decided h r));
  lr_cache : ∀ m s, R s (set_last_blob_sidecar_root (hash_tree_root (to_beacon_header m)) s);
  lr_cache_height : ∀ s, R s (set_last_blob_sidecar_height (cc_height cert) s) }.

Lemma commit_layers (cert : CommitCertificate) (R : State E → State E → Prop) :
  commit_rel cert R → layers_rel cert R.
Proof. by intros []. Qed.

Lemma layers_parts_rel (cert : CommitCertificate) (R : State E → State E → Prop) :
  layers_rel cert R →
  steps R (commit_proposal cert) ∧ steps R (commit_replay cert) ∧ steps R (commit_cleanup cert) ∧
  ∀ p, steps R (promote_layers cert p).
Proof.
  intros [HR Hpc Hmd Hmark Hcache Hch]. pose proof (cr_preorder _ _ HR) as Hpre.
  pose proof (λ A c, cleanup_read cert R (A := A) c HR) as Hr.
  assert (∀ m, steps (E := string) R (set_parent_cache (cc_height cert) m)) as Hset.
  { intros m. apply steps_bind; [done|by apply steps_modify|]. intros _. by apply steps_modify. }
  assert (steps R (commit_proposal cert)) as H1 by (unfold commit_proposal; steps_tac).
  assert (steps R (commit_replay cert)) as H2 by (unfold commit_replay; steps_tac).
  split_and!; [done..|by apply commit_cleanup_rel|].
  intros p. unfold promote_layers; steps_tac.
Qed.

Lemma commit_parts_rel (cert : CommitCertificate) (R : State E → State E → Prop) :
  commit_rel cert R →
  steps R (commit_proposal cert) ∧ steps R (commit_replay cert) ∧ steps R (commit_cleanup cert) ∧
  ∀ p, steps R (persist_decided cert p) ∧ steps R (promote_layers cert p).
Proof.
  intros HR. destruct (layers_parts_rel cert R (commit_layers cert R HR)) as (H1 & H2 & H3 & H4).
  destruct HR as [HR Hsd _ _ _ _ _ _]. pose proof (cr_preorder _ _ HR) as Hpre.
  pose proof (λ A c, cleanup_read cert R (A := A) c HR) as Hr.
  split_and!; [done..|]. intros p. split; [|done]. unfold persist_decided. steps_tac.
Qed.

Lemma finalize_rel (cert : CommitCertificate) (R : State E → State E → Prop) :
  commit_rel cert R →
  steps (E := string) R (modify (λ s, if s_latest_finalized_height s <? cc_height cert
                         then set_latest_finalized_height (cc_height cert) s else s)).
Proof.
  intros HR. apply steps_modify. intros s. destruct (_ <? _) eqn:Hlt; [|apply (cr_preorder _ _ (cr_cleanup _ _ HR))].
  apply (cr_final _ _ HR). lia.
Qed.

Lemma commit_persist_rel (cert : CommitCertificate) (R : State E → State E → Prop) :
  commit_rel cert R → steps R (commit_persist cert).
Proof.
  intros HR. pose proof (cr_preorder _ _ (cr_cleanup _ _ HR)) as Hpre.
  destruct (commit_parts_rel cert R HR) as (H1 & H2 & H3 & H4). unfold commit_persist, commit_fresh.
  apply steps_bind; [done..|]. intros [p replay]. destruct (H4 p) as [H5 H6].
  apply steps_bind; [done| |intros _; by apply finalize_rel].
  destruct replay; [done|]. apply steps_bind; [done..|]. intros _. by apply steps_bind.
Qed.

(** The same for the flush: a relation its reads and writes respect. *)
Lemma flush_pending_prunes_rel (R : State E → State E → Prop) `{!PreOrder R} :
  (∀ s fs, R s (set_store (with_tx_faults fs (s_store s)) s)) →
  (∀ h m, steps R (with_store (update_blob_metadata h m))) →
  (∀ h idxs, steps R (with_engine (be_mark_archived h idxs))) →
  (∀ t s, R s (set_pending_prune_heights t s)) → (∀ t s, R s (set_pending_archive_heights t s)) →
  steps R flush_pending_prunes.
Proof.
  intros Hread Hupd Hmark Hp Ha.
  assert (∀ h, steps R (with_store (get_blob_metadata h))) as Hr.
  { intros h. apply (steps_with_store _ _ _ (get_blob_metadata_same h)). intros s st [fs ->]. apply Hread. }
  assert (∀ f : State E → gset Z,
    steps (E := string) R (modify (λ s, set_pending_prune_heights (f s) s))) as Hmp.
  { intros f. apply steps_modify. intros s. apply Hp. }
  assert (∀ f : State E → gset Z,
    steps (E := string) R (modify (λ s, set_pending_archive_heights (f s) s))) as Hma.
  { intros f. apply steps_modify. intros s. apply Ha. }
  assert (∀ h m, steps R (prune_archived_height h m)) as Hpr.
  { intros h m. unfold prune_archived_height. steps_tac. }
  assert (∀ h, steps R (flush_height h)) as Hf.
  { intros h. unfold flush_height, add_pending_prune. steps_tac. }
  unfold flush_pending_prunes. steps_tac.
Qed.

(** Nothing decided is lost, decided blobs only come in, and the undecided
    entries of [k] stay, as long as [k] is above the retained height [N]. *)
Definition commit_safe (cert : CommitCertificate) (k : Z * Z) (N : Height) (s s' : State E) : Prop :=
  retain_height s cert = N →
  retain_height s' cert = N ∧ undecided_stable k (s_store s) (s_store s') ∧
  decided_kept (s_store s) (s_store s') ∧
  ∀ h i, is_Some (decided_blob (s_blob_engine s) h i) → is_Some (decided_blob (s_blob_engine s') h i).

#[export] Instance commit_safe_preorder cert k N : PreOrder (commit_safe cert k N).
Proof.
  split; [by intros s ?; split_and!|]. intros s1 s2 s3 H12 H23 HN.
  destruct (H12 HN) as (HN2 & A1 & B1 & C1). destruct (H23 HN2) as (HN3 & A2 & B2 & C2).
  split_and!; [done|by etrans|by etrans|auto].
Qed.

Lemma commit_safe_rel (cert : CommitCertificate) (k : Z * Z) (N : Height) :
  -1 ≤ k.2 < 2^32 → k.1 ≠ cc_height cert → N ≤ k.1 → commit_rel cert (commit_safe cert k N).
Proof using L.
  intros Hz Hne HN.
  assert (∀ op, op_removes k op = false → steps (commit_safe cert k N) (with_store (run_op op))) as Hop.
  { intros op Hop. apply (steps_with_store _ (λ st st', undecided_stable k st st' ∧ decided_kept st st')).
    - intros st. split; [by apply run_op_stable|apply run_op_kept].
    - intros s st [H1 H2] HN'. by split_and!. }
  assert (∀ r, bool_decide (round_key (cc_height cert) r = k) = false) as Hkey.
  { intros r. apply bool_decide_eq_false_2. intros <-. by apply Hne. }
  split; [split|..]; try (by intros; intros ?; split_and!).
  - apply _.
  - intros d q. by apply (Hop (OpStoreDecidedBlock (cc_height cert) d q)).
  - intros r. apply (Hop (OpDeleteBlobUndecided (cc_height cert) r)), Hkey.
  - intros s HN'. rewrite HN'. unfold with_store, zoom, map_err.
    pose proof (prune_stable k N ltac:(lia) Hz (s_store s)) as H1.
    pose proof (prune_kept N (s_store s)) as H2.
    destruct (prune N (s_store s)) as [st r]. by split_and!.
  - intros h r. apply (steps_with_engine _ _ _ (law_drop_round h r)).
    intros s e He HN'. split_and!; [done..|]. intros h' i'. simpl. by rewrite He.
  - intros v. by apply (Hop (OpStoreDecided cert v)).
  - intros m. by apply (Hop (OpPutConsensus (cc_height cert) m)).
  - apply (Hop (OpMarkDecided (cc_height cert) (cc_round cert))), Hkey.
  - intros h r. apply (steps_with_engine _ _ _ (law_mark_decided h r)).
    intros s e He HN'. split_and!; [done..|]. apply He.
Qed.

(** The node's position, which only the end of a commit moves. *)
Definition position_kept (s s' : State E) : Prop :=
  s_current_height s' = s_current_height s ∧ s_current_round s' = s_current_round s ∧
  s_latest_finalized_height s ≤ s_latest_finalized_height s' ∧
  s_pending_prune_heights s' = s_pending_prune_heights s.

#[export] Instance position_kept_preorder : PreOrder position_kept.
Proof.
  split; [by intros s; split_and!|]. intros s1 s2 s3 (?&?&?&?) (?&?&?&?). unfold position_kept.
  split_and!; first [congruence|lia].
Qed.

Lemma with_store_position {A} (c : M Store StoreError A) : steps position_kept (with_store c).
Proof. apply (steps_with_store _ (λ _ _, True)); [by intros ?|]. by intros; split_and!. Qed.
Lemma with_engine_position {A} (c : M E BlobEngineError A) : steps position_kept (with_engine c).
Proof. apply (steps_with_engine _ (λ _ _, True)); [by intros ?|]. by intros; split_and!. Qed.

Lemma position_rel (cert : CommitCertificate) : commit_rel cert position_kept.
Proof.
  split; [split|..]; try (by intros; split_and!); try (intros; apply with_store_position);
    try (intros; apply with_engine_position); [apply _|].
  intros s Hlt. split_and!; simpl; [done..|lia|done].
Qed.

(** *** The flush *)

Lemma flush_keeps_store (k : Z * Z) :
  -1 ≤ k.2 < 2^32 →
  steps (λ s s', undecided_stable k (s_store s) (s_store s') ∧ decided_kept (s_store s) (s_store s'))
    flush_pending_prunes.
Proof.
  intros Hz. set (R := λ s s' : State E, _ ∧ _).
  assert (PreOrder R).
  { split; [by intros s; split|]. intros s1 s2 s3 [A1 B1] [A2 B2]. split; by etrans. }
  apply flush_pending_prunes_rel; try (by intros; split); [done|..].
  - intros h m. apply (steps_with_store _ (λ st st', undecided_stable k st st' ∧ decided_kept st st')).
    + intros st. split; [by apply (run_op_stable k (OpUpdateBlob h m))|apply (run_op_kept (OpUpdateBlob h m))].
    + intros s st Hst. exact Hst.
  - intros h idxs. apply (steps_with_engine _ (λ _ _, True)); [by intros ?|by intros; split].
Qed.

(** Flushing does not move the node. *)
Definition same_position (s s' : State E) : Prop :=
  s_current_height s' = s_current_height s ∧ s_current_round s' = s_current_round s ∧
  s_latest_finalized_height s' = s_latest_finalized_height s.

Lemma flush_same_position : steps same_position flush_pending_prunes.
Proof.
  assert (PreOrder same_position).
  { split; [by intros s; split_and!|]. intros s1 s2 s3 (?&?&?) (?&?&?). split_and!; congruence. }
  apply flush_pending_prunes_rel; try (by intros; split_and!); [done|..].
  - intros h m. apply (steps_with_store _ (λ _ _, True)); [by intros ?|by intros; split_and!].
  - intros h idxs. apply (steps_with_engine _ (λ _ _, True)); [by intros ?|by intros; split_and!].
Qed.

Lemma flush_prune_step (s : State E) :
  prune_step (effective_finalized s) s (flush_pending_prunes s).1.
Proof using L.
  set (F := effective_finalized s). unfold flush_pending_prunes, bind, get.
  case_decide; [by apply prune_step_same|]. apply (steps_foreach (prune_step F)).
  intros h [Hle _]%list_elem_of_filter. by apply flush_height_step.
Qed.

(** The three phases of a run of [commit]. *)
Lemma commit_run (cert : CommitCertificate) (s : State E) :
  let s1 := (commit_persist cert s).1 in
  let s2 := (flush_pending_prunes s1).1 in
  (is_ok (commit_persist cert s).2 = false ∧ commit cert s = (s1, (commit_persist cert s).2)) ∨
  (is_ok (commit_persist cert s).2 = true ∧ is_ok (flush_pending_prunes s1).2 = false ∧
   (commit cert s).1 = s2 ∧ is_ok (commit cert s).2 = false) ∨
  (is_ok (commit_persist cert s).2 = true ∧
   commit cert s = (set_current_round (RSome 0) (set_current_height
     (Z.max (s_current_height s2) (Height_increment (cc_height cert))) s2), Ok tt)).
Proof.
  cbv zeta. unfold commit, advance_height, bind, modify.
  destruct (commit_persist cert s) as [s1 [[]|e|]]; simpl; [right|by left..].
  destruct (flush_pending_prunes s1) as [s2 [[]|e|]]; simpl; auto.
Qed.

Lemma decrement_mono (a b : Z) :
  a ≤ b → default 0 (Height_decrement a) ≤ default 0 (Height_decrement b).
Proof.
  intros Hab. unfold Height_decrement, checked_sub64.
  destruct (a <? 1) eqn:E1, (b <? 1) eqn:E2; simpl; lia.
Qed.

(** C6: a commit, failing runs included, loses no decided record, keeps every
    undecided record of the heights it retains, its own height aside, and
    deletes a decided blob only when, once the commit's own data is in the
    store, every blob of its height is archived and the height is final. *)
Theorem commit_loses_nothing (cert : CommitCertificate) (s : State E) (h' : Height) (r : Round) :
  round_wf r → h' ≠ cc_height cert → retain_height s cert ≤ h' →
  let s' := (commit cert s).1 in
  undecided_stable (round_key h' r) (s_store s) (s_store s') ∧
  decided_kept (s_store s) (s_store s') ∧
  ∀ h i, is_Some (decided_blob (s_blob_engine s) h i) →
    is_Some (decided_blob (s_blob_engine s') h i) ∨
    ∃ H j, same_slot H j h i ∧ is_height_finalized s' H = true ∧
      archived_height (s_store (commit_persist cert s).1) H.
Proof using L.
  intros Hr Hne HN s'. apply round_key_range in Hr. set (k := round_key h' r).
  pose proof (commit_persist_rel cert _ (commit_safe_rel cert k (retain_height s cert) Hr Hne HN) s
                eq_refl) as (_ & Hu & Hd & Hb).
  set (s1 := (commit_persist cert s).1) in *.
  pose proof (flush_keeps_store k Hr s1) as [Hu2 Hd2].
  pose proof (flush_prune_step s1 eq_refl) as (HF & _ & Hb2).
  set (s2 := (flush_pending_prunes s1).1) in *.
  assert (s' = s1 ∨ s_store s' = s_store s2 ∧ s_blob_engine s' = s_blob_engine s2 ∧
          effective_finalized s2 ≤ effective_finalized s') as Hs'.
  { destruct (commit_run cert s) as [[_ Hc]|[(_ & _ & Hc & _)|[_ Hc]]]; fold s1 in Hc; try fold s2 in Hc.
    - left. unfold s'. by rewrite Hc.
    - right. unfold s'. by rewrite Hc.
    - right. unfold s'. rewrite Hc. simpl. split_and!; [done..|].
      unfold effective_finalized. simpl.
      pose proof (decrement_mono (s_current_height s2) (Z.max (s_current_height s2) (Height_increment (cc_height cert)))).
      lia. }
  destruct Hs' as [->|(Hst & He & HF')].
  { split_and!; [done..|]. intros h i Hi. left. auto. }
  rewrite Hst, He. split_and!; [by etrans|by etrans|]. intros h i Hi. specialize (Hb h i Hi).
  destruct (Hb2 h i) as [Heq|(H & j & Hsl & HFH & Ha)]; [left; by rewrite Heq|right].
  exists H, j. split_and!; [done| |done]. unfold is_height_finalized. apply Z.leb_le. lia.
Qed.

(** *** Progress *)

(** The value and certificate of the height are in the store. *)
Definition decided_present (h : Height) (st : Store) : Prop :=
  is_Some (decided_values st !! h) ∧ is_Some (certificates st !! h).

Lemma decided_present_kept (h : Height) (st st' : Store) :
  decided_kept st st' → decided_present h st → decided_present h st'.
Proof.
  unfold decided_present. rewrite <-!elem_of_dom. intros [] [? ?]. split; auto.
Qed.

Lemma get_decided_value_present (h : Height) (s s' : State E) (d : DecidedValue) :
  with_store (get_decided_value h) s = (s', Ok (Some d)) → decided_present h (s_store s').
Proof.
  unfold with_store, zoom, map_err.
  destruct (get_decided_value h (s_store s)) as [st [r|e|]] eqn:Hg; simpl; try done.
  intros [= <- ->]. apply read_tx_run in Hg as [Hb [fs ->]]; [|done]. simpl. unfold decided_present. simpl.
  destruct (decided_values (s_store s) !! h) as [vb|]; cbn [obind] in Hb.
  - destruct (decode_ok vb); try done. cbn [obind] in Hb.
    destruct (certificates (s_store s) !! h) as [cb|]; [eauto|]. cbn [obind] in Hb. by case_match.
  - destruct (certificates (s_store s) !! h) as [cb|]; [|done]. destruct (decode_ok cb); done.
Qed.

Lemma kept_rel (cert : CommitCertificate) :
  commit_rel cert (λ s s' : State E, decided_kept (s_store s) (s_store s')).
Proof.
  assert (∀ op, steps (λ s s' : State E, decided_kept (s_store s) (s_store s')) (with_store (run_op op)))
    as Hop.
  { intros op. apply (steps_with_store _ _ _ (run_op_kept op)). done. }
  split; [split|..]; try (by intros; apply (reflexivity (R := decided_kept)));
    try (intros; by apply (steps_with_engine _ (λ _ _, True)); [intros ?|]).
  - split; [by intros s|]. intros s1 s2 s3 ??. by etrans.
  - intros s fs. simpl. auto with steps.
  - intros d q. apply (Hop (OpStoreDecidedBlock (cc_height cert) d q)).
  - intros r. apply (Hop (OpDeleteBlobUndecided (cc_height cert) r)).
  - intros s. unfold with_store, zoom, map_err. pose proof (prune_kept (retain_height s cert) (s_store s)).
    by destruct (prune _ _).
  - intros v. apply (Hop (OpStoreDecided cert v)).
  - intros m. apply (Hop (OpPutConsensus (cc_height cert) m)).
  - apply (Hop (OpMarkDecided (cc_height cert) (cc_round cert))).
Qed.

(** A commit that gets to the flush has its value decided and its height final. *)
Lemma commit_persist_ok (cert : CommitCertificate) (s s1 : State E) :
  commit_persist cert s = (s1, Ok tt) →
  decided_present (cc_height cert) (s_store s1) ∧ cc_height cert ≤ s_latest_finalized_height s1.
Proof.
  destruct (commit_parts_rel cert _ (kept_rel cert)) as (K1 & K2 & K3 & K4).
  unfold commit_persist. intros [([p replay] & s2 & Hp & Hr)|(? & _ & _ & ?)]%bind_run; [|done].
  apply bind_run in Hr as [([] & s3 & Hc & Hr)|(? & _ & _ & ?)]; [|done].
  injection Hr as <-.
  assert (decided_present (cc_height cert) (s_store s3)) as Hpres.
  { destruct replay.
    - apply (run_steps _ _ _ _ _ K2) in Hc. apply (decided_present_kept _ _ _ Hc).
      revert Hp. unfold commit_proposal.
      intros [([pv|] & sa & Ha & Hr)|(? & _ & _ & ?)]%bind_run; [done| |done].
      apply bind_run in Hr as [([d|] & sb & Hb & Hr)|(? & _ & _ & ?)]; [|done..].
      injection Hr as <- _. by eapply get_decided_value_present.
    - destruct (K4 p) as [_ K6]. unfold commit_fresh in Hc.
      apply bind_run in Hc as [([] & sa & Ha & Hc)|(? & _ & _ & ?)]; [|done].
      apply bind_run in Hc as [([] & sb & Hb & Hc)|(? & _ & _ & ?)]; [|done].
      apply (run_steps _ _ _ _ _ K6) in Hb. apply (run_steps _ _ _ _ _ K3) in Hc.
      apply (decided_present_kept _ _ _ Hc), (decided_present_kept _ _ _ Hb).
      unfold persist_decided in Ha. apply bind_run in Ha as [([] & sc & _ & Ha)|(? & _ & _ & ?)]; [|done].
      apply bind_run in Ha as [([d|] & sd & Hd & Ha)|(? & _ & _ & ?)]; [|done..].
      injection Ha as <-. by eapply get_decided_value_present. }
  destruct (_ <? _) eqn:Hlt; (split; [done|simpl; lia]).
Qed.

(** *** What is written of the log *)

(** The proposal stored for a round. *)
Definition proposal_at (st : Store) (h : Height) (r : Round) (p : ProposedValue) : Prop :=
  ∃ b, undecided_values st !! round_key h r = Some b ∧ decode b = Ok p.

(** The value and the certificate were written, and nothing else of the log. *)
Definition log_put (cert : CommitCertificate) (v : Value) (st st' : Store) : Prop :=
  ∃ vb cb, encode v = Ok vb ∧ encode cert = Ok cb ∧
    decided_values st' = <[cc_height cert := vb]> (decided_values st) ∧
    certificates st' = <[cc_height cert := cb]> (certificates st).

Lemma log_put_same cert v (st st1 st2 st3 : Store) :
  log_same st st1 → log_put cert v st1 st2 → log_same st2 st3 → log_put cert v st st3.
Proof.
  intros [Hv Hc] (vb & cb & H1 & H2 & H3 & H4) [Hv' Hc']. exists vb, cb. split_and!; congruence.
Qed.

Definition state_log_same (s s' : State E) : Prop := log_same (s_store s) (s_store s').
#[export] Instance state_log_same_preorder : PreOrder state_log_same.
Proof. unfold state_log_same. split; [by intros s|]. intros s1 s2 s3 ??. by etrans. Qed.

Lemma state_log_same_op (op : StoreOp) : decides op = false → steps state_log_same (with_store (run_op op)).
Proof. intros Hd. by apply (steps_with_store _ _ _ (run_op_log_same op Hd)). Qed.
Lemma state_log_same_engine {A} (c : M E BlobEngineError A) : steps state_log_same (with_engine c).
Proof. apply (steps_with_engine _ (λ _ _, True)); [by intros ?|]. intros s e _. by unfold state_log_same. Qed.

Lemma log_same_layers (cert : CommitCertificate) : layers_rel cert state_log_same.
Proof.
  pose proof state_log_same_op as Hop.
  split; [split|..]; try (by intros; unfold state_log_same); try (intros; apply state_log_same_engine).
  - apply _.
  - intros d q. by apply (Hop (OpStoreDecidedBlock (cc_height cert) d q)).
  - intros r. by apply (Hop (OpDeleteBlobUndecided (cc_height cert) r)).
  - intros s. unfold state_log_same, with_store, zoom, map_err.
    destruct (prune_run (retain_height s cert) (s_store s)) as (? & ? & ? & Hp).
    destruct (prune _ _) as [st r]. simpl in Hp |- *. by destruct Hp as [-> | ->].
  - intros m. by apply (Hop (OpPutConsensus (cc_height cert) m)).
  - by apply (Hop (OpMarkDecided (cc_height cert) (cc_round cert))).
Qed.

Lemma flush_log_same : steps state_log_same flush_pending_prunes.
Proof.
  apply flush_pending_prunes_rel; [apply _|..]; try (by intros; unfold state_log_same).
  - intros h m. by apply (state_log_same_op (OpUpdateBlob h m)).
  - intros h idxs. apply state_log_same_engine.
Qed.

Lemma commit_proposal_run (cert : CommitCertificate) (s s' : State E) (p : ProposedValue) :
  commit_proposal cert s = (s', Ok (p, false)) →
  proposal_at (s_store s) (cc_height cert) (cc_round cert) p.
Proof.
  unfold commit_proposal. intros [([pv|] & s1 & Hg & Hr)|(? & _ & _ & ?)]%bind_run; [| |done].
  - injection Hr as _ ->. apply with_store_run in Hg as (st & Hg & _).
    apply blocking_run in Hg. apply bind_run in Hg as [(f & st1 & Hf & Hg)|(? & _ & _ & ?)]; [|done].
    destruct f as [[]|]; [done|done|]. unfold bind, get, lift in Hg.
    assert (undecided_values st1 = undecided_values (s_store s)) as Hu.
    { unfold next_fault in Hf. destruct (tx_faults (s_store s)); by injection Hf as <-. }
    rewrite Hu in Hg. unfold decode_opt in Hg.
    destruct (undecided_values (s_store s) !! _) as [b|] eqn:Hb; [|done]. exists b. split; [done|].
    destruct (decode b) as [p'| |]; simpl in Hg; [|done..]. congruence.
  - apply bind_run in Hr as [([d|] & s2 & _ & Hr)|(? & _ & _ & ?)]; done.
Qed.

Lemma store_decided_put (cert : CommitCertificate) (v : Value) (st st' : Store) :
  store_decided_value cert v st = (st', Ok tt) → log_put cert v st st'.
Proof.
  intros Hr%blocking_run. apply write_tx_run in Hr as (st0 & Hs & Hb). revert Hb.
  destruct (encode v) as [vb| |] eqn:Hv; simpl; try done.
  destruct (encode cert) as [cb| |] eqn:Hc; simpl; try done. intros [= <-].
  destruct Hs as [fs ->]. exists vb, cb. done.
Qed.

(** A commit writes the value of the proposal stored for the decided round, or,
    when the height had already been decided, nothing of the log. *)
Lemma commit_log (cert : CommitCertificate) (s s' : State E) :
  commit cert s = (s', Ok tt) →
  log_same (s_store s) (s_store s') ∨
  ∃ p, proposal_at (s_store s) (cc_height cert) (cc_round cert) p ∧
       log_put cert (pv_value p) (s_store s) (s_store s').
Proof.
  destruct (layers_parts_rel cert _ (log_same_layers cert)) as (K1 & K2 & K3 & K4).
  unfold commit. intros [([] & s1 & Hp & Hr)|(? & _ & _ & ?)]%bind_run; [|done].
  apply bind_run in Hr as [([] & s2 & Hf & Hr)|(? & _ & _ & ?)]; [|done].
  apply (run_steps _ _ _ _ _ flush_log_same) in Hf.
  assert (s_store s' = s_store s2) as -> by (by injection Hr as <-).
  revert Hp. unfold commit_persist. intros [([p replay] & sa & Ha & Hp)|(? & _ & _ & ?)]%bind_run; [|done].
  pose proof (run_steps _ _ _ _ _ K1 Ha) as Sa.
  apply bind_run in Hp as [([] & sb & Hb & Hp)|(? & _ & _ & ?)]; [|done].
  assert (state_log_same sb s2) as Sb.
  { etrans; [|exact Hf]. injection Hp as <-. unfold state_log_same. by destruct (_ <? _). }
  destruct replay.
  { left. apply (run_steps _ _ _ _ _ K2) in Hb. exact (transitivity Sa (transitivity Hb Sb)). }
  right. exists p. split; [by eapply commit_proposal_run|]. unfold commit_fresh, persist_decided in Hb.
  apply bind_run in Hb as [([] & sc & Hc & Hb)|(? & _ & _ & ?)]; [|done].
  apply bind_run in Hb as [([] & sd & Hd & Hb)|(? & _ & _ & ?)]; [|done].
  apply (run_steps _ _ _ _ _ (K4 p)) in Hd. apply (run_steps _ _ _ _ _ K3) in Hb.
  apply bind_run in Hc as [([] & se & He & Hc)|(? & _ & _ & ?)]; [|done].
  apply with_store_run in He as (st & He & ->). apply store_decided_put in He.
  eapply log_put_same; [exact Sa|exact He|]. etrans; [|exact (transitivity Hd (transitivity Hb Sb))].
  apply bind_run in Hc as [([d|] & sf & Hg & Hc)|(? & _ & _ & ?)]; [|done..]. injection Hc as <-.
  apply with_store_run in Hg as (st' & Hg & ->).
  apply (run_steps _ _ _ _ _ (get_decided_value_same (cc_height cert))) in Hg as [fs ->]. by split.
Qed.

(** A commit that succeeds leaves the value and its certificate decided, the
    height final, and the node at the next height, or at the higher one it was
    already at, in round 0; one that fails leaves the node where it was. *)
Lemma commit_advances (cert : CommitCertificate) (s : State E) :
  let s' := (commit cert s).1 in
  match (commit cert s).2 with
  | Ok _ =>
    s_current_height s' = Z.max (s_current_height s) (Height_increment (cc_height cert)) ∧
    s_current_round s' = RSome 0 ∧ cc_height cert ≤ s_latest_finalized_height s' ∧
    decided_present (cc_height cert) (s_store s')
  | _ => s_current_height s' = s_current_height s ∧ s_current_round s' = s_current_round s
  end.
Proof.
  cbv zeta. pose proof (commit_persist_rel cert _ (position_rel cert) s) as (P1 & P2 & _ & _).
  destruct (flush_same_position (commit_persist cert s).1) as (F1 & F2 & F3).
  destruct (flush_keeps_store (0, 0) ltac:(simpl; lia) (commit_persist cert s).1) as [_ Hkept].
  destruct (commit_run cert s) as [[Hno Hc]|[(_ & _ & Hc & Hno)|[Hok Hc]]].
  - rewrite Hc. simpl. by destruct (commit_persist cert s).2.
  - rewrite Hc. destruct (commit cert s).2; [done|..]; split; congruence.
  - rewrite Hc. simpl. destruct (commit_persist cert s) as [s1 [[]| |]] eqn:Hp; try done. simpl in *.
    apply commit_persist_ok in Hp as [Hpres Hle].
    split_and!; [congruence|done|lia|by eapply decided_present_kept].
Qed.

(** *** The cached parent root *)

(** Steps that leave the stored metadata of a height and the cached parent root
    alone. *)
Definition root_kept (h : Height) (s s' : State E) : Prop :=
  read_blob_metadata h (s_store s') = read_blob_metadata h (s_store s) ∧
  s_last_blob_sidecar_root s' = s_last_blob_sidecar_root s ∧
  s_last_blob_sidecar_height s' = s_last_blob_sidecar_height s.
#[export] Instance root_kept_preorder (h : Height) : PreOrder (root_kept h).
Proof.
  split; [by intros s; split_and!|]. intros s1 s2 s3 (?&?&?) (?&?&?). split_and!; congruence.
Qed.

Lemma with_store_root_kept {A} (h : Height) (c : M Store StoreError A) :
  steps (λ st st', read_blob_metadata h st' = read_blob_metadata h st) c →
  steps (root_kept h) (with_store c).
Proof. intros Hc. apply (steps_with_store _ _ _ Hc). intros s st Hst. by split_and!. Qed.
Lemma with_engine_root_kept {A} (h : Height) (c : M E BlobEngineError A) :
  steps (root_kept h) (with_engine c).
Proof. apply (steps_with_engine _ (λ _ _, True)); [by intros ?|]. by intros; split_and!. Qed.

Lemma cleanup_root_kept (cert : CommitCertificate) (h : Height) : cleanup_rel cert (root_kept h).
Proof.
  assert (PreOrder (λ st st' : Store, read_blob_metadata h st' = read_blob_metadata h st)).
  { split; [by intros ?|]. intros ?????. congruence. }
  split; try (by intros; split_and!).
  - apply _.
  - intros d q. apply with_store_root_kept. store_steps; [done|]. by intros st st' [] [= <-].
  - intros r. apply with_store_root_kept. store_steps; [done|]. by intros st st' [] [= <-].
  - intros s. unfold with_store, zoom, map_err.
    destruct (prune_run (retain_height s cert) (s_store s)) as (? & ? & ? & Hp).
    destruct (prune _ _) as [st r]. simpl in Hp |- *. destruct Hp as [-> | ->]; by split_and!.
  - intros; apply with_engine_root_kept.
Qed.

Lemma flush_height_root_kept (h x : Height) : x ≠ h → steps (root_kept h) (flush_height x).
Proof.
  intros Hne.
  assert (∀ f, (∀ s : State E, root_kept h s (f s)) → steps (E := string) (root_kept h) (modify f)) as Hmod.
  { intros f Hf. by apply steps_modify. }
  assert (steps (root_kept h) (with_store (get_blob_metadata x))) as Hget.
  { apply with_store_root_kept, (steps_weaken same_tables); [by intros st st' [fs ->]|].
    apply get_blob_metadata_same. }
  assert (∀ m, steps (root_kept h) (with_store (update_blob_metadata x m))) as Hupd.
  { intros m. apply with_store_root_kept, (steps_weaken _ _ _ (λ st st' Hs, Hs h (not_eq_sym Hne))).
    apply update_blob_metadata_others. }
  pose proof (λ A c, with_engine_root_kept (A := A) h c).
  unfold flush_height, prune_archived_height, add_pending_prune.
  steps_tac; apply Hmod; by intros; split_and!.
Qed.

Lemma elem_of_ascending (x : Z) (t : gset Z) : x ∈ ascending t ↔ x ∈ t.
Proof. unfold ascending. by rewrite sort_by_key_Permutation, elem_of_elements. Qed.

Lemma flush_root_kept (h : Height) (s : State E) :
  h ∉ s_pending_prune_heights s → root_kept h s (flush_pending_prunes s).1.
Proof.
  intros Hh. unfold flush_pending_prunes, bind, get. case_decide; [done|].
  apply (steps_foreach (root_kept h)). intros x [_ Hx%elem_of_ascending]%list_elem_of_filter.
  apply flush_height_root_kept. by intros ->.
Qed.

(** The cached parent root is that of the metadata stored for height [h]. *)
Definition cache_matches (h : Height) (s : State E) : Prop :=
  s_last_blob_sidecar_height s = h ∧
  ∃ m, read_blob_metadata h (s_store s) = Ok (Some m) ∧ s_last_blob_sidecar_root s = compute_blob_root m.

Lemma root_kept_matches (h : Height) (s s' : State E) :
  root_kept h s s' → cache_matches h s → cache_matches h s'.
Proof. intros (H1 & H2 & H3) (Hh & m & Hm & Hr). split; [congruence|]. exists m. split; congruence. Qed.

Lemma commit_fresh_matches (cert : CommitCertificate) (p : ProposedValue) (s s' : State E) :
  commit_fresh cert p s = (s', Ok tt) → cache_matches (cc_height cert) s'.
Proof.
  unfold commit_fresh. intros [([] & s1 & _ & Hf)|(? & _ & _ & ?)]%bind_run; [|done].
  apply bind_run in Hf as [([] & s2 & Hl & Hf)|(? & _ & _ & ?)]; [|done].
  apply (run_steps _ _ _ _ _ (commit_cleanup_rel cert _ (cleanup_root_kept cert (cc_height cert)))) in Hf.
  apply (root_kept_matches _ _ _ Hf). unfold promote_layers, bind at 1, get in Hl.
  apply bind_run in Hl as [([] & s3 & _ & Hl)|(? & _ & _ & ?)]; [|done].
  apply bind_run in Hl as [([] & s4 & _ & Hl)|(? & _ & _ & ?)]; [|done].
  apply bind_run in Hl as [(om & s5 & Hg & Hl)|(? & _ & _ & ?)]; [|done].
  apply with_store_get_blob_metadata in Hg as (Hread & st & [fs ->] & ->).
  destruct om as [m|]; [|done]. injection Hl as <-. split; [done|]. by exists m.
Qed.

Lemma commit_persist_matches (cert : CommitCertificate) (s s' : State E) (p : ProposedValue) :
  (commit_proposal cert s).2 = Ok (p, false) → commit_persist cert s = (s', Ok tt) →
  cache_matches (cc_height cert) s'.
Proof.
  intros Hp. unfold commit_persist.
  intros [([p' replay] & s1 & Hpr & Hr)|(? & _ & _ & ?)]%bind_run; [|done].
  rewrite Hpr in Hp. injection Hp as -> ->.
  apply bind_run in Hr as [([] & s2 & Hf & Hr)|(? & _ & _ & ?)]; [|done]. injection Hr as <-.
  apply commit_fresh_matches in Hf. by destruct (_ <? _).
Qed.

Lemma commit_matches (cert : CommitCertificate) (s s' : State E) (p : ProposedValue) :
  (commit_proposal cert s).2 = Ok (p, false) → commit cert s = (s', Ok tt) →
  cc_height cert ∉ s_pending_prune_heights s → cache_matches (cc_height cert) s'.
Proof.
  intros Hp Hrun Hnp.
  pose proof (commit_persist_rel cert _ (position_rel cert) s) as (_ & _ & _ & Hpend).
  destruct (commit_run cert s) as [[Hno Hc]|[(_ & _ & _ & Hc)|[Hok Hc]]]; rewrite Hrun in Hc.
  - injection Hc as _ Hr. by rewrite <-Hr in Hno.
  - done.
  - injection Hc as ->. destruct (commit_persist cert s) as [s1 [[]| |]] eqn:Hcp; try done. simpl in *.
    apply commit_persist_matches with (p := p) in Hcp; [|done].
    assert (cc_height cert ∉ s_pending_prune_heights s1) as Hs1 by (by rewrite Hpend).
    apply (root_kept_matches _ _ _ (flush_root_kept _ _ Hs1)) in Hcp. done.
Qed.

(** After the first commit of a height, with no prune of it pending, the
    cached parent root is that of the metadata stored for the height, so the
    root the next height resolves from the store is the cached one. *)
Theorem commit_caches_parent_root (cert : CommitCertificate) (s s' : State E) (p : ProposedValue) :
  (commit_proposal cert s).2 = Ok (p, false) → commit cert s = (s', Ok tt) →
  cc_height cert ∉ s_pending_prune_heights s → 0 ≤ cc_height cert < 2^64 - 1 →
  cache_matches (cc_height cert) s' ∧
  (tx_faults (s_store s') = [] →
   (resolve_parent_root_for_height (Height_increment (cc_height cert)) s').2
     = Ok (s_last_blob_sidecar_root s')).
Proof.
  intros Hp Hrun Hnp Hh. pose proof (commit_matches cert s s' p Hp Hrun Hnp) as Hmatch.
  split; [done|]. intros Hf. destruct Hmatch as (_ & m & Hm & Hroot).
  set (h := cc_height cert) in *.
  assert (Height_increment h = h + 1) as Hinc.
  { unfold Height_increment. rewrite add64_small; lia. }
  unfold resolve_parent_root_for_height. rewrite Hinc.
  replace (h + 1 =? 0) with false by lia. replace (sub64 (h + 1) 1) with h.
  2: { unfold sub64, wrap64. rewrite Z.mod_small; lia. }
  unfold bind, with_store, zoom, map_err, get_blob_metadata, blocking.
  rewrite read_tx_ok by done. rewrite Hm. simpl. by rewrite Hroot.
Qed.
End commit_proofs.

(** ** Concrete inputs *)

Definition demo_certificate : CommitCertificate := mkCertificate 8 (RSome 0) 0 [].
Definition demo_tree_hash : TreeHashLib := {| tree_merkle_root _ _ := B256_ZERO |}.
Definition commit_codecs : NodeCodecs := {|
  nc_value := constant_codec demo_value_of_payload;
  nc_proposed := constant_codec (mkProposed 8 (RSome 0) Nil (zeros 20) demo_value_of_payload Valid);
  nc_certificate := constant_codec demo_certificate;
  nc_consensus := constant_codec
    (mkConsensusMetadata 8 (RSome 0) (zeros 20) 0 B256_ZERO B256_ZERO 0 0);
  nc_metadata := constant_codec (demo_all_archived false);
  nc_record := demo_record_codec; nc_payload := demo_payload_prost;
  nc_notice_body := demo_notice_prost |}.
(** Height 8 has a proposal in round 0, its payload and its metadata; height 7,
    fully archived, waits to be pruned. *)
Definition demo_committer : State BlobEngineImpl :=
  let k := round_key 8 (RSome 0) in
  set_store
    (with_undecided_values {[k := [0]]} (with_blob_metadata_undecided {[k := [0]]}
       (with_blob_metadata_decided {[7 := [0]]} (empty_store []))))
    (set_current_height 8 demo_proposer).

Definition demo_commit : M (State BlobEngineImpl) string unit :=
  @commit BlobEngineImpl demo_rocksdb_engine null_crypto demo_merkle commit_codecs demo_tree_hash
    demo_certificate.

Lemma commit_loses_nothing_witness :
  decided_kept (s_store demo_committer) (s_store (demo_commit demo_committer).1) ∧
  decided_blob (s_blob_engine (demo_commit demo_committer).1) 7 0 = None.
Proof.
  destruct (@commit_loses_nothing BlobEngineImpl demo_rocksdb_engine rocksdb_view demo_engine_laws
    null_crypto demo_merkle commit_codecs demo_tree_hash demo_certificate demo_committer 9 (RSome 0))
    as (_ & Hkept & _).
  - simpl. unfold is_u32. lia.
  - discriminate.
  - vm_compute. discriminate.
  - split; [exact Hkept|]. vm_compute. reflexivity.
Defined.

Lemma commit_caches_parent_root_witness :
  ∃ s', demo_commit demo_committer = (s', Ok tt) ∧
    @cache_matches BlobEngineImpl null_crypto demo_merkle commit_codecs 8 s'.
Proof.
  destruct (demo_commit demo_committer) as [s' r] eqn:Hrun.
  assert (r = Ok tt) as ->.
  { apply (f_equal snd) in Hrun. cbn [snd] in Hrun. rewrite <-Hrun. vm_compute. reflexivity. }
  exists s'. split; [reflexivity|].
  destruct (@commit_caches_parent_root BlobEngineImpl demo_rocksdb_engine null_crypto demo_merkle
    commit_codecs demo_tree_hash demo_certificate demo_committer s'
    (mkProposed 8 (RSome 0) Nil (zeros 20) demo_value_of_payload Valid)) as [Hm _].
  - vm_compute. reflexivity.
  - exact Hrun.
  - apply (bool_decide_unpack _). vm_compute. exact I.
  - simpl. lia.
  - exact Hm.
Defined.
