(* ===== verification/Decide.v ===== *)
(** * Finalizing a decided certificate ([State::process_decided_certificate])

    The decided payload is checked against the stored blobs, the blobs are
    promoted, the execution layer is told, and the value is committed.  The
    execution layer and the clock are the environment: their state is threaded
    next to the node's, and every loop that waits for the execution layer is
    bounded by the clock. *)
From S2P Require Import Prelude Types Merkle Streaming Metadata BlobStore BlobEngine Store Proto State Archival BlobProposal Commit.
Open Scope monad_scope.

(** ** The execution layer *)

Inductive PayloadStatusEnum := StatusValid | StatusInvalid (error : string) | StatusSyncing | StatusAccepted.
Record PayloadStatus := mkStatus { ps_status : PayloadStatusEnum; ps_latest_valid_hash : option B256 }.

Definition from_status (st : PayloadStatusEnum) : PayloadStatus := mkStatus st None.
Definition is_invalid (p : PayloadStatus) : bool :=
  match ps_status p with StatusInvalid _ => true | _ => false end.
Definition is_syncing (p : PayloadStatus) : bool :=
  match ps_status p with StatusSyncing => true | _ => false end.

(** How a forkchoice update fails: the execution layer is syncing, or else. *)
Inductive ForkchoiceError := SyncingForkchoice | ForkchoiceFailed (e : string).
Definition looks_transient (e : ForkchoiceError) : bool :=
  match e with SyncingForkchoice => true | _ => false end.

(** [ExecutionNotifier], with the monotonic clock and [sleep], in
    milliseconds. *)
Class ExecutionNotifier (N : Type) := {
  notify_new_block : ExecutionPayloadV3 → list bytes → list B256 → N → N * (string + PayloadStatus);
  set_latest_forkchoice_state : B256 → N → N * (ForkchoiceError + B256);
  el_clock : N → Z;
  el_sleep : Z → N → N }.

(** Documented behaviour of the clock: it never goes back, and a sleep lasts at
    least as long as asked. *)
Class ClockLaws (N : Type) (X : ExecutionNotifier N) : Prop := {
  clock_new_block : ∀ p q v n, el_clock n ≤ el_clock (notify_new_block p q v n).1;
  clock_forkchoice : ∀ h n, el_clock n ≤ el_clock (set_latest_forkchoice_state h n).1;
  clock_sleep : ∀ d n, el_clock n + d ≤ el_clock (el_sleep d n) }.

(** Converting a payload into a block gives the versioned hashes of its blob
    transactions ([try_into_block], [blob_versioned_hashes_iter]). *)
Class BlockConversion := { block_versioned_hashes : ExecutionPayloadV3 → option (list B256) }.

Record ExecutionRetryConfig := mkRetry {
  rc_new_payload_timeout : Z; rc_new_payload_sync_timeout : Z; rc_forkchoice_timeout : Z;
  rc_initial_backoff : Z; rc_max_backoff : Z }.
Definition ExecutionRetryConfig_default : ExecutionRetryConfig := mkRetry 30000 2000 30000 250 2000.

Record DecidedOutcome := mkOutcome {
  do_execution_block : ExecutionBlock; do_payload_status : PayloadStatus;
  do_execution_pending : bool; do_tx_count : Z; do_block_bytes : Z; do_blob_count : Z;
  do_archive_notices : list ArchiveNotice; do_archive_job : option ArchiveJob }.

Section decide.
Context {E : Type} {B : BlobEngine E} `{Crypto} `{MerkleTreeLib} `{NodeCodecs} `{TreeHashLib}
  `{PayloadSsz} `{BlockConversion} {N : Type} {X : ExecutionNotifier N}.
Context (cfg : ExecutionRetryConfig).

Abbreviation StM A := (M (State E) string A) (only parsing).
Abbreviation DM A := (M (State E * N) string A) (only parsing).

Definition on_state {A} (c : StM A) : DM A := zoom fst (λ s p, (s, p.2)) c.
Definition on_el {A} (f : N → N * A) : DM A := λ p, let (n, a) := f p.2 in ((p.1, n), Ok a).
Definition clock : DM Z := λ p, (p, Ok (el_clock p.2)).
Definition sleep (d : Z) : DM unit := λ p, ((p.1, el_sleep d p.2), Ok tt).

Definition next_backoff (b : Z) : Z := Z.min (b * 2) (rc_max_backoff cfg).

(** ** Checking the blobs *)

Definition decided_versioned_hashes (height : Height) (round : Round) (hashes : list B256)
    : StM (list B256) :=
  match hashes with
  | [] =>
    let* p := with_store (get_undecided_proposal height round) in
    match p with
    | Some p => ret (versioned_hashes_from_commitments (vm_blob_kzg_commitments (v_metadata (pv_value p))))
    | None => ret []
    end
  | _ => ret hashes
  end.

(** Undecided blobs first, then those sync has already promoted. *)
Definition blobs_to_import (height : Height) (round : Round) : StM (list BlobSidecar * bool) :=
  let* u := attempt (with_engine (be_get_undecided_blobs height (Round_as_i64 round))) in
  match u with
  | inr (b :: bs) => ret (b :: bs, false)
  | _ =>
    let* decided := with_engine (be_get_for_import height) in
    ret (decided, negb (bool_decide (decided = [])))
  end.

Definition validate_blobs (height : Height) (round : Round) (hashes : list B256) : StM (Z * bool) :=
  match hashes with
  | [] => ret (0, false)
  | _ =>
    let* (blobs, already) := blobs_to_import height round in
    if negb (length blobs =? length hashes)%nat then fail "Blob count mismatch"%string
    else if negb (bool_decide (versioned_hashes_from_sidecars blobs = hashes))
    then fail "Versioned hash mismatch"%string
    else ret (Z.of_nat (length blobs), already)
  end.

(** ** Waiting for the execution layer

    The loops take the number of rounds they may still make; [None] means that
    this bound, and not the clock, ended the wait. *)

Fixpoint forkchoice_first (fuel : nat) (hash : B256) (start backoff : Z) : DM (option unit) :=
  match fuel with
  | O => ret None
  | S fuel =>
    let* r := on_el (set_latest_forkchoice_state hash) in
    match r with
    | inr _ => ret (Some tt)
    | inl e =>
      let* t := clock in
      if looks_transient e && (t - start <? rc_new_payload_sync_timeout cfg)
      then sleep backoff ;;; forkchoice_first fuel hash start (next_backoff backoff)
      else ret (Some tt)
    end
  end.

Fixpoint await_payload (fuel : nat) (payload : ExecutionPayloadV3) (reqs : list bytes)
    (hashes : list B256) (timeout start backoff : Z) (last : PayloadStatus)
    : DM (option (PayloadStatus * bool)) :=
  match fuel with
  | O => ret None
  | S fuel =>
    if negb (is_syncing last) then ret (Some (last, false))
    else
      let* t := clock in
      if timeout <? t - start then
        on_state (modify (mark_el_degraded t "new_payload SYNCING"%string)) ;;;
        ret (Some (from_status StatusSyncing, true))
      else
        sleep backoff ;;;
        let* r := on_el (notify_new_block payload reqs hashes) in
        match r with
        | inl _ => fail "Execution layer new_payload failed"%string
        | inr status =>
          await_payload fuel payload reqs hashes timeout start (next_backoff backoff) status
        end
  end.

(** [true] when the execution layer has applied the forkchoice. *)
Fixpoint await_forkchoice (fuel : nat) (hash : B256) (start backoff : Z) : DM (option bool) :=
  match fuel with
  | O => ret None
  | S fuel =>
    let* r := on_el (set_latest_forkchoice_state hash) in
    match r with
    | inr _ => ret (Some true)
    | inl e =>
      if looks_transient e then
        let* t := clock in
        if t - start <=? rc_forkchoice_timeout cfg
        then sleep backoff ;;; await_forkchoice fuel hash start (next_backoff backoff)
        else
          on_state (modify (mark_el_degraded t "forkchoice SYNCING"%string)) ;;;
          ret (Some false)
      else fail "Failed to update forkchoice"%string
    end
  end.

(** Rounds enough for a timeout: every sleep lasts the initial backoff or more. *)
Definition retry_fuel (timeout : Z) : nat := Z.to_nat (timeout / rc_initial_backoff cfg + 3).

(** A wait that its bound ended would be a defect of the model. *)
Definition waited {A} (c : DM (option A)) : DM A :=
  let* r := c in
  match r with Some a => ret a | None => panic end.

(** ** The handler *)

Definition notify_payload (payload : ExecutionPayloadV3) (reqs : list bytes) (hashes : list B256)
    (sync_mode : bool) : DM (PayloadStatus * bool) :=
  let* r := on_el (notify_new_block payload reqs hashes) in
  match r with
  | inl _ => fail "Execution layer new_payload failed"%string
  | inr status =>
    let timeout := if sync_mode then rc_new_payload_sync_timeout cfg else rc_new_payload_timeout cfg in
    if is_syncing status then
      let* start := clock in
      waited (await_payload (retry_fuel timeout) payload reqs hashes timeout start
                (rc_initial_backoff cfg) status)
    else ret (status, false)
  end.

(** The checks on the payload itself, after the execution layer has seen it. *)
Definition check_decided_payload (s : State E) (height : Height) (payload : ExecutionPayloadV3)
    (status : PayloadStatus) : outcome string unit :=
  if is_invalid status then Err "Invalid payload status"%string
  else if negb (bool_decide (ep_prev_randao payload = load_prev_randao))
  then Err "prev_randao mismatch"%string
  else if bool_decide (saturating_add64 (s_executed_height s) 1 = height)
          && match s_latest_block s with
             | Some b => negb (bool_decide (eb_block_hash b = ep_parent_hash payload))
             | None => false
             end
  then Err "Parent hash mismatch"%string
  else Ok tt.

Definition execution_block_of (payload : ExecutionPayloadV3) : ExecutionBlock :=
  mkExecutionBlock (ep_block_hash payload) (ep_block_number payload) (ep_parent_hash payload)
    (ep_timestamp payload) load_prev_randao.

(** The archive job of a proposer, and the height it now waits for. *)
Definition decided_archive_job (height : Height) (round : Round) (blob_count : Z)
    : StM (option ArchiveJob) :=
  let* job := if 0 <? blob_count then
      let* p := attempt (F := string) (with_store (get_undecided_proposal height round)) in
      let* s := get in
      if match p with inr (Some p) => bool_decide (pv_proposer p = s_address s) | _ => false end
      then let* j := attempt (F := string) (build_archive_job height round) in
           ret (match j with inr j => j | inl _ => None end)
      else ret None
    else ret None in
  let* s := get in
  when ((0 <? blob_count) && s_archiver_enabled s && bool_decide (is_Some job))
    (add_pending_archive height) ;;;
  ret job.

(** The payload is decoded and its blobs are checked and promoted; a syncing
    execution layer is given its target first.  The result is the payload, the
    requests and hashes to announce, the number of blobs, and whether sync had
    already promoted them. *)
Definition prepare_decided (cert : CommitCertificate) (ssz : bytes)
    : DM (ExecutionPayloadV3 * list bytes * list B256 * Z * bool) :=
  let height := cc_height cert in
  let round := cc_round cert in
  if bool_decide (ssz = []) then fail "Empty execution payload bytes"%string
  else
    let* payload := lift (ok_or (payload_from_ssz ssz) "Failed to decode execution payload"%string) in
    let* block_hashes := lift (ok_or (block_versioned_hashes payload)
                                 "Failed to convert execution payload into Block"%string) in
    let* reqs := on_state (with_store (get_execution_requests height round)) in
    let* hashes := on_state (decided_versioned_hashes height round block_hashes) in
    let* (blob_count, already) := on_state (validate_blobs height round hashes) in
    (if already then ret tt
     else on_state (with_engine (be_mark_decided height (Round_as_i64 round)))) ;;;
    let* s := on_state get in
    (if already || s_el_degraded s then
       let* start := clock in
       waited (forkchoice_first (retry_fuel (rc_new_payload_sync_timeout cfg))
                 (ep_block_hash payload) start (rc_initial_backoff cfg))
     else ret tt) ;;;
    ret (payload, default [] reqs, hashes, blob_count, already).

(** Up to the point where the execution layer has answered: the payload, its
    status, whether the forkchoice was applied, and the number of blobs. *)
Definition execute_decided (cert : CommitCertificate) (ssz : bytes)
    : DM (ExecutionPayloadV3 * PayloadStatus * bool * Z) :=
  let* (payload, reqs, hashes, blob_count, already) := prepare_decided cert ssz in
  let* (status, pending) := notify_payload payload reqs hashes already in
  let* s := on_state get in
  let* _ := lift (check_decided_payload s (cc_height cert) payload status) in
  let* applied := (if pending then ret false
    else
      let* start := clock in
      waited (await_forkchoice (retry_fuel (rc_forkchoice_timeout cfg)) (ep_block_hash payload) start
                (rc_initial_backoff cfg))) in
  ret (payload, status, applied, blob_count).

(** The counters, the commit, the new head, and the archive job. *)
Definition settle_decided (cert : CommitCertificate) (ssz : bytes)
    (executed : ExecutionPayloadV3 * PayloadStatus * bool * Z) : DM DecidedOutcome :=
  let '(payload, status, applied, blob_count) := executed in
  let tx_count := Z.of_nat (length (ep_transactions payload)) in
  on_state (modify (λ s, set_chain_bytes (add64 (s_chain_bytes s) (Z.of_nat (length ssz)))
                           (set_txs_count (add64 (s_txs_count s) tx_count) s))) ;;;
  on_state (commit cert) ;;;
  on_state (modify (set_latest_block (Some (execution_block_of payload)))) ;;;
  (if applied : bool
   then on_state (modify (λ s, clear_el_degraded (set_executed_height (cc_height cert) s)))
   else ret tt) ;;;
  let* job := on_state (decided_archive_job (cc_height cert) (cc_round cert) blob_count) in
  ret (mkOutcome (execution_block_of payload)
         (if applied then status else from_status StatusSyncing) (negb applied) tx_count
         (Z.of_nat (length ssz)) blob_count [] job).

Definition process_decided_certificate (cert : CommitCertificate) (ssz : bytes) : DM DecidedOutcome :=
  let* executed := execute_decided cert ssz in
  settle_decided cert ssz executed.
End decide.

(** ** Every wait ends by the clock *)

Section waiting.
Context {E : Type} {N : Type} {X : ExecutionNotifier N} (CL : ClockLaws N X).
Context (cfg : ExecutionRetryConfig) (Hb : 0 < rc_initial_backoff cfg ≤ rc_max_backoff cfg).

(** Time left until a deadline [start + timeout], in rounds of the initial
    backoff. *)
Definition rounds_cover (fuel : nat) (timeout start : Z) (p : State E * N) : Prop :=
  start + timeout - el_clock p.2 < (Z.of_nat fuel - 1) * rc_initial_backoff cfg.

Lemma retry_fuel_covers (timeout : Z) (p : State E * N) :
  0 ≤ timeout → rounds_cover (retry_fuel cfg timeout) timeout (el_clock p.2) p.
Proof using Hb.
  intros Ht. unfold rounds_cover, retry_fuel.
  pose proof (Z.div_pos timeout (rc_initial_backoff cfg) Ht (proj1 Hb)).
  pose proof (Z.mul_succ_div_gt timeout (rc_initial_backoff cfg) (proj1 Hb)).
  rewrite Z2Nat.id by lia. nia.
Qed.

Lemma next_backoff_ge (b : Z) : rc_initial_backoff cfg ≤ b → rc_initial_backoff cfg ≤ next_backoff cfg b.
Proof using Hb. unfold next_backoff. lia. Qed.

(** One more round, after a sleep, with the deadline not yet reached. *)
Lemma rounds_cover_step (fuel : nat) (timeout start backoff : Z) (s s1 : State E) (n n1 : N) :
  rounds_cover (S fuel) timeout start (s, n) → rc_initial_backoff cfg ≤ backoff →
  el_clock n ≤ el_clock n1 → el_clock n1 - start ≤ timeout →
  rounds_cover fuel timeout start (s1, el_sleep backoff n1) ∧ (0 < fuel)%nat.
Proof using CL Hb.
  unfold rounds_cover. simpl. intros Hc Hbk Hn Hd. pose proof (clock_sleep backoff n1). nia.
Qed.

Lemma forkchoice_first_ends (hash : B256) (start : Z) (fuel : nat) : ∀ backoff (p : State E * N),
  (0 < fuel)%nat → rc_initial_backoff cfg ≤ backoff →
  rounds_cover fuel (rc_new_payload_sync_timeout cfg) start p →
  (forkchoice_first cfg fuel hash start backoff p).2 ≠ Ok None.
Proof using CL Hb.
  induction fuel as [|fuel IH]; intros backoff [s n] Hf Hbk Hc; [lia|].
  simpl. unfold bind, on_el. simpl. pose proof (clock_forkchoice hash n) as Hn.
  destruct (set_latest_forkchoice_state hash n) as [n1 [e|h]]; [|done]. simpl in *.
  destruct (looks_transient e && _) eqn:Ht; [|done]. apply andb_true_iff in Ht as [_ Ht].
  destruct (rounds_cover_step fuel (rc_new_payload_sync_timeout cfg) start backoff s s n n1)
    as [Hc' Hf']; [done|done|done|lia|].
  by apply IH; [|apply next_backoff_ge|].
Qed.

Lemma await_payload_ends (payload : ExecutionPayloadV3) (reqs : list bytes) (hashes : list B256)
    (timeout start : Z) (fuel : nat) : ∀ backoff last (p : State E * N),
  (0 < fuel)%nat → rc_initial_backoff cfg ≤ backoff → rounds_cover fuel timeout start p →
  (await_payload cfg fuel payload reqs hashes timeout start backoff last p).2 ≠ Ok None.
Proof using CL Hb.
  induction fuel as [|fuel IH]; intros backoff last [s n] Hf Hbk Hc; [lia|].
  cbn [await_payload]. destruct (is_syncing last); cbn [negb]; [|done].
  unfold bind at 1, clock. cbn [fst snd]. destruct (timeout <? _) eqn:Ht; [done|].
  unfold bind, sleep, on_el. cbn [fst snd].
  destruct (rounds_cover_step fuel timeout start backoff s s n n) as [Hc' Hf']; [done|done|lia|lia|].
  pose proof (clock_new_block payload reqs hashes (el_sleep backoff n)) as Hn.
  destruct (notify_new_block payload reqs hashes (el_sleep backoff n)) as [n1 [e|st]]; [done|].
  apply IH; [done|by apply next_backoff_ge|]. unfold rounds_cover in *. simpl in *. lia.
Qed.

Lemma await_forkchoice_ends (hash : B256) (start : Z) (fuel : nat) : ∀ backoff (p : State E * N),
  (0 < fuel)%nat → rc_initial_backoff cfg ≤ backoff →
  rounds_cover fuel (rc_forkchoice_timeout cfg) start p →
  (await_forkchoice cfg fuel hash start backoff p).2 ≠ Ok None.
Proof using CL Hb.
  induction fuel as [|fuel IH]; intros backoff [s n] Hf Hbk Hc; [lia|].
  simpl. unfold bind, on_el. simpl. pose proof (clock_forkchoice hash n) as Hn.
  destruct (set_latest_forkchoice_state hash n) as [n1 [e|h]]; [|done]. simpl in *.
  destruct (looks_transient e); [|done]. simpl.
  destruct (_ <=? _) eqn:Ht; [|done].
  destruct (rounds_cover_step fuel (rc_forkchoice_timeout cfg) start backoff s s n n1)
    as [Hc' Hf']; [done|done|done|lia|].
  by apply IH; [|apply next_backoff_ge|].
Qed.

(** C33: no wait for the execution layer is endless: with a clock that does not
    go back and sleeps that last, each of the three retry loops ends by its
    timeout within [timeout / initial_backoff + 3] rounds, whatever the
    execution layer answers. *)
Theorem waits_end (p : State E * N) (hash : B256) (payload : ExecutionPayloadV3) (reqs : list bytes)
    (hashes : list B256) (timeout : Z) (status : PayloadStatus) :
  0 ≤ rc_new_payload_sync_timeout cfg → 0 ≤ rc_forkchoice_timeout cfg → 0 ≤ timeout →
  let start := el_clock p.2 in
  let b := rc_initial_backoff cfg in
  (forkchoice_first cfg (retry_fuel cfg (rc_new_payload_sync_timeout cfg)) hash start b p).2 ≠ Ok None ∧
  (await_payload cfg (retry_fuel cfg timeout) payload reqs hashes timeout start b status p).2 ≠ Ok None ∧
  (await_forkchoice cfg (retry_fuel cfg (rc_forkchoice_timeout cfg)) hash start b p).2 ≠ Ok None.
Proof using CL Hb.
  intros H1 H2 H3. cbv zeta.
  assert (∀ t, 0 ≤ t → (0 < retry_fuel cfg t)%nat) as Hpos.
  { intros t Ht. unfold retry_fuel. pose proof (Z.div_pos t (rc_initial_backoff cfg) Ht (proj1 Hb)). lia. }
  split_and!;
    [apply forkchoice_first_ends|apply await_payload_ends|apply await_forkchoice_ends];
    first [by apply Hpos|by apply retry_fuel_covers|lia].
Qed.
End waiting.

(** ** What finalizing guarantees *)

Section decide_proofs.
Context {E : Type} {B : BlobEngine E}.
Context {C : Crypto} {T : MerkleTreeLib} {NC : NodeCodecs} {TH : TreeHashLib} {SZ : PayloadSsz}
  {BC : BlockConversion} {N : Type} {X : ExecutionNotifier N}.
Context (cfg : ExecutionRetryConfig).

Lemma steps_on_state {A} (R : State E * N → State E * N → Prop) (Q : State E → State E → Prop)
    (c : M (State E) string A) :
  steps Q c → (∀ s s' n, Q s s' → R (s, n) (s', n)) → steps R (on_state c).
Proof. intros Hc HR. apply (steps_zoom _ Q); [done|]. intros [s n] s' Hs. by apply HR. Qed.

(** The node's head and height, and its decided records, before the commit. *)
Definition head_kept (s s' : State E) : Prop :=
  s_current_height s' = s_current_height s ∧ s_current_round s' = s_current_round s ∧
  s_latest_block s' = s_latest_block s ∧ s_executed_height s' = s_executed_height s ∧
  decided_kept (s_store s) (s_store s').
#[export] Instance head_kept_preorder : PreOrder head_kept.
Proof.
  split; [by intros s; split_and!|]. intros s1 s2 s3 (?&?&?&?&?) (?&?&?&?&?).
  split_and!; [congruence..|by etrans].
Qed.

Definition pair_step (Q : State E → State E → Prop) (p p' : State E * N) : Prop := Q p.1 p'.1.
#[export] Instance pair_step_preorder Q `{!PreOrder Q} : PreOrder (pair_step Q).
Proof. unfold pair_step. split; [by intros p|]. intros p1 p2 p3 ??. by etrans. Qed.

Section environment.
Context (Q : State E → State E → Prop) `{!PreOrder Q} (Hmark : ∀ t e s, Q s (mark_el_degraded t e s)).

Lemma on_state_pair {A} (c : M (State E) string A) : steps Q c → steps (pair_step Q) (on_state c).
Proof. intros Hc. by apply (steps_on_state _ Q). Qed.
Lemma on_el_pair {A} (f : N → N * A) : steps (pair_step Q) (on_el f).
Proof using PreOrder0. intros [s n]. unfold on_el, pair_step. simpl. by destruct (f n). Qed.
Lemma clock_pair : steps (pair_step Q) clock.
Proof using PreOrder0. intros p. done. Qed.
Lemma sleep_pair d : steps (pair_step Q) (sleep d).
Proof using PreOrder0. intros p. unfold pair_step. done. Qed.
#[local] Hint Resolve on_state_pair on_el_pair clock_pair sleep_pair : steps.

Lemma waited_pair {A} (c : M (State E * N) string (option A)) :
  steps (pair_step Q) c → steps (pair_step Q) (waited c).
Proof using PreOrder0. intros Hc. unfold waited. steps_tac. Qed.

Lemma mark_degraded_pair t e : steps (pair_step Q) (on_state (modify (mark_el_degraded t e))).
Proof using Hmark. apply on_state_pair, steps_modify. intros s. apply Hmark. Qed.
#[local] Hint Resolve waited_pair mark_degraded_pair : steps.

Lemma forkchoice_first_pair hash start fuel : ∀ backoff,
  steps (pair_step Q) (forkchoice_first cfg fuel hash start backoff).
Proof using PreOrder0. induction fuel as [|fuel IH]; intros backoff; simpl; steps_tac. Qed.
Lemma await_payload_pair payload reqs hashes timeout start fuel : ∀ backoff last,
  steps (pair_step Q) (await_payload cfg fuel payload reqs hashes timeout start backoff last).
Proof using PreOrder0 Hmark. induction fuel as [|fuel IH]; intros backoff last; simpl; steps_tac. Qed.
Lemma await_forkchoice_pair hash start fuel : ∀ backoff,
  steps (pair_step Q) (await_forkchoice cfg fuel hash start backoff).
Proof using PreOrder0 Hmark. induction fuel as [|fuel IH]; intros backoff; simpl; steps_tac. Qed.

Lemma notify_payload_pair payload reqs hashes sync_mode :
  steps (pair_step Q) (notify_payload cfg payload reqs hashes sync_mode).
Proof using PreOrder0 Hmark. pose proof await_payload_pair. unfold notify_payload. steps_tac. Qed.
Context (Hread : ∀ s fs, Q s (set_store (with_tx_faults fs (s_store s)) s)).
Context (Hengine : ∀ A (c : M E BlobEngineError A), steps Q (with_engine c)).

Lemma read_rel {A} (c : M Store StoreError A) : steps same_tables c → steps Q (with_store c).
Proof using Hread. intros Hc. apply (steps_with_store _ _ _ Hc). intros s st [fs ->]. apply Hread. Qed.
#[local] Hint Resolve read_rel Hengine : steps.

Lemma validate_blobs_rel h r hs : steps Q (validate_blobs h r hs).
Proof using PreOrder0 Hengine. unfold validate_blobs, blobs_to_import. steps_tac. Qed.
Lemma decided_versioned_hashes_rel h r hs : steps Q (decided_versioned_hashes h r hs).
Proof using PreOrder0 Hread. unfold decided_versioned_hashes. steps_tac. Qed.

Lemma prepare_decided_pair (cert : CommitCertificate) (ssz : bytes) :
  steps (pair_step Q) (prepare_decided (E := E) cfg cert ssz).
Proof using PreOrder0 Hread Hengine.
  pose proof validate_blobs_rel. pose proof decided_versioned_hashes_rel. pose proof forkchoice_first_pair.
  assert (steps (E := string) Q get) by (apply steps_get, _). unfold prepare_decided. steps_tac.
Qed.

Lemma execute_decided_pair (cert : CommitCertificate) (ssz : bytes) :
  steps (pair_step Q) (execute_decided (E := E) cfg cert ssz).
Proof using PreOrder0 Hmark Hread Hengine.
  pose proof prepare_decided_pair. pose proof await_forkchoice_pair. pose proof notify_payload_pair.
  assert (steps (E := string) Q get) by (apply steps_get, _). unfold execute_decided. steps_tac.
Qed.

Lemma decided_archive_job_rel (h : Height) (r : Round) (n : Z) :
  (∀ t s, Q s (set_pending_archive_heights t s)) → steps Q (decided_archive_job h r n).
Proof using PreOrder0 Hread Hengine.
  intros Hpend. assert (steps same_tables (archived_blob_indexes h)) by apply steps_blocking, read_tx_same.
  assert (steps (E := string) Q (add_pending_archive h)).
  { apply steps_modify. intros s. apply Hpend. }
  assert (steps Q (build_archive_job h r)) by (unfold build_archive_job; steps_tac).
  assert (steps (E := string) Q get) by (apply steps_get, _).
  unfold decided_archive_job, when. steps_tac.
Qed.
End environment.

Lemma head_kept_read (s : State E) fs : head_kept s (set_store (with_tx_faults fs (s_store s)) s).
Proof. split_and!; [done..|apply decided_kept_faults]. Qed.
Lemma engine_head_kept {A} (c : M E BlobEngineError A) : steps head_kept (with_engine c).
Proof. apply (steps_with_engine _ (λ _ _, True)); [by intros ?|]. by intros; split_and!. Qed.
Lemma mark_head_kept (t : Z) (e : string) (s : State E) : head_kept s (mark_el_degraded t e s).
Proof. unfold mark_el_degraded. by destruct (s_el_degraded s). Qed.

Definition prepare_decided_head_kept :=
  prepare_decided_pair head_kept head_kept_read (@engine_head_kept).
Definition execute_decided_head_kept :=
  execute_decided_pair head_kept mark_head_kept head_kept_read (@engine_head_kept).

(** *** What was asked of the execution layer *)

(** The states the execution layer goes through under the node's calls. *)
Inductive el_reach (n : N) : N → Prop :=
| reach_here : el_reach n n
| reach_new_block n1 p q v : el_reach n n1 → el_reach n (notify_new_block p q v n1).1
| reach_forkchoice n1 h : el_reach n n1 → el_reach n (set_latest_forkchoice_state h n1).1
| reach_sleep n1 d : el_reach n n1 → el_reach n (el_sleep d n1).
#[local] Hint Constructors el_reach : steps.
#[export] Instance el_reach_preorder : PreOrder el_reach.
Proof.
  split; [by constructor|]. intros n1 n2 n3 H12 H23. induction H23; auto with steps.
Qed.

Definition env_step (p p' : State E * N) : Prop := el_reach p.2 p'.2.
#[export] Instance env_step_preorder : PreOrder env_step.
Proof. unfold env_step. split; [by intros p|]. intros p1 p2 p3 ??. by etrans. Qed.

Lemma on_state_env {A} (c : M (State E) string A) : steps env_step (on_state c).
Proof. apply (steps_on_state _ (λ _ _, True)); [by intros ?|]. intros; by constructor. Qed.
Lemma clock_env : steps env_step clock.
Proof. intros p. by constructor. Qed.
Lemma sleep_env d : steps env_step (sleep d).
Proof. intros p. unfold env_step. simpl. auto with steps. Qed.
Lemma new_block_env p q v : steps env_step (on_el (notify_new_block p q v)).
Proof.
  intros [s n]. unfold on_el, env_step. cbn [fst snd]. pose proof (reach_new_block n n p q v (reach_here n)).
  by destruct (notify_new_block p q v n).
Qed.
Lemma forkchoice_env h : steps env_step (on_el (set_latest_forkchoice_state h)).
Proof.
  intros [s n]. unfold on_el, env_step. cbn [fst snd]. pose proof (reach_forkchoice n n h (reach_here n)).
  by destruct (set_latest_forkchoice_state h n).
Qed.
#[local] Hint Resolve on_state_env clock_env sleep_env new_block_env forkchoice_env : steps.

Lemma waited_env {A} (c : M (State E * N) string (option A)) : steps env_step c → steps env_step (waited c).
Proof. intros Hc. unfold waited. steps_tac. Qed.
#[local] Hint Resolve waited_env : steps.
Lemma forkchoice_first_env hash start fuel : ∀ backoff,
  steps env_step (forkchoice_first cfg fuel hash start backoff).
Proof. induction fuel as [|fuel IH]; intros backoff; simpl; steps_tac. Qed.
Lemma prepare_decided_env (cert : CommitCertificate) (ssz : bytes) :
  steps env_step (prepare_decided (E := E) cfg cert ssz).
Proof. pose proof forkchoice_first_env. unfold prepare_decided. steps_tac. Qed.

(** The execution layer was given the payload, and this is what it said. *)
Definition announced (payload : ExecutionPayloadV3) (st : PayloadStatus) (n n' : N) : Prop :=
  ∃ reqs hashes n1 n2, el_reach n n1 ∧ notify_new_block payload reqs hashes n1 = (n2, inr st) ∧ el_reach n2 n'.

(** It was told to make the payload's block its head, and did. *)
Definition head_applied (payload : ExecutionPayloadV3) (n n' : N) : Prop :=
  ∃ n1 h, el_reach n n1 ∧ set_latest_forkchoice_state (ep_block_hash payload) n1 = (n', inr h).

Lemma announced_l payload st (n n1 n' : N) : el_reach n n1 → announced payload st n1 n' → announced payload st n n'.
Proof. intros Hn (rq & hs & n2 & n3 & H1 & H2 & H3). exists rq, hs, n2, n3. split_and!; [by etrans|done..]. Qed.
Lemma announced_r payload st (n n1 n' : N) : announced payload st n n1 → el_reach n1 n' → announced payload st n n'.
Proof. intros (rq & hs & n2 & n3 & H1 & H2 & H3) Hn. exists rq, hs, n2, n3. split_and!; [done..|by etrans]. Qed.

Lemma waited_run {A} (c : M (State E * N) string (option A)) (p p' : State E * N) (a : A) :
  waited c p = (p', Ok a) → c p = (p', Ok (Some a)).
Proof.
  unfold waited, bind. destruct (c p) as [p1 [[x|]| |]]; [|discriminate..].
  by intros [= -> ->].
Qed.

Lemma await_payload_announced payload reqs hashes timeout start fuel : ∀ backoff last n0
    (p p' : State E * N) status pending,
  announced payload last n0 p.2 →
  await_payload cfg fuel payload reqs hashes timeout start backoff last p = (p', Ok (Some (status, pending))) →
  ∃ st, announced payload st n0 p'.2 ∧ if pending then is_syncing st = true else st = status.
Proof.
  induction fuel as [|fuel IH]; intros backoff last n0 [s n] p' status pending Ha; [done|]. cbn [await_payload].
  destruct (is_syncing last) eqn:Hl; cbn [negb]; [|intros [= <- -> <-]; by exists status].
  unfold bind at 1, clock. cbn [fst snd].
  destruct (_ <? _). { intros [= <- _ <-]. by exists last. }
  unfold bind, sleep, on_el. cbn [fst snd].
  destruct (notify_new_block _ _ _ _) as [n1 [e|st]] eqn:Hn; [done|]. apply IH.
  destruct Ha as (rq & hs & m1 & m2 & H1 & H2 & H3). exists reqs, hashes, (el_sleep backoff n), n1.
  split_and!; [|done..]. apply reach_sleep. etrans; [exact H1|]. etrans; [|exact H3].
  pose proof (reach_new_block m1 m1 payload rq hs (reach_here m1)) as Hr. by rewrite H2 in Hr.
Qed.

Lemma notify_payload_announced payload reqs hashes sync_mode (p p' : State E * N) status pending :
  notify_payload cfg payload reqs hashes sync_mode p = (p', Ok (status, pending)) →
  ∃ st, announced payload st p.2 p'.2 ∧ if pending then is_syncing st = true else st = status.
Proof.
  unfold notify_payload. intros [(r & p1 & H1 & Hr)|(? & _ & _ & ?)]%bind_run; [|done].
  destruct r as [e|st]; [done|]. destruct p as [s n]. unfold on_el in H1. cbn [fst snd] in *.
  destruct (notify_new_block payload reqs hashes n) as [n1 a] eqn:Hn. injection H1 as <- ->.
  assert (announced payload st n n1) as Ha by (by exists reqs, hashes, n, n1).
  destruct (is_syncing st); [|injection Hr as <- -> <-; by exists status].
  apply bind_run in Hr as [(t & p2 & H2 & Hr)|(? & _ & _ & ?)]; [|done]. injection H2 as <- _.
  apply waited_run in Hr. by eapply await_payload_announced in Hr.
Qed.

Lemma await_forkchoice_applied payload start fuel : ∀ backoff (p p' : State E * N),
  await_forkchoice cfg fuel (ep_block_hash payload) start backoff p = (p', Ok (Some true)) →
  head_applied payload p.2 p'.2.
Proof.
  induction fuel as [|fuel IH]; intros backoff [s n] p'; [done|]. simpl. unfold bind, on_el. simpl.
  pose proof (reach_forkchoice n n (ep_block_hash payload) (reach_here n)) as Hr.
  destruct (set_latest_forkchoice_state _ n) as [n1 [e|h]] eqn:Hf; simpl in *; [|intros [= <-]; by exists n, h].
  destruct (looks_transient e); [|done]. simpl. destruct (_ <=? _); [|done].
  intros (n2 & h & H1 & H2)%IH. exists n2, h. split; [|done]. etrans; [exact Hr|].
  etrans; [|exact H1]. apply reach_sleep, reach_here.
Qed.

Lemma await_forkchoice_env hash start fuel : ∀ backoff,
  steps env_step (await_forkchoice (E := E) cfg fuel hash start backoff).
Proof. induction fuel as [|fuel IH]; intros backoff; simpl; steps_tac. Qed.

(** A wait that gave up left the execution layer marked as degraded. *)
Lemma await_payload_pending payload reqs hashes timeout start fuel : ∀ backoff last
    (p p' : State E * N) status,
  await_payload cfg fuel payload reqs hashes timeout start backoff last p = (p', Ok (Some (status, true))) →
  s_el_degraded p'.1 = true.
Proof.
  induction fuel as [|fuel IH]; intros backoff last [s n] p' status; [done|]. cbn [await_payload].
  destruct (is_syncing last); cbn [negb]; [|done]. unfold bind at 1, clock. cbn [fst snd].
  destruct (_ <? _). { by intros [= <- _]. }
  unfold bind, sleep, on_el. cbn [fst snd].
  destruct (notify_new_block _ _ _ _) as [n1 [e|st]]; [done|]. apply IH.
Qed.

Lemma await_forkchoice_pending hash start fuel : ∀ backoff (p p' : State E * N),
  await_forkchoice cfg fuel hash start backoff p = (p', Ok (Some false)) → s_el_degraded p'.1 = true.
Proof.
  induction fuel as [|fuel IH]; intros backoff [s n] p'; [done|]. simpl. unfold bind, on_el. simpl.
  destruct (set_latest_forkchoice_state hash n) as [n1 [e|h]]; [|done]. simpl.
  destruct (looks_transient e); [|done]. simpl. destruct (_ <=? _); [apply IH|]. by intros [= <-].
Qed.

Lemma notify_payload_pending payload reqs hashes sync_mode (p p' : State E * N) status :
  notify_payload cfg payload reqs hashes sync_mode p = (p', Ok (status, true)) →
  s_el_degraded p'.1 = true.
Proof.
  unfold notify_payload. intros [(r & p1 & _ & Hr)|(? & _ & _ & ?)]%bind_run; [|done].
  destruct r as [e|st]; [done|]. destruct (is_syncing st); [|done].
  apply bind_run in Hr as [(t & p2 & _ & Hr)|(? & _ & _ & ?)]; [|done].
  apply waited_run in Hr. by eapply await_payload_pending.
Qed.

Lemma prepare_decided_payload (cert : CommitCertificate) (ssz : bytes) (p p' : State E * N) r :
  prepare_decided cfg cert ssz p = (p', Ok r) → payload_from_ssz ssz = Some r.1.1.1.1.
Proof.
  unfold prepare_decided. case_bool_decide; [done|]. unfold bind at 1, lift.
  destruct (payload_from_ssz ssz) as [pl|]; [|done]. cbn [ok_or]. intros Hrun.
  repeat match type of Hrun with
  | bind _ _ _ = _ => apply bind_run in Hrun as [(? & ? & _ & Hrun)|(? & _ & _ & ?)]; [|done]
  | (let '(_, _) := ?x in _) _ = _ => destruct x
  end.
  by injection Hrun as _ <-.
Qed.

(** What has been checked once the execution layer has answered, and what it
    was asked. *)
Lemma execute_decided_run (cert : CommitCertificate) (ssz : bytes) (p p' : State E * N)
    (payload : ExecutionPayloadV3) (status : PayloadStatus) (applied : bool) (blobs : Z) :
  execute_decided cfg cert ssz p = (p', Ok (payload, status, applied, blobs)) →
  payload_from_ssz ssz = Some payload ∧
  (∃ s, head_kept p.1 s ∧ check_decided_payload s (cc_height cert) payload status = Ok tt) ∧
  (∃ st, announced payload st p.2 p'.2 ∧ is_invalid st = false ∧ (applied = true → st = status)) ∧
  (if applied then head_applied payload p.2 p'.2 else s_el_degraded p'.1 = true).
Proof.
  unfold execute_decided. intros [([[[[pl rq] hs] bc] al] & p1 & H1 & Hrun)|(? & _ & _ & ?)]%bind_run; [|done].
  pose proof (run_steps _ _ _ _ _ (prepare_decided_head_kept cert ssz) H1) as K1.
  pose proof (run_steps _ _ _ _ _ (prepare_decided_env cert ssz) H1) as R1.
  apply prepare_decided_payload in H1. simpl in H1.
  apply bind_run in Hrun as [([st pd] & p2 & H2 & Hrun)|(? & _ & _ & ?)]; [|done].
  pose proof (run_steps _ _ _ _ _ (notify_payload_pair head_kept mark_head_kept _ _ _ _) H2) as K2.
  destruct (notify_payload_announced _ _ _ _ _ _ _ _ H2) as (st' & (rq' & hs' & n3 & n4 & A1 & A2 & A3) & Hst').
  unfold bind at 1, on_state, zoom, get in Hrun. destruct p2 as [s2 n2]. cbn [fst snd] in Hrun, A3.
  apply bind_run in Hrun as [([] & p3 & H3 & Hrun)|(? & _ & _ & ?)]; [|done]. injection H3 as <- Hck.
  apply bind_run in Hrun as [(ap & p4 & H4 & Hrun)|(? & _ & _ & ?)]; [|done].
  injection Hrun as <- <- <- <- <-.
  assert (is_invalid st' = false) as Hinv.
  { destruct pd; [by destruct st' as [[] ?]|]. subst st'. unfold check_decided_payload in Hck.
    by destruct (is_invalid st). }
  assert (el_reach n2 p4.2) as R4.
  { destruct pd; [injection H4 as <- _; constructor|].
    enough (steps env_step (let* start := clock in waited (await_forkchoice cfg
      (retry_fuel cfg (rc_forkchoice_timeout cfg)) (ep_block_hash pl) start (rc_initial_backoff cfg)))) as Hs
      by exact (run_steps _ _ _ _ _ Hs H4).
    pose proof (await_forkchoice_env (ep_block_hash pl)). steps_tac. }
  assert (el_reach p.2 n2) as R2.
  { etrans; [exact R1|]. etrans; [exact A1|]. etrans; [|exact A3].
    pose proof (reach_new_block n3 n3 pl rq' hs' (reach_here n3)) as Hr. by rewrite A2 in Hr. }
  split_and!; [done|exists s2; split; [exact (transitivity K1 K2)|done]| |].
  - exists st'. split_and!; [|done|].
    + exists rq', hs', n3, n4. split_and!; [etrans; [exact R1|exact A1]|done|by etrans].
    + intros ->. destruct pd; [by injection H4|done].
  - destruct pd.
    + apply notify_payload_pending in H2. by injection H4 as <- <-.
    + apply bind_run in H4 as [(t & p5 & H5 & H4)|(? & _ & _ & ?)]; [|done]. injection H5 as <- _.
      apply waited_run in H4. destruct ap; [|by eapply await_forkchoice_pending].
      apply await_forkchoice_applied in H4 as (n5 & h & Hr & Hf). exists n5, h. split; [by etrans|done].
Qed.

(** Up to there, and in the archive job, the store is only read. *)
Definition store_read (s s' : State E) : Prop := same_tables (s_store s) (s_store s').
#[export] Instance store_read_preorder : PreOrder store_read.
Proof. unfold store_read. split; [by intros s|]. intros s1 s2 s3 ??. by etrans. Qed.
Lemma store_read_fault (s : State E) fs : store_read s (set_store (with_tx_faults fs (s_store s)) s).
Proof. by exists fs. Qed.
Lemma store_read_engine {A} (c : M E BlobEngineError A) : steps store_read (with_engine c).
Proof. apply (steps_with_engine _ (λ _ _, True)); [by intros ?|]. intros s e _. by unfold store_read. Qed.
Lemma store_read_mark t e (s : State E) : store_read s (mark_el_degraded t e s).
Proof. unfold store_read, mark_el_degraded. by destruct (s_el_degraded s). Qed.

Definition execute_decided_reads :=
  execute_decided_pair store_read store_read_mark store_read_fault (@store_read_engine).

Lemma decided_archive_job_reads (h : Height) (r : Round) (n : Z) : steps store_read (decided_archive_job h r n).
Proof.
  apply decided_archive_job_rel; [apply _|apply store_read_fault|apply @store_read_engine|].
  by intros; unfold store_read.
Qed.

(** The decided height was decided before, or the value of the proposal stored
    for the decided round was written with the certificate. *)
Definition log_written (cert : CommitCertificate) (st st' : Store) : Prop :=
  log_same st st' ∨
  ∃ p, proposal_at st (cc_height cert) (cc_round cert) p ∧ log_put cert (pv_value p) st st'.

Lemma log_written_reads (cert : CommitCertificate) (st st1 st2 st3 : Store) :
  same_tables st st1 → log_written cert st1 st2 → same_tables st2 st3 → log_written cert st st3.
Proof. intros [fs ->] Hw [fs' ->]. destruct Hw as [[]|?]; [by left|by right]. Qed.

(** What the commit and the archive job leave as it is: how the node sees the
    execution layer, and the decided records. *)
Definition el_kept (s s' : State E) : Prop :=
  s_el_degraded s' = s_el_degraded s ∧ s_latest_block s' = s_latest_block s ∧
  s_executed_height s' = s_executed_height s ∧ decided_kept (s_store s) (s_store s').
#[export] Instance el_kept_preorder : PreOrder el_kept.
Proof.
  split; [by intros s; split_and!|]. intros s1 s2 s3 (?&?&?&?) (?&?&?&?).
  split_and!; [congruence..|by etrans].
Qed.

Lemma store_el_kept {A} (c : M Store StoreError A) : steps decided_kept c → steps el_kept (with_store c).
Proof. intros Hc. apply (steps_with_store _ _ _ Hc). by intros s st Hst; split_and!. Qed.
Lemma read_el_kept {A} (c : M Store StoreError A) : steps same_tables c → steps el_kept (with_store c).
Proof.
  intros Hc. apply (steps_with_store _ _ _ Hc). intros s st [fs ->]. split_and!; [done..|].
  apply decided_kept_faults.
Qed.
Lemma engine_el_kept {A} (c : M E BlobEngineError A) : steps el_kept (with_engine c).
Proof. apply (steps_with_engine _ (λ _ _, True)); [by intros ?|]. by intros; split_and!. Qed.
#[local] Hint Resolve read_el_kept engine_el_kept : steps.

Lemma el_kept_rel (cert : CommitCertificate) : commit_rel cert el_kept.
Proof.
  assert (∀ op, steps el_kept (with_store (run_op op))) as Hop.
  { intros op. apply store_el_kept, run_op_kept. }
  split; [split|..]; try (by intros; split_and!); try (intros; apply engine_el_kept).
  - apply _.
  - intros d q. apply (Hop (OpStoreDecidedBlock (cc_height cert) d q)).
  - intros r. apply (Hop (OpDeleteBlobUndecided (cc_height cert) r)).
  - intros s. unfold with_store, zoom, map_err. pose proof (prune_kept (retain_height s cert) (s_store s)).
    by destruct (prune _ _).
  - intros v. apply (Hop (OpStoreDecided cert v)).
  - intros m. apply (Hop (OpPutConsensus (cc_height cert) m)).
  - apply (Hop (OpMarkDecided (cc_height cert) (cc_round cert))).
Qed.

Lemma commit_el_kept (cert : CommitCertificate) : steps el_kept (commit cert).
Proof.
  assert (steps el_kept flush_pending_prunes) as Hf.
  { apply flush_pending_prunes_rel; [apply _|..]; try (by intros; split_and!).
    - intros h m. apply store_el_kept, (run_op_kept (OpUpdateBlob h m)).
    - intros h idxs. apply engine_el_kept. }
  pose proof (commit_persist_rel cert _ (el_kept_rel cert)).
  assert (∀ f, (∀ s : State E, el_kept s (f s)) → steps (E := string) el_kept (modify f)) as Hmod.
  { intros f Hm. by apply steps_modify. }
  unfold commit, advance_height. steps_tac; apply Hmod; by intros; split_and!.
Qed.

(** Finalizing writes of the decided tables what deciding the certificate may
    write, however it ends. *)
Definition writes (cert : CommitCertificate) (s s' : State E) : Prop :=
  decided_write cert (s_store s) (s_store s').
#[export] Instance writes_preorder cert : PreOrder (writes cert).
Proof. unfold writes. split; [by intros s|]. intros s1 s2 s3 ??. by etrans. Qed.

Lemma decided_write_faults cert st fs : decided_write cert st (with_tx_faults fs st).
Proof. split; [by left; split|by split|by split]. Qed.
Lemma writes_read cert (s : State E) fs : writes cert s (set_store (with_tx_faults fs (s_store s)) s).
Proof. apply decided_write_faults. Qed.
Lemma writes_engine cert {A} (c : M E BlobEngineError A) : steps (writes cert) (with_engine c).
Proof. apply (steps_with_engine _ (λ _ _, True)); [by intros ?|]. intros s e _. by unfold writes. Qed.
Lemma writes_op cert (op : StoreOp) :
  decides op = false → op_records op = None ∨ op_records op = Some (cc_height cert) →
  steps (writes cert) (with_store (run_op op)).
Proof. intros Hd Hr. by apply (steps_with_store _ _ _ (run_op_decided_write cert op Hd Hr)). Qed.

Lemma writes_rel (cert : CommitCertificate) : commit_rel cert (writes cert).
Proof.
  pose proof (writes_op cert) as Hop.
  split; [split|..]; try (by intros; unfold writes); try (intros; apply writes_engine).
  - apply _.
  - apply writes_read.
  - intros d q. apply (Hop (OpStoreDecidedBlock (cc_height cert) d q)); auto.
  - intros r. apply (Hop (OpDeleteBlobUndecided (cc_height cert) r)); auto.
  - intros s. unfold writes, with_store, zoom, map_err.
    destruct (prune_run (retain_height s cert) (s_store s)) as (? & ? & ? & Hp).
    destruct (prune _ _) as [st r]. simpl in Hp |- *.
    destruct Hp as [-> | ->]; (split; [by left; split|by split|by split]).
  - intros v. by apply (steps_with_store _ _ _ (store_decided_write cert v)).
  - intros m. apply (Hop (OpPutConsensus (cc_height cert) m)); auto.
  - apply (Hop (OpMarkDecided (cc_height cert) (cc_round cert))); auto.
Qed.

Lemma commit_writes (cert : CommitCertificate) : steps (writes cert) (commit cert).
Proof.
  assert (steps (writes cert) flush_pending_prunes) as Hf.
  { apply flush_pending_prunes_rel; [apply _|apply writes_read|..]; try (by intros; unfold writes).
    - intros h m. apply (writes_op cert (OpUpdateBlob h m)); auto.
    - intros h idxs. apply writes_engine. }
  pose proof (commit_persist_rel cert _ (writes_rel cert)).
  unfold commit, advance_height. steps_tac; apply steps_modify; by intros; unfold writes.
Qed.

(** Relations on the store that the commit respects hold of the whole. *)
Lemma process_decided_rel (Q : Store → Store → Prop) `{!PreOrder Q} (cert : CommitCertificate) (ssz : bytes) :
  (∀ st fs, Q st (with_tx_faults fs st)) →
  steps (λ s s', Q (s_store s) (s_store s')) (commit (E := E) cert) →
  steps (λ p p', Q (s_store p.1) (s_store p'.1)) (process_decided_certificate (E := E) (N := N) cfg cert ssz).
Proof.
  intros Hread Hcommit. set (R := λ s s' : State E, Q (s_store s) (s_store s')).
  assert (PreOrder R) as HR.
  { unfold R. split; [by intros s|]. intros s1 s2 s3 ??. by etrans. }
  assert (∀ s fs, R s (set_store (with_tx_faults fs (s_store s)) s)) as Hr by (intros; apply Hread).
  assert (∀ A (c : M E BlobEngineError A), steps R (with_engine c)) as He.
  { intros A c. apply (steps_with_engine _ (λ _ _, True)); [by intros ?|]. intros s e _. by unfold R. }
  assert (∀ t e s, R s (mark_el_degraded t e s)) as Hm.
  { intros t e s. unfold R, mark_el_degraded. by destruct (s_el_degraded s). }
  pose proof (execute_decided_pair R Hm Hr He cert ssz).
  pose proof (λ A c, on_state_pair R (A := A) c) as Hon.
  assert (∀ f, (∀ s : State E, s_store (f s) = s_store s) →
    steps (pair_step R) (on_state (N := N) (modify f))) as Hmod.
  { intros f Hf. apply Hon, steps_modify. intros s. unfold R. by rewrite Hf. }
  assert (∀ h r n, steps (pair_step R) (on_state (N := N) (decided_archive_job h r n))) as Hjob.
  { intros h r n. apply Hon, decided_archive_job_rel; [done..|]. by intros; unfold R. }
  pose proof (Hon _ _ Hcommit). change (steps (pair_step R) (process_decided_certificate (E := E) (N := N) cfg cert ssz)).
  unfold process_decided_certificate, settle_decided. steps_tac; by apply Hmod.
Qed.

(** The archive job moves neither the node nor its view of the execution
    layer, and its own failures are swallowed. *)
Definition settled (s s' : State E) : Prop := head_kept s s' ∧ s_el_degraded s' = s_el_degraded s.
#[export] Instance settled_preorder : PreOrder settled.
Proof. split; [by intros s|]. intros s1 s2 s3 [H1 ?] [H2 ?]. split; [by etrans|congruence]. Qed.

Lemma decided_archive_job_settled (h : Height) (r : Round) (n : Z) : steps settled (decided_archive_job h r n).
Proof.
  apply decided_archive_job_rel; [apply _|..]; try (by intros; split_and!).
  intros A c. apply (steps_with_engine _ (λ _ _, True)); [by intros ?|]. by intros; split_and!.
Qed.

(** Computations that return no error: they succeed, or panic. *)
Definition errorless {S Er A} (c : M S Er A) : Prop := ∀ s e, (c s).2 ≠ Err e.

Lemma errorless_bind {S Er A A'} (c : M S Er A) (k : A → M S Er A') :
  errorless c → (∀ a, errorless (k a)) → errorless (bind c k).
Proof.
  intros Hc Hk s e. unfold bind. specialize (Hc s). destruct (c s) as [s1 [a|e'|]]; [apply Hk| |done].
  by destruct (Hc e').
Qed.
Lemma errorless_attempt {S Er F A} (c : M S Er A) : errorless (attempt (F := F) c).
Proof. intros s e. unfold attempt. by destruct (c s) as [s1 [a|e'|]]. Qed.

Lemma decided_archive_job_errorless (h : Height) (r : Round) (n : Z) : errorless (decided_archive_job h r n).
Proof.
  unfold decided_archive_job.
  repeat first [apply errorless_attempt|apply errorless_bind; [|intros ?]|progress unfold when|case_match|by intros ? ?].
Qed.

(** From the execution layer's answer on: the node is settled on the payload. *)
Lemma settle_run (cert : CommitCertificate) (payload : ExecutionPayloadV3) (status : PayloadStatus)
    (applied : bool) (blobs : Z) (ssz : bytes) (s : State E) (n : N) (p' : State E * N)
    (r : outcome string DecidedOutcome) :
  settle_decided cert ssz (payload, status, applied, blobs) (s, n) = (p', r) →
  match r with
  | Ok o =>
    p'.2 = n ∧ do_payload_status o = (if applied then status else from_status StatusSyncing) ∧
    do_execution_block o = execution_block_of payload ∧ do_execution_pending o = negb applied ∧
    s_latest_block p'.1 = Some (execution_block_of payload) ∧
    s_current_height p'.1 = Z.max (s_current_height s) (Height_increment (cc_height cert)) ∧
    s_current_round p'.1 = RSome 0 ∧ decided_kept (s_store s) (s_store p'.1) ∧
    decided_present (cc_height cert) (s_store p'.1) ∧ log_written cert (s_store s) (s_store p'.1) ∧
    (if applied
     then s_executed_height p'.1 = cc_height cert ∧ s_el_degraded p'.1 = false
     else s_executed_height p'.1 = s_executed_height s ∧ s_el_degraded p'.1 = s_el_degraded s)
  | Err _ => head_kept s p'.1
  | Panic => True
  end.
Proof.
  unfold settle_decided, bind, on_state, zoom, modify. cbn [fst snd]. set (s2 := set_chain_bytes _ _).
  pose proof (commit_el_kept cert s2) as (E1 & E2 & E3 & E4). pose proof (commit_advances cert s2) as Hadv.
  pose proof (commit_log cert s2) as Hlog.
  destruct (commit cert s2) as [s3 [[]|e|]]; simpl in E1, E2, E3, E4, Hadv; cbn [fst snd];
    [|intros [= <- <-]; destruct Hadv; by split_and!|by intros [= <- <-]].
  set (s4 := if applied
             then clear_el_degraded (set_executed_height (cc_height cert)
                    (set_latest_block (Some (execution_block_of payload)) s3))
             else set_latest_block (Some (execution_block_of payload)) s3).
  replace ((if applied then _ else ret tt) _) with ((s4, n), @Ok string unit tt) by (by destruct applied).
  cbn [fst snd]. pose proof (decided_archive_job_settled (cc_height cert) (cc_round cert) blobs s4) as K.
  pose proof (decided_archive_job_errorless (cc_height cert) (cc_round cert) blobs s4) as Hne.
  pose proof (decided_archive_job_reads (cc_height cert) (cc_round cert) blobs s4) as Hj. unfold store_read in Hj.
  destruct (decided_archive_job _ _ blobs s4) as [s5 [job|e|]];
    intros [= <- <-]; [|by destruct (Hne e)|done]. cbn [fst snd] in *.
  destruct K as [(K1 & K2 & K3 & K4 & K5) K6], Hadv as (D1 & D2 & D3 & D4).
  assert (s_store s4 = s_store s3 ∧ s_current_height s4 = s_current_height s3 ∧
          s_current_round s4 = s_current_round s3) as (F1 & F2 & F3) by (by destruct applied).
  rewrite F1 in K5, Hj. split_and!; [done..|rewrite K3; by destruct applied|congruence|congruence|by etrans| | |].
  - by eapply decided_present_kept.
  - eapply log_written_reads; [reflexivity|exact (Hlog s3 eq_refl)|exact Hj].
  - rewrite K4, K6. by destruct applied.
Qed.

(** What finalizing leaves behind, in every case. *)
Definition finalize_spec (cert : CommitCertificate) (ssz : bytes) (p : State E * N) : Prop :=
  let s := p.1 in
  let p' := (process_decided_certificate cfg cert ssz p).1 in
  let s' := p'.1 in
  decided_kept (s_store s) (s_store s') ∧ decided_write cert (s_store s) (s_store s') ∧
  match (process_decided_certificate cfg cert ssz p).2 with
  | Ok o =>
    ∃ payload status st s1,
      payload_from_ssz ssz = Some payload ∧
      head_kept s s1 ∧ check_decided_payload s1 (cc_height cert) payload status = Ok tt ∧
      announced payload st p.2 p'.2 ∧ is_invalid st = false ∧
      do_execution_block o = execution_block_of payload ∧
      s_latest_block s' = Some (execution_block_of payload) ∧
      s_current_height s' = Z.max (s_current_height s) (Height_increment (cc_height cert)) ∧
      s_current_round s' = RSome 0 ∧
      decided_present (cc_height cert) (s_store s') ∧ log_written cert (s_store s) (s_store s') ∧
      (if do_execution_pending o
       then s_executed_height s' = s_executed_height s ∧ s_el_degraded s' = true
       else s_executed_height s' = cc_height cert ∧ s_el_degraded s' = false ∧
            do_payload_status o = st ∧ head_applied payload p.2 p'.2)
  | Err _ =>
    s_current_height s' = s_current_height s ∧ s_current_round s' = s_current_round s ∧
    s_latest_block s' = s_latest_block s ∧ s_executed_height s' = s_executed_height s
  | Panic => True
  end.

Lemma process_decided_run (cert : CommitCertificate) (ssz : bytes) (p : State E * N) :
  finalize_spec cert ssz p.
Proof.
  unfold finalize_spec. cbv zeta.
  assert (steps (λ s s' : State E, decided_kept (s_store s) (s_store s')) (commit cert)) as Hck.
  { eapply steps_weaken, commit_el_kept. by intros s s' (_ & _ & _ & ?). }
  pose proof (process_decided_rel _ cert ssz decided_kept_faults Hck p) as Hk. clear Hck.
  pose proof (process_decided_rel (decided_write cert) cert ssz (decided_write_faults cert)
    (commit_writes cert) p) as Hw.
  destruct (process_decided_certificate cfg cert ssz p) as [p' r] eqn:Hrun. cbn [fst snd] in *.
  split_and!; [exact Hk|exact Hw|]. clear Hk Hw. unfold process_decided_certificate in Hrun.
  apply bind_run in Hrun as [([[[payload status] applied] blobs] & [s1 n1] & H1 & Hrun)|(r0 & H1 & _ & Hr)].
  2: { apply (run_steps _ _ _ _ _ (execute_decided_head_kept cert ssz)) in H1 as (?&?&?&?&_).
       by destruct r. }
  pose proof (run_steps _ _ _ _ _ (execute_decided_head_kept cert ssz) H1) as (A1 & A2 & A3 & A4 & _).
  destruct (execute_decided_run _ _ _ _ _ _ _ _ H1) as (Hssz & (s0 & Hs0 & Hck) & (st & Hann & Hinv & Hst) & Happ).
  apply settle_run in Hrun. cbn [fst snd] in *.
  destruct r as [o|e|]; [|destruct Hrun as (?&?&?&?&_); split_and!; congruence|done].
  pose proof (run_steps _ _ _ _ _ (execute_decided_reads cert ssz) H1) as Hrd.
  destruct Hrun as (-> & Hps & Hblk & -> & B2 & B3 & B4 & _ & B6 & B8 & B7).
  pose proof (log_written_reads _ _ _ _ _ Hrd B8 (reflexivity _)) as B9.
  exists payload, status, st, s0. rewrite A1 in B3. rewrite A4 in B7.
  destruct applied; simpl; destruct B7; rewrite ?Hst in * by done; split_and!; congruence || done.
Qed.

(** The node after a certificate was finalized. *)
Lemma process_decided_ok (cert : CommitCertificate) (ssz : bytes) (p p' : State E * N) (o : DecidedOutcome) :
  process_decided_certificate cfg cert ssz p = (p', Ok o) →
  s_current_height p'.1 = Z.max (s_current_height p.1) (Height_increment (cc_height cert)) ∧
  decided_present (cc_height cert) (s_store p'.1).
Proof.
  intros Hrun. pose proof (process_decided_run cert ssz p) as Hfin. unfold finalize_spec in Hfin.
  rewrite Hrun in Hfin. cbn [fst snd] in Hfin.
  by destruct Hfin as (_ & _ & _ & _ & _ & _ & _ & _ & _ & _ & _ & _ & _ & ? & _ & ? & _).
Qed.

(** C2: finalizing a decided certificate.  When it succeeds, the payload that
    was decoded from the decided bytes has passed its checks, the execution
    layer was given it and did not call it invalid, the reported block and the
    node's head are that payload's, the height has a value and a certificate in
    the store, which, unless it was decided before, are the value of the
    proposal stored for the decided round and the certificate, and the node is at
    the next height, or the higher one it was at, in round 0.  The executed height moves, and the execution layer counts as
    healthy, only when the execution layer made the block its head; otherwise
    the execution layer is marked as behind.  When finalizing fails, the node's
    height, round, head and executed height are as before.  In every case no
    decided record is lost, a value and a certificate are only written together,
    the certificate being the decided one, at its own height, and the block data
    and consensus metadata of all other heights are as before. *)
Theorem decided_certificate_finalized (cert : CommitCertificate) (ssz : bytes) (p : State E * N) :
  let s := p.1 in
  let p' := (process_decided_certificate cfg cert ssz p).1 in
  let s' := p'.1 in
  decided_kept (s_store s) (s_store s') ∧ decided_write cert (s_store s) (s_store s') ∧
  match (process_decided_certificate cfg cert ssz p).2 with
  | Ok o =>
    ∃ payload status st s1,
      payload_from_ssz ssz = Some payload ∧
      head_kept s s1 ∧ check_decided_payload s1 (cc_height cert) payload status = Ok tt ∧
      announced payload st p.2 p'.2 ∧ is_invalid st = false ∧
      do_execution_block o = execution_block_of payload ∧
      s_latest_block s' = Some (execution_block_of payload) ∧
      s_current_height s' = Z.max (s_current_height s) (Height_increment (cc_height cert)) ∧
      s_current_round s' = RSome 0 ∧
      decided_present (cc_height cert) (s_store s') ∧ log_written cert (s_store s) (s_store s') ∧
      (if do_execution_pending o
       then s_executed_height s' = s_executed_height s ∧ s_el_degraded s' = true
       else s_executed_height s' = cc_height cert ∧ s_el_degraded s' = false ∧
            do_payload_status o = st ∧ head_applied payload p.2 p'.2)
  | Err _ =>
    s_current_height s' = s_current_height s ∧ s_current_round s' = s_current_round s ∧
    s_latest_block s' = s_latest_block s ∧ s_executed_height s' = s_executed_height s
  | Panic => True
  end.
Proof. apply process_decided_run. Qed.
End decide_proofs.

(** ** Examples *)

(** An execution layer that is its clock: it answers with [status], and it
    applies a forkchoice when [applies] holds. *)
Definition demo_notifier (status : PayloadStatusEnum) (applies : bool) : ExecutionNotifier Z := {|
  notify_new_block _ _ _ t := (t + 1, inr (from_status status));
  set_latest_forkchoice_state h t := (t + 1, if applies then inr h else inl SyncingForkchoice);
  el_clock t := t;
  el_sleep d t := t + d |}.

Lemma demo_notifier_laws (status : PayloadStatusEnum) (applies : bool) :
  ClockLaws Z (demo_notifier status applies).
Proof. split; intros; simpl; lia. Qed.

(** Waits on an execution layer that stays behind, with the default limits. *)
Lemma waits_end_witness :
  (@await_payload BlobEngineImpl Z (demo_notifier StatusSyncing false) ExecutionRetryConfig_default
     (retry_fuel ExecutionRetryConfig_default 30000) demo_payload [] [] 30000 0 250
     (from_status StatusSyncing) (demo_committer, 0)).2 ≠ Ok None ∧
  (@await_forkchoice BlobEngineImpl Z (demo_notifier StatusSyncing false) ExecutionRetryConfig_default
     (retry_fuel ExecutionRetryConfig_default 30000) B256_ZERO 0 250 (demo_committer, 0)).2 ≠ Ok None.
Proof.
  destruct (@waits_end BlobEngineImpl Z _ (demo_notifier_laws StatusSyncing false)
    ExecutionRetryConfig_default ltac:(simpl; lia) (demo_committer, 0) B256_ZERO demo_payload [] [] 30000
    (from_status StatusSyncing)) as (_ & H2 & H3); [simpl; lia..|].
  split; [exact H2|exact H3].
Defined.

(** A payload with the network's constant [prev_randao], decided at height 8
    while the execution layer answers or stays behind: in both cases the node
    goes on to height 9, but only in the first is height 8 executed. *)
Definition decided_payload : ExecutionPayloadV3 :=
  mkPayload B256_ZERO (zeros 20) B256_ZERO B256_ZERO (zeros 256) load_prev_randao 1 0 0 101 [] 0
    B256_ZERO [] [] 0 0.
Definition demo_finalize (status : PayloadStatusEnum) (applies : bool) :
    (State BlobEngineImpl * Z) * outcome string DecidedOutcome :=
  @process_decided_certificate BlobEngineImpl demo_rocksdb_engine null_crypto demo_merkle commit_codecs
    demo_tree_hash {| payload_from_ssz _ := Some decided_payload |}
    {| block_versioned_hashes _ := Some [] |} Z (demo_notifier status applies)
    ExecutionRetryConfig_default demo_certificate [1] (demo_committer, 0).

Example finalize_applied :
  let '((s, _), r) := demo_finalize StatusValid true in
  is_ok r = true ∧ s_current_height s = 9 ∧ s_executed_height s = 8 ∧ s_el_degraded s = false.
Proof. vm_compute. auto. Qed.
Example finalize_pending :
  let '((s, _), r) := demo_finalize StatusSyncing false in
  is_ok r = true ∧ s_current_height s = 9 ∧ s_executed_height s = 0 ∧ s_el_degraded s = true.
Proof. vm_compute. auto. Qed.
