(* ===== verification/Sync.v ===== *)
(** * Values received by state sync ([State::process_synced_package])

    A peer sends a decided value with its payload and, unless they are pruned,
    its blobs.  The node checks them against the value, stores them as if it
    had seen the proposal, and promotes the blobs and their metadata at once, so
    that the next height can be checked against this one. *)
From S2P Require Import Prelude Types Merkle Streaming Proposal Metadata BlobStore BlobEngine Store Proto State Archival BlobProposal Commit.
Open Scope monad_scope.

Section sync.
Context {E : Type} {B : BlobEngine E} `{Crypto} `{MerkleTreeLib} `{NodeCodecs}.

Abbreviation StM A := (M (State E) string A) (only parsing).

(** A step whose failure is only logged. *)
Definition logged {A} (c : StM A) : StM unit := attempt (F := string) c ;;; ret tt.

Definition store_synced_block_data (height : Height) (round : Round) (data : bytes)
    (reqs : list bytes) : StM unit :=
  let* _ := lift (validate_execution_requests reqs) in
  with_store (store_undecided_block_data height round data reqs).

Definition store_synced_proposal (p : ProposedValue) : StM unit :=
  with_store (store_undecided_proposal p).

(** The checks of the sidecars against the commitments of the value. *)
Definition distinct_indices (scs : list BlobSidecar) : bool := bool_decide (NoDup (sc_index <$> scs)).
Definition commitment_matches (cs : list KzgCommitment) (s : BlobSidecar) : bool :=
  match cs !! Z.to_nat (sc_index s) with
  | Some c => bool_decide (c = sc_kzg_commitment s)
  | None => false
  end.

Definition drop_synced_round (height : Height) (round : Round) : StM unit :=
  logged (with_engine (be_drop_round height (Round_as_i64 round))).
Definition drop_synced_metadata (height : Height) (round : Round) : StM unit :=
  logged (with_store (delete_blob_metadata_undecided height round)).

(** Verify, store and promote the sidecars; [None] when they are rejected. *)
Definition import_synced_blobs (height : Height) (round : Round) (proposer : Address)
    (m : ValueMetadata) (scs : list BlobSidecar) : StM (option SignedBeaconBlockHeader) :=
  let cs := vm_blob_kzg_commitments m in
  let* v := attempt (F := string)
              (with_engine (be_verify_and_store height (Round_as_i64 round) scs)) in
  match v with
  | inl _ => ret None
  | inr _ =>
    if negb (length cs =? length scs)%nat || negb (distinct_indices scs)
    then drop_synced_round height round ;;; ret None
    else if negb (forallb (commitment_matches cs) scs)
    then drop_synced_round height round ;;; drop_synced_metadata height round ;;; ret None
    else
      let* h := attempt (verify_blob_sidecars height proposer m scs) in
      match h with
      | inl _ => drop_synced_round height round ;;; ret None
      | inr h =>
        logged (with_engine (be_mark_decided height (Round_as_i64 round))) ;;;
        ret (Some h)
      end
  end.

(** The metadata of a synced value, promoted as it is stored, and the parent
    root for the next height. *)
Definition record_synced_metadata (height : Height) (round : Round) (proposer : Address)
    (m : ValueMetadata) (parent_root : B256) (hashes : list B256) : StM BlobMetadata :=
  let* s := get in
  let cs := vm_blob_kzg_commitments m in
  let index := validator_index (s_genesis_validators s) proposer in
  let header := vm_execution_payload_header m in
  let* bm := lift (if decide (cs = []) then BlobMetadata_blobless height parent_root header index
                   else BlobMetadata_new height parent_root cs hashes header index) in
  with_store (put_blob_metadata_undecided height round bm) ;;;
  with_store (mark_blob_metadata_decided height round) ;;;
  modify (set_last_blob_sidecar_root (hash_tree_root (to_beacon_header bm))) ;;;
  modify (set_last_blob_sidecar_height height) ;;;
  ret bm.

Definition handle_synced_notices (notices : list ArchiveNotice) : StM unit :=
  foreach notices (λ n, logged (handle_archive_notice n)).

Definition process_synced_full (height : Height) (round : Round) (proposer : Address)
    (value : Value) (payload : bytes) (scs : list BlobSidecar) (reqs : list bytes)
    (notices : list ArchiveNotice) : StM (option ProposedValue) :=
  let m := v_metadata value in
  store_synced_block_data height round payload reqs ;;;
  let* imported := (if decide (scs = []) then ret (Some None)
    else let* h := import_synced_blobs height round proposer m scs in ret (Some <$> h)) in
  match imported with
  | None => ret None
  | Some signed =>
    let* root := attempt (resolve_parent_root_for_height height) in
    match root with
    | inl _ => ret None
    | inr root =>
      if from_option (λ h : SignedBeaconBlockHeader,
           negb (bool_decide (bh_parent_root (sh_message h) = root))) false signed
      then drop_synced_round height round ;;; drop_synced_metadata height round ;;; ret None
      else
        record_synced_metadata height round proposer m root (blob_keccak <$> scs) ;;;
        let pv := mkProposed height round Nil proposer value Valid in
        store_synced_proposal pv ;;;
        handle_synced_notices notices ;;;
        ret (Some pv)
    end
  end.

(** The hashes the notices of a pruned height tell; zero where none does. *)
Definition notice_hashes (count : nat) (notices : list ArchiveNotice) : list B256 :=
  foldl (λ hs n, <[Z.to_nat (an_blob_index (nt_body n)) := an_blob_keccak (nt_body n)]> hs)
    (replicate count B256_ZERO) notices.

Definition synced_block (h : ExecutionPayloadHeader) : ExecutionBlock :=
  mkExecutionBlock (eh_block_hash h) (eh_block_number h) (eh_parent_hash h) (eh_timestamp h)
    load_prev_randao.

Definition advance_latest_block (b : ExecutionBlock) (s : State E) : State E :=
  match s_latest_block s with
  | Some old => if eb_block_number old <? eb_block_number b then set_latest_block (Some b) s else s
  | None => set_latest_block (Some b) s
  end.

Definition process_synced_pruned (height : Height) (round : Round) (proposer : Address)
    (value : Value) (notices : list ArchiveNotice) (payload : bytes) (reqs : list bytes)
    : StM (option ProposedValue) :=
  let m := v_metadata value in
  store_synced_block_data height round payload reqs ;;;
  let* root := attempt (resolve_parent_root_for_height height) in
  match root with
  | inl _ => ret None
  | inr root =>
    record_synced_metadata height round proposer m root
      (notice_hashes (length (vm_blob_kzg_commitments m)) notices) ;;;
    modify (advance_latest_block (synced_block (vm_execution_payload_header m))) ;;;
    handle_synced_notices notices ;;;
    let pv := mkProposed height round Nil proposer value Valid in
    store_synced_proposal pv ;;;
    ret (Some pv)
  end.

Definition process_synced_package (height : Height) (round : Round) (proposer : Address)
    (package : SyncedValuePackage) : StM (option ProposedValue) :=
  match package with
  | SyncFull value payload scs reqs notices =>
    process_synced_full height round proposer value payload scs reqs notices
  | SyncMetadataOnly value notices (Some payload) reqs =>
    process_synced_pruned height round proposer value notices payload reqs
  | SyncMetadataOnly _ notices None _ => handle_synced_notices notices ;;; ret None
  end.
End sync.

(** ** What importing a package leaves alone *)

Section sync_kept.
Context {E : Type} {B : BlobEngine E} {V : DecidedView E} (L : BlobEngineLaws E B V).
Context {C : Crypto} {T : MerkleTreeLib} {NC : NodeCodecs}.

(** The execution head never goes back. *)
Definition block_le (a b : option ExecutionBlock) : Prop :=
  match a, b with
  | Some a, Some b => eb_block_number a ≤ eb_block_number b
  | Some _, None => False
  | None, _ => True
  end.
#[export] Instance block_le_preorder : PreOrder block_le.
Proof. split; [by intros [b|]; simpl|]. intros [a|] [b|] [c|]; simpl; try done; lia. Qed.

(** The proposal and the payload of a round are still there. *)
Definition round_values_kept (k : Z * Z) (s s' : Store) : Prop :=
  (is_Some (undecided_values s !! k) → is_Some (undecided_values s' !! k)) ∧
  (is_Some (undecided_block_data s !! k) → is_Some (undecided_block_data s' !! k)).
#[export] Instance round_values_kept_preorder k : PreOrder (round_values_kept k).
Proof. split; [by intros s; split|]. intros s1 s2 s3 [] []. split; auto. Qed.

Lemma stable_round_values (k : Z * Z) (s s' : Store) : undecided_stable k s s' → round_values_kept k s s'.
Proof. intros (H1 & H2 & _). split; intros [b Hb]; eauto. Qed.

(** Where the node stands, and what its store holds. *)
Record synced_kept (k : Z * Z) (s s' : State E) : Prop := {
  sk_validators : s_genesis_validators s' = s_genesis_validators s;
  sk_height : s_current_height s' = s_current_height s;
  sk_round : s_current_round s' = s_current_round s;
  sk_final : s_latest_finalized_height s' = s_latest_finalized_height s;
  sk_executed : s_executed_height s' = s_executed_height s;
  sk_block : block_le (s_latest_block s) (s_latest_block s');
  sk_values : round_values_kept k (s_store s) (s_store s');
  sk_decided : decided_kept (s_store s) (s_store s') }.
#[export] Instance synced_kept_preorder k : PreOrder (synced_kept k).
Proof. split; [by intros s; split|]. intros s1 s2 s3 [] []. split; first [congruence|by etrans]. Qed.

Section steps_of.
Context (k : Z * Z) (Hk : -1 ≤ k.2 < 2^32).

Lemma store_synced_kept {A} (c : M Store StoreError A) :
  steps (round_values_kept k) c → steps decided_kept c → steps (synced_kept k) (with_store c).
Proof.
  intros H1 H2. apply (steps_with_store _ (λ st st', round_values_kept k st st' ∧ decided_kept st st')).
  - intros st. split; [apply H1|apply H2].
  - intros s st [??]. by split.
Qed.
Lemma op_synced_kept (op : StoreOp) :
  op_removes k op = false → steps (synced_kept k) (with_store (run_op op)).
Proof using Hk.
  intros Hop. apply store_synced_kept; [|apply run_op_kept].
  apply (steps_weaken (undecided_stable k)); [apply stable_round_values|by apply run_op_stable].
Qed.
Lemma read_synced_kept {A} (c : M Store StoreError A) :
  steps same_tables c → steps (synced_kept k) (with_store c).
Proof. intros Hc. apply (steps_with_store _ _ _ Hc). intros s st [fs ->]. by split. Qed.
Lemma engine_synced_kept {A} (c : M E BlobEngineError A) : steps (synced_kept k) (with_engine c).
Proof. apply (steps_with_engine _ (λ _ _, True)); [by intros ?|]. by split. Qed.
Lemma modify_synced_kept (f : State E → State E) :
  (∀ s, synced_kept k s (f s)) → steps (E := string) (synced_kept k) (modify f).
Proof. intros Hf. by apply steps_modify. Qed.

Lemma mark_metadata_synced_kept (h : Height) (r : Round) :
  steps (synced_kept k) (with_store (mark_blob_metadata_decided h r)).
Proof using NC.
  apply store_synced_kept; [|apply (run_op_kept (OpMarkDecided h r))].
  store_steps; [done|]. intros st st' [] Heq. cbv zeta in Heq. repeat case_match; simplify_eq; by split.
Qed.
Lemma delete_metadata_synced_kept (h : Height) (r : Round) :
  steps (synced_kept k) (with_store (delete_blob_metadata_undecided h r)).
Proof using NC.
  apply store_synced_kept; [|apply (run_op_kept (OpDeleteBlobUndecided h r))].
  store_steps; [done|]. intros st st' [] [= <-]. by split.
Qed.

#[local] Hint Resolve read_synced_kept engine_synced_kept mark_metadata_synced_kept
  delete_metadata_synced_kept get_blob_metadata_same get_consensus_block_metadata_same : steps.

Lemma notice_synced_kept (n : ArchiveNotice) : steps (synced_kept k) (handle_archive_notice n).
Proof using Hk.
  assert (∀ h m, steps (synced_kept k) (with_store (update_blob_metadata h m))) as Hupd.
  { intros h m. by apply (op_synced_kept (OpUpdateBlob h m)). }
  assert (∀ h i a, steps (synced_kept k) (with_store (insert_archive_record h i a))) as Hins.
  { intros h i a. by apply (op_synced_kept (OpInsertArchive h i a)). }
  unfold handle_archive_notice, record_archive, prune_archived_height, add_pending_prune,
    proposer_address_for_height.
  steps_tac; by apply modify_synced_kept.
Qed.

Lemma record_metadata_synced_kept h r p m root hashes :
  steps (synced_kept k) (record_synced_metadata h r p m root hashes).
Proof using Hk.
  assert (∀ m, steps (synced_kept k) (with_store (put_blob_metadata_undecided h r m))) as Hput.
  { intros m'. by apply (op_synced_kept (OpPutBlobUndecided h r m')). }
  unfold record_synced_metadata. steps_tac; by apply modify_synced_kept.
Qed.

Lemma verify_sidecars_synced_kept h p m scs : steps (synced_kept k) (verify_blob_sidecars h p m scs).
Proof. unfold verify_blob_sidecars, resolve_parent_root_for_height. steps_tac. Qed.

Lemma resolve_synced_kept h : steps (synced_kept k) (resolve_parent_root_for_height h).
Proof. unfold resolve_parent_root_for_height. steps_tac. Qed.
Lemma notices_synced_kept ns : steps (synced_kept k) (handle_synced_notices ns).
Proof using Hk. pose proof notice_synced_kept. unfold handle_synced_notices, logged. steps_tac. Qed.
Lemma import_synced_kept h r p m scs : steps (synced_kept k) (import_synced_blobs h r p m scs).
Proof.
  pose proof verify_sidecars_synced_kept.
  unfold import_synced_blobs, drop_synced_round, drop_synced_metadata, logged. steps_tac.
Qed.
Lemma store_block_synced_kept h r d q : steps (synced_kept k) (store_synced_block_data h r d q).
Proof using Hk.
  pose proof (op_synced_kept (OpStoreUndecidedBlock h r d q) eq_refl).
  unfold store_synced_block_data. steps_tac.
Qed.
Lemma store_proposal_synced_kept pv : steps (synced_kept k) (store_synced_proposal pv).
Proof using Hk. by apply (op_synced_kept (OpStoreProposal pv)). Qed.
Lemma advance_block_synced_kept b : steps (E := string) (synced_kept k) (modify (advance_latest_block b)).
Proof.
  apply modify_synced_kept. intros s. unfold advance_latest_block.
  destruct (s_latest_block s) as [o|] eqn:Ho; [destruct (_ <? _) eqn:Hlt; [|done]|];
    (split; try done; simpl; rewrite Ho; simpl; lia).
Qed.
#[local] Hint Resolve resolve_synced_kept notices_synced_kept import_synced_kept store_block_synced_kept
  store_proposal_synced_kept advance_block_synced_kept record_metadata_synced_kept : steps.

Lemma package_synced_kept (h : Height) (r : Round) (p : Address) (pkg : SyncedValuePackage) :
  steps (synced_kept k) (process_synced_package h r p pkg).
Proof using Hk.
  unfold process_synced_package, process_synced_full, process_synced_pruned, drop_synced_round,
    drop_synced_metadata, logged.
  destruct pkg as [v pl scs q ns|v ns [pl|] q]; steps_tac.
Qed.
End steps_of.

(** Decided blobs only come in, but for those of final heights that a receipt
    of the package, signed by a validator, covers. *)
Definition signed_notice (vs : ValidatorSet) (n : ArchiveNotice) : Prop :=
  ∃ v, v ∈ vs_validators vs ∧ val_address v = an_archived_by (nt_body n) ∧
    ArchiveNotice_verify n (val_public_key v) = true.
Definition blobs_kept (ns : list ArchiveNotice) (s s' : State E) : Prop :=
  s_genesis_validators s' = s_genesis_validators s ∧
  effective_finalized s' = effective_finalized s ∧
  ∀ h i, is_Some (decided_blob (s_blob_engine s) h i) →
    is_Some (decided_blob (s_blob_engine s') h i) ∨
    ∃ n j, n ∈ ns ∧ signed_notice (s_genesis_validators s) n ∧
      same_slot (an_height (nt_body n)) j h i ∧ an_height (nt_body n) ≤ effective_finalized s.
#[export] Instance blobs_kept_preorder ns : PreOrder (blobs_kept ns).
Proof.
  split; [by intros s; split_and!; auto|]. intros s1 s2 s3 (H1 & F1 & B1) (H2 & F2 & B2).
  split_and!; [congruence..|]. intros h i Hi. destruct (B1 h i Hi) as [Hi2|]; [|by right].
  rewrite <-H1, <-F1. by apply B2.
Qed.

Lemma same_engine_blobs_kept ns (s s' : State E) :
  s_genesis_validators s' = s_genesis_validators s → effective_finalized s' = effective_finalized s →
  s_blob_engine s' = s_blob_engine s → blobs_kept ns s s'.
Proof. intros H1 H2 H3. split_and!; [done..|]. intros h i. rewrite H3. by left. Qed.
Lemma store_blobs_kept {A} ns (c : M Store StoreError A) : steps (blobs_kept ns) (with_store c).
Proof.
  apply (steps_with_store _ (λ _ _, True)); [by intros ?|]. intros s st _. by apply same_engine_blobs_kept.
Qed.
Lemma modify_blobs_kept ns (f : State E → State E) :
  (∀ s, s_genesis_validators (f s) = s_genesis_validators s ∧
        effective_finalized (f s) = effective_finalized s ∧ s_blob_engine (f s) = s_blob_engine s) →
  steps (E := string) (blobs_kept ns) (modify f).
Proof. intros Hf. apply steps_modify. intros s. destruct (Hf s) as (?&?&?). by apply same_engine_blobs_kept. Qed.

Lemma engine_blobs_kept {A} ns (c : M E BlobEngineError A) :
  steps (λ e e', ∀ h i, is_Some (decided_blob e h i) → is_Some (decided_blob e' h i)) c →
  steps (blobs_kept ns) (with_engine c).
Proof.
  intros Hc. apply (steps_with_engine _ _ _ Hc). intros s e He. split_and!; [done..|]. left. by apply He.
Qed.
Lemma verify_blobs_kept ns h r scs : steps (blobs_kept ns) (with_engine (be_verify_and_store h r scs)).
Proof using L.
  apply engine_blobs_kept, (steps_weaken _ _ _ (λ e e' H h i Hi, eq_ind_r is_Some Hi (H h i))),
    law_verify_and_store.
Qed.
Lemma drop_blobs_kept ns h r : steps (blobs_kept ns) (with_engine (be_drop_round h r)).
Proof using L.
  apply engine_blobs_kept, (steps_weaken _ _ _ (λ e e' H h i Hi, eq_ind_r is_Some Hi (H h i))),
    law_drop_round.
Qed.
Lemma mark_blobs_kept ns h r : steps (blobs_kept ns) (with_engine (be_mark_decided h r)).
Proof using L. apply engine_blobs_kept, law_mark_decided. Qed.
#[local] Hint Resolve store_blobs_kept verify_blobs_kept drop_blobs_kept mark_blobs_kept : steps.

Lemma notice_blobs_kept ns (n : ArchiveNotice) : n ∈ ns → steps (blobs_kept ns) (handle_archive_notice n).
Proof using L.
  intros Hn s. destruct (handle_archive_notice n s) as [s' r] eqn:Hrun. simpl.
  assert (s_genesis_validators s' = s_genesis_validators s ∧
          effective_finalized s' = effective_finalized s) as [Hvs HF].
  { apply (run_steps _ _ _ _ _ (notice_synced_kept (0, 0) ltac:(simpl; lia) n)) in Hrun as [].
    split; [done|]. unfold effective_finalized. congruence. }
  split_and!; [done..|]. intros h i Hi.
  apply handle_archive_notice_run in Hrun as [[(st & _ & ->) _]|(m & m1 & s1 & Hv & (st & _ & ->) & _ & Hrun)];
    [by left|].
  destruct (archival_status m1 _); [|destruct Hrun as [-> _]; by left].
  pose proof (record_archive_blobs L m1 n (set_store st s) h i) as Hb. rewrite Hrun in Hb. simpl in Hb.
  destruct Hb as [->|((j & Hj) & Hf & _)]; [by left|right]. exists n, j.
  split_and!; [done|apply (nv_signed _ _ _ Hv)|done|]. unfold is_height_finalized in Hf. by apply Z.leb_le.
Qed.

Definition package_notices (pkg : SyncedValuePackage) : list ArchiveNotice :=
  match pkg with SyncFull _ _ _ _ ns | SyncMetadataOnly _ ns _ _ => ns end.

Lemma package_blobs_kept (h : Height) (r : Round) (p : Address) (pkg : SyncedValuePackage) :
  steps (blobs_kept (package_notices pkg)) (process_synced_package h r p pkg).
Proof using L.
  set (ns := package_notices pkg).
  assert (steps (blobs_kept ns) (handle_synced_notices ns)) as Hns.
  { intros s. unfold handle_synced_notices. apply (steps_foreach (blobs_kept ns)). intros n Hn.
    pose proof (notice_blobs_kept ns n Hn). unfold logged. steps_tac. }
  assert (∀ f : State E → State E, (∀ s, s_genesis_validators (f s) = s_genesis_validators s ∧
    effective_finalized (f s) = effective_finalized s ∧ s_blob_engine (f s) = s_blob_engine s) →
    steps (E := string) (blobs_kept ns) (modify f)) as Hmod by apply modify_blobs_kept.
  assert (∀ m root hs, steps (blobs_kept ns) (record_synced_metadata h r p m root hs)) as Hrec.
  { intros. unfold record_synced_metadata. steps_tac; by apply Hmod. }
  assert (∀ m scs, steps (blobs_kept ns) (import_synced_blobs h r p m scs)) as Hi.
  { intros. unfold import_synced_blobs, drop_synced_round, drop_synced_metadata, logged,
      verify_blob_sidecars, resolve_parent_root_for_height. steps_tac. }
  assert (∀ b, steps (E := string) (blobs_kept ns) (modify (advance_latest_block b))) as Hb.
  { intros b. apply Hmod. intros s. unfold advance_latest_block. by repeat case_match. }
  destruct pkg as [v pl scs q n|v n [pl|] q]; fold ns in Hns; cbn [package_notices] in *; fold ns;
  unfold process_synced_package, process_synced_full, process_synced_pruned, drop_synced_round,
    drop_synced_metadata, logged, resolve_parent_root_for_height, store_synced_block_data,
    store_synced_proposal; steps_tac.
Qed.
End sync_kept.

(** ** What an accepted package guarantees *)

Section sync_sound.
Context {E : Type} {B : BlobEngine E} {V : DecidedView E} (L : BlobEngineLaws E B V).
Context {C : Crypto} {T : MerkleTreeLib} {NC : NodeCodecs}.

(** Steps that leave the stored metadata of every height, and that of the
    rounds, alone. *)
Definition metadata_same (s s' : State E) : Prop :=
  s_genesis_validators s' = s_genesis_validators s ∧
  blob_metadata_undecided (s_store s') = blob_metadata_undecided (s_store s) ∧
  ∀ h, read_blob_metadata h (s_store s') = read_blob_metadata h (s_store s).
#[export] Instance metadata_same_preorder : PreOrder metadata_same.
Proof.
  split; [by intros s; split_and!|]. intros s1 s2 s3 (H1 & U1 & M1) (H2 & U2 & M2).
  split_and!; [congruence..|]. intros h. by rewrite M2, M1.
Qed.

Lemma engine_metadata_same {A} (c : M E BlobEngineError A) : steps metadata_same (with_engine c).
Proof. apply (steps_with_engine _ (λ _ _, True)); [by intros ?|]. by intros; split_and!. Qed.
Lemma store_block_metadata_same h r d q : steps metadata_same (store_synced_block_data (E := E) h r d q).
Proof.
  unfold store_synced_block_data. apply steps_bind; [apply _|apply steps_lift, _|]. intros _.
  set (Q := λ st st' : Store, blob_metadata_undecided st' = blob_metadata_undecided st ∧
    ∀ h, read_blob_metadata h st' = read_blob_metadata h st).
  apply (steps_with_store _ Q).
  - assert (PreOrder Q).
    { split; [by intros ?|]. intros s1 s2 s3 [U1 H1] [U2 H2]. split; [congruence|]. intros x. by rewrite H2, H1. }
    store_steps; [done|]. by intros st st' [] [= <-].
  - intros s st [??]. by split_and!.
Qed.
Lemma same_state_metadata (s s' : State E) : same_state s s' → metadata_same s s'.
Proof. intros (st & [fs ->] & ->). by split_and!. Qed.

Lemma sidecars_sound_same (s s' : State E) h p m scs hd :
  metadata_same s s' → sidecars_sound (s_genesis_validators s') (s_store s') h p m scs hd →
  sidecars_sound (s_genesis_validators s) (s_store s) h p m scs hd.
Proof. intros (Hv & _ & Hm) []. rewrite Hv, Hm in *. by split. Qed.

Lemma attempt_run {S Er F A} (c : M S Er A) (s s' : S) (a : A) :
  attempt (F := F) c s = (s', Ok (inr a)) → c s = (s', Ok a).
Proof. unfold attempt. destruct (c s) as [s1 [x| |]]; by intros [= -> ->]. Qed.

Lemma import_synced_blobs_run h r p m scs (s s' : State E) (hd : SignedBeaconBlockHeader) :
  import_synced_blobs h r p m scs s = (s', Ok (Some hd)) →
  metadata_same s s' ∧ NoDup (sc_index <$> scs) ∧
  sidecars_sound (s_genesis_validators s) (s_store s) h p m scs hd.
Proof.
  unfold import_synced_blobs. intros ([e|u] & s1 & H1 & Hr)%bind_run_Ok; [done|].
  apply (run_steps _ _ _ _ _ (steps_attempt _ _ (engine_metadata_same _))) in H1.
  destruct (_ || _) eqn:Hck; [by apply bind_run_Ok in Hr as (? & ? & _ & ?)|].
  apply orb_false_iff in Hck as [_ Hnd%negb_false_iff%bool_decide_eq_true_1].
  destruct (negb _).
  { apply bind_run_Ok in Hr as (? & ? & _ & Hr). by apply bind_run_Ok in Hr as (? & ? & _ & ?). }
  apply bind_run_Ok in Hr as ([e|hd'] & s2 & H2 & Hr); [by apply bind_run_Ok in Hr as (? & ? & _ & ?)|].
  apply attempt_run, verify_blob_sidecars_run in H2 as [H2%same_state_metadata Hs].
  apply bind_run_Ok in Hr as (u3 & s3 & H3 & Hr). injection Hr as <- <-.
  assert (metadata_same s2 s3) as H3'.
  { eapply run_steps; [|exact H3]. unfold logged. pose proof (engine_metadata_same
      (be_mark_decided h (Round_as_i64 r))). steps_tac. }
  split_and!; [|done|by eapply sidecars_sound_same]. etrans; [exact H1|]. by etrans.
Qed.

(** The second comparison of parent roots in [process_synced_package] never
    fails: the header was already checked against the same stored metadata. *)
Lemma parent_root_checked_once h r p m scs (s s1 s2 : State E) (hd : SignedBeaconBlockHeader) (root : B256) :
  import_synced_blobs h r p m scs s = (s1, Ok (Some hd)) →
  resolve_parent_root_for_height h s1 = (s2, Ok root) → bh_parent_root (sh_message hd) = root.
Proof.
  intros (Hm & _ & Hs)%import_synced_blobs_run Hr%resolve_parent_root_run.
  destruct Hr as [_ [[Hz ->]|(Hz & pm & Hpm & ->)]],
    (ss_parent _ _ _ _ _ _ _ Hs) as [[Hz' ->]|(Hz' & pm' & Hpm' & ->)]; [done..|].
  rewrite (proj2 (proj2 Hm)) in Hpm. congruence.
Qed.

(** The parent root of a height. *)
Definition parent_root_of (h : Height) (st : Store) (root : B256) : Prop :=
  h = 0 ∧ root = B256_ZERO ∨
  h ≠ 0 ∧ ∃ pm, read_blob_metadata (sub64 h 1) st = Ok (Some pm) ∧ root = compute_blob_root pm.

Lemma resolve_parent_root_metadata h (s s' : State E) (root : B256) :
  attempt (F := string) (resolve_parent_root_for_height h) s = (s', Ok (inr root)) →
  metadata_same s s' ∧ parent_root_of h (s_store s) root.
Proof.
  intros [Hs Hroot]%attempt_run%resolve_parent_root_run. split; [by apply same_state_metadata|done].
Qed.

Lemma parent_root_same h (s s' : State E) root :
  metadata_same s s' → parent_root_of h (s_store s') root → parent_root_of h (s_store s) root.
Proof. intros (_ & _ & Hm). unfold parent_root_of. by rewrite Hm. Qed.

(** Steps that leave the values and payloads of the rounds alone. *)
Definition values_same (s s' : State E) : Prop :=
  undecided_values (s_store s') = undecided_values (s_store s) ∧
  undecided_block_data (s_store s') = undecided_block_data (s_store s).
#[export] Instance values_same_preorder : PreOrder values_same.
Proof. split; [by intros s; split|]. intros s1 s2 s3 [] []. split; congruence. Qed.

(** And those that leave the cached parent root alone as well. *)
Definition cache_same (s s' : State E) : Prop :=
  values_same s s' ∧ s_last_blob_sidecar_root s' = s_last_blob_sidecar_root s ∧
  s_last_blob_sidecar_height s' = s_last_blob_sidecar_height s ∧
  decided_kept (s_store s) (s_store s').
#[export] Instance cache_same_preorder : PreOrder cache_same.
Proof.
  split; [by intros s; split_and!|]. intros s1 s2 s3 (?&?&?&?) (?&?&?&?).
  split_and!; [by etrans|congruence..|by etrans].
Qed.

Definition op_values (op : StoreOp) : bool :=
  match op with
  | OpStoreProposal _ | OpDeleteProposal _ _ | OpPrune _ | OpStoreUndecidedBlock _ _ _ _
  | OpDeleteUndecidedBlock _ _ => true
  | _ => false
  end.

Lemma op_cache_same (op : StoreOp) : op_values op = false → steps cache_same (with_store (run_op op)).
Proof.
  intros Hop.
  set (Q := λ st st' : Store, undecided_values st' = undecided_values st ∧
    undecided_block_data st' = undecided_block_data st).
  assert (PreOrder Q).
  { split; [by intros ?|]. intros ??? [U1 H1] [U2 H2]. split; congruence. }
  apply (steps_with_store _ (λ st st', Q st st' ∧ decided_kept st st')).
  2: { intros s st [[??] ?]. by split_and!. }
  intros st. split; [|apply run_op_kept]. revert st.
  destruct op; cbn [run_op op_values] in *; try done.
  8: { apply steps_bind; [apply _|apply steps_lift, _|intros m].
       apply steps_blocking, steps_write_tx; [apply _|done|open_body]. }
  all: store_steps; [done|open_body].
Qed.
Lemma read_cache_same {A} (c : M Store StoreError A) : steps same_tables c → steps cache_same (with_store c).
Proof. intros Hc. apply (steps_with_store _ _ _ Hc). intros s st [fs ->]. by split_and!. Qed.
Lemma engine_cache_same {A} (c : M E BlobEngineError A) : steps cache_same (with_engine c).
Proof. apply (steps_with_engine _ (λ _ _, True)); [by intros ?|]. by intros; split_and!. Qed.
#[local] Hint Resolve read_cache_same engine_cache_same get_blob_metadata_same
  get_consensus_block_metadata_same : steps.

Lemma notices_cache_same ns : steps cache_same (handle_synced_notices ns).
Proof.
  assert (∀ h m, steps cache_same (with_store (update_blob_metadata h m))) as Hupd.
  { intros h m. by apply (op_cache_same (OpUpdateBlob h m)). }
  assert (∀ h i a, steps cache_same (with_store (insert_archive_record h i a))) as Hins.
  { intros h i a. by apply (op_cache_same (OpInsertArchive h i a)). }
  assert (∀ f, (∀ s : State E, cache_same s (f s)) → steps (E := string) cache_same (modify f)) as Hmod.
  { intros f Hf. by apply steps_modify. }
  assert (∀ n, steps cache_same (handle_archive_notice n)) as Hn.
  { intros n. unfold handle_archive_notice, record_archive, prune_archived_height, add_pending_prune,
      proposer_address_for_height. steps_tac; by apply Hmod. }
  unfold handle_synced_notices, logged. steps_tac.
Qed.

Lemma import_cache_same h r p m scs : steps cache_same (import_synced_blobs h r p m scs).
Proof.
  assert (∀ h r, steps cache_same (with_store (delete_blob_metadata_undecided h r))) as Hdel.
  { intros. by apply (op_cache_same (OpDeleteBlobUndecided h0 r0)). }
  unfold import_synced_blobs, drop_synced_round, drop_synced_metadata, logged, verify_blob_sidecars,
    resolve_parent_root_for_height. steps_tac.
Qed.
Lemma resolve_cache_same h : steps cache_same (resolve_parent_root_for_height (E := E) h).
Proof. unfold resolve_parent_root_for_height. steps_tac. Qed.

(** The metadata of a synced value as it is recorded: built from the value, the
    parent root and the hashes, with one hash for every commitment; stored as
    decided unless the round had metadata, which is then promoted; and the
    parent of the next height. *)
Lemma record_synced_metadata_run h r p m root hashes (s s' : State E) (bm : BlobMetadata) :
  record_synced_metadata h r p m root hashes s = (s', Ok bm) →
  values_same s s' ∧
  (vm_blob_kzg_commitments m ≠ [] →
   length hashes = length (vm_blob_kzg_commitments m) ∧ bm_blob_keccak_hashes bm = hashes) ∧
  bm_height bm = h ∧ bm_blob_kzg_commitments bm = vm_blob_kzg_commitments m ∧ bm_parent_blob_root bm = root ∧
  (∃ mb, encode bm = Ok mb ∧ blob_metadata_decided (s_store s') !! h =
     Some (default mb (blob_metadata_undecided (s_store s) !! round_key h r))) ∧
  s_last_blob_sidecar_height s' = h ∧ s_last_blob_sidecar_root s' = compute_blob_root bm.
Proof.
  unfold record_synced_metadata, bind at 1, get. intros (bm' & Hbm & Hr)%lift_bind_run.
  apply bind_run_Ok in Hr as (u1 & s1 & Hput & Hr). apply bind_run_Ok in Hr as (u2 & s2 & Hmk & Hr).
  apply with_store_run in Hput as (st & (mb & fs & Hmb & ->)%put_round_metadata_run & ->).
  apply with_store_run in Hmk as (st & (st0 & [fs' ->] & Hb)%blocking_run%write_tx_run & ->).
  simpl in Hb. rewrite insert_if_absent_entry in Hb. injection Hb as <- _. injection Hr as <- <-.
  assert ((vm_blob_kzg_commitments m ≠ [] →
      length hashes = length (vm_blob_kzg_commitments m) ∧ bm_blob_keccak_hashes bm' = hashes) ∧
    bm_height bm' = h ∧ bm_blob_kzg_commitments bm' = vm_blob_kzg_commitments m ∧
    bm_parent_blob_root bm' = root) as (?&?&?&?).
  { case_decide as Hcs.
    - rewrite Hcs. unfold BlobMetadata_blobless, BlobMetadata_new in Hbm. simpl in Hbm.
      injection Hbm as <-. done.
    - unfold BlobMetadata_new in Hbm. destruct (try_u16 _); [|done].
      destruct (_ =? _)%nat eqn:Hl; [|done]. injection Hbm as <-. apply Nat.eqb_eq in Hl. done. }
  split_and!; try done. exists mb. split; [done|]. simpl. by rewrite lookup_insert_eq.
Qed.

Definition package_value (pkg : SyncedValuePackage) : Value :=
  match pkg with SyncFull v _ _ _ _ | SyncMetadataOnly v _ _ _ => v end.
Definition package_payload (pkg : SyncedValuePackage) : option bytes :=
  match pkg with SyncFull _ pl _ _ _ => Some pl | SyncMetadataOnly _ _ pl _ => pl end.
Definition package_requests (pkg : SyncedValuePackage) : list bytes :=
  match pkg with SyncFull _ _ _ q _ | SyncMetadataOnly _ _ _ q => q end.
(** The blob hashes a package tells: those of its blobs, or, when they are
    pruned, those of its receipts. *)
Definition package_hashes (pkg : SyncedValuePackage) : list B256 :=
  match pkg with
  | SyncFull _ _ scs _ _ => blob_keccak <$> scs
  | SyncMetadataOnly v ns _ _ => notice_hashes (length (vm_blob_kzg_commitments (v_metadata v))) ns
  end.

(** The sidecars of a full package are those of the value: as many as it has
    commitments, each verified under a header of the proposer, and no index
    twice.  A package of a pruned height has none. *)
Definition sidecars_complete (s : State E) (h : Height) (p : Address) (pkg : SyncedValuePackage) : Prop :=
  match pkg with
  | SyncFull v _ scs _ _ =>
    length scs = length (vm_blob_kzg_commitments (v_metadata v)) ∧ NoDup (sc_index <$> scs) ∧
    (scs ≠ [] → ∃ hd,
      sidecars_sound (s_genesis_validators s) (s_store s) h p (v_metadata v) scs hd)
  | SyncMetadataOnly _ _ _ _ => True
  end.

(** What the node records of an accepted package: the value and the payload of
    the round, each unless the round already had one, and the metadata of the
    height, whose commitments are the value's and which the next height is
    checked against. *)
Definition package_recorded (h : Height) (r : Round) (pkg : SyncedValuePackage) (pv : ProposedValue)
    (s s' : State E) : Prop :=
  let k := round_key h r in
  let cs := vm_blob_kzg_commitments (v_metadata (package_value pkg)) in
  ∃ pl vb bm mb,
    package_payload pkg = Some pl ∧ encode pv = Ok vb ∧ encode bm = Ok mb ∧
    undecided_values (s_store s') !! k = Some (default vb (undecided_values (s_store s) !! k)) ∧
    undecided_block_data (s_store s') !! k =
      Some (default (encode_to_vec (mkPayloadRecord pl (package_requests pkg)))
              (undecided_block_data (s_store s) !! k)) ∧
    bm_height bm = h ∧ bm_blob_kzg_commitments bm = cs ∧
    (cs ≠ [] → bm_blob_keccak_hashes bm = package_hashes pkg) ∧
    parent_root_of h (s_store s) (bm_parent_blob_root bm) ∧
    s_last_blob_sidecar_height s' = h ∧ s_last_blob_sidecar_root s' = compute_blob_root bm ∧
    is_Some (blob_metadata_decided (s_store s') !! h) ∧
    (package_notices pkg = [] → blob_metadata_decided (s_store s') !! h =
       Some (default mb (blob_metadata_undecided (s_store s) !! k))).

Lemma store_synced_block_data_run h r d q (s s' : State E) (u : unit) :
  store_synced_block_data h r d q s = (s', Ok u) →
  validate_execution_requests q = Ok tt ∧
  undecided_values (s_store s') = undecided_values (s_store s) ∧
  undecided_block_data (s_store s') !! round_key h r =
    Some (default (encode_to_vec (mkPayloadRecord d q)) (undecided_block_data (s_store s) !! round_key h r)).
Proof.
  unfold store_synced_block_data. intros ([] & Hv & Hr)%lift_bind_run. split; [done|].
  apply with_store_run in Hr as (st & [fs ->]%store_undecided_block_data_run & ->). split; [done|].
  apply insert_if_absent_entry.
Qed.

(** The proposal goes in beside everything else. *)
Lemma store_synced_proposal_run h r p v (s s' : State E) (u : unit) :
  store_synced_proposal (mkProposed h r Nil p v Valid) s = (s', Ok u) →
  ∃ vb, encode (mkProposed h r Nil p v Valid) = Ok vb ∧
    undecided_values (s_store s') !! round_key h r =
      Some (default vb (undecided_values (s_store s) !! round_key h r)) ∧
    undecided_block_data (s_store s') = undecided_block_data (s_store s) ∧
    blob_metadata_decided (s_store s') = blob_metadata_decided (s_store s) ∧
    s_last_blob_sidecar_height s' = s_last_blob_sidecar_height s ∧
    s_last_blob_sidecar_root s' = s_last_blob_sidecar_root s.
Proof.
  intros (st & (vb & fs & Hvb & ->)%store_undecided_proposal_run & ->)%with_store_run.
  exists vb. split_and!; try done. apply insert_if_absent_entry.
Qed.

Lemma notices_run ns (s s' : State E) (u : unit) (h : Height) :
  handle_synced_notices ns s = (s', Ok u) → is_Some (blob_metadata_decided (s_store s) !! h) →
  cache_same s s' ∧ is_Some (blob_metadata_decided (s_store s') !! h) ∧
  (ns = [] → blob_metadata_decided (s_store s') = blob_metadata_decided (s_store s)).
Proof.
  intros Hrun Hs. pose proof (run_steps _ _ _ _ _ (notices_cache_same ns) Hrun) as Hc.
  split_and!; [done| |intros ->; by injection Hrun as <-].
  destruct Hc as (_ & _ & _ & Hk). rewrite <-elem_of_dom in *. by apply (kept_blob_metadata _ _ Hk).
Qed.

Lemma process_synced_full_run h r p v pl scs q ns (s s' : State E) (pv : ProposedValue) :
  process_synced_full h r p v pl scs q ns s = (s', Ok (Some pv)) →
  let pkg := SyncFull v pl scs q ns in
  pv = mkProposed h r Nil p v Valid ∧ validate_execution_requests q = Ok tt ∧
  sidecars_complete s h p pkg ∧ package_recorded h r pkg pv s s'.
Proof.
  unfold process_synced_full. intros (u1 & s1 & H1 & Hr)%bind_run_Ok. cbv zeta.
  pose proof (run_steps _ _ _ _ _ (store_block_metadata_same _ _ _ _) H1) as M1.
  apply store_synced_block_data_run in H1 as (Hq & V1 & D1).
  apply bind_run_Ok in Hr as ([signed|] & s2 & H2 & Hr); [|done].
  assert (metadata_same s1 s2 ∧ values_same s1 s2 ∧ NoDup (sc_index <$> scs) ∧
    (scs ≠ [] → ∃ hd, sidecars_sound (s_genesis_validators s) (s_store s) h p (v_metadata v) scs hd))
    as (M2 & V2 & Hnd & Hsnd).
  { case_decide as Hscs; [injection H2 as <- _; rewrite Hscs; split_and!; [done|done|constructor|done]|].
    apply bind_run_Ok in H2 as ([hd|] & s2' & H2 & Heq); [|done]. injection Heq as <- _.
    pose proof (run_steps _ _ _ _ _ (import_cache_same _ _ _ _ _) H2) as [V2 _].
    apply import_synced_blobs_run in H2 as (M2 & Hnd & Hs). split_and!; [done..|].
    intros _. exists hd. by eapply sidecars_sound_same. }
  apply bind_run_Ok in Hr as ([e|root] & s3 & H3 & Hr); [done|].
  pose proof (run_steps _ _ _ _ _ (resolve_cache_same h) (attempt_run _ _ _ _ H3)) as [V3 _].
  apply resolve_parent_root_metadata in H3 as [M3 Hroot].
  apply (parent_root_same h s s2) in Hroot; [|by etrans].
  destruct (from_option _ false signed).
  { apply bind_run_Ok in Hr as (? & ? & _ & Hr). by apply bind_run_Ok in Hr as (? & ? & _ & ?). }
  apply bind_run_Ok in Hr as (bm & s4 & H4 & Hr).
  apply record_synced_metadata_run in H4 as (V4 & Hl & B1 & B2 & B3 & (mb & Hmb & Hmd) & B4 & B5).
  apply bind_run_Ok in Hr as (u5 & s5 & H5 & Hr).
  apply store_synced_proposal_run in H5 as (vb & Hvb & P1 & P2 & P3 & P4 & P5).
  apply bind_run_Ok in Hr as (u6 & s6 & H6 & Hr). injection Hr as <- <-.
  apply (notices_run _ _ _ _ h) in H6 as (((N1 & N2) & N3 & N4 & _) & R6 & R7); [|rewrite P3, Hmd; eauto].
  assert (metadata_same s s3) as M by (etrans; [exact M1|]; by etrans).
  assert (values_same s1 s4) as [E1 E2] by (etrans; [exact V2|]; by etrans).
  split_and!; [done..| |].
  - split_and!; [|done..]. destruct (decide (scs = [])) as [->|Hne].
    + destruct (decide (vm_blob_kzg_commitments (v_metadata v) = [])) as [Hc|Hc]; [by rewrite Hc|by apply Hl].
    + destruct (Hsnd Hne) as [hd Hs]. apply (ss_count _ _ _ _ _ _ _ Hs).
  - exists pl, vb, bm, mb. split_and!; try done; simpl; try congruence.
    + by intros [_ ?]%Hl.
    + intros ->. rewrite R7, P3, Hmd by done. f_equal. by rewrite (proj1 (proj2 M)).
Qed.

Lemma process_synced_pruned_run h r p v ns pl q (s s' : State E) (pv : ProposedValue) :
  process_synced_pruned h r p v ns pl q s = (s', Ok (Some pv)) →
  pv = mkProposed h r Nil p v Valid ∧ validate_execution_requests q = Ok tt ∧
  package_recorded h r (SyncMetadataOnly v ns (Some pl) q) pv s s'.
Proof.
  unfold process_synced_pruned. intros (u1 & s1 & H1 & Hr)%bind_run_Ok.
  pose proof (run_steps _ _ _ _ _ (store_block_metadata_same _ _ _ _) H1) as M1.
  apply store_synced_block_data_run in H1 as (Hq & V1 & D1).
  apply bind_run_Ok in Hr as ([e|root] & s2 & H2 & Hr); [done|].
  pose proof (run_steps _ _ _ _ _ (resolve_cache_same h) (attempt_run _ _ _ _ H2)) as [V2 _].
  apply resolve_parent_root_metadata in H2 as [M2 Hroot].
  apply (parent_root_same h s s1 root M1) in Hroot.
  apply bind_run_Ok in Hr as (bm & s3 & H3 & Hr).
  apply record_synced_metadata_run in H3 as (V3 & Hl & B1 & B2 & B3 & (mb & Hmb & Hmd) & B4 & B5).
  apply bind_run_Ok in Hr as (u4 & s4 & H4 & Hr).
  assert (s_store s4 = s_store s3 ∧ s_last_blob_sidecar_root s4 = s_last_blob_sidecar_root s3 ∧
    s_last_blob_sidecar_height s4 = s_last_blob_sidecar_height s3) as (A1 & A2 & A3).
  { injection H4 as <-. unfold advance_latest_block. by repeat case_match. }
  apply bind_run_Ok in Hr as (u5 & s5 & H5 & Hr).
  apply (notices_run _ _ _ _ h) in H5 as (((N1 & N2) & N3 & N4 & _) & R6 & R7); [|rewrite A1, Hmd; eauto].
  apply bind_run_Ok in Hr as (u6 & s6 & H6 & Hr). injection Hr as <- <-.
  apply store_synced_proposal_run in H6 as (vb & Hvb & P1 & P2 & P3 & P4 & P5).
  assert (metadata_same s s2) as M by (by etrans).
  assert (values_same s1 s3) as [E1 E2] by (by etrans). rewrite A1 in N1, N2, R7.
  split_and!; [done..|]. exists pl, vb, bm, mb. split_and!; try done; simpl; try congruence.
  - by intros [_ ?]%Hl.
  - intros ->. rewrite P3, R7, Hmd by done. f_equal. by rewrite (proj1 (proj2 M)).
Qed.


(** C22: whatever a peer sends and whatever fails, importing a package does not
    move the node: its height, round, finality and executed height stay, its
    execution head does not go back, no decided record and no proposal or
    payload of any round is lost, and a decided blob goes only at a final height
    for which the package has a receipt signed by a validator. *)
Theorem sync_keeps_node (h : Height) (r : Round) (p : Address) (pkg : SyncedValuePackage)
    (s : State E) (h' : Height) (r' : Round) :
  round_wf r' →
  let s' := (process_synced_package h r p pkg s).1 in
  synced_kept (round_key h' r') s s' ∧ blobs_kept (package_notices pkg) s s'.
Proof using L.
  intros Hwf. split; [by apply package_synced_kept, round_key_range|by apply package_blobs_kept].
Qed.

(** A package that announces blobs but carries none does not get rejected:
    once its payload is stored and the parent is known, building the metadata
    panics, as the hashes do not match the commitments in number. *)
Theorem full_without_sidecars_panics (h : Height) (r : Round) (p : Address) (v : Value) (pl : bytes)
    (q : list bytes) (ns : list ArchiveNotice) (s : State E) (pm : BlobMetadata) :
  vm_blob_kzg_commitments (v_metadata v) ≠ [] → validate_execution_requests q = Ok tt →
  tx_faults (s_store s) = [] → 0 < h → read_blob_metadata (h - 1) (s_store s) = Ok (Some pm) →
  is_u64 h →
  (process_synced_package h r p (SyncFull v pl [] q ns) s).2 = Panic.
Proof.
  intros Hcs Hq Hf Hh Hpm Hu. cbn [process_synced_package].
  unfold process_synced_full, store_synced_block_data. unfold bind at 1. unfold bind at 1, lift at 1.
  rewrite Hq. unfold with_store at 1, zoom, map_err.
  unfold store_undecided_block_data, blocking. erewrite write_tx_ok by done.
  set (s1 := set_store _ s). unfold bind at 1. rewrite decide_True by done. cbn [ret fst snd].
  unfold bind at 1, attempt. unfold resolve_parent_root_for_height.
  replace (h =? 0) with false by lia.
  replace (sub64 h 1) with (h - 1) by (unfold sub64, wrap64, is_u64 in *; rewrite Z.mod_small; lia).
  unfold bind at 1, with_store at 1, zoom, map_err. rewrite get_blob_metadata_run by done.
  unfold blocking, lift. change (read_blob_metadata (h - 1) (s_store s1)) with
    (read_blob_metadata (h - 1) (s_store s)). rewrite Hpm. cbn [omap_err ret fst snd from_option].
  unfold bind at 1, record_synced_metadata, bind at 1, get. rewrite decide_False by done.
  unfold bind at 1, lift, BlobMetadata_new.
  destruct (try_u16 _); [|done]. destruct (vm_blob_kzg_commitments _); done.
Qed.
End sync_sound.

(** ** Concrete inputs *)

(** Hashes and signatures are trivial, but for the hash of a blob. *)
Definition sync_crypto : Crypto := {|
  keccak256 b := replicate 32 (default 0 (head b)); sha256 _ := B256_ZERO; default_hasher _ := 0;
  ed25519_sign _ _ := zeros 64; ed25519_public k := k; ed25519_verify _ _ _ := true;
  hash32_concat _ _ := B256_ZERO; merkle_hasher _ _ := B256_ZERO; tree_hash_bytes48 _ := B256_ZERO;
  beacon_header_tree_hash _ _ _ _ _ := B256_ZERO; requests_hash _ := B256_ZERO |}.

(** The metadata of height 8 with the hashes of its two blobs, in this order. *)
Definition synced_metadata (a b : Z) : BlobMetadata :=
  mkBlobMetadata 8 B256_ZERO [replicate 48 1; replicate 48 2] 2 [replicate 32 a; replicate 32 b]
    [None; None] false (zero_header 0) (Some 0).
Definition sync_codecs : NodeCodecs := {|
  nc_value := constant_codec demo_value_of_payload;
  nc_proposed := constant_codec (mkProposed 8 (RSome 0) Nil (zeros 20) demo_value_of_payload Valid);
  nc_certificate := demo_certificate_codec; nc_consensus := demo_consensus_codec;
  nc_metadata := table_codec [demo_half_archived; demo_all_archived false; demo_all_archived true;
                              synced_metadata 10 11; synced_metadata 11 10];
  nc_record := demo_record_codec; nc_payload := demo_payload_prost;
  nc_notice_body := demo_notice_prost |}.
Definition sync_merkle : MerkleTreeLib := {|
  MerkleTree := unit; mt_create _ _ := tt; mt_hash _ := B256_ZERO;
  mt_generate_proof _ _ d := Some (B256_ZERO, replicate d B256_ZERO) |}.
#[local] Existing Instance sync_crypto.
#[local] Existing Instance sync_merkle.
#[local] Existing Instance sync_codecs.
#[local] Existing Instance demo_rocksdb_engine.

(** The two sidecars of the proposal of height 8, as its proposer made them. *)
Definition demo_sidecars : list BlobSidecar :=
  match (prepare_blob_sidecar_parts demo_blob_value (Some demo_bundle) demo_proposer).2 with
  | Ok (_, scs) => scs
  | _ => []
  end.
Definition demo_package (scs : list BlobSidecar) : SyncedValuePackage :=
  SyncFull (lv_value demo_blob_value) [1] scs [] [].
Definition demo_sync (scs : list BlobSidecar) : State BlobEngineImpl * outcome string (option ProposedValue) :=
  process_synced_package 8 (RSome 0) (zeros 20) (demo_package scs) demo_follower.

Definition demo_synced : ProposedValue :=
  mkProposed 8 (RSome 0) Nil (zeros 20) (lv_value demo_blob_value) Valid.

Definition demo_result (scs : list BlobSidecar)
    : outcome string (option ProposedValue) * outcome StoreError (option BlobMetadata) :=
  let '(s', r) := demo_sync scs in (r, read_blob_metadata 8 (s_store s')).

Lemma demo_result_run (scs : list BlobSidecar) (r : outcome string (option ProposedValue))
    (m : outcome StoreError (option BlobMetadata)) :
  demo_result scs = (r, m) →
  (demo_sync scs).2 = r ∧ read_blob_metadata 8 (s_store (demo_sync scs).1) = m.
Proof.
  unfold demo_result. destruct (demo_sync scs) as [s' r']. intros Heq.
  split; [exact (f_equal fst Heq)|exact (f_equal snd Heq)].
Qed.

Lemma demo_result_ordered :
  demo_result demo_sidecars = (Ok (Some demo_synced), Ok (Some (synced_metadata 10 11))).
Proof. vm_compute. reflexivity. Qed.
Lemma demo_result_reversed :
  demo_result (reverse demo_sidecars) = (Ok (Some demo_synced), Ok (Some (synced_metadata 11 10))).
Proof. vm_compute. reflexivity. Qed.

(** The blob hashes of a synced height are recorded in the order the peer
    sent the sidecars, which the checks do not fix: with two sidecars in reverse
    order the package is accepted, and the hash recorded for blob 0 is not that
    of the sidecar with index 0. *)
Theorem synced_hashes_in_package_order :
  let scs := reverse demo_sidecars in
  let s' := (demo_sync scs).1 in
  is_ok (demo_sync scs).2 = true ∧ sc_index <$> scs = [1; 0] ∧
  ∃ m, read_blob_metadata 8 (s_store s') = Ok (Some m) ∧
    bm_blob_keccak_hashes m = blob_keccak <$> scs ∧
    bm_blob_keccak_hashes m !! 0%nat ≠ blob_keccak <$> demo_sidecars !! 0%nat.
Proof.
  cbv zeta. destruct (demo_result_run _ _ _ demo_result_reversed) as [Hok Hread].
  rewrite Hok. split; [reflexivity|]. split; [vm_compute; reflexivity|].
  exists (synced_metadata 11 10). split; [exact Hread|].
  split; [vm_compute; reflexivity|]. vm_compute. discriminate.
Qed.


Lemma sync_keeps_node_witness :
  s_current_height (demo_sync demo_sidecars).1 = 8 ∧
  decided_kept (s_store demo_follower) (s_store (demo_sync demo_sidecars).1).
Proof.
  destruct (sync_keeps_node demo_engine_laws 8 (RSome 0) (zeros 20) (demo_package demo_sidecars)
    demo_follower 8 (RSome 0) ltac:(simpl; unfold is_u32; lia)) as [[_ Hh _ _ _ _ _ Hd] _].
  unfold demo_sync. split; [exact Hh|exact Hd].
Defined.

Lemma full_without_sidecars_panics_witness : (demo_sync []).2 = Panic.
Proof.
  unfold demo_sync, demo_package. apply (full_without_sidecars_panics 8 (RSome 0) (zeros 20) (lv_value demo_blob_value) [1] [] []
    demo_follower (demo_all_archived false)).
  - discriminate.
  - reflexivity.
  - reflexivity.
  - lia.
  - vm_compute. reflexivity.
  - unfold is_u64. lia.
Defined.
