(* ===== verification/Client.v ===== *)
(** * The client of the execution layer ([crates/execution])

    The node speaks the Engine API to its execution layer: it tells it which
    block is the head, has it build a block on top of the head, and submits
    decided payloads.  The client checks every answer before the node acts on
    it.  JSON-RPC transport and serialization are parameters; what the calls
    return, in which order they are made and how often they are retried is the
    code's. *)
From S2P Require Import Prelude Types Merkle Streaming Proposal Metadata BlobStore BlobEngine Store Proto State Archival BlobProposal Commit Decide.
Open Scope monad_scope.

(** ** Engine API data *)

Record ForkchoiceState := mkForkchoice {
  fs_head_block_hash : B256; fs_safe_block_hash : B256; fs_finalized_block_hash : B256 }.

Record PayloadAttributes := mkAttributes {
  pa_timestamp : Z; pa_prev_randao : B256; pa_suggested_fee_recipient : Address;
  pa_withdrawals : option (list Withdrawal); pa_parent_beacon_block_root : option B256 }.

Record ForkchoiceUpdated := mkUpdated {
  fu_payload_status : PayloadStatus; fu_payload_id : option bytes }.

Record ExecutionPayloadResult := mkPayloadResult {
  pr_payload : ExecutionPayloadV3; pr_execution_requests : list bytes }.

(** The part of [ExecutionPayloadEnvelopeV4] that is read; a bundle in it is
    unchecked. *)
Record PayloadEnvelopeV4 := mkEnvelope {
  en_execution_payload : ExecutionPayloadV3; en_blobs_bundle : BlobsBundle;
  en_execution_requests : list bytes }.

Inductive ExecutionError :=
| EeSyncingForkchoice (head : B256)
| EeNoPayloadIdForBuild (head : B256)
| EeBuiltPayloadMismatch (head parent : B256) (block_number timestamp : Z)
| EeReport (e : string).

(** ** Capabilities ([capabilities.rs]) *)

Definition ENGINE_NEW_PAYLOAD_V3 : string := "engine_newPayloadV3".
Definition ENGINE_NEW_PAYLOAD_V4 : string := "engine_newPayloadV4".
Definition ENGINE_GET_PAYLOAD_V3 : string := "engine_getPayloadV3".
Definition ENGINE_GET_PAYLOAD_V4 : string := "engine_getPayloadV4".
Definition ENGINE_FORKCHOICE_UPDATED_V3 : string := "engine_forkchoiceUpdatedV3".
Definition ENGINE_EXCHANGE_CAPABILITIES : string := "engine_exchangeCapabilities".

Definition ULTRAMARINE_CAPABILITIES : list string :=
  [ENGINE_NEW_PAYLOAD_V3; ENGINE_NEW_PAYLOAD_V4; ENGINE_GET_PAYLOAD_V3; ENGINE_GET_PAYLOAD_V4;
   ENGINE_FORKCHOICE_UPDATED_V3].

Record EngineCapabilities := mkCapabilities {
  new_payload_v1 : bool; new_payload_v2 : bool; new_payload_v3 : bool; new_payload_v4 : bool;
  forkchoice_updated_v1 : bool; forkchoice_updated_v2 : bool; forkchoice_updated_v3 : bool;
  get_payload_bodies_by_hash_v1 : bool; get_payload_bodies_by_range_v1 : bool;
  get_payload_v1 : bool; get_payload_v2 : bool; get_payload_v3 : bool; get_payload_v4 : bool;
  get_client_version_v1 : bool; get_blobs_v1 : bool }.

Definition from_response_strings (cs : list string) : EngineCapabilities :=
  let has c := bool_decide (c ∈ cs) in
  mkCapabilities (has "engine_newPayloadV1"%string) (has "engine_newPayloadV2"%string)
    (has ENGINE_NEW_PAYLOAD_V3) (has ENGINE_NEW_PAYLOAD_V4)
    (has "engine_forkchoiceUpdatedV1"%string) (has "engine_forkchoiceUpdatedV2"%string)
    (has ENGINE_FORKCHOICE_UPDATED_V3) (has "engine_getPayloadBodiesByHashV1"%string)
    (has "engine_getPayloadBodiesByRangeV1"%string) (has "engine_getPayloadV1"%string)
    (has "engine_getPayloadV2"%string) (has ENGINE_GET_PAYLOAD_V3) (has ENGINE_GET_PAYLOAD_V4)
    (has "engine_getClientVersionV1"%string) (has "engine_getBlobsV1"%string).

(** ** The Engine API

    [N] is the state of everything outside the node: the execution layer and
    the clocks. *)
Class EngineApi (N : Type) := {
  ea_forkchoice_updated :
    ForkchoiceState → option PayloadAttributes → M N ExecutionError ForkchoiceUpdated;
  ea_get_payload : bytes → M N ExecutionError ExecutionPayloadResult;
  ea_get_payload_with_blobs :
    bytes → M N ExecutionError (ExecutionPayloadResult * option BlobsBundle);
  ea_new_payload :
    ExecutionPayloadV3 → list B256 → B256 → list bytes → M N ExecutionError PayloadStatus;
  ea_exchange_capabilities : M N ExecutionError EngineCapabilities }.

(** The clocks, in milliseconds: a monotonic one with [sleep], and the wall
    clock since the epoch, when it is after it. *)
Class Timer (N : Type) := {
  now_ms : N → Z; sleep_ms : Z → N → N; unix_ms : N → option Z }.
Definition unix_secs {N : Type} {TM : Timer N} (n : N) : option Z := (λ t, t / 1000) <$> unix_ms n.

(** *** JSON-RPC *)

Record JsonRpcResponse (J : Type) := mkResponse {
  resp_error : option (Z * string); resp_result : option J }.
Arguments mkResponse {J} _ _.
Arguments resp_error {J} _.
Arguments resp_result {J} _.

Class Transport (N J : Type) := {
  transport_send : string → J → N → N * (string + JsonRpcResponse J) }.

(** [serde] for the parameters and results of the five methods. *)
Class EngineJson (J : Type) := {
  forkchoice_params : ForkchoiceState → option PayloadAttributes → J;
  payload_id_params : bytes → J;
  new_payload_params : ExecutionPayloadV3 → list B256 → B256 → list bytes → J;
  capabilities_params : list string → J;
  json_updated : J → option ForkchoiceUpdated;
  json_envelope : J → option PayloadEnvelopeV4;
  json_status : J → option PayloadStatus;
  json_strings : J → option (list string) }.

Section engine_api_client.
Context {N J : Type} `{Transport N J} `{EngineJson J}.

Definition request {R} (parse : J → option R) (method : string) (params : J)
    : M N ExecutionError R :=
  λ n, let (n, r) := transport_send method params n in
       (n, match r with
           | inl e => Err (EeReport e)
           | inr resp =>
             match resp_error resp with
             | Some (_, message) => Err (EeReport message)
             | None =>
               match resp_result resp with
               | None => Err (EeReport "Missing result field in JSON-RPC response")
               | Some j => ok_or (parse j) (EeReport "invalid result")
               end
             end
           end).

(** [BlobsBundle::try_from(BlobsBundleV1)] *)
Definition BlobsBundle_try_from (b : BlobsBundle) : outcome string BlobsBundle :=
  (let? commitments := omapM KzgCommitment_from_slice (bb_commitments b) in
   let? proofs := omapM KzgProof_from_slice (bb_proofs b) in
   let? blobs := omapM Blob_new (bb_blobs b) in
   Ok (mkBundle commitments proofs blobs))%outcome.

(** The bundle of a response; an empty one is no bundle. *)
Definition checked_bundle (b : BlobsBundle) : outcome ExecutionError (option BlobsBundle) :=
  (if decide (bb_blobs b = []) then Ok None
   else
     let? bundle := omap_err EeReport (BlobsBundle_try_from b) in
     let? _ := omap_err EeReport (BlobsBundle_validate bundle) in
     Ok (Some bundle))%outcome.

Definition get_payload (payload_id : bytes) : M N ExecutionError ExecutionPayloadResult :=
  let* e := request json_envelope ENGINE_GET_PAYLOAD_V4 (payload_id_params payload_id) in
  ret (mkPayloadResult (en_execution_payload e) (en_execution_requests e)).

Definition get_payload_with_blobs (payload_id : bytes)
    : M N ExecutionError (ExecutionPayloadResult * option BlobsBundle) :=
  let* e := request json_envelope ENGINE_GET_PAYLOAD_V4 (payload_id_params payload_id) in
  let* bundle := lift (checked_bundle (en_blobs_bundle e)) in
  ret (mkPayloadResult (en_execution_payload e) (en_execution_requests e), bundle).

Definition exchange_capabilities : M N ExecutionError EngineCapabilities :=
  let* cs := request json_strings ENGINE_EXCHANGE_CAPABILITIES
               (capabilities_params ULTRAMARINE_CAPABILITIES) in
  ret (from_response_strings cs).

Definition EngineApiClient : EngineApi N := {|
  ea_forkchoice_updated s a :=
    request json_updated ENGINE_FORKCHOICE_UPDATED_V3 (forkchoice_params s a);
  ea_get_payload := get_payload;
  ea_get_payload_with_blobs := get_payload_with_blobs;
  ea_new_payload p hashes parent reqs :=
    request json_status ENGINE_NEW_PAYLOAD_V4 (new_payload_params p hashes parent reqs);
  ea_exchange_capabilities := exchange_capabilities |}.
#[export] Existing Instance EngineApiClient.
End engine_api_client.

(** ** The client *)

(** Its settings, in attempts and milliseconds. *)
Record ExecutionClient := mkClient {
  ec_forkchoice_with_attrs_max_attempts : nat;
  ec_forkchoice_with_attrs_delay : Z;
  ec_get_payload_delay : Z }.

Definition ExecutionClient_new (max_attempts : option nat) (delay_ms get_payload_delay_ms : option Z)
    : ExecutionClient :=
  mkClient (Nat.max (default 10%nat max_attempts) 1) (default 200 delay_ms)
    (default 0 get_payload_delay_ms).

Section client.
Context {N : Type} {EA : EngineApi N} {TM : Timer N} (c : ExecutionClient).

Definition pause (d : Z) : M N ExecutionError unit := modify (sleep_ms d).

Definition current_unix_time (n : N) : Z := default 0 (unix_secs n).
Definition next_block_timestamp (parent_timestamp : Z) (n : N) : Z :=
  Z.max (current_unix_time n) (add64 parent_timestamp LOAD_MIN_BLOCK_TIME_SECS).

Definition check_capabilities : M N ExecutionError unit :=
  let* cap := ea_exchange_capabilities in
  if negb (forkchoice_updated_v3 cap) || negb (get_payload_v4 cap) || negb (new_payload_v4 cap)
  then fail (EeReport "Execution client lacks required Engine API methods")
  else ret tt.

Definition head_state (head : B256) : ForkchoiceState := mkForkchoice head head head.

(** How the answer to a state update is read. *)
Definition read_forkchoice (head : B256) (u : ForkchoiceUpdated) : outcome ExecutionError B256 :=
  if decide (is_Some (fu_payload_id u))
  then Err (EeReport "unexpected payloadId in a state update")
  else
    let st := fu_payload_status u in
    match ps_status st with
    | StatusValid =>
      if negb (bool_decide (ps_latest_valid_hash st = Some head))
      then Err (EeReport "latest_valid_hash mismatch")
      else ok_or (ps_latest_valid_hash st) (EeReport "VALID status without latestValidHash")
    | StatusSyncing => Err (EeSyncingForkchoice head)
    | _ => Err (EeReport "Invalid payload status")
    end.

Definition client_set_latest_forkchoice_state (head : B256) : M N ExecutionError B256 :=
  let* u := ea_forkchoice_updated (head_state head) None in
  lift (read_forkchoice head u).

Definition build_attributes (timestamp : Z) (head : B256) : PayloadAttributes :=
  mkAttributes timestamp load_prev_randao (replicate 20 42) (Some []) (Some head).

(** The retry loop.  [attempts] counts the calls made so far; [fuel] bounds
    those to come, and running out of it is a panic. *)
Fixpoint forkchoice_attempts (fuel attempts : nat) (s : ForkchoiceState) (a : PayloadAttributes)
    : M N ExecutionError ForkchoiceUpdated :=
  match fuel with
  | O => panic
  | S fuel =>
    let attempts := S attempts in
    let exhausted := (ec_forkchoice_with_attrs_max_attempts c <=? attempts)%nat in
    let again := pause (ec_forkchoice_with_attrs_delay c) ;;; forkchoice_attempts fuel attempts s a in
    let* res := ea_forkchoice_updated s (Some a) in
    let st := fu_payload_status res in
    match ps_status st with
    | StatusValid =>
      if negb (bool_decide (ps_latest_valid_hash st = Some (fs_head_block_hash s)))
      then fail (EeReport "latestValidHash does not match head")
      else match fu_payload_id res with
           | Some _ => ret res
           | None => if exhausted then fail (EeNoPayloadIdForBuild (fs_head_block_hash s)) else again
           end
    | StatusSyncing =>
      if decide (is_Some (fu_payload_id res)) then fail (EeReport "SYNCING with non-null payloadId")
      else if exhausted then fail (EeReport "still SYNCING") else again
    | StatusAccepted => fail (EeReport "forkchoiceUpdated returned ACCEPTED")
    | StatusInvalid _ => fail (EeReport "non-VALID status")
    end
  end.

Definition forkchoice_updated_with_attributes_retry (s : ForkchoiceState) (a : PayloadAttributes)
    : M N ExecutionError ForkchoiceUpdated :=
  forkchoice_attempts (ec_forkchoice_with_attrs_max_attempts c) 0 s a.

(** The payload is built on the requested head, with the requested time. *)
Definition built_on (b : ExecutionBlock) (timestamp : Z) (p : ExecutionPayloadV3) : bool :=
  bool_decide (ep_parent_hash p = eb_block_hash b)
  && (ep_block_number p =? add64 (eb_block_number b) 1) && (ep_timestamp p =? timestamp).

Definition built_mismatch (b : ExecutionBlock) (p : ExecutionPayloadV3) : ExecutionError :=
  EeBuiltPayloadMismatch (eb_block_hash b) (ep_parent_hash p) (ep_block_number p) (ep_timestamp p).

(** Start a build; the id of the payload, after the pause for the builder. *)
Definition start_build (b : ExecutionBlock) (timestamp : Z) : M N ExecutionError bytes :=
  let head := eb_block_hash b in
  let* u := forkchoice_updated_with_attributes_retry (head_state head)
              (build_attributes timestamp head) in
  match ps_status (fu_payload_status u) with
  | StatusValid =>
    match fu_payload_id u with
    | None => fail (EeReport "forkchoiceUpdated with payload attributes must include payloadId")
    | Some id => when (negb (ec_get_payload_delay c =? 0)) (pause (ec_get_payload_delay c)) ;;; ret id
    end
  | StatusAccepted => fail (EeReport "forkchoiceUpdated returned ACCEPTED")
  | _ => fail (EeReport "Invalid payload status")
  end.

Definition generate_block (b : ExecutionBlock) : M N ExecutionError ExecutionPayloadResult :=
  let* n := get in
  let timestamp := next_block_timestamp (eb_timestamp b) n in
  let* id := start_build b timestamp in
  let* r := ea_get_payload id in
  if built_on b timestamp (pr_payload r) then ret r else fail (built_mismatch b (pr_payload r)).

Definition generate_block_with_blobs (b : ExecutionBlock)
    : M N ExecutionError (ExecutionPayloadResult * option BlobsBundle) :=
  let* n := get in
  let timestamp := next_block_timestamp (eb_timestamp b) n in
  let* id := start_build b timestamp in
  let* (r, bundle) := ea_get_payload_with_blobs id in
  let blob_count := Z.of_nat (from_option (λ bb, length (bb_blobs bb)) 0%nat bundle) in
  let has_blob_gas := 0 <? ep_blob_gas_used (pr_payload r) in
  if has_blob_gas && (blob_count =? 0)
  then fail (EeReport "blob_gas_used but blobs bundle is empty")
  else if negb has_blob_gas && (0 <? blob_count)
  then fail (EeReport "blobs bundle has blobs but payload blob_gas_used=0")
  else if built_on b timestamp (pr_payload r) then ret (r, bundle)
  else fail (built_mismatch b (pr_payload r)).

Definition client_notify_new_block (p : ExecutionPayloadV3) (reqs : list bytes) (hashes : list B256)
    : M N ExecutionError PayloadStatus :=
  ea_new_payload p hashes (ep_parent_hash p) reqs.

(** *** The client as a notifier ([ExecutionClientNotifier]) *)

Definition error_text (e : ExecutionError) : string :=
  match e with
  | EeSyncingForkchoice _ => "Execution layer is syncing"
  | EeNoPayloadIdForBuild _ => "Execution layer did not start payload build"
  | EeBuiltPayloadMismatch _ _ _ _ => "Built payload does not match requested head"
  | EeReport e => e
  end.

(** [e.downcast_ref::<ExecutionError>()] *)
Definition forkchoice_error (e : ExecutionError) : ForkchoiceError :=
  match e with
  | EeSyncingForkchoice _ => SyncingForkchoice
  | e => ForkchoiceFailed (error_text e)
  end.

(** A call as the callers of the notifier see it. *)
Definition notified {A F} (f : ExecutionError → F) (dead : F) (m : M N ExecutionError A) (n : N)
    : N * (F + A) :=
  match m n with
  | (n, Ok a) => (n, inr a)
  | (n, Err e) => (n, inl (f e))
  | (n, Panic) => (n, inl dead)
  end.

Definition ExecutionClientNotifier : ExecutionNotifier N := {|
  notify_new_block p reqs hashes :=
    notified error_text "panic"%string (client_notify_new_block p reqs hashes);
  set_latest_forkchoice_state h :=
    notified forkchoice_error (ForkchoiceFailed "panic"%string) (client_set_latest_forkchoice_state h);
  el_clock := now_ms;
  el_sleep := sleep_ms |}.
#[export] Existing Instance ExecutionClientNotifier.
End client.

(** ** Clocks and panics *)

(** Documented behaviour of the clocks and the transport: a sleep lasts at least
    as long as asked, and the monotonic clock does not go back during a call. *)
Class TimerLaws (N : Type) (TM : Timer N) : Prop := {
  sleep_lasts : ∀ d n, now_ms n + d ≤ now_ms (sleep_ms d n) }.
Class TransportLaws (N J : Type) (TR : Transport N J) (TM : Timer N) : Prop := {
  send_takes_time : ∀ m j n, now_ms n ≤ now_ms (transport_send m j n).1 }.

Definition clock_le {N : Type} {TM : Timer N} (n n' : N) : Prop := now_ms n ≤ now_ms n'.
#[export] Instance clock_le_preorder {N : Type} {TM : Timer N} : PreOrder clock_le.
Proof. unfold clock_le. split; [by intros n|]. intros n1 n2 n3 ??. lia. Qed.

(** Computations that end in a result or an error. *)
Definition panicless {S Er A} (m : M S Er A) : Prop := ∀ s, (m s).2 ≠ Panic.

Lemma panicless_bind {S Er A A'} (m : M S Er A) (k : A → M S Er A') :
  panicless m → (∀ a, panicless (k a)) → panicless (bind m k).
Proof.
  intros Hm Hk s. unfold bind. specialize (Hm s). destruct (m s) as [s1 [a|e|]]; [apply Hk|done..].
Qed.
Lemma panicless_lift {S Er A} (o : outcome Er A) : o ≠ Panic → panicless (S := S) (lift o).
Proof. by intros Ho s. Qed.

(** A bundle that passes has as many commitments and proofs as blobs, all of
    their fixed size, and no more blobs than a block may have. *)
Definition bundle_sound (b : BlobsBundle) : Prop :=
  bb_blobs b ≠ [] ∧ length (bb_commitments b) = length (bb_blobs b) ∧
  length (bb_proofs b) = length (bb_blobs b) ∧
  Z.of_nat (length (bb_blobs b)) ≤ MAX_BLOBS_PER_BLOCK ∧
  Forall (has_length BYTES_PER_COMMITMENT) (bb_commitments b) ∧
  Forall (has_length BYTES_PER_PROOF) (bb_proofs b) ∧
  Forall (λ x, Z.of_nat (length x) = BYTES_PER_BLOB) (bb_blobs b).

(** What the client needs of the Engine API. *)
Class EngineApiLaws (N : Type) (EA : EngineApi N) (TM : Timer N) : Prop := {
  ea_updated_ok s a : steps clock_le (ea_forkchoice_updated s a) ∧ panicless (ea_forkchoice_updated s a);
  ea_new_payload_ok p h b q : steps clock_le (ea_new_payload p h b q) ∧ panicless (ea_new_payload p h b q);
  ea_get_blobs_ok i : steps clock_le (ea_get_payload_with_blobs i) ∧ panicless (ea_get_payload_with_blobs i) }.

Section api_laws.
Context {N J : Type} {TR : Transport N J} {EJ : EngineJson J} {TM : Timer N}.

Lemma omapM_panicless {A A'} (f : A → outcome string A') (l : list A) :
  (∀ x, f x ≠ Panic) → omapM f l ≠ Panic.
Proof.
  intros Hf. induction l as [|x l IH]; simpl; [done|]. specialize (Hf x).
  destruct (f x); simpl; [|done..]. by destruct (omapM f l).
Qed.

Lemma checked_bundle_panicless (b : BlobsBundle) : checked_bundle b ≠ Panic.
Proof.
  unfold checked_bundle, BlobsBundle_try_from. case_decide; [done|].
  assert (omapM KzgCommitment_from_slice (bb_commitments b) ≠ Panic) as H1.
  { apply omapM_panicless. intros x. unfold KzgCommitment_from_slice. by case_decide. }
  assert (omapM KzgProof_from_slice (bb_proofs b) ≠ Panic) as H2.
  { apply omapM_panicless. intros x. unfold KzgProof_from_slice. by case_decide. }
  assert (omapM Blob_new (bb_blobs b) ≠ Panic) as H3.
  { apply omapM_panicless. intros x. unfold Blob_new. by case_match. }
  destruct (omapM KzgCommitment_from_slice _); simpl; [|done..].
  destruct (omapM KzgProof_from_slice _); simpl; [|done..].
  destruct (omapM Blob_new _); simpl; [|done..].
  unfold BlobsBundle_validate. by repeat (case_match; simpl).
Qed.

Lemma request_ok {R} (parse : J → option R) (m : string) (j : J) :
  TransportLaws N J TR TM → steps clock_le (request parse m j) ∧ panicless (request parse m j).
Proof.
  intros HT. split; intros n; unfold request.
  - pose proof (send_takes_time m j n) as Hs. by destruct (transport_send m j n).
  - destruct (transport_send m j n) as [n' [e|r]]; simpl; [done|].
    destruct (resp_error r) as [[]|]; [done|]. destruct (resp_result r); [|done]. by destruct (parse _).
Qed.

Lemma omapM_checked {A} (f : A → outcome string A) (P : A → Prop) (l l' : list A) :
  (∀ x y, f x = Ok y → y = x ∧ P x) → omapM f l = Ok l' → l' = l ∧ Forall P l.
Proof.
  intros Hf Hm%omapM_Ok_iff. induction Hm as [|x y l l' Hx _ [-> IH]]; [done|].
  apply Hf in Hx as [-> ?]. split; [done|by constructor].
Qed.

Lemma checked_bundle_sound (b b' : BlobsBundle) :
  checked_bundle b = Ok (Some b') → b' = b ∧ bundle_sound b.
Proof.
  unfold checked_bundle, BlobsBundle_try_from. case_decide as Hne; [done|].
  destruct (omapM KzgCommitment_from_slice _) as [cs| |] eqn:Hc; simpl; [|done..].
  destruct (omapM KzgProof_from_slice _) as [ps| |] eqn:Hp; simpl; [|done..].
  destruct (omapM Blob_new _) as [bs| |] eqn:Hb; simpl; [|done..].
  apply (omapM_checked _ (has_length BYTES_PER_COMMITMENT)) in Hc as [-> Hc].
  2: { intros x y. unfold KzgCommitment_from_slice. case_decide; [|done]. by intros [= <-]. }
  apply (omapM_checked _ (has_length BYTES_PER_PROOF)) in Hp as [-> Hp].
  2: { intros x y. unfold KzgProof_from_slice. case_decide; [|done]. by intros [= <-]. }
  apply (omapM_checked _ (λ x, Z.of_nat (length x) = BYTES_PER_BLOB)) in Hb as [-> Hb].
  2: { intros x y. unfold Blob_new. destruct (_ =? _) eqn:Hx; [|done]. intros [= <-]. split; [done|lia]. }
  unfold BlobsBundle_validate. simpl. destruct (_ || _) eqn:Hl; [done|]. destruct (_ <? _) eqn:Hm; [done|].
  intros [= <-]. apply orb_false_iff in Hl as [Hl1 Hl2]. apply negb_false_iff, Nat.eqb_eq in Hl1, Hl2.
  split; [by destruct b|]. split_and!; try done; try lia.
Qed.

(** What the JSON-RPC client returns of an answer to [engine_getPayload]. *)
Lemma get_payload_with_blobs_run (i : bytes) (n n' : N) (r : ExecutionPayloadResult) (ob : option BlobsBundle) :
  get_payload_with_blobs i n = (n', Ok (r, ob)) →
  ∃ e, request json_envelope ENGINE_GET_PAYLOAD_V4 (payload_id_params i) n = (n', Ok e) ∧
    r = mkPayloadResult (en_execution_payload e) (en_execution_requests e) ∧
    ∀ b, ob = Some b → b = en_blobs_bundle e ∧ bundle_sound b.
Proof.
  unfold get_payload_with_blobs. intros [(e & n1 & He & Hr)|(? & _ & _ & ?)]%bind_run; [|done].
  apply bind_run in Hr as [(ob' & n2 & Hb & Hr)|(? & _ & _ & ?)]; [|done].
  injection Hb as <- Hb. injection Hr as <- <- <-. exists e. split_and!; [done..|].
  intros b ->. by apply checked_bundle_sound in Hb as [-> ?].
Qed.

(** The JSON-RPC client keeps these promises. *)
#[export] Instance EngineApiClient_laws :
  TransportLaws N J TR TM → EngineApiLaws N EngineApiClient TM.
Proof.
  intros HT. split.
  - intros s a. by apply request_ok.
  - intros p h b q. by apply request_ok.
  - intros i. split.
    + pose proof (λ R p m j, proj1 (request_ok (R := R) p m j HT)) as Hr. simpl.
      unfold get_payload_with_blobs. steps_tac.
    + simpl. unfold get_payload_with_blobs.
      apply panicless_bind; [by apply request_ok|]. intros e.
      apply panicless_bind; [apply panicless_lift, checked_bundle_panicless|]. by intros ? ?.
Qed.
End api_laws.

(** ** What the client guarantees *)

Section client_proofs.
Context {N : Type} {EA : EngineApi N} {TM : Timer N} (c : ExecutionClient).

Lemma client_call_ok {A F} (f : ExecutionError → F) (d : F) (m : M N ExecutionError A) (n : N) :
  steps clock_le m → now_ms n ≤ now_ms (notified f d m n).1.
Proof. intros Hm. specialize (Hm n). unfold notified. by destruct (m n) as [n' [a|e|]]. Qed.

(** With the laws of the Engine API, the client is a notifier whose clock does
    not go back: the waits of [Decide.v] end with it. *)
Lemma client_clock_laws :
  TimerLaws N TM → EngineApiLaws N EA TM → ClockLaws N ExecutionClientNotifier.
Proof.
  intros [Hs] [Hu Hp _]. split.
  - intros p q v n. apply client_call_ok, Hp.
  - intros h n. apply client_call_ok. destruct (Hu (head_state h) None).
    unfold client_set_latest_forkchoice_state. steps_tac.
  - intros d n. apply Hs.
Qed.

Lemma client_calls_panicless :
  EngineApiLaws N EA TM →
  (∀ h, panicless (client_set_latest_forkchoice_state h)) ∧
  (∀ p q v, panicless (client_notify_new_block p q v)).
Proof.
  intros [Hu Hp _]. split; [|intros; apply Hp]. intros h. apply panicless_bind; [apply Hu|].
  intros u. apply panicless_lift. unfold read_forkchoice.
  repeat case_match; try done. by destruct (ps_latest_valid_hash _).
Qed.

(** The execution layer has the head, and nothing else was asked of it. *)
Definition head_applied (head : B256) (u : ForkchoiceUpdated) : Prop :=
  fu_payload_id u = None ∧ ps_status (fu_payload_status u) = StatusValid ∧
  ps_latest_valid_hash (fu_payload_status u) = Some head.

(** A state update counts as applied exactly when the execution layer
    answered VALID for that very head and started no build; it counts as
    transient exactly when it answered SYNCING. *)
Theorem forkchoice_applied_iff (head : B256) (n n' : N) (u : ForkchoiceUpdated) :
  ea_forkchoice_updated (head_state head) None n = (n', Ok u) →
  (∀ h, set_latest_forkchoice_state (ExecutionNotifier := ExecutionClientNotifier) head n = (n', inr h) ↔
        h = head ∧ head_applied head u) ∧
  (set_latest_forkchoice_state (ExecutionNotifier := ExecutionClientNotifier) head n = (n', inl SyncingForkchoice) ↔
   fu_payload_id u = None ∧ ps_status (fu_payload_status u) = StatusSyncing).
Proof.
  intros Hu. cbn [set_latest_forkchoice_state ExecutionClientNotifier].
  unfold notified, client_set_latest_forkchoice_state, bind, lift. rewrite Hu.
  unfold read_forkchoice, head_applied. case_decide as Hid.
  { destruct Hid as [i ->]. split; [intros h|]; naive_solver. }
  apply eq_None_not_Some in Hid as ->.
  destruct (ps_status (fu_payload_status u)); simpl; try (split; [intros h|]; naive_solver).
  case_bool_decide as Hl; simpl; [rewrite Hl; simpl|]; split; [intros h|..|intros h|]; naive_solver.
Qed.

(** *** Building *)

(** The two answers of the execution layer that matter to the retry loop: a
    build has started on the head, or it is not ready yet. *)
Definition build_started (head : B256) (u : ForkchoiceUpdated) : Prop :=
  ps_status (fu_payload_status u) = StatusValid ∧
  ps_latest_valid_hash (fu_payload_status u) = Some head ∧ is_Some (fu_payload_id u).
Definition build_busy (head : B256) (u : ForkchoiceUpdated) : Prop :=
  fu_payload_id u = None ∧
  (ps_status (fu_payload_status u) = StatusSyncing ∨
   ps_status (fu_payload_status u) = StatusValid ∧
   ps_latest_valid_hash (fu_payload_status u) = Some head).

(** The execution layer starts the build at the [k]-th call, after being busy,
    with a pause between calls. *)
Inductive ready_after (s : ForkchoiceState) (a : PayloadAttributes)
    : nat → N → ForkchoiceUpdated → N → Prop :=
| ready_now n n' u :
    ea_forkchoice_updated s (Some a) n = (n', Ok u) → build_started (fs_head_block_hash s) u →
    ready_after s a 1 n u n'
| ready_later k n n1 n' u1 u :
    ea_forkchoice_updated s (Some a) n = (n1, Ok u1) → build_busy (fs_head_block_hash s) u1 →
    ready_after s a k (sleep_ms (ec_forkchoice_with_attrs_delay c) n1) u n' →
    ready_after s a (S k) n u n'.

Lemma ready_after_pos (s : ForkchoiceState) (a : PayloadAttributes) (k : nat) (n n' : N) (u : ForkchoiceUpdated) :
  ready_after s a k n u n' → (0 < k)%nat ∧ build_started (fs_head_block_hash s) u.
Proof. induction 1 as [|???????? _ [_ ?]]; [split; [lia|done]|split; [lia|done]]. Qed.

Lemma forkchoice_attempts_step (fuel att : nat) (s : ForkchoiceState) (a : PayloadAttributes) (n n1 : N)
    (u1 : ForkchoiceUpdated) :
  (att + S fuel = ec_forkchoice_with_attrs_max_attempts c)%nat →
  ea_forkchoice_updated s (Some a) n = (n1, Ok u1) →
  (build_started (fs_head_block_hash s) u1 ∧
   forkchoice_attempts c (S fuel) att s a n = (n1, Ok u1)) ∨
  (build_busy (fs_head_block_hash s) u1 ∧ fuel ≠ 0%nat ∧
   forkchoice_attempts c (S fuel) att s a n =
   forkchoice_attempts c fuel (S att) s a (sleep_ms (ec_forkchoice_with_attrs_delay c) n1)) ∨
  (∃ e, forkchoice_attempts c (S fuel) att s a n = (n1, Err e) ∧
        ¬ build_started (fs_head_block_hash s) u1 ∧ (build_busy (fs_head_block_hash s) u1 → fuel = 0%nat)).
Proof.
  intros Hm Hu. remember (forkchoice_attempts c (S fuel) att s a n) as r eqn:Hr.
  cbn [forkchoice_attempts] in Hr. unfold bind at 1 in Hr. rewrite Hu in Hr. revert Hr.
  assert ((ec_forkchoice_with_attrs_max_attempts c <=? S att)%nat = bool_decide (fuel = 0%nat)) as ->.
  { case_bool_decide; [apply Nat.leb_le|apply Nat.leb_gt]; lia. }
  unfold build_started, build_busy. destruct (ps_status (fu_payload_status u1)).
  - case_bool_decide as Hl; cbn [negb]; [|intros ->; right; right; eexists; split; [done|]; naive_solver].
    destruct (fu_payload_id u1) as [i|]; [intros ->; left; naive_solver|].
    case_bool_decide as Hf; intros ->; right; [right; eexists; split; [done|]|left]; naive_solver.
  - intros ->. right; right. eexists. split; [done|]. naive_solver.
  - case_decide as Hd; [intros ->; right; right; eexists; split; [done|];
      destruct Hd as [i ->]; naive_solver|apply eq_None_not_Some in Hd as ->].
    case_bool_decide as Hf; intros ->; right; [right; eexists; split; [done|]|left]; naive_solver.
  - intros ->. right; right. eexists. split; [done|]. naive_solver.
Qed.

Lemma forkchoice_attempts_ready (fuel : nat) : ∀ att (s : ForkchoiceState) (a : PayloadAttributes) (n n' : N)
    (u : ForkchoiceUpdated),
  (att + fuel = ec_forkchoice_with_attrs_max_attempts c)%nat →
  forkchoice_attempts c fuel att s a n = (n', Ok u) ↔
  ∃ k, (k ≤ fuel)%nat ∧ ready_after s a k n u n'.
Proof.
  induction fuel as [|fuel IH]; intros att s a n n' u Hm.
  { split; [done|]. intros (k & Hk & Hr). apply ready_after_pos in Hr as [? _]. lia. }
  destruct (ea_forkchoice_updated s (Some a) n) as [n1 [u1|e|]] eqn:Hu.
  2,3: split; [cbn [forkchoice_attempts]; unfold bind at 1; by rewrite Hu|];
    intros (k & _ & Hr); inversion Hr; congruence.
  destruct (forkchoice_attempts_step fuel att s a n n1 u1 Hm Hu) as
    [[Hb Heq]|[(Hb & Hf & Heq)|(e & Heq & Hns & Hz)]]; rewrite Heq.
  - split.
    + intros [= <- <-]. exists 1%nat. split; [lia|by constructor].
    + intros (k & _ & Hr). inversion Hr as [??? Hu' _|k' ? n2 ?? u3 Hu' Hbusy _]; subst; [congruence|].
      rewrite Hu in Hu'. injection Hu' as <- <-. destruct Hb as (_ & _ & [? ?]), Hbusy. congruence.
  - rewrite IH by lia. split.
    + intros (k & Hk & Hr). exists (S k). split; [lia|by eapply ready_later].
    + intros (k & Hk & Hr). inversion Hr as [??? Hu' (_ & _ & [? ?])|k' ? n2 ?? u3 Hu' _ Hrest]; subst.
      * assert (u = u1) as -> by congruence. destruct Hb. congruence.
      * exists k'. rewrite Hu in Hu'. injection Hu' as <- <-. split; [lia|done].
  - split; [done|]. intros (k & Hk & Hr). inversion Hr as [??? Hu' Hst|k' ? n2 ?? u3 Hu' Hbusy Hrest]; subst.
    + destruct Hns. congruence.
    + rewrite Hu in Hu'. injection Hu' as <- <-. apply ready_after_pos in Hrest as [? _].
      specialize (Hz Hbusy). lia.
Qed.

Lemma forkchoice_attempts_panicless (fuel : nat) : ∀ att (s : ForkchoiceState) (a : PayloadAttributes) (n : N),
  EngineApiLaws N EA TM → (1 ≤ fuel)%nat →
  (att + fuel = ec_forkchoice_with_attrs_max_attempts c)%nat →
  (forkchoice_attempts c fuel att s a n).2 ≠ Panic.
Proof.
  induction fuel as [|fuel IH]; intros att s a n HL Hf Hm; [lia|].
  pose proof (proj2 (ea_updated_ok s (Some a)) n) as Hp.
  destruct (ea_forkchoice_updated s (Some a) n) as [n1 [u1|e|]] eqn:Hu; [| |done].
  2: { cbn [forkchoice_attempts]. unfold bind at 1. by rewrite Hu. }
  destruct (forkchoice_attempts_step fuel att s a n n1 u1 Hm Hu) as
    [[Hb ->]|[(Hb & Hz & ->)|(e & -> & _)]]; [done| |done]. apply IH; [done|lia|lia].
Qed.

(** C25: the retries of a build request.  With an Engine API that does not panic
    they end in a result or an error, after at most the configured number of
    calls; and they succeed exactly when the execution layer, whatever it is busy
    with before, starts the build within that number of calls. *)
Theorem build_starts_iff_ready (s : ForkchoiceState) (a : PayloadAttributes) (n : N) :
  EngineApiLaws N EA TM → (1 ≤ ec_forkchoice_with_attrs_max_attempts c)%nat →
  (forkchoice_updated_with_attributes_retry c s a n).2 ≠ Panic ∧
  ∀ n' u, forkchoice_updated_with_attributes_retry c s a n = (n', Ok u) ↔
    ∃ k, (k ≤ ec_forkchoice_with_attrs_max_attempts c)%nat ∧ ready_after s a k n u n'.
Proof.
  intros HL Hmax. split; [|intros n' u; by apply forkchoice_attempts_ready].
  by apply forkchoice_attempts_panicless.
Qed.

Lemma start_build_run (b : ExecutionBlock) (ts : Z) (n n' : N) (id : bytes) :
  start_build c b ts n = (n', Ok id) →
  ∃ k n1 u, (k ≤ ec_forkchoice_with_attrs_max_attempts c)%nat ∧
    ready_after (head_state (eb_block_hash b)) (build_attributes ts (eb_block_hash b)) k n u n1 ∧
    fu_payload_id u = Some id.
Proof.
  unfold start_build. intros [(u & n1 & Hr & Hrest)|(? & _ & _ & ?)]%bind_run; [|done].
  apply forkchoice_attempts_ready in Hr as (k & Hk & Hr); [|done].
  pose proof (ready_after_pos _ _ _ _ _ _ Hr) as (_ & Hst & _ & [i Hi]).
  rewrite Hst, Hi in Hrest.
  apply bind_run in Hrest as [([] & n2 & _ & Hrest)|(? & _ & _ & ?)]; [|done]. injection Hrest as _ <-.
  exists k, n1, u. done.
Qed.

(** What the checks of the client leave of a block it built. *)
Lemma generate_block_run (b : ExecutionBlock) (n n' : N) (r : ExecutionPayloadResult) (ob : option BlobsBundle) :
  generate_block_with_blobs c b n = (n', Ok (r, ob)) →
  (∃ id n1, ea_get_payload_with_blobs id n1 = (n', Ok (r, ob))) ∧
  built_on b (next_block_timestamp (eb_timestamp b) n) (pr_payload r) = true ∧
  (0 < ep_blob_gas_used (pr_payload r) ↔ 0 < Z.of_nat (from_option (λ bb, length (bb_blobs bb)) 0%nat ob)).
Proof.
  unfold generate_block_with_blobs. unfold bind at 1, get. cbv zeta.
  intros [(id & n1 & _ & Hr)|(? & _ & _ & ?)]%bind_run; [|done].
  apply bind_run in Hr as [([r0 ob'] & n2 & Hget & Hr)|(? & _ & _ & ?)]; [|done].
  destruct (_ && _) eqn:Hg1; [done|]. destruct (_ && _) eqn:Hg2 in Hr; [done|].
  destruct (built_on b _ (pr_payload r0)) eqn:Hb; [|done]. injection Hr as <- <- <-.
  split_and!; [by exists id, n1|done|]. lia.
Qed.

Lemma built_timestamp_valid (b : ExecutionBlock) (n : N) (p : ExecutionPayloadV3) :
  is_u64 (current_unix_time n) → is_u64 (eb_timestamp b + LOAD_MIN_BLOCK_TIME_SECS) → 0 ≤ eb_timestamp b →
  built_on b (next_block_timestamp (eb_timestamp b) n) p = true →
  ep_parent_hash p = eb_block_hash b ∧ ep_block_number p = add64 (eb_block_number b) 1 ∧
  ep_timestamp p = Z.max (current_unix_time n) (eb_timestamp b + LOAD_MIN_BLOCK_TIME_SECS) ∧
  ∀ now, is_u64 now → now + LOAD_MAX_FUTURE_DRIFT_SECS < 2^64 →
    validate_proposed_timestamp (Some now) (Some b) (ep_timestamp p) (ep_parent_hash p) = Ok tt ↔
    ep_timestamp p ≤ now + LOAD_MAX_FUTURE_DRIFT_SECS.
Proof.
  intros Hc Hts Hpos Hb. unfold built_on in Hb. apply andb_true_iff in Hb as [[Hp Hn]%andb_true_iff Ht].
  apply bool_decide_eq_true in Hp. apply Z.eqb_eq in Hn, Ht. unfold next_block_timestamp in Ht.
  rewrite add64_small in Ht by done. split_and!; [done..|]. intros now Hnow Hd. rewrite Hp, Ht.
  unfold is_u64, validate_proposed_timestamp, LOAD_MAX_FUTURE_DRIFT_SECS, LOAD_MIN_BLOCK_TIME_SECS in *.
  rewrite !add64_small by lia. rewrite bool_decide_eq_true_2 by done. cbn [negb].
  repeat match goal with |- context [if ?x then _ else _] => destruct x eqn:? end; split; try done; lia.
Qed.
End client_proofs.

Section client_over_transport.
Context {N J : Type} {TR : Transport N J} {EJ : EngineJson J} {TM : Timer N} (c : ExecutionClient).

(** C19: a block the JSON-RPC client returns for proposing comes from an answer
    of the execution layer, whatever that answers, and is one to propose.  It
    extends the head by one, at the later of the clock and a block time after
    the head, so that the timestamp check of a follower with the same head passes
    if and only if the follower's clock plus the allowed drift reaches that time.
    Blobs come exactly when the payload pays for some, and the bundle, which is
    the answer's own, is complete, with all parts of their sizes, and within the
    limit of a block. *)
Theorem built_block_proposable (b : ExecutionBlock) (n n' : N) (r : ExecutionPayloadResult)
    (bundle : option BlobsBundle) :
  is_u64 (current_unix_time n) → is_u64 (eb_timestamp b + LOAD_MIN_BLOCK_TIME_SECS) → 0 ≤ eb_timestamp b →
  generate_block_with_blobs (EA := EngineApiClient) c b n = (n', Ok (r, bundle)) →
  let p := pr_payload r in
  (∃ id n1 e, request json_envelope ENGINE_GET_PAYLOAD_V4 (payload_id_params id) n1 = (n', Ok e) ∧
     r = mkPayloadResult (en_execution_payload e) (en_execution_requests e) ∧
     ∀ bb, bundle = Some bb → bb = en_blobs_bundle e) ∧
  ep_parent_hash p = eb_block_hash b ∧ ep_block_number p = add64 (eb_block_number b) 1 ∧
  ep_timestamp p = Z.max (current_unix_time n) (eb_timestamp b + LOAD_MIN_BLOCK_TIME_SECS) ∧
  (∀ now, is_u64 now → now + LOAD_MAX_FUTURE_DRIFT_SECS < 2^64 →
     validate_proposed_timestamp (Some now) (Some b) (ep_timestamp p) (ep_parent_hash p) = Ok tt ↔
     ep_timestamp p ≤ now + LOAD_MAX_FUTURE_DRIFT_SECS) ∧
  (0 < ep_blob_gas_used p ↔ is_Some bundle) ∧
  (∀ bb, bundle = Some bb →
     bundle_sound bb ∧ check_bundle (length (bb_commitments bb)) bundle = Ok tt).
Proof.
  intros Hc Hts Hpos Hrun p. apply generate_block_run in Hrun as ((id & n1 & Hget) & Hb & Hgas).
  apply get_payload_with_blobs_run in Hget as (e & He & -> & Hbundle).
  destruct (built_timestamp_valid b n p Hc Hts Hpos Hb) as (H1 & H2 & H3 & H4).
  split_and!; [|done..| |].
  - exists id, n1, e. split_and!; [done..|]. intros bb Hbb. by destruct (Hbundle bb Hbb).
  - unfold p. rewrite Hgas. destruct bundle as [bb|]; simpl; [|split; [lia|by intros [? ?]]].
    destruct (Hbundle bb eq_refl) as [_ [Hne _]]. split; [eauto|]. intros _. destruct (bb_blobs bb); [done|simpl; lia].
  - intros bb ->. destruct (Hbundle bb eq_refl) as [_ Hs]. split; [done|].
    destruct Hs as (_ & K1 & K2 & _). unfold check_bundle. by rewrite K2, <-K1, !Nat.eqb_refl.
Qed.
End client_over_transport.

(** ** Concrete inputs *)

(** An execution layer that is its clock, in milliseconds.  It syncs until 300,
    and then builds block 8 on a head of zeros, with one blob. *)
Definition demo_timer : Timer Z := {|
  now_ms t := t; sleep_ms d t := t + d; unix_ms t := Some t |}.
Definition demo_built (ts : Z) : ExecutionPayloadV3 :=
  mkPayload B256_ZERO (zeros 20) B256_ZERO B256_ZERO (zeros 256) load_prev_randao 8 0 0 ts [] 0
    (replicate 32 9) [] [] 131072 0.
Definition demo_blobs : BlobsBundle :=
  mkBundle [zeros 48] [zeros 48] [replicate (Z.to_nat BYTES_PER_BLOB) 0].
Definition demo_api : EngineApi Z := {|
  ea_forkchoice_updated s a t :=
    (t + 1, Ok (if t <? 300 then mkUpdated (from_status StatusSyncing) None
                else mkUpdated (mkStatus StatusValid (Some (fs_head_block_hash s)))
                       (match a with Some _ => Some [7] | None => None end)));
  ea_get_payload _ t := (t + 1, Err (EeReport "unknown"));
  ea_get_payload_with_blobs _ t := (t + 1, Ok (mkPayloadResult (demo_built 101) [], Some demo_blobs));
  ea_new_payload _ _ _ _ t := (t + 1, Ok (from_status StatusValid));
  ea_exchange_capabilities t := (t, Ok (from_response_strings ULTRAMARINE_CAPABILITIES)) |}.
#[local] Existing Instance demo_timer.
#[local] Existing Instance demo_api.
Definition demo_client : ExecutionClient := ExecutionClient_new None None None.
Definition demo_head : ExecutionBlock := mkExecutionBlock B256_ZERO 7 B256_ZERO 100 load_prev_randao.

Lemma demo_api_laws : EngineApiLaws Z demo_api demo_timer.
Proof.
  split; intros; (split; [intros t; unfold clock_le; simpl; lia|by intros t]).
Qed.

Lemma forkchoice_applied_iff_witness :
  set_latest_forkchoice_state (ExecutionNotifier := ExecutionClientNotifier) B256_ZERO 400
    = (401, inr B256_ZERO) ∧
  set_latest_forkchoice_state (ExecutionNotifier := ExecutionClientNotifier) B256_ZERO 200
    = (201, inl SyncingForkchoice).
Proof.
  destruct (forkchoice_applied_iff (EA := demo_api) (TM := demo_timer) B256_ZERO 400 401
    (mkUpdated (mkStatus StatusValid (Some B256_ZERO)) None) ltac:(vm_compute; reflexivity)) as [Ha _].
  destruct (forkchoice_applied_iff (EA := demo_api) (TM := demo_timer) B256_ZERO 200 201
    (mkUpdated (from_status StatusSyncing) None) ltac:(vm_compute; reflexivity)) as [_ Hs].
  split; [apply Ha; repeat split; reflexivity|apply Hs; split; reflexivity].
Defined.

(** The first two calls find the execution layer syncing. *)
Lemma build_starts_iff_ready_witness :
  ∃ n' u, forkchoice_updated_with_attributes_retry demo_client (head_state B256_ZERO)
            (build_attributes 101 B256_ZERO) 0 = (n', Ok u) ∧ fu_payload_id u = Some [7].
Proof.
  destruct (build_starts_iff_ready demo_client (head_state B256_ZERO) (build_attributes 101 B256_ZERO) 0
    demo_api_laws ltac:(simpl; lia)) as [_ H].
  eexists _, _. split; [apply H; exists 3%nat; split; [simpl; lia|]|].
  - eapply ready_later; [reflexivity|split; [reflexivity|left; reflexivity]|].
    eapply ready_later; [reflexivity|split; [reflexivity|left; reflexivity]|].
    eapply ready_now; [reflexivity|]. split; [reflexivity|]. split; [reflexivity|].
    exists [7]. reflexivity.
  - reflexivity.
Defined.

(** The same execution layer behind JSON-RPC. *)
Inductive DemoJson := DemoParams | DemoUpdated (u : ForkchoiceUpdated) | DemoEnvelope (e : PayloadEnvelopeV4).
#[local] Instance demo_json : EngineJson DemoJson := {|
  forkchoice_params _ _ := DemoParams; payload_id_params _ := DemoParams;
  new_payload_params _ _ _ _ := DemoParams; capabilities_params _ := DemoParams;
  json_updated j := match j with DemoUpdated u => Some u | _ => None end;
  json_envelope j := match j with DemoEnvelope e => Some e | _ => None end;
  json_status _ := None; json_strings _ := None |}.
#[local] Instance demo_transport : Transport Z DemoJson := {|
  transport_send m _ t :=
    (t + 1, inr (mkResponse None (Some (
       if decide (m = ENGINE_GET_PAYLOAD_V4) then DemoEnvelope (mkEnvelope (demo_built 101) demo_blobs [])
       else DemoUpdated (if t <? 300 then mkUpdated (from_status StatusSyncing) None
                         else mkUpdated (mkStatus StatusValid (Some B256_ZERO)) (Some [7])))))) |}.

Abbreviation demo_generated :=
  (generate_block_with_blobs (EA := EngineApiClient) demo_client demo_head 0) (only parsing).

Lemma demo_generated_ok :
  match demo_generated.2 with Ok (r, Some _) => ep_timestamp (pr_payload r) =? 101 | _ => false end = true.
Proof. vm_compute. reflexivity. Qed.
Lemma demo_generated_run :
  ∃ n' r bb, demo_generated = (n', Ok (r, Some bb)) ∧ ep_timestamp (pr_payload r) = 101.
Proof.
  pose proof demo_generated_ok as Hok. revert Hok. generalize demo_generated as g.
  intros [n' [[r [bb|]]|e|]] Hok; try discriminate Hok. apply Z.eqb_eq in Hok. by exists n', r, bb.
Qed.

Lemma built_block_proposable_witness :
  ∃ n' r bb, demo_generated = (n', Ok (r, Some bb)) ∧ bundle_sound bb ∧
    validate_proposed_timestamp (Some 90) (Some demo_head) (ep_timestamp (pr_payload r))
      (ep_parent_hash (pr_payload r)) = Ok tt.
Proof.
  assert (is_u64 (current_unix_time 0) ∧ is_u64 (eb_timestamp demo_head + LOAD_MIN_BLOCK_TIME_SECS) ∧
    0 ≤ eb_timestamp demo_head ∧ is_u64 90 ∧ 90 + LOAD_MAX_FUTURE_DRIFT_SECS < 2^64 ∧
    101 ≤ 90 + LOAD_MAX_FUTURE_DRIFT_SECS) as (Hc & Ht & Hp & Hn & Hd & Hle) by (vm_compute; repeat split; congruence).
  destruct demo_generated_run as (n' & r & bb & Hrun & Hok). exists n', r, bb. split; [exact Hrun|].
  destruct (built_block_proposable demo_client demo_head 0 n' r (Some bb) Hc Ht Hp Hrun)
    as (_ & _ & _ & _ & Hv & _ & Hs).
  split; [apply (Hs bb); reflexivity|].
  apply (Hv 90 Hn Hd). rewrite Hok. exact Hle.
Defined.
