(* ===== verification/Transport.v ===== *)
(** * Talking to the execution layer ([crates/execution/src/transport], [engine_api/jwt.rs], [eth_rpc])

    JSON-RPC over HTTP with bearer tokens and over a Unix socket with one line
    per message.  Sockets and the HTTP client are parameters, with operations
    that may take any time or never end; the code bounds each by a timeout.  The
    token cache is a transition system, since concurrent requests share it.
    Both transports are instances of the interface the client of [Client.v] is
    built on, and have its law. *)
From S2P Require Import Prelude Text Types Client.
Open Scope Z_scope.

(** ** Operations that take time *)

(** What an operation leaves, how many milliseconds it takes ([None]: for ever)
    and its result. *)
Record Io (W A : Type) := mkIo { io_after : W; io_takes : option Z; io_result : string + A }.
Arguments mkIo {W A}. Arguments io_after {W A}. Arguments io_takes {W A}. Arguments io_result {W A}.

(** [tokio::time::timeout] *)
Definition timeout {W A} `{Timer W} (ms : Z) (op : W → Io W A) (w : W) : W * (string + A) :=
  let io := op w in
  match io_takes io with
  | Some t => if t <=? ms then (sleep_ms t (io_after io), io_result io)
              else (sleep_ms ms (io_after io), inl "deadline has elapsed"%string)
  | None => (sleep_ms ms (io_after io), inl "deadline has elapsed"%string)
  end.

(** Sequence two steps of a request. *)
Definition then_ {W A B} (r : W * (string + A)) (k : A → W → W * (string + B)) : W * (string + B) :=
  match r with (w, inl e) => (w, inl e) | (w, inr a) => k a w end.

(** ** JSON-RPC ([transport/mod.rs]) *)

Record JsonRpcRequest (J : Type) := mkRequest {
  rq_jsonrpc : string; rq_method : string; rq_params : J; rq_id : Z }.
Arguments mkRequest {J}. Arguments rq_jsonrpc {J}. Arguments rq_method {J}. Arguments rq_params {J}. Arguments rq_id {J}.

Definition JsonRpcRequest_new {J} (method : string) (params : J) : JsonRpcRequest J :=
  mkRequest "2.0" method params 1.

Definition REQUEST_TIMEOUT : Z := 10000.

(** The texts of requests and responses ([serde_json]). *)
Class RpcJson (J : Type) := {
  request_to_vec : JsonRpcRequest J → option bytes;
  response_from_slice : bytes → option (JsonRpcResponse J) }.

(** ** The Unix socket ([ipc.rs]) *)

(** [sock_incoming] is what the peer sends until it closes the connection. *)
Class Socket (W : Type) := {
  sock_connect : string → W → Io W unit;
  sock_write_all : bytes → W → Io W unit;
  sock_flush : W → Io W unit;
  sock_incoming : W → Io W bytes }.

(** [AsyncBufReadExt::read_until], the delimiter included. *)
Fixpoint read_until (delimiter : Z) (l : bytes) : bytes :=
  match l with
  | [] => []
  | x :: l => if x =? delimiter then [x] else x :: read_until delimiter l
  end.
Definition NEWLINE : Z := 10.

Section ipc.
Context {W J : Type} `{Timer W} `{Socket W} `{RpcJson J}.

Definition ipc_connect (path : string) (w : W) : W * (string + unit) :=
  timeout REQUEST_TIMEOUT (sock_connect path) w.

Definition IpcTransport_send (path : string) (req : JsonRpcRequest J) (w : W) : W * (string + JsonRpcResponse J) :=
  then_ (ipc_connect path w) (λ _ w,
  match request_to_vec req with
  | None => (w, inl "cannot serialize request"%string)
  | Some b =>
    let req_bytes := b ++ [NEWLINE] in
    then_ (timeout REQUEST_TIMEOUT (sock_write_all req_bytes) w) (λ _ w,
    then_ (timeout REQUEST_TIMEOUT sock_flush w) (λ _ w,
    then_ (timeout REQUEST_TIMEOUT sock_incoming w) (λ incoming w,
    match response_from_slice (read_until NEWLINE incoming) with
    | Some resp => (w, inr resp)
    | None => (w, inl "invalid response"%string)
    end)))
  end).

Definition ipc_transport (path : string) : Transport W J :=
  {| transport_send method params := IpcTransport_send path (JsonRpcRequest_new method params) |}.
End ipc.

(** ** Bearer tokens ([jwt.rs]) *)

Definition TOKEN_VALIDITY_DURATION : Z := 55000.

(** [jsonwebtoken::encode] of the claim [iat] under a key *)
Class JwtLib := { jwt_encode : bytes → Z → option string }.

Record JwtCache := mkJwtCache { jc_token : string; jc_created_at : Z }.

(** [created_at.elapsed()], in milliseconds, an error when the clock is behind. *)
Definition elapsed (created_at now : Z) : string + Z :=
  if now <? created_at then inl "second time provided was later than self"%string else inr (now - created_at).

Inductive CacheCheck := Fresh (token : string) | Stale | ClockError (e : string).
Definition check_cache (cache : option JwtCache) (now : Z) : CacheCheck :=
  match cache with
  | None => Stale
  | Some c =>
    match elapsed (jc_created_at c) now with
    | inl e => ClockError e
    | inr d => if d <? TOKEN_VALIDITY_DURATION then Fresh (jc_token c) else Stale
    end
  end.

(** Generate a token under the write lock; [now] is [None] before the epoch. *)
Definition generate_token `{JwtLib} (key : bytes) (now : option Z) : string + JwtCache :=
  match now with
  | None => inl "second time provided was later than self"%string
  | Some now =>
    match jwt_encode key (now / 1000) with
    | Some token => inr (mkJwtCache token now)
    | None => inl "cannot encode token"%string
    end
  end.

(** The part of [get_token] under the write lock, with the two times it reads. *)
Definition refresh `{JwtLib} (key : bytes) (cache : option JwtCache) (now : Z) (now' : option Z)
    : option JwtCache * (string + string) :=
  match check_cache cache now with
  | Fresh token => (cache, inr token)
  | ClockError e => (cache, inl e)
  | Stale =>
    match generate_token key now' with
    | inl e => (cache, inl e)
    | inr c => (Some c, inr (jc_token c))
    end
  end.

(** [get_token] with no other request between its two locks. *)
Definition get_token `{JwtLib} {W} `{Timer W} (key : bytes) (cache : option JwtCache) (w : W)
    : option JwtCache * (string + string) :=
  match unix_ms w with
  | None => (cache, inl "second time provided was later than self"%string)
  | Some now =>
    match check_cache cache now with
    | Fresh token => (cache, inr token)
    | ClockError e => (cache, inl e)
    | Stale => refresh key cache now (Some now)
    end
  end.

(** ** HTTP ([http.rs]) *)

Class HttpClient (W J : Type) := {
  http_post : string → JsonRpcRequest J → option string → W → Io W bytes }.

Section http.
Context {W J : Type} `{Timer W} `{HttpClient W J} `{RpcJson J} `{JwtLib}.

(** The request and the reading of its answer, within the client's timeout. *)
Definition http_exchange (url : string) (req : JsonRpcRequest J) (token : option string) (w : W)
    : W * (string + JsonRpcResponse J) :=
  then_ (timeout REQUEST_TIMEOUT (http_post url req token) w) (λ b w,
  match response_from_slice b with
  | Some resp => (w, inr resp)
  | None => (w, inl "invalid response"%string)
  end).

(** The transport and its token cache; [secret] is [None] without [with_jwt]. *)
Definition HttpTransport_send (url : string) (secret : option bytes) (req : JsonRpcRequest J)
    (s : W * option JwtCache) : (W * option JwtCache) * (string + JsonRpcResponse J) :=
  let (w, cache) := s in
  match secret with
  | None => let (w, r) := http_exchange url req None w in ((w, cache), r)
  | Some key =>
    match get_token key cache w with
    | (cache, inl e) => ((w, cache), inl e)
    | (cache, inr token) => let (w, r) := http_exchange url req (Some token) w in ((w, cache), r)
    end
  end.

Definition http_transport (url : string) (secret : option bytes) : Transport (W * option JwtCache) J :=
  {| transport_send method params := HttpTransport_send url secret (JsonRpcRequest_new method params) |}.
End http.

(** ** Blocks over Ethereum's JSON-RPC ([eth_rpc/alloy_impl.rs]) *)

(** The header fields of a block as [alloy] returns it. *)
Record RpcBlock := mkRpcBlock {
  rb_number : Z; rb_hash : B256; rb_parent_hash : B256; rb_timestamp : Z; rb_mix_hash : B256 }.

Definition get_block_by_number (answer : string + option RpcBlock) : string + option ExecutionBlock :=
  match answer with
  | inl e => inl e
  | inr block => inr ((λ b, mkExecutionBlock (rb_hash b) (rb_number b) (rb_parent_hash b) (rb_timestamp b)
                              load_prev_randao) <$> block)
  end.

(** ** Concurrent requests for a token *)

(** A request reads the cache under the read lock; if the token is stale it waits
    for the write lock, under which it looks again.  A finished request has its
    token and the time at which the token was found to be good. *)
Inductive Task := Reading | Waiting | Done (r : string + string * Z).
(** [js_made]: when tokens were made, the latest first. *)
Record JwtState := mkJwtState {
  js_cache : option JwtCache; js_tasks : list Task; js_made : list Z }.

Definition jwt_init (tasks : nat) : JwtState := mkJwtState None (replicate tasks Reading) [].

Definition after_read (cache : option JwtCache) (now : Z) : Task :=
  match check_cache cache now with
  | Fresh token => Done (inr (token, now))
  | ClockError e => Done (inl e)
  | Stale => Waiting
  end.

(** The result of [refresh] with the time of its token, and the time at which
    one was made. *)
Definition after_write `{JwtLib} (key : bytes) (cache : option JwtCache) (now now' : Z)
    : option JwtCache * Task * list Z :=
  match check_cache cache now, refresh key cache now (Some now') with
  | Stale, (c, inr token) => (c, Done (inr (token, now')), [now'])
  | _, (c, inr token) => (c, Done (inr (token, now)), [])
  | _, (c, inl e) => (c, Done (inl e), [])
  end.

(** A step is labelled with the times it reads. *)
Inductive jwt_step `{JwtLib} (key : bytes) : JwtState → list Z → JwtState → Prop :=
| step_read s i now :
    js_tasks s !! i = Some Reading →
    jwt_step key s [now]
      (mkJwtState (js_cache s) (<[i := after_read (js_cache s) now]> (js_tasks s)) (js_made s))
| step_write s i now now' c t made :
    js_tasks s !! i = Some Waiting →
    after_write key (js_cache s) now now' = (c, t, made) →
    jwt_step key s [now; now'] (mkJwtState c (<[i := t]> (js_tasks s)) (made ++ js_made s)).

Inductive jwt_run `{JwtLib} (key : bytes) : JwtState → list Z → JwtState → Prop :=
| run_done s : jwt_run key s [] s
| run_step s ts s1 ts' s' : jwt_run key s ts s1 → jwt_step key s1 ts' s' → jwt_run key s (ts ++ ts') s'.

Section jwt_proofs.
Context {JW : JwtLib} (key : bytes).

(** A token good at a time: made from a time less than 55 seconds before. *)
Definition good_at (token : string) (at_ : Z) : Prop :=
  ∃ c, jwt_encode key (c / 1000) = Some token ∧ c ≤ at_ < c + TOKEN_VALIDITY_DURATION.
Definition cache_wf (cache : option JwtCache) : Prop :=
  ∀ c, cache = Some c → jwt_encode key (jc_created_at c / 1000) = Some (jc_token c).
Definition task_wf (t : Task) : Prop :=
  match t with Done (inr (token, at_)) => good_at token at_ | _ => True end.
Definition jwt_inv (s : JwtState) : Prop :=
  cache_wf (js_cache s) ∧ Forall task_wf (js_tasks s) ∧ head (js_made s) = jc_created_at <$> js_cache s.

Lemma check_cache_fresh (cache : option JwtCache) (now : Z) (token : string) :
  cache_wf cache → check_cache cache now = Fresh token → good_at token now.
Proof.
  unfold check_cache, elapsed. intros Hwf. destruct cache as [c|]; [|done].
  destruct (now <? _) eqn:Hn; [done|]. destruct (_ <? TOKEN_VALIDITY_DURATION) eqn:Hd; [|done].
  intros [= <-]. exists (jc_created_at c). split; [by apply Hwf|lia].
Qed.

Lemma check_cache_stale (cache : option JwtCache) (now : Z) :
  check_cache cache now = Stale → ∀ c, cache = Some c → jc_created_at c + TOKEN_VALIDITY_DURATION ≤ now.
Proof.
  unfold check_cache, elapsed. intros Hs c ->.
  destruct (now <? _) eqn:Hn; [done|]. destruct (_ <? TOKEN_VALIDITY_DURATION) eqn:Hd; [done|]. lia.
Qed.

Lemma after_write_spec (cache : option JwtCache) (now now' : Z) c t made :
  cache_wf cache → after_write key cache now now' = (c, t, made) →
  cache_wf c ∧ task_wf t ∧
  ((c = cache ∧ made = []) ∨
   (∃ tok, c = Some (mkJwtCache tok now') ∧ made = [now'] ∧ check_cache cache now = Stale)).
Proof.
  unfold after_write, refresh. intros Hwf. destruct (check_cache cache now) as [token| |e] eqn:Hc.
  - intros [= <- <- <-]. split_and!; [done| |by left]. by apply check_cache_fresh in Hc.
  - unfold generate_token. destruct (jwt_encode key (now' / 1000)) as [tok|] eqn:He.
    + intros [= <- <- <-]. split_and!.
      * by intros c [= <-].
      * exists now'. unfold TOKEN_VALIDITY_DURATION. split; [done|lia].
      * right. by exists tok.
    + intros [= <- <- <-]. split_and!; [done..|by left].
  - intros [= <- <- <-]. split_and!; [done..|by left].
Qed.

Lemma jwt_step_inv (s : JwtState) (ts : list Z) (s' : JwtState) :
  jwt_step key s ts s' → jwt_inv s → jwt_inv s'.
Proof.
  intros [s0 i now Hi|s0 i now now' c t made Hi Hw] (Hc & Ht & Hm).
  - split_and!; simpl; try done. apply Forall_insert; [done|]. unfold after_read.
    destruct (check_cache _ now) eqn:E; simpl; try done. by apply check_cache_fresh in E.
  - apply after_write_spec in Hw as (Hc' & Ht' & Hmade); [|done]. split_and!; simpl; [done|by apply Forall_insert|].
    destruct Hmade as [[-> ->]|(tok & -> & -> & _)]; done.
Qed.

Lemma jwt_run_inv (s : JwtState) (ts : list Z) (s' : JwtState) :
  jwt_run key s ts s' → jwt_inv s → jwt_inv s'.
Proof. induction 1; eauto using jwt_step_inv. Qed.
Lemma jwt_init_inv (n : nat) : jwt_inv (jwt_init n).
Proof. split_and!; simpl; [by intros c [=]|by apply Forall_replicate|done]. Qed.

(** Times at which tokens were made, the latest first, at least 55 seconds
    apart. *)
Fixpoint spaced (made : list Z) : Prop :=
  match made with
  | t :: ((t0 :: _) as rest) => t0 + 55000 ≤ t ∧ spaced rest
  | _ => True
  end.

Lemma jwt_step_spaced (s : JwtState) (ts : list Z) (s' : JwtState) :
  jwt_step key s ts s' → StronglySorted Z.le ts → jwt_inv s → spaced (js_made s) → spaced (js_made s').
Proof.
  intros [s0 i now Hi|s0 i now now' c t made Hi Hw] Hts (Hc & _ & Hm) Hsp; simpl; [done|].
  apply after_write_spec in Hw as (_ & _ & [[_ ->]|(tok & _ & -> & Hst)]); [done| |done].
  apply StronglySorted_inv in Hts as [_ Hle]. apply Forall_cons in Hle as [Hle _].
  destruct (js_made s0) as [|t0 rest]; [done|]. simpl. split; [|done]. simpl in Hm.
  destruct (js_cache s0) as [c0|] eqn:Hc0; [|done]. injection Hm as ->.
  pose proof (check_cache_stale _ _ Hst c0 eq_refl). unfold TOKEN_VALIDITY_DURATION in *. lia.
Qed.

(** C29: requests always carry a fresh token.  However concurrent requests
    interleave and whatever the system clock shows, a request that gets a token
    gets one that was made from a time less than 55 seconds before it was
    checked; an execution layer whose clock is within four seconds of that time
    finds the token's [iat] within its window of sixty seconds.  While the clock
    does not go back, tokens are made at least 55 seconds apart, so that requests
    share them. *)
Theorem tokens_fresh_and_shared (tasks : nat) (ts : list Z) (s : JwtState) :
  jwt_run key (jwt_init tasks) ts s →
  (∀ i token at_, js_tasks s !! i = Some (Done (inr (token, at_))) →
     ∃ created, let iat := created / 1000 in
       jwt_encode key iat = Some token ∧ created ≤ at_ < created + 55000 ∧
       ∀ el_now, at_ / 1000 - 4 ≤ el_now ≤ at_ / 1000 + 4 → iat - 60 ≤ el_now ≤ iat + 60) ∧
  (StronglySorted Z.le ts → spaced (js_made s)).
Proof.
  intros Hrun. split.
  - intros i token at_ Hi. pose proof (jwt_run_inv _ _ _ Hrun (jwt_init_inv tasks)) as (_ & Ht & _).
    rewrite Forall_lookup in Ht. destruct (Ht i _ Hi) as (c & Htok & Hc). unfold TOKEN_VALIDITY_DURATION in Hc.
    exists c. cbn zeta. do 2 (split; [done|]). intros el_now Hel.
    assert (c / 1000 ≤ at_ / 1000) by (apply Z.div_le_mono; lia).
    assert (at_ / 1000 ≤ (c + 55 * 1000) / 1000) as Hup by (apply Z.div_le_mono; lia).
    rewrite Z.div_add in Hup by lia. lia.
  - remember (jwt_init tasks) as s0 eqn:Hs0. induction Hrun as [|s0' ts1 s1 ts' s' Hrun IH Hstep]; intros Hsort; subst.
    + done.
    + apply StronglySorted_app in Hsort as (_ & Hs1 & Hs2).
      eapply jwt_step_spaced; [exact Hstep|done| |by apply IH]. eapply jwt_run_inv; [exact Hrun|apply jwt_init_inv].
Qed.
End jwt_proofs.

(** The sequential [get_token] is a run of this system. *)
Lemma get_token_run {JW : JwtLib} {W} `{Timer W} (key : bytes) (cache cache' : option JwtCache) (w : W)
    (now : Z) (token : string) (made : list Z) :
  unix_ms w = Some now → get_token key cache w = (cache', inr token) →
  ∃ ts made', jwt_run key (mkJwtState cache [Reading] made) ts
    (mkJwtState cache' [Done (inr (token, now))] made').
Proof.
  unfold get_token. intros ->. set (s0 := mkJwtState cache [Reading] made).
  pose proof (step_read key s0 0 now eq_refl) as Hread. unfold after_read in Hread. cbn [js_cache js_made s0] in Hread.
  destruct (check_cache cache now) as [tok| |e] eqn:Hc; [|intros Hr|done].
  - intros [= <- <-]. exists ([] ++ [now]), made. by apply (run_step key s0 [] s0 [now]); [constructor|].
  - simpl in Hread. set (s1 := mkJwtState cache [Waiting] made).
    assert (after_write key cache now now = (cache', Done (inr (token, now)), [now])) as Hw.
    { unfold after_write. rewrite Hc. unfold refresh in Hr |- *. rewrite Hc in Hr |- *. destruct (generate_token _ _); [done|].
      by injection Hr as <- <-. }
    pose proof (step_write key s1 0 now now cache' _ [now] eq_refl Hw) as Hwrite.
    exists (([] ++ [now]) ++ [now; now]), (now :: made). eapply run_step; [|exact Hwrite].
    by apply (run_step key s0 [] s0 [now]); [constructor|].
Qed.

(** ** Requests end *)

(** An operation itself does not move the clock, what it takes is not negative,
    and a wait ends when it is due. *)
Definition io_timed {W A} `{Timer W} (op : W → Io W A) : Prop :=
  ∀ w, now_ms (io_after (op w)) = now_ms w ∧ ∀ t, io_takes (op w) = Some t → 0 ≤ t.
Class IoLaws (W : Type) (TM : Timer W) : Prop := {
  sleep_exact : ∀ d w, 0 ≤ d → now_ms (sleep_ms d w) = now_ms w + d }.
Class SocketLaws (W : Type) (TM : Timer W) (SK : Socket W) : Prop := {
  connect_timed : ∀ path, io_timed (sock_connect path);
  write_timed : ∀ b, io_timed (sock_write_all b);
  flush_timed : io_timed sock_flush;
  incoming_timed : io_timed sock_incoming }.
Class HttpClientLaws (W J : Type) (TM : Timer W) (HC : HttpClient W J) : Prop := {
  post_timed : ∀ url req token, io_timed (http_post url req token) }.

Section bounded.
Context {W J : Type} {TM : Timer W} {IL : IoLaws W TM} {RJ : RpcJson J}.

(** Within [b] milliseconds, and not back in time. *)
Definition takes {A} (b : Z) (w : W) (r : W * A) : Prop := now_ms w ≤ now_ms r.1 ≤ now_ms w + b.

Lemma timeout_takes {A} (b : Z) (op : W → Io W A) (w : W) : 0 ≤ b → io_timed op → takes b w (timeout b op w).
Proof using IL.
  intros Hb Hop. destruct (Hop w) as [Hn Ht]. unfold takes, timeout. destruct (io_takes (op w)) as [t|].
  - specialize (Ht t eq_refl). destruct (t <=? b) eqn:E; cbn [fst]; rewrite sleep_exact by lia; lia.
  - cbn [fst]. rewrite sleep_exact by lia. lia.
Qed.
Lemma then_takes {A B} (b b' : Z) (w : W) (r : W * (string + A)) (k : A → W → W * (string + B)) :
  0 ≤ b' → takes b w r → (∀ a w', takes b' w' (k a w')) → takes (b + b') w (then_ r k).
Proof.
  unfold takes. intros Hb Hr Hk. destruct r as [w1 [e|a]]; simpl in *; [lia|]. specialize (Hk a w1). lia.
Qed.

Context {SK : Socket W} {SL : SocketLaws W TM SK} {HC : HttpClient W J} {HL : HttpClientLaws W J TM HC} {JW : JwtLib}.

Lemma ipc_takes (path : string) (req : JsonRpcRequest J) (w : W) :
  takes (4 * REQUEST_TIMEOUT) w (IpcTransport_send path req w).
Proof using IL SL.
  assert (0 ≤ REQUEST_TIMEOUT) as H0 by done. unfold IpcTransport_send.
  replace (4 * REQUEST_TIMEOUT) with (REQUEST_TIMEOUT + (REQUEST_TIMEOUT + (REQUEST_TIMEOUT + (REQUEST_TIMEOUT + 0)))) by lia.
  apply then_takes; [lia|apply timeout_takes; [done|apply connect_timed]|]. intros _ w1.
  destruct (request_to_vec req) as [b|]; [|unfold takes; simpl; lia].
  apply then_takes; [lia|apply timeout_takes; [done|apply write_timed]|]. intros _ w2.
  apply then_takes; [lia|apply timeout_takes; [done|apply flush_timed]|]. intros _ w3.
  apply then_takes; [lia|apply timeout_takes; [done|apply incoming_timed]|]. intros incoming w4.
  destruct (response_from_slice _); unfold takes; simpl; lia.
Qed.

Lemma http_takes (url : string) (secret : option bytes) (req : JsonRpcRequest J) (w : W) (cache : option JwtCache) :
  now_ms w ≤ now_ms (HttpTransport_send url secret req (w, cache)).1.1 ≤ now_ms w + REQUEST_TIMEOUT.
Proof using IL HL.
  assert (∀ token, takes REQUEST_TIMEOUT w (http_exchange url req token w)) as Hall.
  { intros token. rewrite <-(Z.add_0_r REQUEST_TIMEOUT). apply then_takes; [done|apply timeout_takes; [done|apply post_timed]|].
    intros b w1. destruct (response_from_slice b); unfold takes; simpl; lia. }
  unfold HttpTransport_send. destruct secret as [key|].
  - destruct (get_token key cache w) as [cache' [e|token]]; [simpl; unfold REQUEST_TIMEOUT; lia|].
    specialize (Hall (Some token)). unfold takes in Hall. by destruct (http_exchange _ _ _ w).
  - specialize (Hall None). unfold takes in Hall. by destruct (http_exchange _ _ _ w).
Qed.

(** The clock of a world with a token cache is that of the world. *)
#[local] Instance cached_timer : Timer (W * option JwtCache) := {|
  now_ms s := now_ms s.1; sleep_ms d s := (sleep_ms d s.1, s.2); unix_ms s := unix_ms s.1 |}.

(** Both transports have the law the client's theorems ask for. *)
Lemma ipc_transport_laws (path : string) : TransportLaws W J (ipc_transport path) TM.
Proof using IL SL. constructor. intros m j w. apply ipc_takes. Qed.
Lemma http_transport_laws (url : string) (secret : option bytes) :
  TransportLaws (W * option JwtCache) J (http_transport url secret) cached_timer.
Proof using IL HL. constructor. intros m j [w cache]. apply http_takes. Qed.

Lemma read_until_line (line rest : bytes) : NEWLINE ∉ line → read_until NEWLINE (line ++ NEWLINE :: rest) = line ++ [NEWLINE].
Proof.
  induction line as [|x line IH]; intros Hx; simpl; [done|].
  apply not_elem_of_cons in Hx as [Hne Hx]. destruct (Z.eqb_spec x NEWLINE) as [->|]; [done|]. by rewrite IH.
Qed.

(** A request to the execution layer always ends, and its answer is found.
    Whatever the other side does, a request over the socket takes at most forty
    seconds and one over HTTP at most ten.  The request is one line: a server
    that splits its input at newlines reads it back.  If the socket operations
    work within their timeouts and the server answers with a line, the result is
    what that line holds, whatever follows it. *)
Theorem engine_requests_end (path url : string) (secret : option bytes) (req : JsonRpcRequest J) (w : W)
    (cache : option JwtCache) (b line rest : bytes) (resp : JsonRpcResponse J) :
  request_to_vec req = Some b → NEWLINE ∉ b → NEWLINE ∉ line →
  response_from_slice (line ++ [NEWLINE]) = Some resp →
  now_ms w ≤ now_ms (IpcTransport_send path req w).1 ≤ now_ms w + 4 * REQUEST_TIMEOUT ∧
  now_ms w ≤ now_ms (HttpTransport_send url secret req (w, cache)).1.1 ≤ now_ms w + REQUEST_TIMEOUT ∧
  (∀ tail, read_until NEWLINE ((b ++ [NEWLINE]) ++ tail) = b ++ [NEWLINE]) ∧
  ∀ w1 w2 w3 w4,
    timeout REQUEST_TIMEOUT (sock_connect path) w = (w1, inr tt) →
    timeout REQUEST_TIMEOUT (sock_write_all (b ++ [NEWLINE])) w1 = (w2, inr tt) →
    timeout REQUEST_TIMEOUT sock_flush w2 = (w3, inr tt) →
    timeout REQUEST_TIMEOUT sock_incoming w3 = (w4, inr (line ++ NEWLINE :: rest)) →
    IpcTransport_send path req w = (w4, inr resp).
Proof using IL SL HL.
  intros Hb Hnb Hnl Hresp. split_and!; [apply ipc_takes..|apply http_takes|apply http_takes| |].
  - intros tail. rewrite <-app_assoc. by apply read_until_line.
  - intros w1 w2 w3 w4 H1 H2 H3 H4. unfold IpcTransport_send, ipc_connect, then_. rewrite H1, Hb, H2, H3, H4.
    by rewrite read_until_line, Hresp.
Qed.
End bounded.

(** ** Concrete inputs *)

Module Demo.
(** Tokens that are their key and time. *)
#[local] Instance demo_jwt : JwtLib := {| jwt_encode key iat := Some (Text.hex_encode (key ++ le_bytes 8 iat)) |}.

(** Two requests find no token; the first makes one, the second finds it. *)
Definition demo_token : string := Text.hex_encode ([7] ++ le_bytes 8 1700000000).
Definition demo_tokens : JwtState :=
  mkJwtState (Some (mkJwtCache demo_token 1700000000000))
    [Done (inr (demo_token, 1700000000000)); Done (inr (demo_token, 1700000000300))] [1700000000000].
Lemma demo_token_run :
  jwt_run [7] (jwt_init 2)
    (((([] ++ [1699999999900]) ++ [1699999999950]) ++ [1700000000000; 1700000000000]) ++ [1700000000300; 1700000000300])
    demo_tokens.
Proof.
  eapply run_step; [eapply run_step; [eapply run_step; [eapply run_step; [apply run_done|]|]|]|].
  - exact (step_read [7] (jwt_init 2) 0 1699999999900 eq_refl).
  - exact (step_read [7] (mkJwtState None [Waiting; Reading] []) 1 1699999999950 eq_refl).
  - refine (step_write [7] (mkJwtState None [Waiting; Waiting] []) 0 1700000000000 1700000000000 _ _ [1700000000000] eq_refl _).
    vm_compute. reflexivity.
  - refine (step_write [7] (mkJwtState (Some (mkJwtCache demo_token 1700000000000))
      [Done (inr (demo_token, 1700000000000)); Waiting] [1700000000000]) 1 1700000000300 1700000000300 _ _ [] eq_refl _).
    vm_compute. reflexivity.
Qed.

Lemma tokens_fresh_and_shared_witness :
  ∃ iat, jwt_encode [7] iat = Some demo_token ∧ (iat - 60 ≤ 1700000002 ≤ iat + 60) ∧
    spaced (js_made demo_tokens).
Proof.
  destruct (tokens_fresh_and_shared [7] 2 _ demo_tokens demo_token_run) as [Hf Hs].
  destruct (Hf 1%nat demo_token 1700000000300 eq_refl) as (c & Hi & _ & Hel). exists (c / 1000). split; [exact Hi|]. split.
  - apply Hel. vm_compute. split; discriminate.
  - apply Hs. repeat constructor; lia.
Defined.

(** A clock and a server that answers at once, with its answer on one line. *)
#[local] Instance demo_clock : Timer Z := {| now_ms w := w; sleep_ms d w := w + d; unix_ms w := Some w |}.
Lemma demo_clock_laws : IoLaws Z demo_clock.
Proof. constructor. done. Qed.
#[local] Instance demo_socket : Socket Z := {|
  sock_connect _ w := mkIo w (Some 1) (inr tt); sock_write_all _ w := mkIo w (Some 1) (inr tt);
  sock_flush w := mkIo w (Some 1) (inr tt); sock_incoming w := mkIo w (Some 5) (inr [1; 2; 10; 3]) |}.
Lemma demo_socket_laws : SocketLaws Z demo_clock demo_socket.
Proof. constructor; intros; intros w; (split; [done|]); intros t [= <-]; lia. Qed.
#[local] Instance demo_http_client : HttpClient Z Z := {| http_post _ _ _ w := mkIo w None (inr []) |}.
Lemma demo_http_client_laws : HttpClientLaws Z Z demo_clock demo_http_client.
Proof. constructor. intros url req token w. split; [done|]. by intros t [=]. Qed.
#[local] Instance demo_rpc : RpcJson Z := {|
  request_to_vec r := Some [rq_params r];
  response_from_slice b := match b with x :: _ => Some (mkResponse None (Some x)) | [] => None end |}.

Lemma engine_requests_end_witness :
  IpcTransport_send "geth.ipc" (JsonRpcRequest_new "engine_newPayloadV4" 5) 100 = (108, inr (mkResponse None (Some 1))) ∧
  now_ms (HttpTransport_send "http://localhost" None (JsonRpcRequest_new "engine_newPayloadV4" 5) (100, None)).1.1 ≤ 10100.
Proof.
  destruct (engine_requests_end (IL := demo_clock_laws) (SL := demo_socket_laws) (HL := demo_http_client_laws)
    "geth.ipc" "http://localhost" None (JsonRpcRequest_new "engine_newPayloadV4" 5) 100 None [5] [1; 2] [3]
    (mkResponse None (Some 1))) as (_ & [_ Hh] & _ & Hi).
  - reflexivity.
  - rewrite list_elem_of_In. simpl. unfold NEWLINE. lia.
  - rewrite list_elem_of_In. simpl. unfold NEWLINE. lia.
  - reflexivity.
  - split; [apply (Hi 101 102 103 108); vm_compute; reflexivity|exact Hh].
Defined.
End Demo.
