(* ===== verification/Archiver.v ===== *)
(** * The archiver worker ([crates/node/src/archiver.rs])

    A background task takes the archive jobs of decided heights, uploads each
    blob to a storage provider, and hands a signed notice per blob back to the
    node.  A job that fails waits in a queue and is tried again, for ever.  The
    HTTP client and the parsing of the provider's JSON are parameters; the
    requests, the reading of the answers and the queue are the code's. *)
From stdpp Require Import pretty.
From S2P Require Import Prelude Text Types Merkle Streaming Proposal Metadata BlobStore BlobEngine Store Proto State Archival BlobProposal Commit Decide Client.
Open Scope monad_scope.

(** ** Configuration ([archiver_config.rs]) *)

Record ArchiverConfig := mkArchiverConfig {
  cf_enabled : bool; cf_provider_url : string; cf_upload_path : option string;
  cf_provider_id : string; cf_bearer_token : option string; cf_retry_attempts : Z;
  cf_retry_backoff_ms : Z; cf_max_queue_size : Z }.

Definition ArchiverConfig_default : ArchiverConfig :=
  mkArchiverConfig true "https://load-s3-agent.load.network" None "load-s3-agent" None 3 1000 1000.

Definition effective_upload_path (cf : ArchiverConfig) : string :=
  match trim <$> cf_upload_path cf with
  | Some v => if decide (v = EmptyString) then "/upload" else v
  | None => "/upload"
  end.

(** ** The provider *)

Record UploadRequest := mkUploadRequest {
  ur_url : string; ur_file : bytes; ur_file_name : string; ur_tags : list (string * string);
  ur_authorization : option string }.
(** The body is [None] when it cannot be read. *)
Record HttpResponse := mkHttpResponse { hr_status : Z; hr_body : option bytes }.
Record UploadResponse := mkUploadResponse {
  up_success : option bool; up_locator : option string; up_dataitem_id : option string }.

(** [W] is the world of the worker: the provider and the clocks. *)
Class ArchiveHttp (W : Type) := {
  http_post : UploadRequest → W → W * (string + HttpResponse);
  parse_upload_response : bytes → option UploadResponse }.

Record UploadBlobParams := mkUploadParams {
  ub_height : Height; ub_round : Round; ub_blob_idx : Z; ub_blob_data : bytes;
  ub_commitment : KzgCommitment; ub_versioned_hash : B256; ub_blob_keccak : B256 }.

(** ** The worker *)

Record RetryEntry := mkRetryEntry { re_job : ArchiveJob; re_attempts : Z; re_retry_at : Z }.

(** The engine and the world, the notices delivered so far with the failures of
    the deliveries to come, and the retry queue of the loop. *)
Record ArchiverWorker (E W : Type) := mkWorker {
  wk_engine : E; wk_world : W; wk_notices : list ArchiveNotice; wk_notice_faults : list bool;
  wk_retry_queue : list RetryEntry }.
Arguments mkWorker {E W} _ _ _ _ _.
Arguments wk_engine {E W} _.
Arguments wk_world {E W} _.
Arguments wk_notices {E W} _.
Arguments wk_notice_faults {E W} _.
Arguments wk_retry_queue {E W} _.

Inductive WorkerEvent :=
| JobReceived (waited : Z) (job : ArchiveJob)          (* after waiting, in milliseconds *)
| JobsClosed                                           (* the job channel is closed *)
| RetryElapsed.                                        (* the timer of the next retry *)

Definition MAX_RETRY_BACKOFF_MS : Z := 60000.

Section worker.
Context {E W : Type} {B : BlobEngine E} {HT : ArchiveHttp W} {TM : Timer W} `{Crypto}
  `{ProstMessage MsgArchiveNoticeBody}.
Context (cf : ArchiverConfig) (signing_key : bytes) (validator_address : Address).

Abbreviation WkM A := (M (ArchiverWorker E W) string A) (only parsing).

Definition set_wk_engine (v : E) (w : ArchiverWorker E W) : ArchiverWorker E W :=
  mkWorker v (wk_world w) (wk_notices w) (wk_notice_faults w) (wk_retry_queue w).
Definition set_wk_world (v : W) (w : ArchiverWorker E W) : ArchiverWorker E W :=
  mkWorker (wk_engine w) v (wk_notices w) (wk_notice_faults w) (wk_retry_queue w).
Definition set_wk_queue (v : list RetryEntry) (w : ArchiverWorker E W) : ArchiverWorker E W :=
  mkWorker (wk_engine w) (wk_world w) (wk_notices w) (wk_notice_faults w) v.

Definition upload_tags (p : UploadBlobParams) : list (string * string) := [
  ("load", "true"); ("load.network", "fibernet-beta"); ("load.kind", "blob");
  ("load.height", pretty (ub_height p)); ("load.round", pretty (Round_as_i64 (ub_round p)));
  ("load.blob_index", pretty (ub_blob_idx p)); ("load.kzg_commitment", hex0x (ub_commitment p));
  ("load.versioned_hash", hex0x (ub_versioned_hash p)); ("load.blob_keccak", hex0x (ub_blob_keccak p));
  ("load.proposer", hex0x validator_address); ("load.provider", cf_provider_id cf)]%string.

Definition upload_request (p : UploadBlobParams) : UploadRequest :=
  mkUploadRequest
    (trim_end_of slash (cf_provider_url cf) ++ "/" ++ trim_start_of slash (effective_upload_path cf))
    (ub_blob_data p)
    ("blob-" ++ pretty (ub_height p) ++ "-" ++ pretty (ub_blob_idx p) ++ ".bin")
    (upload_tags p) (String.append "Bearer " <$> cf_bearer_token cf).

(** The locator of an answer. *)
Definition read_upload_response (b : bytes) : outcome string string :=
  match parse_upload_response b with
  | None => Err "Provider response was not valid JSON"
  | Some r =>
    if decide (up_success r = Some false) then Err "Provider reported success=false"
    else
      let locator := match up_locator r, up_dataitem_id r with
                     | Some l, _ => Some l
                     | None, Some id => Some (if str_starts_with "load-s3://" id then id
                                              else ("load-s3://" ++ id)%string)
                     | None, None => None
                     end in
      match locator with
      | None => Err "Provider response did not include a locator or dataitem_id"
      | Some l => if decide (trim l = EmptyString) then Err "Provider returned an empty locator" else Ok l
      end
  end.

Definition do_upload (p : UploadBlobParams) : M W string string := λ w,
  let (w, r) := http_post (upload_request p) w in
  (w, match r with
      | inl _ => Err "Failed to upload blob"%string
      | inr resp =>
        if negb ((200 <=? hr_status resp) && (hr_status resp <? 300)) then
          if (hr_status resp =? 404) || (hr_status resp =? 405)
          then Err "Provider rejected upload at path"%string
          else Err "Provider rejected upload"%string
        else match hr_body resp with
             | None => Err "Failed to read provider response"%string
             | Some [] => Err "Provider returned an empty response"%string
             | Some b => read_upload_response b
             end
      end).

Definition upload_blob (p : UploadBlobParams) : M W string string :=
  if str_starts_with "mock://" (cf_provider_url cf)
  then fail "mock:// provider_url is only allowed in tests"%string
  else do_upload p.

(** [notice_tx.send] *)
Definition deliver (n : ArchiveNotice) : WkM unit := λ w,
  match wk_notice_faults w with
  | true :: fs =>
    (mkWorker (wk_engine w) (wk_world w) (wk_notices w) fs (wk_retry_queue w),
     Err "archiver worker could not deliver notice"%string)
  | fs =>
    (mkWorker (wk_engine w) (wk_world w) (wk_notices w ++ [n]) (tail fs) (wk_retry_queue w), Ok tt)
  end.

(** One blob of a job. *)
Definition archive_blob (job : ArchiveJob) (sidecars : list BlobSidecar) (archived_at : Z)
    (blob : nat * Z) : WkM unit :=
  let '(i, blob_idx) := blob in
  match aj_commitments job !! i, aj_blob_keccaks job !! i, aj_versioned_hashes job !! i with
  | Some commitment, Some blob_keccak, Some versioned_hash =>
    match find_first (λ s, sc_index s =? blob_idx) sidecars with
    | None => fail "Blob index not found in sidecars"%string
    | Some s =>
      let* locator := zoom wk_world set_wk_world
                        (upload_blob (mkUploadParams (aj_height job) (aj_round job) blob_idx (sc_blob s)
                           commitment versioned_hash blob_keccak)) in
      deliver (ArchiveNotice_sign
        (mkNoticeBody (aj_height job) (aj_round job) blob_idx commitment blob_keccak
           (cf_provider_id cf) locator validator_address archived_at) signing_key)
    end
  | _, _, _ => panic
  end.

Definition process_job (job : ArchiveJob) : WkM unit :=
  let n := length (aj_blob_indices job) in
  if negb (length (aj_commitments job) =? n)%nat then fail "mismatched commitments"%string
  else if negb (length (aj_blob_keccaks job) =? n)%nat then fail "mismatched blob_keccaks"%string
  else if negb (length (aj_versioned_hashes job) =? n)%nat
  then fail "mismatched versioned hashes"%string
  else
    let* sidecars := zoom wk_engine set_wk_engine
                       (map_err (λ _, "Failed to fetch blobs"%string) (be_get_for_import (aj_height job))) in
    match sidecars with
    | [] => fail "No blobs found in blob engine"%string
    | _ =>
      let* w := get in
      foreach (imap pair (aj_blob_indices job))
        (archive_blob job sidecars (default 0 (unix_secs (wk_world w))))
    end.

Definition retry_backoff (attempts : Z) : Z :=
  Z.min (Z.min u64_max (Z.max (cf_retry_backoff_ms cf) 1 * 2 ^ Z.min attempts 16)) MAX_RETRY_BACKOFF_MS.

Definition process_with_retry (job : ArchiveJob) (attempts : Z) : WkM unit :=
  let* r := attempt (F := string) (process_job job) in
  match r with
  | inr _ => ret tt
  | inl _ =>
    modify (λ w, set_wk_queue
      (wk_retry_queue w
       ++ [mkRetryEntry job ((attempts + 1) mod 2^32)
             (now_ms (wk_world w) + retry_backoff attempts)]) w)
  end.

(** The retries that are due, from the front of the queue; [fuel] bounds their
    number. *)
Fixpoint drain (fuel : nat) (now : Z) : WkM unit :=
  let* w := get in
  match wk_retry_queue w with
  | [] => ret tt
  | e :: rest =>
    if re_retry_at e <=? now then
      match fuel with
      | O => panic
      | S fuel =>
        modify (set_wk_queue rest) ;;;
        process_with_retry (re_job e) (re_attempts e) ;;;
        drain fuel now
      end
    else ret tt
  end.

(** One turn of the loop, up to and including the handling of what ended its
    wait; [true] when the worker stops.  A timer that was not set does not
    fire. *)
Definition worker_turn (ev : WorkerEvent) : WkM bool :=
  let* w := get in
  let now := now_ms (wk_world w) in
  drain (length (wk_retry_queue w)) now ;;;
  let* w := get in
  let retry_timeout := (λ e, Z.max 0 (re_retry_at e - now)) <$> head (wk_retry_queue w) in
  match ev with
  | JobReceived waited job =>
    modify (λ w, set_wk_world (sleep_ms waited (wk_world w)) w) ;;;
    process_with_retry job 0 ;;;
    ret false
  | JobsClosed => ret (bool_decide (wk_retry_queue w = []))
  | RetryElapsed =>
    match retry_timeout with
    | Some t => when (0 <? t) (modify (λ w, set_wk_world (sleep_ms t (wk_world w)) w)) ;;; ret false
    | None => ret false
    end
  end.

(** Turns until the worker stops; the events left over. *)
Fixpoint worker_run (evs : list WorkerEvent) : WkM (list WorkerEvent) :=
  match evs with
  | [] => ret []
  | ev :: evs =>
    let* stop := worker_turn ev in
    if stop : bool then ret evs else worker_run evs
  end.
End worker.

(** ** What the worker guarantees *)

(** Documented behaviour: an HTTP request does not turn the clock back. *)
Class ArchiveHttpLaws (W : Type) (HT : ArchiveHttp W) (TM : Timer W) : Prop := {
  post_takes_time : ∀ r w, now_ms w ≤ now_ms (http_post r w).1 }.

Section worker_proofs.
Context {E W : Type} {B : BlobEngine E} {HT : ArchiveHttp W} {TM : Timer W} {C : Crypto}
  {PM : ProstMessage MsgArchiveNoticeBody}.
Context (cf : ArchiverConfig) (signing_key : bytes) (validator_address : Address).
Context (TL : TimerLaws W TM) (HL : ArchiveHttpLaws W HT TM).
Context (HE : ∀ h, panicless (be_get_for_import (E := E) h)).

Abbreviation Worker := (ArchiverWorker E W) (only parsing).

(** Notices are only added, and time passes. *)
Definition worker_le (w w' : Worker) : Prop :=
  wk_notices w `prefix_of` wk_notices w' ∧ clock_le (wk_world w) (wk_world w').
#[export] Instance worker_le_preorder : PreOrder worker_le.
Proof. split; [by intros w; split|]. intros w1 w2 w3 [] []. split; by etrans. Qed.

(** The notice of the [i]-th blob of a job: signed by this validator, for the
    commitment and hash of the job, with a locator. *)
Definition notice_of (j : ArchiveJob) (i : nat) (idx : Z) (n : ArchiveNotice) : Prop :=
  ∃ c k locator at_,
    aj_commitments j !! i = Some c ∧ aj_blob_keccaks j !! i = Some k ∧ trim locator ≠ EmptyString ∧
    n = ArchiveNotice_sign (mkNoticeBody (aj_height j) (aj_round j) idx c k (cf_provider_id cf) locator
                              validator_address at_) signing_key.
Definition job_done (j : ArchiveJob) (w : Worker) : Prop :=
  ∀ i idx, aj_blob_indices j !! i = Some idx → ∃ n, n ∈ wk_notices w ∧ notice_of j i idx n.

Lemma job_done_le (j : ArchiveJob) (w w' : Worker) : worker_le w w' → job_done j w → job_done j w'.
Proof.
  intros [[l Hl] _] Hd i idx Hi. destruct (Hd i idx Hi) as (n & Hn & ?). exists n. split; [|done].
  rewrite Hl. apply elem_of_app. by left.
Qed.

Lemma upload_blob_run (p : UploadBlobParams) (w w' : W) (l : string) :
  upload_blob cf validator_address p w = (w', Ok l) → trim l ≠ EmptyString.
Proof.
  unfold upload_blob. case_match; [done|]. unfold do_upload.
  destruct (http_post _ w) as [w1 [e|resp]]; [done|].
  destruct (negb _); [by case_match|]. destruct (hr_body resp) as [[|b bs]|]; [done| |done].
  unfold read_upload_response. destruct (parse_upload_response _) as [r|]; [|done]. case_decide; [done|].
  destruct (match up_locator r with Some _ => _ | None => _ end) as [l'|]; [|done].
  case_decide; [done|]. by intros [= _ <-].
Qed.

Lemma upload_blob_le (p : UploadBlobParams) : steps clock_le (upload_blob cf validator_address p).
Proof using HL.
  unfold upload_blob. case_match; [by apply steps_fail, _|]. intros w. unfold do_upload.
  pose proof (post_takes_time (upload_request cf validator_address p) w) as Hp. by destruct (http_post _ w).
Qed.

(** Within a job the queue is left alone. *)
Definition job_step (w w' : Worker) : Prop := worker_le w w' ∧ wk_retry_queue w' = wk_retry_queue w.
#[export] Instance job_step_preorder : PreOrder job_step.
Proof. split; [by intros w; split|]. intros w1 w2 w3 [] []. split; [by etrans|congruence]. Qed.

Lemma deliver_step (n : ArchiveNotice) : steps job_step (deliver (E := E) (W := W) n).
Proof.
  intros w. unfold deliver. destruct (wk_notice_faults w) as [|[] fs]; (split; [|done]); split; try done;
    simpl; by eexists.
Qed.

Lemma archive_blob_step (j : ArchiveJob) (scs : list BlobSidecar) (t : Z) (b : nat * Z) :
  steps job_step (archive_blob cf signing_key validator_address j scs t b).
Proof using HL.
  pose proof deliver_step.
  assert (∀ p, steps job_step (zoom wk_world set_wk_world (upload_blob cf validator_address p))) as Hu.
  { intros p. apply (steps_zoom _ clock_le); [apply upload_blob_le|].
    intros w w1 Hw. by split. }
  unfold archive_blob. destruct b as [i idx]. steps_tac.
Qed.

Lemma process_job_step (j : ArchiveJob) : steps job_step (process_job cf signing_key validator_address j).
Proof using HL.
  pose proof archive_blob_step.
  assert (steps job_step (zoom (E := string) wk_engine set_wk_engine
    (map_err (λ _, "Failed to fetch blobs"%string) (be_get_for_import (aj_height j))))) as Hg.
  { apply (steps_zoom _ (λ _ _, True)); [done|]. intros w e _. by split. }
  assert (∀ l scs t, steps job_step (foreach l (archive_blob cf signing_key validator_address j scs t))) as Hfor.
  { intros l scs t. apply steps_foreach; [apply _|]. intros b _. apply archive_blob_step. }
  unfold process_job. steps_tac.
Qed.

Lemma archive_blob_run (j : ArchiveJob) (scs : list BlobSidecar) (t : Z) (i : nat) (idx : Z) (w w' : Worker)
    (u : unit) :
  archive_blob cf signing_key validator_address j scs t (i, idx) w = (w', Ok u) →
  ∃ n, n ∈ wk_notices w' ∧ notice_of j i idx n.
Proof.
  unfold archive_blob. destruct (aj_commitments j !! i) as [c|] eqn:Hc; [|done].
  destruct (aj_blob_keccaks j !! i) as [k|] eqn:Hk; [|done].
  destruct (aj_versioned_hashes j !! i) as [v|]; [|done]. destruct (find_first _ _) as [s|]; [|done].
  intros [(l & w1 & Hu & Hd)|(? & _ & _ & ?)]%bind_run; [|done]. unfold zoom in Hu.
  destruct (upload_blob _ _ _ (wk_world w)) as [w2 r] eqn:Hup. injection Hu as <- ->.
  apply upload_blob_run in Hup. eexists. split; [|exists c, k, l, t; by split_and!].
  unfold deliver in Hd. destruct (wk_notice_faults _) as [|[] fs]; [|done|]; injection Hd as <- _;
    apply elem_of_app; right; apply list_elem_of_singleton; done.
Qed.

Lemma foreach_archive_run (j : ArchiveJob) (scs : list BlobSidecar) (t : Z) (l : list (nat * Z)) :
  ∀ (w w' : Worker) (u : unit),
  foreach l (archive_blob cf signing_key validator_address j scs t) w = (w', Ok u) →
  ∀ i idx, (i, idx) ∈ l → ∃ n, n ∈ wk_notices w' ∧ notice_of j i idx n.
Proof using HL.
  induction l as [|b l IH]; intros w w' u Hr i idx Hin; [by apply elem_of_nil in Hin|]. cbn [foreach] in Hr.
  apply bind_run in Hr as [(u1 & w1 & H1 & Hr)|(? & _ & _ & ?)]; [|done].
  apply elem_of_cons in Hin as [<-|Hin]; [|by eapply IH].
  apply archive_blob_run in H1 as (n & Hn & ?). exists n. split; [|done].
  assert (steps job_step (foreach l (archive_blob cf signing_key validator_address j scs t))) as Hs.
  { apply steps_foreach; [apply _|]. intros b _. apply archive_blob_step. }
  destruct (run_steps _ _ _ _ _ Hs Hr) as [[[ns ->] _] _]. apply elem_of_app. by left.
Qed.

Lemma process_job_run (j : ArchiveJob) (w w' : Worker) (u : unit) :
  process_job cf signing_key validator_address j w = (w', Ok u) → job_done j w'.
Proof using HL.
  unfold process_job. repeat (case_match; [done|]).
  intros [(scs & w1 & _ & Hr)|(? & _ & _ & ?)]%bind_run; [|done]. destruct scs as [|s scs]; [done|].
  apply bind_run in Hr as [(w2 & w3 & _ & Hr)|(? & _ & _ & ?)]; [|done].
  intros i idx Hi. eapply foreach_archive_run; [exact Hr|].
  apply list_elem_of_lookup. exists i. by rewrite list_lookup_imap, Hi.
Qed.

Lemma foreach_panicless {S Er A} (l : list A) (f : A → M S Er unit) :
  (∀ x, x ∈ l → panicless (f x)) → panicless (foreach l f).
Proof.
  induction l as [|x l IH]; intros Hf; [by intros s|]. cbn [foreach].
  apply panicless_bind; [apply Hf; left|]. intros _. apply IH. intros y Hy. apply Hf. by right.
Qed.

Lemma process_job_panicless (j : ArchiveJob) : panicless (process_job cf signing_key validator_address j).
Proof using HE.
  unfold process_job. repeat (case_match; [by intros ?|]).
  apply panicless_bind.
  { intros w. unfold zoom, map_err. pose proof (HE (aj_height j) (wk_engine w)) as Hp.
    by destruct (be_get_for_import _ _) as [e [a|e'|]]. }
  intros [|s scs]; [by intros ?|]. apply panicless_bind; [by intros ?|]. intros w.
  apply foreach_panicless. intros [i idx] Hin.
  apply list_elem_of_lookup in Hin as [i' Hi]. rewrite list_lookup_imap in Hi.
  destruct (aj_blob_indices j !! i') as [x|] eqn:Hx; [|done]. injection Hi as -> ->.
  apply lookup_lt_Some in Hx. repeat match goal with
  | H : negb (_ =? _)%nat = false |- _ => apply negb_false_iff, Nat.eqb_eq in H
  end.
  unfold archive_blob.
  destruct (lookup_lt_is_Some_2 (aj_commitments j) i) as [c ->]; [lia|].
  destruct (lookup_lt_is_Some_2 (aj_blob_keccaks j) i) as [k ->]; [lia|].
  destruct (lookup_lt_is_Some_2 (aj_versioned_hashes j) i) as [v ->]; [lia|].
  destruct (find_first _ _); [|by intros ?]. apply panicless_bind.
  - intros w1. unfold zoom, upload_blob, do_upload. destruct (str_starts_with _ _); [done|].
    destruct (http_post _ _) as [w2 [e|resp]]; [done|]. unfold read_upload_response.
    cbn [snd]. repeat case_match; done.
  - intros l w1. unfold deliver. by repeat case_match.
Qed.

(** *** The retry queue *)

Lemma retry_backoff_bounds (a : Z) : 0 ≤ a → 1 ≤ retry_backoff cf a ≤ MAX_RETRY_BACKOFF_MS.
Proof.
  intros Ha. unfold retry_backoff, MAX_RETRY_BACKOFF_MS, u64_max.
  pose proof (Z.pow_pos_nonneg 2 (Z.min a 16) ltac:(lia) ltac:(lia)). nia.
Qed.

(** Attempts are counters; a retry is at most the longest backoff away. *)
Definition entry_ok (w : Worker) (e : RetryEntry) : Prop :=
  0 ≤ re_attempts e ∧ re_retry_at e ≤ now_ms (wk_world w) + MAX_RETRY_BACKOFF_MS.
Definition queue_ok (w : Worker) : Prop := Forall (entry_ok w) (wk_retry_queue w).

Lemma entries_ok_le (w w' : Worker) (l : list RetryEntry) :
  worker_le w w' → Forall (entry_ok w) l → Forall (entry_ok w') l.
Proof.
  intros [_ Hc] Hl. eapply Forall_impl; [exact Hl|]. unfold entry_ok, clock_le in *. intros e []. lia.
Qed.

(** The jobs that are neither done nor waiting any more: none. *)
Definition accounted (js : list ArchiveJob) (w : Worker) : Prop :=
  ∀ j, j ∈ js → job_done j w ∨ j ∈ re_job <$> wk_retry_queue w.

Lemma process_with_retry_run (j : ArchiveJob) (a : Z) (w : Worker) :
  0 ≤ a →
  ∃ w', process_with_retry cf signing_key validator_address j a w = (w', Ok tt) ∧ worker_le w w' ∧
    (wk_retry_queue w' = wk_retry_queue w ∧ job_done j w' ∧
       process_job cf signing_key validator_address j w = (w', Ok tt) ∨
     ∃ e, wk_retry_queue w' = wk_retry_queue w ++ [e] ∧ re_job e = j ∧ entry_ok w' e ∧
       now_ms (wk_world w) < re_retry_at e ∧
       ∃ w1 err, process_job cf signing_key validator_address j w = (w1, Err err)).
Proof using HL HE.
  intros Ha. unfold process_with_retry, bind, attempt.
  pose proof (process_job_step j w) as Hs. pose proof (process_job_panicless j w) as Hp.
  destruct (process_job _ _ _ j w) as [w1 [u|e|]] eqn:Hj; [| |done]; simpl in Hs, Hp;
    destruct Hs as [Hle Hq].
  - exists w1. split_and!; [done..|]. left. destruct u. split_and!; [done| |done]. by eapply process_job_run.
  - eexists. split; [reflexivity|]. split; [exact Hle|]. right. eexists.
    pose proof (retry_backoff_bounds a Ha). split_and!; [simpl; by rewrite Hq|done| |..].
    + split; simpl; [apply Z.mod_pos_bound; lia|lia].
    + destruct Hle as [_ Hc]. unfold clock_le in Hc. simpl. lia.
    + eauto.
Qed.

(** States [G] in which the provider takes the jobs [js], whatever waits in the
    queue, and after which it still does. *)
Definition serving (G : Worker → Prop) (js : list ArchiveJob) : Prop :=
  (∀ q w, G w → G (set_wk_queue q w)) ∧
  ∀ j w, j ∈ js → G w → ∃ w', process_job cf signing_key validator_address j w = (w', Ok tt) ∧ G w'.

(** One round of the loop over the due retries, on a queue of [l] old entries and
    [new] ones that are not due: the job is done, or waits at the end. *)
Lemma drain_round (now : Z) (e : RetryEntry) (l new : list RetryEntry) (w : Worker) :
  let w0 := set_wk_queue (l ++ new) w in
  let pj := process_job cf signing_key validator_address (re_job e) w0 in
  0 ≤ re_attempts e → Forall (entry_ok w0) new → Forall (λ e, now < re_retry_at e) new → now ≤ now_ms (wk_world w) →
  ∃ w1 new1, process_with_retry cf signing_key validator_address (re_job e) (re_attempts e) w0 = (w1, Ok tt) ∧
    worker_le w0 w1 ∧ wk_retry_queue w1 = l ++ new1 ∧ Forall (λ e, now < re_retry_at e) new1 ∧
    Forall (entry_ok w1) new1 ∧
    (job_done (re_job e) w1 ∧ new1 = new ∧ pj = (w1, Ok tt) ∨
     re_job e ∈ re_job <$> new1 ∧ (∃ tl, new1 = new ++ tl) ∧ ∃ w2 err, pj = (w2, Err err)).
Proof using HL HE.
  cbv zeta. intros Ha Hok Hnew Hnow.
  destruct (process_with_retry_run (re_job e) (re_attempts e) (set_wk_queue (l ++ new) w) Ha) as (w1 & Hrun & Hle & Hcase).
  apply (entries_ok_le _ _ _ Hle) in Hok as Hnk.
  destruct Hcase as [(Hq1 & Hdone & Hpj)|(e1 & Hq1 & He1 & Hk & Hlt & Herr)]; exists w1; [exists new|exists (new ++ [e1])].
  - split_and!; auto.
  - rewrite Hq1. cbn [set_wk_queue wk_retry_queue] in *. rewrite <-app_assoc.
    split_and!; [done..|apply Forall_app; split; [done|]|apply Forall_app; split; [done|]|].
    + apply Forall_singleton. simpl in Hlt. lia.
    + by apply Forall_singleton.
    + right. split_and!; [|by eexists|done]. rewrite fmap_app. apply elem_of_app. right. simpl. rewrite He1. by left.
Qed.

(** The loop over the due retries: it handles a front [l] of the queue, while
    what it appends is not due. *)
Lemma drain_run (now : Z) (l : list RetryEntry) : ∀ (new : list RetryEntry) (w : Worker),
  wk_retry_queue w = l ++ new → Forall (λ e, now < re_retry_at e) new →
  now ≤ now_ms (wk_world w) → queue_ok w →
  ∃ w', drain cf signing_key validator_address (length l) now w = (w', Ok tt) ∧ worker_le w w' ∧
    queue_ok w' ∧ accounted (re_job <$> wk_retry_queue w) w' ∧
    (∀ e, head (wk_retry_queue w') = Some e → now < re_retry_at e) ∧
    (Forall (λ e, re_retry_at e ≤ now) l → Forall (λ e, now < re_retry_at e) (wk_retry_queue w')) ∧
    (∀ G, Forall (λ e, re_retry_at e ≤ now) l → serving G (re_job <$> l) → G w → wk_retry_queue w' = new).
Proof using HL HE.
  induction l as [|e l IH]; intros new w Hq Hnew Hnow Hok.
  { exists w. cbn [drain length app] in *. unfold bind at 1, get. rewrite Hq.
    destruct new as [|e new].
    - split_and!; try done. by intros j Hj; right; rewrite Hq.
    - apply Forall_cons in Hnew as [He Hnew]. destruct (_ <=? _) eqn:Hd; [lia|].
      split_and!; try done; [by intros j Hj; right; rewrite Hq|by intros ? [= <-]|].
      intros _. by constructor. }
  cbn [drain length]. unfold bind at 1, get. rewrite Hq. cbn [app].
  destruct (re_retry_at e <=? now) eqn:Hd.
  2: { exists w. split_and!; try done.
       - intros j Hj. by right; rewrite Hq.
       - rewrite Hq. intros ? [= <-]. lia.
       - intros Hf. apply Forall_cons in Hf as [? _]. lia.
       - intros G Hf. apply Forall_cons in Hf as [? _]. lia. }
  unfold queue_ok in Hok. rewrite Hq in Hok. cbn [app] in Hok. apply Forall_cons in Hok as [[Ha _] Hok].
  apply Forall_app in Hok as Hoks. destruct Hoks as [Hokl Hokn].
  destruct (drain_round now e l new w Ha Hokn Hnew Hnow) as (w1 & new1 & Hrun & Hle & Hq1 & Hn1 & Hk1 & Hj1).
  unfold bind at 1, modify. unfold bind at 1. rewrite Hrun. cbn [fst snd].
  destruct (IH new1 w1 Hq1 Hn1) as (w' & Hd' & Hle' & Hok' & Hacc & Hhd & Hall & Hemp).
  { destruct Hle as [_ Hc]. unfold clock_le in Hc. simpl in Hc. lia. }
  { unfold queue_ok. rewrite Hq1. apply Forall_app. split; [|done].
    by apply (entries_ok_le (set_wk_queue (l ++ new) w)). }
  assert (worker_le w w1) as Hle1 by exact Hle.
  exists w'. split_and!; [done|by etrans|done| |done|..].
  - intros j. rewrite fmap_cons. intros [->|Hin]%elem_of_cons.
    + destruct Hj1 as [(Hj1 & _)|[Hj1 _]]; [left; by eapply job_done_le|].
      apply Hacc. rewrite Hq1, fmap_app. apply elem_of_app. by right.
    + apply Hacc. rewrite Hq1. rewrite fmap_app in *. apply elem_of_app in Hin as [?|Hin]; apply elem_of_app;
        [by left|right]. destruct Hj1 as [(_ & -> & _)|(_ & [tl ->] & _)]; [done|].
      rewrite fmap_app. apply elem_of_app. by left.
  - intros Hf. apply Forall_cons in Hf as [_ Hf]. by apply Hall.
  - intros G Hf [Hsq Hsj] HG. apply Forall_cons in Hf as [_ Hf].
    destruct (Hsj (re_job e) (set_wk_queue (l ++ new) w)) as (w2 & Hw2 & HG2); [by left|by apply Hsq|].
    destruct Hj1 as [(_ & -> & Hpj)|(_ & _ & w3 & err & Herr)]; [|congruence].
    assert (w2 = w1) as -> by congruence. apply (Hemp G); [done| |done]. split; [done|].
    intros j w3 Hj. apply Hsj. by right.
Qed.

(** *** Turns and runs *)

Definition event_ok (ev : WorkerEvent) : Prop :=
  match ev with JobReceived waited _ => 0 ≤ waited | _ => True end.
Definition received (evs : list WorkerEvent) : list ArchiveJob :=
  omap (λ ev, match ev with JobReceived _ j => Some j | _ => None end) evs.

Lemma accounted_le (js : list ArchiveJob) (w w' : Worker) :
  worker_le w w' → wk_retry_queue w `prefix_of` wk_retry_queue w' → accounted js w → accounted js w'.
Proof.
  intros Hle [tl Hq] Hacc j Hj. destruct (Hacc j Hj) as [Hd|Hin]; [left; by eapply job_done_le|right].
  rewrite Hq, fmap_app. apply elem_of_app. by left.
Qed.

Lemma sleep_worker_le (d : Z) (w : Worker) :
  0 ≤ d → worker_le w (set_wk_world (sleep_ms d (wk_world w)) w).
Proof using TL.
  intros Hd. split; [done|]. pose proof (sleep_lasts d (wk_world w)). unfold clock_le. simpl. lia.
Qed.

Lemma worker_turn_run (ev : WorkerEvent) (w : Worker) :
  event_ok ev → queue_ok w →
  ∃ w' stop, worker_turn cf signing_key validator_address ev w = (w', Ok stop) ∧ worker_le w w' ∧
    queue_ok w' ∧ accounted (received [ev] ++ (re_job <$> wk_retry_queue w)) w' ∧
    (stop = true → wk_retry_queue w' = []).
Proof using TL HL HE.
  intros Hev Hok.
  destruct (drain_run (now_ms (wk_world w)) (wk_retry_queue w) [] w) as
    (w1 & Hd & Hle & Hok1 & Hacc & Hhd & _); [by rewrite app_nil_r|done|lia|done|].
  unfold worker_turn. unfold bind at 1, get. unfold bind at 1. rewrite Hd. unfold bind at 1.
  destruct ev as [waited j| |]; cbn [received omap list_omap app].
  - unfold bind at 1, modify. set (w2 := set_wk_world _ w1).
    assert (worker_le w1 w2) as Hle2 by (by apply sleep_worker_le).
    destruct (process_with_retry_run j 0 w2 ltac:(lia)) as (w3 & Hr & Hle3 & Hcase).
    unfold bind. rewrite Hr. exists w3, false. split; [done|]. split; [by etrans; [|etrans]|].
    assert (Forall (entry_ok w3) (wk_retry_queue w1)) as Hold.
    { apply (entries_ok_le w1); [by etrans|done]. }
    destruct Hcase as [(Hq & Hdone & _)|(e & Hq & He & Hek & _)].
    + split_and!; [by unfold queue_ok; rewrite Hq| |done].
      intros k [->|Hk]%elem_of_cons; [by left|].
      apply (accounted_le (re_job <$> wk_retry_queue w) w1 w3); [by etrans|by rewrite Hq|done|done].
    + split_and!; [|intros k [->|Hk]%elem_of_cons|done].
      * unfold queue_ok. rewrite Hq. apply Forall_app. split; [done|by apply Forall_singleton].
      * right. rewrite Hq, fmap_app. apply elem_of_app. right. simpl. rewrite He. by left.
      * apply (accounted_le (re_job <$> wk_retry_queue w) w1 w3); [by etrans|rewrite Hq; by eexists|done|done].
  - exists w1, (bool_decide (wk_retry_queue w1 = [])). split_and!; [done..|].
    intros Hs. by apply bool_decide_eq_true in Hs.
  - destruct (head (wk_retry_queue w1)) as [e|] eqn:He; simpl; [|by exists w1, false].
    destruct (0 <? _); [|by exists w1, false].
    assert (worker_le w1 (set_wk_world (sleep_ms (0 `max` (re_retry_at e - now_ms (wk_world w))) (wk_world w1)) w1))
      as Hle2 by (apply sleep_worker_le; lia).
    unfold bind, when, modify, ret. eexists _, false. split; [reflexivity|].
    split_and!; [by etrans|by apply (entries_ok_le w1)| |done]. by apply (accounted_le _ w1).
Qed.

Lemma worker_run_run (evs : list WorkerEvent) : ∀ (w : Worker),
  Forall event_ok evs → queue_ok w →
  ∃ w' rest taken, worker_run cf signing_key validator_address evs w = (w', Ok rest) ∧
    evs = taken ++ rest ∧ worker_le w w' ∧ queue_ok w' ∧
    accounted (received taken ++ (re_job <$> wk_retry_queue w)) w' ∧
    (rest ≠ [] → wk_retry_queue w' = []).
Proof using TL HL HE.
  induction evs as [|ev evs IH]; intros w Hev Hok; cbn [worker_run].
  { exists w, [], []. split_and!; try done. intros j Hj. by right. }
  apply Forall_cons in Hev as [Hev Hevs].
  destruct (worker_turn_run ev w Hev Hok) as (w1 & stop & H1 & Hle & Hok1 & Hacc & Hstop).
  unfold bind. rewrite H1. destruct stop.
  { exists w1, evs, [ev]. split_and!; auto. }
  destruct (IH w1 Hevs Hok1) as (w' & rest & taken & Hr & -> & Hle' & Hok' & Hacc' & Hrest).
  exists w', rest, (ev :: taken). rewrite Hr. split_and!; [done..|by etrans|done| |done].
  assert (received (ev :: taken) = received [ev] ++ received taken) as ->.
  { unfold received. change (ev :: taken) with ([ev] ++ taken). by rewrite omap_app. }
  intros j Hj. rewrite <-app_assoc in Hj. apply elem_of_app in Hj as [Hj|Hj].
  2: apply elem_of_app in Hj as [Hj|Hj]; [apply Hacc', elem_of_app; by left|].
  1, 2: destruct (Hacc j) as [Hd|Hin]; [apply elem_of_app; tauto|left; by eapply job_done_le|].
  1, 2: apply Hacc', elem_of_app; by right.
Qed.

(** A closed channel does not wait for the next retry: until it is due, every
    turn of the loop comes back at once and leaves everything as it is. *)
Lemma closed_channel_spins (w : Worker) (e : RetryEntry) :
  head (wk_retry_queue w) = Some e → now_ms (wk_world w) < re_retry_at e →
  worker_turn cf signing_key validator_address JobsClosed w = (w, Ok false).
Proof.
  intros He Hlt. unfold worker_turn. destruct (wk_retry_queue w) as [|e' q] eqn:Hq; [done|].
  injection He as ->. unfold bind at 1, get. rewrite Hq. cbn [length drain].
  unfold bind at 1. unfold bind at 1, get. rewrite Hq.
  destruct (_ <=? _) eqn:Hd; [lia|]. unfold bind, ret. rewrite Hq. done.
Qed.

(** C11: the worker loses no job.  Whatever the provider, the engine and the
    delivery of notices do, a run of its loop ends without a panic; every job it
    has taken from the channel has then either had a notice delivered for each
    of its blobs, signed and with a locator, or is still in the retry queue, with
    its next attempt at most a minute away; and when the worker has stopped, the
    queue is empty. *)
Theorem worker_loses_no_job (evs : list WorkerEvent) (w : Worker) :
  Forall event_ok evs → wk_retry_queue w = [] →
  ∃ w' rest taken, worker_run cf signing_key validator_address evs w = (w', Ok rest) ∧
    evs = taken ++ rest ∧
    (∀ j, j ∈ received taken → job_done j w' ∨
       ∃ e, e ∈ wk_retry_queue w' ∧ re_job e = j ∧
         re_retry_at e ≤ now_ms (wk_world w') + MAX_RETRY_BACKOFF_MS) ∧
    (rest ≠ [] → wk_retry_queue w' = []).
Proof using TL HL HE.
  intros Hev Hq. destruct (worker_run_run evs w Hev) as (w' & rest & taken & Hr & Heq & _ & Hok & Hacc & Hrest).
  { unfold queue_ok. by rewrite Hq. }
  exists w', rest, taken. split_and!; [done..| |done]. intros j Hj.
  destruct (Hacc j) as [?|Hin]; [apply elem_of_app; by left|by left|right].
  apply list_elem_of_fmap in Hin as (e & -> & He). exists e. split_and!; [done..|].
  unfold queue_ok in Hok. rewrite Forall_forall in Hok. by apply Hok.
Qed.

(** C24: a job that failed is tried again.  After any run of the worker, a turn
    of its loop that starts a minute or more later goes through the whole retry
    queue: what it leaves behind has just been tried and failed; and when the
    provider now takes the waiting jobs, the queue is empty and every one of them
    has its notices. *)
Theorem pending_jobs_retried (evs : list WorkerEvent) (w0 w : Worker) (rest : list WorkerEvent) (d : Z) :
  Forall event_ok evs → wk_retry_queue w0 = [] →
  worker_run cf signing_key validator_address evs w0 = (w, Ok rest) → MAX_RETRY_BACKOFF_MS ≤ d →
  let w1 := set_wk_world (sleep_ms d (wk_world w)) w in
  let now := now_ms (wk_world w1) in
  ∃ w2, drain cf signing_key validator_address (length (wk_retry_queue w1)) now w1 = (w2, Ok tt) ∧
    Forall (λ e, now < re_retry_at e) (wk_retry_queue w2) ∧
    (∀ G, serving G (re_job <$> wk_retry_queue w) → G w1 →
     wk_retry_queue w2 = [] ∧ ∀ e, e ∈ wk_retry_queue w → job_done (re_job e) w2).
Proof using TL HL HE.
  intros Hev Hq Hrun Hd w1 now.
  destruct (worker_run_run evs w0 Hev) as (w' & rest' & taken & Hr & _ & _ & Hok & _).
  { unfold queue_ok. by rewrite Hq. }
  assert (w' = w) as -> by congruence.
  assert (worker_le w w1) as Hle by (apply sleep_worker_le; unfold MAX_RETRY_BACKOFF_MS in Hd; lia).
  assert (Forall (λ e, re_retry_at e ≤ now) (wk_retry_queue w1)) as Hdue.
  { unfold queue_ok in Hok. eapply Forall_impl; [exact Hok|]. intros e [_ He].
    pose proof (sleep_lasts d (wk_world w)). unfold now, w1. simpl. lia. }
  destruct (drain_run now (wk_retry_queue w1) [] w1) as (w2 & Hdr & _ & _ & Hacc & _ & Hall & Hemp).
  { by rewrite app_nil_r. } { done. } { done. } { by apply (entries_ok_le w). }
  exists w2. split_and!; [done|by apply Hall|]. intros G HG HG1.
  assert (wk_retry_queue w2 = []) as He2 by (by apply (Hemp G)).
  split; [done|]. intros e He. destruct (Hacc (re_job e)) as [?|Hin]; [by apply list_elem_of_fmap_2|done|].
  rewrite He2 in Hin. by apply elem_of_nil in Hin.
Qed.
End worker_proofs.

(** ** The node accepts what the worker sends *)

Section accepted.
Context {E W : Type} {B : BlobEngine E} {HT : ArchiveHttp W} {TM : Timer W} {C : Crypto}
  {T : MerkleTreeLib} {NC : NodeCodecs} (CL : CryptoLaws C) (HL : ArchiveHttpLaws W HT TM).
Context (cf : ArchiverConfig) (signing_key : bytes) (validator_address : Address).

(** The blob is one of the height's: its commitment is the recorded one, and so
    is its hash where one is recorded. *)
Definition blob_matches (m : BlobMetadata) (sc : BlobSidecar) : Prop :=
  0 ≤ sc_index sc < bm_blob_count m ∧
  bm_blob_kzg_commitments m !! Z.to_nat (sc_index sc) = Some (sc_kzg_commitment sc) ∧
  ∃ k, bm_blob_keccak_hashes m !! Z.to_nat (sc_index sc) = Some k ∧ (k = B256_ZERO ∨ k = blob_keccak sc).

Lemma build_archive_job_run (h : Height) (r : Round) (s s' : State E) (j : ArchiveJob) :
  build_archive_job h r s = (s', Ok (Some j)) →
  ∃ e' scs todo, be_get_for_import h (s_blob_engine s) = (e', Ok scs) ∧ (∀ sc, sc ∈ todo → sc ∈ scs) ∧
    j = mkJob h r (sc_index <$> todo) (sc_kzg_commitment <$> todo) (blob_keccak <$> todo)
          (versioned_hashes_from_sidecars todo).
Proof.
  unfold build_archive_job. intros (om & s1 & H1 & Hr)%bind_run_Ok. destruct om as [m|]; [|done].
  apply with_store_run in H1 as (st1 & _ & ->).
  destruct (_ =? _); [done|]. apply bind_run_Ok in Hr as (arch & s2 & H2 & Hr).
  apply with_store_run in H2 as (st2 & _ & ->).
  apply bind_run_Ok in Hr as (scs & s3 & Hg & Hr). unfold with_engine, zoom, map_err in Hg. simpl in Hg.
  destruct (be_get_for_import h (s_blob_engine s)) as [e' [x|x|]] eqn:He; [|done..].
  injection Hg as _ ->. exists e', scs, (filter (λ s, sc_index s ∉ arch) scs).
  split_and!; [done|by intros sc [_ ?]%list_elem_of_filter|].
  destruct (filter _ scs); [done|]. by injection Hr as _ <-.
Qed.

(** A signed notice for a recorded blob that has no receipt passes every check. *)
Lemma signed_notice_recorded (body : ArchiveNoticeBody) (s : State E) (m : BlobMetadata) (v p : Validator) :
  tx_faults (s_store s) = [] →
  read_blob_metadata (an_height body) (s_store s) = Ok (Some m) →
  get_by_address (s_genesis_validators s) (an_archived_by body) = Some v →
  val_public_key v = ed25519_public signing_key →
  bm_proposer_index_hint m ≫= get_by_index (s_genesis_validators s) = Some p →
  val_address p = an_archived_by body →
  0 ≤ an_blob_index body < bm_blob_count m →
  bm_blob_kzg_commitments m !! Z.to_nat (an_blob_index body) = Some (an_kzg_commitment body) →
  (∃ k, bm_blob_keccak_hashes m !! Z.to_nat (an_blob_index body) = Some k ∧
        (k = B256_ZERO ∨ k = an_blob_keccak body)) →
  archival_status m (Z.to_nat (an_blob_index body)) = Pending →
  let n := ArchiveNotice_sign body signing_key in
  ∃ m1, check_notice_blob m n = Ok m1 ∧ handle_archive_notice n s = record_archive m1 n s.
Proof using CL.
  intros Hf Hm Hv Hk Hp Hpa Hi Hc (k & Hkk & Hkc) Hst n.
  assert (∃ m1, check_notice_blob m n = Ok m1) as [m1 Hck].
  { unfold check_notice_blob. cbn [nt_body n ArchiveNotice_sign]. rewrite Hc, bool_decide_eq_true_2 by done.
    cbn [negb]. rewrite Hkk. case_decide; [eauto|]. destruct Hkc as [->|Hkc]; [done|].
    rewrite decide_True by done. eauto. }
  exists m1. split; [done|]. unfold handle_archive_notice. unfold bind at 1, get. cbv iota.
  change (find_first _ _) with (get_by_address (s_genesis_validators s) (an_archived_by body)).
  rewrite Hv. unfold ArchiveNotice_verify. cbn [nt_body nt_signature n ArchiveNotice_sign].
  rewrite Hk, (ed25519_correct signing_key). cbn [negb].
  unfold bind at 1, with_store, zoom, map_err. rewrite get_blob_metadata_run by done.
  unfold blocking, lift at 1. rewrite Hm. cbn [omap_err].
  assert (set_store (s_store s) s = s) as -> by (by destruct s).
  unfold bind at 1, lift at 1, ok_or. destruct (_ <=? _) eqn:Hb; [lia|].
  unfold bind at 1, proposer_address_for_height. unfold bind at 1, get. rewrite Hp. cbn [ret fst snd].
  rewrite Hpa, bool_decide_eq_true_2 by done. cbn [negb].
  unfold bind at 1, lift. fold n. rewrite Hck.
  apply check_notice_blob_Ok in Hck as (_ & _ & Hrec & _).
  assert (archival_status m1 (Z.to_nat (an_blob_index body)) = Pending) as ->; [|done].
  unfold archival_status in *. by rewrite Hrec.
Qed.

(** Recording writes the receipt under the height and index of its blob, and
    nothing after that touches it. *)
Lemma record_archive_recorded (m : BlobMetadata) (n : ArchiveNotice) (s : State E) (rb : bytes) :
  tx_faults (s_store s) = [] → encode (ArchiveRecord_from_notice n) = Ok rb →
  blob_archival (s_store (record_archive m n s).1) !! (an_height (nt_body n), an_blob_index (nt_body n)) = Some rb.
Proof.
  intros Hf Hrb. unfold record_archive, bind at 1.
  unfold with_store at 1, zoom at 1, map_err, insert_archive_record, blocking, bind at 1, lift at 1. rewrite Hrb.
  cbn [omap_err]. erewrite write_tx_ok by done.
  set (s1 := set_store _ s). set (h := an_height (nt_body n)). set (i := an_blob_index (nt_body n)).
  set (R := λ s s' : State E, blob_archival (s_store s') = blob_archival (s_store s)).
  assert (PreOrder R) by (unfold R; split; [by intros ?|]; intros ? ? ? ? ?; congruence).
  assert (∀ h m, steps R (with_store (update_blob_metadata h m))) as Hupd.
  { intros h' m'. apply (steps_with_store _ (λ st st', blob_archival st' = blob_archival st)); [|done].
    assert (PreOrder (λ st st' : Store, blob_archival st' = blob_archival st)).
    { split; [by intros ?|]. intros ? ? ? ? ?; congruence. }
    store_steps; [done|]. by intros st st' [] [= <-]. }
  assert (∀ A (c : M E BlobEngineError A), steps R (with_engine c)) as Heng.
  { intros A c. apply (steps_with_engine _ (λ _ _, True)); [by intros ?|]. by intros. }
  assert (∀ f : State E → State E, (∀ s, R s (f s)) → steps (E := string) R (modify f)) as Hmod.
  { intros f Hm. by apply steps_modify. }
  cbn [omap_err]. match goal with |- blob_archival (s_store (?rest s1).1) !! _ = _ => assert (steps R rest) as Hrest end.
  { unfold prune_archived_height, add_pending_prune. steps_tac; by apply Hmod. }
  specialize (Hrest s1). unfold R in Hrest. rewrite Hrest. unfold s1. simpl. apply lookup_insert_eq.
Qed.

(** C23: archival end to end.  For the archive job of a decided height, built
    from blobs that match the metadata of the height, once the worker has
    processed it, there is for every blob of the job a notice that the proposer's
    own node accepts, as long as the blob has no receipt yet: it passes every
    check of the handler, and its receipt is in the store, under the height and
    index of the blob. *)
Theorem archived_job_accepted (h : Height) (r : Round) (s s1 s2 : State E) (j : ArchiveJob)
    (w w' : ArchiverWorker E W) (m : BlobMetadata) (v p : Validator) :
  build_archive_job h r s = (s1, Ok (Some j)) →
  (∀ e' scs, be_get_for_import h (s_blob_engine s) = (e', Ok scs) → Forall (blob_matches m) scs) →
  process_job cf signing_key validator_address j w = (w', Ok tt) →
  tx_faults (s_store s2) = [] → read_blob_metadata h (s_store s2) = Ok (Some m) →
  get_by_address (s_genesis_validators s2) validator_address = Some v →
  val_public_key v = ed25519_public signing_key →
  bm_proposer_index_hint m ≫= get_by_index (s_genesis_validators s2) = Some p →
  val_address p = validator_address →
  ∀ idx, idx ∈ aj_blob_indices j → archival_status m (Z.to_nat idx) = Pending →
    ∃ n m1, n ∈ wk_notices w' ∧ an_height (nt_body n) = h ∧ an_blob_index (nt_body n) = idx ∧
      check_notice_blob m n = Ok m1 ∧ handle_archive_notice n s2 = record_archive m1 n s2 ∧
      ∀ rb, encode (ArchiveRecord_from_notice n) = Ok rb →
        blob_archival (s_store (handle_archive_notice n s2).1) !! (h, idx) = Some rb.
Proof using CL HL.
  intros Hj Hm Hp Hf Hread Hv Hk Hh Hpa idx Hidx Hst.
  apply list_elem_of_lookup in Hidx as [i Hi].
  destruct (process_job_run cf signing_key validator_address HL j w w' tt Hp i idx Hi)
    as (n & Hn & c & k & loc & t & Hc & Hkk & _ & ->).
  apply build_archive_job_run in Hj as (e' & scs & todo & Hg & Hsub & ->).
  cbn [aj_height aj_round aj_blob_indices aj_commitments aj_blob_keccaks] in *.
  rewrite list_lookup_fmap in Hi. rewrite list_lookup_fmap in Hc. rewrite list_lookup_fmap in Hkk.
  destruct (todo !! i) as [sc|] eqn:Hsc; [|done].
  injection Hi as <-. injection Hc as <-. injection Hkk as <-.
  specialize (Hm _ _ Hg). rewrite Forall_forall in Hm.
  destruct (Hm sc) as (Hlt & Hcc & Hkc); [by apply Hsub, (list_elem_of_lookup_2 _ i)|].
  set (body := mkNoticeBody h r (sc_index sc) (sc_kzg_commitment sc) (blob_keccak sc) (cf_provider_id cf) loc
                 validator_address t) in Hn.
  destruct (signed_notice_recorded body s2 m v p) as (m1 & Hck & Hrec); try done.
  exists (ArchiveNotice_sign body signing_key), m1. split_and!; [done..|]. intros rb Hrb.
  rewrite Hrec. by apply (record_archive_recorded m1 (ArchiveNotice_sign body signing_key) s2 rb).
Qed.
End accepted.

(** ** Concrete inputs *)

#[local] Existing Instance demo_crypto.
#[local] Existing Instance demo_merkle.
#[local] Existing Instance demo_notice_prost.
#[local] Existing Instance demo_codecs.
#[local] Existing Instance demo_timer.

(** An engine that always has the same sidecar, and a provider, which is its
    clock, that is down for the first two seconds. *)
Definition demo_sidecar : BlobSidecar :=
  mkSidecar 1 [9] (replicate 48 2) (zeros 48) (mkSignedHeader (mkBeaconHeader 7 0 B256_ZERO B256_ZERO B256_ZERO)
    (zeros 64)) [].
#[local] Instance shelf_engine : BlobEngine unit := {|
  be_verify_and_store _ _ _ e := (e, Ok tt); be_mark_decided _ _ e := (e, Ok tt);
  be_get_for_import _ e := (e, Ok [demo_sidecar]); be_drop_round _ _ e := (e, Ok tt);
  be_mark_archived _ _ e := (e, Ok tt); be_prune_archived_before _ e := (e, Ok 0);
  be_get_undecided_blobs _ _ e := (e, Ok []) |}.
#[local] Instance demo_http : ArchiveHttp Z := {|
  http_post _ t := (t + 1, if t <? 2000 then inl "down"%string else inr (mkHttpResponse 200 (Some [1])));
  parse_upload_response _ := Some (mkUploadResponse (Some true) None (Some "id"%string)) |}.

Lemma demo_timer_laws : TimerLaws Z demo_timer.
Proof. split. intros d n. simpl. lia. Qed.
Lemma demo_http_laws : ArchiveHttpLaws Z demo_http demo_timer.
Proof. split. intros r t. simpl. lia. Qed.
Lemma shelf_panicless (h : Height) : panicless (be_get_for_import (E := unit) h).
Proof. by intros e. Qed.

Definition demo_job : ArchiveJob :=
  mkJob 7 (RSome 0) [1] [replicate 48 2] [blob_keccak demo_sidecar] [versioned_hash (replicate 48 2)].
Definition demo_worker (t : Z) : ArchiverWorker unit Z := mkWorker tt t [] [] [].
Definition demo_turns (evs : list WorkerEvent) (t : Z) :
    ArchiverWorker unit Z * outcome string (list WorkerEvent) :=
  worker_run ArchiverConfig_default (zeros 32) (zeros 20) evs (demo_worker t).

(** Two failures, a second and two later, and the third attempt succeeds; only
    then does the closed channel stop the worker. *)
Example demo_retries :
  let '(w, r) := demo_turns [JobReceived 0 demo_job; JobsClosed; RetryElapsed; RetryElapsed; JobsClosed] 0 in
  r = Ok [] ∧ wk_retry_queue w = [] ∧ wk_world w = 3004 ∧
  (an_locator ∘ nt_body) <$> wk_notices w = ["load-s3://id"%string].
Proof. vm_compute. repeat split. Qed.

Lemma worker_loses_no_job_witness :
  ∃ w' rest taken, demo_turns [JobReceived 0 demo_job; RetryElapsed] 0 = (w', Ok rest) ∧
    [JobReceived 0 demo_job; RetryElapsed] = taken ++ rest ∧
    ∀ j, j ∈ received taken → job_done ArchiverConfig_default (zeros 32) (zeros 20) j w' ∨
      ∃ e, e ∈ wk_retry_queue w' ∧ re_job e = j ∧
        re_retry_at e ≤ now_ms (wk_world w') + MAX_RETRY_BACKOFF_MS.
Proof.
  destruct (worker_loses_no_job ArchiverConfig_default (zeros 32) (zeros 20) demo_timer_laws demo_http_laws
    shelf_panicless [JobReceived 0 demo_job; RetryElapsed] (demo_worker 0))
    as (w' & rest & taken & Hr & Heq & Hj & _).
  - repeat constructor; simpl; lia.
  - reflexivity.
  - exists w', rest, taken. split; [exact Hr|]. split; [exact Heq|exact Hj].
Defined.

(** After the first failure the job waits; a minute later the provider is up. *)
Definition provider_up (w : ArchiverWorker unit Z) : Prop := 2000 ≤ wk_world w ∧ wk_notice_faults w = [].

Lemma demo_upload (p : UploadBlobParams) (t : Z) :
  2000 ≤ t → upload_blob ArchiverConfig_default (zeros 20) p t = (t + 1, Ok "load-s3://id"%string).
Proof.
  intros Ht. unfold upload_blob. replace (str_starts_with _ _) with false by (vm_compute; reflexivity).
  unfold do_upload. cbn [http_post demo_http]. replace (t <? 2000) with false by lia. reflexivity.
Qed.

Lemma demo_job_taken (w : ArchiverWorker unit Z) :
  provider_up w → ∃ w', process_job ArchiverConfig_default (zeros 32) (zeros 20) demo_job w = (w', Ok tt)
                        ∧ provider_up w'.
Proof.
  destruct w as [[] t ns fs q]. intros [Ht Hf]. simpl in Ht, Hf. subst fs.
  unfold process_job, demo_job. cbn -[archive_blob zeros replicate ArchiverConfig_default]. unfold bind, get, foreach.
  cbn -[archive_blob zeros replicate ArchiverConfig_default].
  unfold archive_blob. cbn -[upload_blob ArchiveNotice_sign blob_keccak zeros replicate ArchiverConfig_default].
  change (find_first _ _) with (Some demo_sidecar). cbv iota. unfold bind at 1, zoom.
  change (wk_world _) with t. rewrite demo_upload by done.
  eexists. split; [reflexivity|]. split; [simpl; lia|reflexivity].
Qed.

Lemma pending_jobs_retried_witness :
  ∃ w w2, demo_turns [JobReceived 0 demo_job] 0 = (w, Ok []) ∧ wk_retry_queue w ≠ [] ∧
    drain ArchiverConfig_default (zeros 32) (zeros 20) 1 60001 (set_wk_world 60001 w) = (w2, Ok tt) ∧
    wk_retry_queue w2 = [].
Proof.
  destruct (demo_turns [JobReceived 0 demo_job] 0) as [w r] eqn:Hrun.
  assert (r = Ok [] ∧ wk_world w = 1 ∧ re_job <$> wk_retry_queue w = [demo_job] ∧ wk_notice_faults w = [])
    as (-> & Hw & Hq & Hf).
  { vm_compute in Hrun. injection Hrun as <- <-. vm_compute. auto. }
  destruct (pending_jobs_retried ArchiverConfig_default (zeros 32) (zeros 20) demo_timer_laws demo_http_laws
    shelf_panicless [JobReceived 0 demo_job] (demo_worker 0) w [] 60000) as (w2 & Hd & _ & Hs).
  - repeat constructor; simpl; lia.
  - reflexivity.
  - exact Hrun.
  - unfold MAX_RETRY_BACKOFF_MS. lia.
  - destruct (Hs provider_up) as [Hemp _].
    + split.
      * intros q w0 Hw0. exact Hw0.
      * intros j w0 Hj Hw0. rewrite Hq in Hj. apply list_elem_of_singleton in Hj as ->.
        apply demo_job_taken. exact Hw0.
    + split; simpl; [lia|exact Hf].
    + exists w, w2. split; [reflexivity|].
      assert (length (wk_retry_queue w) = 1%nat) as Hlen.
      { rewrite <-(length_fmap re_job), Hq. reflexivity. }
      split; [intros Hnil; rewrite Hnil in Hlen; discriminate|].
      simpl in Hd. rewrite Hw, Hlen in Hd. split; [exact Hd|exact Hemp].
Defined.

(** A node whose RocksDB engine holds the one blob of height 7 without a receipt. *)
Section rocksdb_archivist.
#[local] Instance archive_codecs : NodeCodecs := {|
  nc_value := demo_value_codec; nc_proposed := demo_proposed_codec;
  nc_certificate := demo_certificate_codec; nc_consensus := demo_consensus_codec;
  nc_metadata := constant_codec demo_half_archived; nc_record := constant_codec (demo_receipt 0);
  nc_payload := demo_payload_prost; nc_notice_body := demo_notice_prost |}.
#[local] Instance shelf_codec : Codec BlobSidecar := table_codec [demo_sidecar].
#[local] Instance shelf_rocksdb : BlobEngine BlobEngineImpl := @rocksdb_engine demo_kzg shelf_codec.

Definition demo_blob_engine : BlobEngineImpl :=
  mkEngine (mkBlobDb ∅ {[to_decided_key (mkBlobKey 7 0 1) := [0]]} []) demo_metrics.
Definition demo_archivist : State BlobEngineImpl :=
  State_new demo_validators (zeros 32) (zeros 20) 9
    (with_blob_metadata_decided {[7 := [0]]} (empty_store [])) demo_blob_engine.
Definition demo_rocksdb_worker : ArchiverWorker BlobEngineImpl Z := mkWorker demo_blob_engine 5000 [] [] [].

Lemma archived_job_accepted_witness :
  ∃ n w', process_job ArchiverConfig_default (zeros 32) (zeros 20) demo_job demo_rocksdb_worker = (w', Ok tt) ∧
    n ∈ wk_notices w' ∧ blob_archival (s_store (handle_archive_notice n demo_archivist).1) !! (7, 1) = Some [0].
Proof.
  destruct (process_job ArchiverConfig_default (zeros 32) (zeros 20) demo_job demo_rocksdb_worker) as [w' r] eqn:Hp.
  assert (r = Ok tt) as -> by (apply (f_equal snd) in Hp; vm_compute in Hp; symmetry; exact Hp).
  destruct (archived_job_accepted demo_crypto_laws demo_http_laws ArchiverConfig_default (zeros 32) (zeros 20)
    7 (RSome 0) demo_archivist demo_archivist demo_archivist demo_job demo_rocksdb_worker w' demo_half_archived
    (mkValidator (zeros 20) (zeros 32) 1) (mkValidator (zeros 20) (zeros 32) 1)) with (idx := 1)
    as (n & m1 & Hn & _ & _ & _ & _ & Hrec).
  - vm_compute. reflexivity.
  - intros e' scs Heq. apply (f_equal snd) in Heq. vm_compute in Heq. injection Heq as <-. apply Forall_singleton.
    split; [simpl; lia|]. split; [reflexivity|]. exists B256_ZERO. split; [reflexivity|left; reflexivity].
  - exact Hp.
  - reflexivity.
  - vm_compute. reflexivity.
  - reflexivity.
  - reflexivity.
  - reflexivity.
  - reflexivity.
  - simpl. left.
  - reflexivity.
  - exists n, w'. split; [reflexivity|]. split; [exact Hn|]. apply Hrec. reflexivity.
Defined.
End rocksdb_archivist.
