(* ===== verification/Metrics.v ===== *)
(** * Archive metrics ([crates/consensus/src/archive_metrics.rs])

    The counters, gauges and histograms of the archive pipeline, and the places
    that update them: the worker of [crates/node/src/archiver.rs] and the serving,
    archiving and pruning handlers of [crates/consensus/src/state.rs].  The other
    files leave metrics out; here the same code runs on a state with metrics.
    Erasing the metrics gives back the computations of [Archiver.v] and [State.v],
    and the counters keep the books of what these did.  The registries of the
    three sets of metrics are lists of what they expose. *)
From S2P Require Import Prelude Types Merkle Metadata BlobStore BlobEngine Store Proto State Archival BlobProposal Decide Client Archiver.
Open Scope monad_scope.

(** ** The metrics *)

(** Counters are [AtomicU64]s, gauges [AtomicI64]s, and both wrap around; a
    histogram is what it has observed, in milliseconds. *)
Record ArchiveCounters := mkCounters {
  jobs_success_total : Z; jobs_failure_total : Z; upload_success_total : Z; upload_failures_total : Z;
  upload_bytes_total : Z; receipt_mismatch_total : Z; pruned_total : Z; served_total : Z;
  served_archived_total : Z }.
Record ArchiveGauges := mkGauges { queue_len : Z; backlog_height : Z; archived_bytes : Z; pruned_bytes : Z }.
Record ArchiveHistograms := mkHistograms {
  upload_duration : list Z; upload_blob_duration : list Z; notice_propagation : list Z }.
Record ArchiveMetrics := mkArchiveMetrics {
  am_counters : ArchiveCounters; am_gauges : ArchiveGauges; am_histograms : ArchiveHistograms }.

Definition ArchiveMetrics_new : ArchiveMetrics :=
  mkArchiveMetrics (mkCounters 0 0 0 0 0 0 0 0 0) (mkGauges 0 0 0 0) (mkHistograms [] [] []).

Definition on_counters (f : ArchiveCounters → ArchiveCounters) (m : ArchiveMetrics) : ArchiveMetrics :=
  mkArchiveMetrics (f (am_counters m)) (am_gauges m) (am_histograms m).
Definition on_gauges (f : ArchiveGauges → ArchiveGauges) (m : ArchiveMetrics) : ArchiveMetrics :=
  mkArchiveMetrics (am_counters m) (f (am_gauges m)) (am_histograms m).
Definition on_histograms (f : ArchiveHistograms → ArchiveHistograms) (m : ArchiveMetrics) : ArchiveMetrics :=
  mkArchiveMetrics (am_counters m) (am_gauges m) (f (am_histograms m)).

(** [Gauge::inc_by] *)
Definition gauge_add (a b : Z) : Z := to_i64 (wrap64 (a + b)).

Definition record_job_success : ArchiveMetrics → ArchiveMetrics :=
  on_counters (λ '(mkCounters js jf us uf ub rm pr sv sa), mkCounters (add64 js 1) jf us uf ub rm pr sv sa).
Definition record_job_failure : ArchiveMetrics → ArchiveMetrics :=
  on_counters (λ '(mkCounters js jf us uf ub rm pr sv sa), mkCounters js (add64 jf 1) us uf ub rm pr sv sa).
Definition record_upload_failure : ArchiveMetrics → ArchiveMetrics :=
  on_counters (λ '(mkCounters js jf us uf ub rm pr sv sa), mkCounters js jf us (add64 uf 1) ub rm pr sv sa).
Definition record_upload_success (bytes : Z) : ArchiveMetrics → ArchiveMetrics :=
  on_counters (λ '(mkCounters js jf us uf ub rm pr sv sa),
    mkCounters js jf (add64 us 1) uf (add64 ub bytes) rm pr sv sa).
Definition record_receipt_mismatch : ArchiveMetrics → ArchiveMetrics :=
  on_counters (λ '(mkCounters js jf us uf ub rm pr sv sa), mkCounters js jf us uf ub (add64 rm 1) pr sv sa).
Definition record_pruned (blob_count bytes : Z) (m : ArchiveMetrics) : ArchiveMetrics :=
  on_gauges (λ '(mkGauges ql bh ab pb), mkGauges ql bh ab (gauge_add pb (to_i64 (wrap64 bytes))))
    (on_counters (λ '(mkCounters js jf us uf ub rm pr sv sa),
       mkCounters js jf us uf ub rm (add64 pr blob_count) sv sa) m).
Definition set_queue_len (len : Z) : ArchiveMetrics → ArchiveMetrics :=
  on_gauges (λ '(mkGauges ql bh ab pb), mkGauges (to_i64 (wrap64 len)) bh ab pb).
Definition set_backlog_height (height : Height) : ArchiveMetrics → ArchiveMetrics :=
  on_gauges (λ '(mkGauges ql bh ab pb), mkGauges ql (to_i64 (wrap64 height)) ab pb).
Definition add_archived_bytes (bytes : Z) : ArchiveMetrics → ArchiveMetrics :=
  on_gauges (λ '(mkGauges ql bh ab pb), mkGauges ql bh (gauge_add ab (to_i64 (wrap64 bytes))) pb).
Definition observe_upload_duration (d : Z) : ArchiveMetrics → ArchiveMetrics :=
  on_histograms (λ '(mkHistograms u b n), mkHistograms (u ++ [d]) b n).
Definition observe_upload_blob_duration (d : Z) : ArchiveMetrics → ArchiveMetrics :=
  on_histograms (λ '(mkHistograms u b n), mkHistograms u (b ++ [d]) n).
Definition observe_notice_propagation (d : Z) : ArchiveMetrics → ArchiveMetrics :=
  on_histograms (λ '(mkHistograms u b n), mkHistograms u b (n ++ [d])).
Definition record_served (blob_count : Z) (m : ArchiveMetrics) : ArchiveMetrics :=
  if 0 <? blob_count then
    on_counters (λ '(mkCounters js jf us uf ub rm pr sv sa),
      mkCounters js jf us uf ub rm pr (add64 sv blob_count) sa) m
  else m.
Definition record_served_archived (blob_count : Z) : ArchiveMetrics → ArchiveMetrics :=
  on_counters (λ '(mkCounters js jf us uf ub rm pr sv sa),
    mkCounters js jf us uf ub rm pr sv (add64 sa (Z.max blob_count 1))).

(** ** Computations with metrics *)

Record Metered (S : Type) := mkMetered { mt_state : S; mt_metrics : ArchiveMetrics }.
Arguments mkMetered {S} _ _.
Arguments mt_state {S} _.
Arguments mt_metrics {S} _.

Definition unmetered {S E A} (c : M S E A) : M (Metered S) E A :=
  zoom mt_state (λ s m, mkMetered s (mt_metrics m)) c.
Definition meter {S E} (f : ArchiveMetrics → ArchiveMetrics) : M (Metered S) E unit :=
  modify (λ m, mkMetered (mt_state m) (f (mt_metrics m))).
Definition gets {S E A} (f : S → A) : M (Metered S) E A := λ m, (m, Ok (f (mt_state m))).

(** *** The worker *)

(** What the loop is told, and how many jobs wait in the channel when a job has
    been taken and when the turn ends. *)
Record MeteredEvent := mkEvent { me_event : WorkerEvent; me_waiting : nat; me_waiting_after : nat }.

Section worker.
Context {E W : Type} {B : BlobEngine E} {HT : ArchiveHttp W} {TM : Timer W} `{Crypto}
  `{ProstMessage MsgArchiveNoticeBody}.
Context (cf : ArchiverConfig) (signing_key : bytes) (validator_address : Address).

Abbreviation MwM A := (M (Metered (ArchiverWorker E W)) string A) (only parsing).

Definition clock : MwM Z := gets (λ w, now_ms (wk_world w)).

Definition metered_archive_blob (job : ArchiveJob) (sidecars : list BlobSidecar) (archived_at : Z)
    (blob : nat * Z) : MwM unit :=
  let '(i, blob_idx) := blob in
  match aj_commitments job !! i, aj_blob_keccaks job !! i, aj_versioned_hashes job !! i with
  | Some commitment, Some blob_keccak, Some versioned_hash =>
    match find_first (λ s, sc_index s =? blob_idx) sidecars with
    | None => fail "Blob index not found in sidecars"%string
    | Some s =>
      let* upload_start := clock in
      let* upload_result := attempt (F := string) (unmetered (zoom wk_world set_wk_world
                        (upload_blob cf validator_address (mkUploadParams (aj_height job) (aj_round job) blob_idx (sc_blob s)
                           commitment versioned_hash blob_keccak)))) in
      let* upload_end := clock in
      meter (observe_upload_blob_duration (upload_end - upload_start)) ;;;
      match upload_result with
      | inr locator =>
        meter (record_upload_success (Z.of_nat (length (sc_blob s)))) ;;;
        unmetered (deliver (ArchiveNotice_sign
          (mkNoticeBody (aj_height job) (aj_round job) blob_idx commitment blob_keccak
             (cf_provider_id cf) locator validator_address archived_at) signing_key)) ;;;
        meter (add_archived_bytes BYTES_PER_BLOB)
      | inl e => meter record_upload_failure ;;; fail e
      end
    end
  | _, _, _ => panic
  end.

Definition metered_process_job (job : ArchiveJob) : MwM unit :=
  let n := length (aj_blob_indices job) in
  let* start := clock in
  if negb (length (aj_commitments job) =? n)%nat then fail "mismatched commitments"%string
  else if negb (length (aj_blob_keccaks job) =? n)%nat then fail "mismatched blob_keccaks"%string
  else if negb (length (aj_versioned_hashes job) =? n)%nat
  then fail "mismatched versioned hashes"%string
  else
    let* sidecars := unmetered (zoom wk_engine set_wk_engine
                       (map_err (λ _, "Failed to fetch blobs"%string) (be_get_for_import (aj_height job)))) in
    match sidecars with
    | [] => fail "No blobs found in blob engine"%string
    | _ =>
      let* w := unmetered get in
      foreach (imap pair (aj_blob_indices job))
        (metered_archive_blob job sidecars (default 0 (unix_secs (wk_world w)))) ;;;
      let* stop := clock in
      meter (observe_upload_duration (stop - start))
    end.

Definition metered_process_with_retry (job : ArchiveJob) (attempts : Z) : MwM unit :=
  let* r := attempt (F := string) (metered_process_job job) in
  match r with
  | inr _ => meter record_job_success
  | inl _ =>
    meter record_job_failure ;;;
    unmetered (modify (λ w, set_wk_queue
      (wk_retry_queue w
       ++ [mkRetryEntry job ((attempts + 1) mod 2^32)
             (now_ms (wk_world w) + retry_backoff cf attempts)]) w))
  end.

Fixpoint metered_drain (fuel : nat) (now : Z) : MwM unit :=
  let* w := unmetered get in
  match wk_retry_queue w with
  | [] => ret tt
  | e :: rest =>
    if re_retry_at e <=? now then
      match fuel with
      | O => panic
      | S fuel =>
        unmetered (modify (set_wk_queue rest)) ;;;
        metered_process_with_retry (re_job e) (re_attempts e) ;;;
        metered_drain fuel now
      end
    else ret tt
  end.

(** The end of a turn that was not cut short by [continue]. *)
Definition end_of_turn (waiting : nat) : MwM unit :=
  let* w := unmetered get in
  when ((waiting =? 0)%nat && bool_decide (wk_retry_queue w = [])) (meter (set_backlog_height 0)).

Definition metered_turn (ev : MeteredEvent) : MwM bool :=
  let* w := unmetered get in
  let now := now_ms (wk_world w) in
  metered_drain (length (wk_retry_queue w)) now ;;;
  let* w := unmetered get in
  let retry_timeout := (λ e, Z.max 0 (re_retry_at e - now)) <$> head (wk_retry_queue w) in
  match me_event ev with
  | JobReceived waited job =>
    unmetered (modify (λ w, set_wk_world (sleep_ms waited (wk_world w)) w)) ;;;
    meter (set_queue_len (Z.of_nat (me_waiting ev + length (wk_retry_queue w)))) ;;;
    meter (set_backlog_height (aj_height job)) ;;;
    metered_process_with_retry job 0 ;;;
    end_of_turn (me_waiting_after ev) ;;;
    ret false
  | JobsClosed =>
    if bool_decide (wk_retry_queue w = []) then
      meter (set_queue_len 0) ;;; meter (set_backlog_height 0) ;;; ret true
    else end_of_turn (me_waiting_after ev) ;;; ret false
  | RetryElapsed =>
    match retry_timeout with
    | Some t =>
      unmetered (when (0 <? t) (modify (λ w, set_wk_world (sleep_ms t (wk_world w)) w))) ;;; ret false
    | None => ret false
    end
  end.

Fixpoint metered_run (evs : list MeteredEvent) : MwM (list MeteredEvent) :=
  match evs with
  | [] => ret []
  | ev :: evs =>
    let* stop := metered_turn ev in
    if stop : bool then ret evs else metered_run evs
  end.
End worker.

(** *** The handlers of the node *)

Section handlers.
Context {E : Type} {B : BlobEngine E} `{Crypto} `{MerkleTreeLib} `{NodeCodecs}.

Abbreviation MsM A := (M (Metered (State E)) string A) (only parsing).

Definition metered_serve_pruned {A} (height : Height) (m : BlobMetadata)
    : M (Metered (State E)) BlobEngineError A :=
  meter (record_served_archived (Z.of_nat (length (archive_locators m)))) ;;;
  unmetered (serve_pruned height m).

(** What was found locally is counted when it is served. *)
Definition metered_serve (c : M E BlobEngineError (list BlobSidecar))
    : M (Metered (State E)) BlobEngineError (list BlobSidecar) :=
  let* blobs := unmetered (zoom s_blob_engine set_blob_engine c) in
  meter (record_served (Z.of_nat (length blobs))) ;;;
  ret blobs.

Definition metered_get_blobs (height : Height) : M (Metered (State E)) BlobEngineError (list BlobSidecar) :=
  let* r := unmetered (attempt (with_store (get_blob_metadata height))) in
  match r with
  | inr (Some m) => if bm_pruned m then metered_serve_pruned height m else metered_serve (be_get_for_import height)
  | _ => metered_serve (be_get_for_import height)
  end.

Definition metered_get_undecided_blobs (height : Height) (round : Round)
    : M (Metered (State E)) BlobEngineError (list BlobSidecar) :=
  let* r := unmetered (attempt (with_store (get_blob_metadata height))) in
  match r with
  | inr (Some m) =>
    if bm_pruned m && (0 <? bm_blob_count m) then metered_serve_pruned height m
    else metered_serve (be_get_undecided_blobs height (Round_as_i64 round))
  | _ => metered_serve (be_get_undecided_blobs height (Round_as_i64 round))
  end.

Definition metered_prune_archived_height (height : Height) (m : BlobMetadata) : MsM unit :=
  if bm_pruned m || (bm_blob_count m =? 0) then ret tt
  else
    let indices := Z.of_nat <$> seq 0 (Z.to_nat (bm_blob_count m)) in
    unmetered (with_engine (be_mark_archived height indices)) ;;;
    unmetered (with_store (update_blob_metadata height (mark_pruned m))) ;;;
    meter (record_pruned (bm_blob_count m) (bm_blob_count m * BYTES_PER_BLOB)) ;;;
    unmetered (modify (λ s, set_pending_archive_heights (s_pending_archive_heights s ∖ {[height]}) s)) ;;;
    unmetered (modify (λ s, set_pending_prune_heights (s_pending_prune_heights s ∖ {[height]}) s)).

Definition metered_record_archive (m : BlobMetadata) (n : ArchiveNotice) : MsM unit :=
  let height := an_height (nt_body n) in
  let record := ArchiveRecord_from_notice n in
  unmetered (with_store (insert_archive_record height (an_blob_index (nt_body n)) record)) ;;;
  let* m := unmetered (lift (set_archive_record m record)) in
  unmetered (with_store (update_blob_metadata height m)) ;;;
  if all_archived m && (0 <? bm_blob_count m) then
    unmetered (modify (λ s, set_pending_archive_heights (s_pending_archive_heights s ∖ {[height]}) s)) ;;;
    let* s := unmetered get in
    if is_height_finalized s height then metered_prune_archived_height height m
    else unmetered (add_pending_prune height)
  else ret tt.

Definition metered_handle_archive_notice (n : ArchiveNotice) : MsM unit :=
  let height := an_height (nt_body n) in
  let* s := unmetered get in
  match find_first (λ v, bool_decide (val_address v = an_archived_by (nt_body n)))
          (vs_validators (s_genesis_validators s)) with
  | None => fail "ArchiveNotice from unknown validator"%string
  | Some v =>
    if negb (ArchiveNotice_verify n (val_public_key v))
    then fail "Invalid ArchiveNotice signature"%string
    else
      let* om := unmetered (with_store (get_blob_metadata height)) in
      let* m := unmetered (lift (ok_or om "Missing BlobMetadata for ArchiveNotice"%string)) in
      if bm_blob_count m <=? an_blob_index (nt_body n)
      then fail "ArchiveNotice blob_index exceeds blob_count"%string
      else
        let* expected := unmetered (proposer_address_for_height height (bm_proposer_index_hint m)) in
        if match expected with
           | Some p => negb (bool_decide (an_archived_by (nt_body n) = p))
           | None => false
           end
        then
          meter record_receipt_mismatch ;;;
          fail "ArchiveNotice archived_by does not match proposer"%string
        else
          let* m := unmetered (lift (check_notice_blob m n)) in
          match archival_status m (Z.to_nat (an_blob_index (nt_body n))) with
          | Archived existing =>
            if same_receipt (ar_body existing) (nt_body n) then ret tt
            else meter record_receipt_mismatch ;;; fail "Conflicting ArchiveNotice"%string
          | Pending => metered_record_archive m n
          end
  end.

Definition metered_rehydrate_height (height : Height) : MsM unit :=
  let* om := unmetered (with_store (get_blob_metadata height)) in
  match om with
  | None => ret tt
  | Some m =>
    if (bm_blob_count m =? 0) || bm_pruned m then ret tt
    else if negb (all_archived m) then
      let* s := unmetered get in
      if s_archiver_enabled s then
        let* p := unmetered (proposer_address_for_height height (bm_proposer_index_hint m)) in
        if decide (p = Some (s_address s)) then unmetered (add_pending_archive height) else ret tt
      else ret tt
    else
      let* s := unmetered get in
      if is_height_finalized s height then metered_prune_archived_height height m
      else unmetered (add_pending_prune height)
  end.

Definition metered_flush_height (height : Height) : MsM unit :=
  unmetered (modify (λ s, set_pending_prune_heights (s_pending_prune_heights s ∖ {[height]}) s)) ;;;
  let* om := unmetered (with_store (get_blob_metadata height)) in
  match om with
  | None => ret tt
  | Some m =>
    if bm_blob_count m =? 0 then ret tt
    else if all_archived m then metered_prune_archived_height height m
    else unmetered (add_pending_prune height)
  end.

Definition metered_flush_pending_prunes : MsM unit :=
  let* s := unmetered get in
  if decide (s_pending_prune_heights s = ∅) then ret tt
  else
    let ready := filter (λ h, h ≤ effective_finalized s) (ascending (s_pending_prune_heights s)) in
    foreach ready metered_flush_height.
End handlers.

(** ** Erasing the metrics *)

(** The computation without its metrics. *)
Definition erases {S E A} (c : M (Metered S) E A) (c0 : M S E A) : Prop :=
  ∀ s, c0 (mt_state s) = (mt_state (c s).1, (c s).2).
(** Only metrics change. *)
Definition silent {S E} (c : M (Metered S) E unit) : Prop :=
  ∀ s, mt_state (c s).1 = mt_state s ∧ (c s).2 = Ok tt.

Create HintDb erases.
Section erasing.
Context {S Er : Type}.

Lemma erases_unmetered {A} (c : M S Er A) : erases (unmetered c) c.
Proof. intros s. unfold unmetered, zoom. by destruct (c (mt_state s)). Qed.
Lemma erases_ret {A} (a : A) : erases (S := S) (E := Er) (ret a) (ret a).
Proof. done. Qed.
Lemma erases_fail {A} (e : Er) : erases (S := S) (A := A) (fail e) (fail e).
Proof. done. Qed.
Lemma erases_panic {A} : erases (S := S) (E := Er) (A := A) panic panic.
Proof. done. Qed.
Lemma erases_bind {A C} (c : M (Metered S) Er A) (k : A → M (Metered S) Er C) c0 k0 :
  erases c c0 → (∀ a, erases (k a) (k0 a)) → erases (bind c k) (bind c0 k0).
Proof.
  intros Hc Hk s. unfold bind. rewrite (Hc s). destruct (c s) as [s' [a|e|]]; simpl; [apply Hk|done..].
Qed.
Lemma erases_attempt {F A} (c : M (Metered S) Er A) c0 : erases c c0 → erases (attempt (F := F) c) (attempt (F := F) c0).
Proof. intros Hc s. unfold attempt. rewrite (Hc s). by destruct (c s) as [s' [a|e|]]. Qed.
(** An error that is raised again once it has been counted. *)
Lemma erases_rethrow {A C} (c : M (Metered S) Er A) (k : Er + A → M (Metered S) Er C) c0 k0 :
  erases c c0 → (∀ a, erases (k (inr a)) (k0 a)) → (∀ e, erases (k (inl e)) (fail e)) →
  erases (bind (attempt (F := Er) c) k) (bind c0 k0).
Proof.
  intros Hc Hk Hf s. unfold bind, attempt. rewrite (Hc s).
  destruct (c s) as [s' [a|e|]]; simpl; [apply Hk|apply (Hf e)|done].
Qed.
Lemma erases_gets {A C} (f : S → A) (k : A → M (Metered S) Er C) c0 :
  (∀ a, erases (k a) c0) → erases (bind (gets f) k) c0.
Proof. intros Hk s. apply Hk. Qed.
Lemma erases_before {A} (c : M (Metered S) Er unit) (k : M (Metered S) Er A) c0 :
  silent c → erases k c0 → erases (c ;;; k) c0.
Proof. intros Hc Hk s. destruct (Hc s) as [H1 H2]. unfold bind. destruct (c s) as [s' r]. simpl in *. subst r. by rewrite <-H1. Qed.
Lemma erases_after (c k : M (Metered S) Er unit) c0 : erases c c0 → silent k → erases (c ;;; k) c0.
Proof.
  intros Hc Hk s. unfold bind. rewrite (Hc s). destruct (c s) as [s' [[]|e|]]; simpl; [|done..].
  destruct (Hk s') as [-> ->]. done.
Qed.
Lemma erases_silent (c : M (Metered S) Er unit) : silent c → erases c (ret tt).
Proof. intros Hc s. unfold ret. by destruct (Hc s) as [-> ->]. Qed.
Lemma erases_foreach {A} (l : list A) (f : A → M (Metered S) Er unit) f0 :
  (∀ x, erases (f x) (f0 x)) → erases (foreach l f) (foreach l f0).
Proof. intros Hf. induction l as [|x l IH]; simpl; [apply erases_ret|]. by apply erases_bind. Qed.
Lemma silent_meter f : silent (S := S) (E := Er) (meter f).
Proof. by intros s. Qed.
Lemma silent_gets {A} (f : S → A) (k : A → M (Metered S) Er unit) : (∀ a, silent (k a)) → silent (bind (gets f) k).
Proof. intros Hk s. apply Hk. Qed.
End erasing.
#[export] Hint Resolve erases_unmetered erases_ret erases_fail erases_panic erases_bind erases_attempt erases_foreach
  silent_meter : erases.

(** Follow the structure of the code; what is only metered is skipped. *)
Ltac erases_tac :=
  repeat first
    [ progress intros
    | solve [eauto with erases nocore]
    | apply erases_gets
    | apply erases_before; [solve [eauto with erases nocore]|]
    | apply erases_rethrow
    | apply erases_bind
    | apply erases_foreach
    | match goal with |- erases (match ?x with _ => _ end) _ => destruct x end ].

Section worker_erasure.
Context {E W : Type} {B : BlobEngine E} {HT : ArchiveHttp W} {TM : Timer W} {C : Crypto}
  {PM : ProstMessage MsgArchiveNoticeBody}.
Context (cf : ArchiverConfig) (signing_key : bytes) (validator_address : Address).

Lemma archive_blob_erases (job : ArchiveJob) (scs : list BlobSidecar) (t : Z) (b : nat * Z) :
  erases (metered_archive_blob (E := E) cf signing_key validator_address job scs t b)
    (archive_blob cf signing_key validator_address job scs t b).
Proof.
  unfold metered_archive_blob, archive_blob. destruct b as [i idx].
  destruct (aj_commitments job !! i), (aj_blob_keccaks job !! i), (aj_versioned_hashes job !! i); try apply erases_panic.
  destruct (find_first _ scs) as [s|]; [|apply erases_fail].
  apply erases_gets. intros t0. apply erases_rethrow; [apply erases_unmetered|..]; intros x.
  - apply erases_gets. intros t1. apply erases_before; [apply silent_meter|]. apply erases_before; [apply silent_meter|].
    apply erases_after; [apply erases_unmetered|apply silent_meter].
  - apply erases_gets. intros t1. do 2 (apply erases_before; [apply silent_meter|]). apply erases_fail.
Qed.
Lemma process_job_erases (job : ArchiveJob) :
  erases (metered_process_job (E := E) cf signing_key validator_address job)
    (process_job cf signing_key validator_address job).
Proof.
  unfold metered_process_job, process_job. apply erases_gets. intros t0.
  do 3 (destruct (negb _); [apply erases_fail|]). apply erases_bind; [apply erases_unmetered|]. intros [|s scs]; [apply erases_fail|].
  apply erases_bind; [apply erases_unmetered|]. intros w. apply erases_after; [apply erases_foreach, archive_blob_erases|].
  apply silent_gets. intros t1. apply silent_meter.
Qed.
Lemma process_with_retry_erases (job : ArchiveJob) (attempts : Z) :
  erases (metered_process_with_retry (E := E) cf signing_key validator_address job attempts)
    (process_with_retry cf signing_key validator_address job attempts).
Proof.
  apply erases_bind; [apply erases_attempt, process_job_erases|]. intros [e|[]].
  - apply erases_before; [apply silent_meter|apply erases_unmetered].
  - apply erases_silent, silent_meter.
Qed.
Lemma drain_erases (fuel : nat) (now : Z) :
  erases (metered_drain (E := E) cf signing_key validator_address fuel now)
    (drain cf signing_key validator_address fuel now).
Proof.
  induction fuel as [|fuel IH]; cbn [metered_drain drain]; (apply erases_bind; [apply erases_unmetered|]); intros w;
    (destruct (wk_retry_queue w) as [|e rest]; [apply erases_ret|]); (destruct (_ <=? _); [|apply erases_ret]); [apply erases_panic|].
  apply erases_bind; [apply erases_unmetered|]. intros _.
  apply erases_bind; [apply process_with_retry_erases|]. intros _. exact IH.
Qed.
Lemma end_of_turn_silent (n : nat) : silent (end_of_turn (E := E) (W := W) n).
Proof. intros s. unfold end_of_turn, bind, unmetered, zoom, get, when. by destruct (_ && _). Qed.

Lemma turn_erases (ev : MeteredEvent) :
  erases (metered_turn (E := E) cf signing_key validator_address ev)
    (worker_turn cf signing_key validator_address (me_event ev)).
Proof.
  unfold metered_turn, worker_turn. apply erases_bind; [apply erases_unmetered|]. intros w.
  apply erases_bind; [apply drain_erases|]. intros _. apply erases_bind; [apply erases_unmetered|]. intros w1.
  destruct (me_event ev) as [waited job| |].
  - apply erases_bind; [apply erases_unmetered|]. intros _. do 2 (apply erases_before; [apply silent_meter|]).
    apply erases_bind; [apply process_with_retry_erases|]. intros _.
    apply erases_before; [apply end_of_turn_silent|apply erases_ret].
  - destruct (bool_decide _).
    + do 2 (apply erases_before; [apply silent_meter|]). apply erases_ret.
    + apply erases_before; [apply end_of_turn_silent|apply erases_ret].
  - destruct (_ <$> _) as [t|]; [|apply erases_ret]. apply erases_bind; [apply erases_unmetered|]. intros _. apply erases_ret.
Qed.

Lemma run_erases (evs : list MeteredEvent) (s s' : Metered (ArchiverWorker E W)) (rest : list MeteredEvent) :
  metered_run cf signing_key validator_address evs s = (s', Ok rest) →
  worker_run cf signing_key validator_address (me_event <$> evs) (mt_state s) = (mt_state s', Ok (me_event <$> rest)).
Proof.
  revert s. induction evs as [|ev evs IH]; intros s; cbn [metered_run worker_run fmap list_fmap].
  { by intros [= <- <-]. }
  unfold bind. rewrite (turn_erases ev s). destruct (metered_turn _ _ _ ev s) as [s1 [stop|e|]]; cbn [fst snd]; [|done..].
  destruct stop; [by intros [= <- <-]|]. apply IH.
Qed.

(** Metrics never stop a run. *)
Lemma run_completes (evs : list MeteredEvent) : ∀ (s : Metered (ArchiverWorker E W)) w rest0,
  worker_run cf signing_key validator_address (me_event <$> evs) (mt_state s) = (w, Ok rest0) →
  ∃ s' rest, metered_run cf signing_key validator_address evs s = (s', Ok rest).
Proof.
  induction evs as [|ev evs IH]; intros s w rest0; cbn [metered_run worker_run fmap list_fmap]; [by eexists _, _|].
  unfold bind. rewrite (turn_erases ev s). destruct (metered_turn _ _ _ ev s) as [s1 [stop|e|]]; cbn [fst snd]; [|done..].
  destruct stop; [by eexists _, _|]. apply IH.
Qed.

(** ** The books of the worker *)

(** A counter or gauge has grown by [n], up to wrapping around. *)
Definition counts (n a a' : Z) : Prop := a' mod 2^64 = (a + n) mod 2^64.

Lemma counts_trans (n n' a b c : Z) : counts n a b → counts n' b c → counts (n + n') a c.
Proof.
  unfold counts. intros Hb Hc. rewrite Hc, Z.add_assoc, <-(Zplus_mod_idemp_l b n'), <-(Zplus_mod_idemp_l (a + n) n').
  by rewrite Hb.
Qed.
Lemma counts_refl (a : Z) : counts 0 a a.
Proof. unfold counts. by rewrite Z.add_0_r. Qed.
Lemma counts_add64 (a n : Z) : counts n a (add64 a n).
Proof. unfold counts, add64, wrap64. by rewrite Zmod_mod. Qed.
Lemma to_i64_cong (z : Z) : to_i64 (wrap64 z) mod 2^64 = z mod 2^64.
Proof.
  unfold to_i64, wrap64. destruct (_ <? _); [by rewrite Zmod_mod|].
  replace (z mod 2^64 - 2^64) with (z mod 2^64 + (-1) * 2^64) by lia. by rewrite Z_mod_plus_full, Zmod_mod.
Qed.
Lemma counts_gauge (a n : Z) : counts n a (gauge_add a (to_i64 (wrap64 n))).
Proof.
  unfold counts, gauge_add. rewrite to_i64_cong, <-(Zplus_mod_idemp_r (to_i64 _)), to_i64_cong. by rewrite Zplus_mod_idemp_r.
Qed.

Abbreviation Mw := (Metered (ArchiverWorker E W)) (only parsing).
Local Abbreviation ctr s := (am_counters (mt_metrics s)).
Local Abbreviation gau s := (am_gauges (mt_metrics s)).

(** Bytes archived follow the notices delivered. *)
Definition archived_counted (s s' : Mw) : Prop :=
  counts (BYTES_PER_BLOB * (Z.of_nat (length (wk_notices (mt_state s'))) - Z.of_nat (length (wk_notices (mt_state s)))))
    (archived_bytes (gau s)) (archived_bytes (gau s')).
(** [n] jobs were taken up; those that were not counted as a success wait. *)
Definition ledger (n : nat) (s s' : Mw) : Prop :=
  archived_counted s s' ∧
  counts (Z.of_nat n + Z.of_nat (length (wk_retry_queue (mt_state s))) - Z.of_nat (length (wk_retry_queue (mt_state s'))))
    (jobs_success_total (ctr s)) (jobs_success_total (ctr s')).

#[local] Instance archived_preorder : PreOrder archived_counted.
Proof.
  split; [intros s; unfold archived_counted; rewrite Z.sub_diag, Z.mul_0_r; apply counts_refl|].
  intros s1 s2 s3 H1 H2. unfold archived_counted in *. pose proof (counts_trans _ _ _ _ _ H1 H2) as H.
  eapply eq_ind_r with (P := λ n, counts n _ _); [exact H|]. lia.
Qed.
Lemma ledger_trans (n n' : nat) (s1 s2 s3 : Mw) : ledger n s1 s2 → ledger n' s2 s3 → ledger (n + n') s1 s3.
Proof.
  intros [A1 C1] [A2 C2]. split; [by transitivity s2|]. pose proof (counts_trans _ _ _ _ _ C1 C2) as H.
  eapply eq_ind_r with (P := λ n, counts n _ _); [exact H|]. lia.
Qed.

(** Within a job the queue and the counts of jobs are left alone. *)
Definition job_books (s s' : Mw) : Prop :=
  archived_counted s s' ∧ wk_retry_queue (mt_state s') = wk_retry_queue (mt_state s) ∧
  jobs_success_total (ctr s') = jobs_success_total (ctr s).
#[local] Instance job_books_preorder : PreOrder job_books.
Proof.
  split; [intros s; by split_and!|]. intros s1 s2 s3 (? & ? & ?) (? & ? & ?). split_and!; [by transitivity s2|congruence..].
Qed.
(** Updates of other metrics. *)
Definition other_metric (f : ArchiveMetrics → ArchiveMetrics) : Prop :=
  ∀ m, archived_bytes (am_gauges (f m)) = archived_bytes (am_gauges m) ∧
       jobs_success_total (am_counters (f m)) = jobs_success_total (am_counters m).
Lemma meter_books (f : ArchiveMetrics → ArchiveMetrics) : other_metric f → steps (E := string) job_books (meter f).
Proof.
  intros Hf s. destruct (Hf (mt_metrics s)) as [H1 H2]. split_and!; [|done|exact H2].
  unfold archived_counted. cbn. rewrite H1, Z.sub_diag, Z.mul_0_r. apply counts_refl.
Qed.
Lemma other_metrics :
  (∀ d, other_metric (observe_upload_blob_duration d)) ∧ (∀ d, other_metric (observe_upload_duration d)) ∧
  (∀ n, other_metric (record_upload_success n)) ∧ other_metric record_upload_failure ∧ other_metric record_job_failure ∧
  (∀ n, other_metric (set_queue_len n)) ∧ (∀ h, other_metric (set_backlog_height h)).
Proof.
  unfold other_metric. split_and!; intros; repeat match goal with m : ArchiveMetrics |- _ => destruct m as [[] [] []] end; done.
Qed.

(** What leaves the notices and the queue alone. *)
Lemma unmetered_books {A} (c : M (ArchiverWorker E W) string A) :
  steps (λ w w', wk_notices w' = wk_notices w ∧ wk_retry_queue w' = wk_retry_queue w) c → steps job_books (unmetered c).
Proof.
  intros Hc. apply (steps_zoom _ _ _ _ _ Hc). intros s w [Hn Hq]. split_and!; [|done..].
  unfold archived_counted. cbn. rewrite Hn, Z.sub_diag, Z.mul_0_r. apply counts_refl.
Qed.
Lemma deliver_books (n : ArchiveNotice) :
  steps job_books (unmetered (deliver (E := E) (W := W) n) ;;; meter (add_archived_bytes BYTES_PER_BLOB)).
Proof.
  intros [[en w ns fs q] m]. unfold bind, unmetered, zoom, deliver. cbn [mt_state wk_notice_faults].
  destruct fs as [|[] fs]; cbn; (split_and!; [|done|by destruct m as [[] [] []]]); unfold archived_counted; cbn;
    rewrite ?length_app, ?Z.sub_diag, ?Z.mul_0_r; [|apply counts_refl|];
    destruct m as [cs [ql bh ab pb] hs]; cbn [length]; rewrite Nat2Z.inj_add;
    (eapply eq_ind_r with (P := λ n, counts n _ _); [apply (counts_gauge ab BYTES_PER_BLOB)|lia]).
Qed.

Lemma archive_blob_books (job : ArchiveJob) (scs : list BlobSidecar) (t : Z) (b : nat * Z) :
  steps job_books (metered_archive_blob (E := E) cf signing_key validator_address job scs t b).
Proof.
  unfold metered_archive_blob. destruct b as [i idx]. destruct other_metrics as (Ho1 & _ & Ho3 & Ho4 & _).
  destruct (aj_commitments job !! i), (aj_blob_keccaks job !! i), (aj_versioned_hashes job !! i);
    try (apply steps_panic; apply _).
  destruct (find_first _ scs) as [s|]; [|apply steps_fail; apply _].
  apply steps_bind; [apply _|by intros x|intros t0]. apply steps_bind; [apply _| |intros r].
  { apply steps_attempt, unmetered_books. by intros w; unfold zoom; destruct (upload_blob _ _ _ _). }
  apply steps_bind; [apply _|by intros x|intros t1]. apply steps_bind; [apply _|apply meter_books, Ho1|intros _].
  destruct r as [e|locator]; (apply steps_bind; [apply _|apply meter_books; auto|intros _]); [apply steps_fail; apply _|].
  apply deliver_books.
Qed.
Lemma process_job_books (job : ArchiveJob) :
  steps job_books (metered_process_job (E := E) cf signing_key validator_address job).
Proof.
  unfold metered_process_job. apply steps_bind; [apply _|by intros x|intros t0].
  do 3 (destruct (negb _); [apply steps_fail; apply _|]).
  apply steps_bind; [apply _| |intros scs].
  { apply unmetered_books. intros w. unfold zoom. destruct (map_err _ _ _) eqn:Hm. split; reflexivity. }
  destruct scs as [|s scs]; [apply steps_fail; apply _|]. apply steps_bind; [apply _|by intros []|intros w].
  apply steps_bind; [apply _|apply steps_foreach; [apply _|intros b _; apply archive_blob_books]|intros _].
  apply steps_bind; [apply _|by intros x|intros t1]. apply meter_books, other_metrics.
Qed.

Lemma job_books_ledger (s s' : Mw) : job_books s s' → ledger 0 s s'.
Proof. intros (Ha & Hq & Hj). split; [done|]. rewrite Hq, Hj, Z.add_0_l, Z.sub_diag. apply counts_refl. Qed.

Lemma process_with_retry_ledger (job : ArchiveJob) (attempts : Z) (s s' : Mw) :
  metered_process_with_retry cf signing_key validator_address job attempts s = (s', Ok tt) → ledger 1 s s'.
Proof.
  unfold metered_process_with_retry. intros (r & s1 & H1 & Hr)%bind_run_Ok.
  apply (run_steps job_books) in H1 as (Ha & Hq & Hj); [|apply steps_attempt, process_job_books].
  destruct r as [e|[]].
  - injection Hr as <-. destruct s1 as [[en w ns fs q] [[] [] hs]]. cbn in *. split; [exact Ha|]. cbn. subst q.
    rewrite length_app. cbn [length]. unfold counts. rewrite Hj. f_equal. lia.
  - injection Hr as <-. destruct s1 as [[en w ns fs q] [[] [] hs]]. cbn in *. split; [exact Ha|]. cbn. rewrite Hq, Hj.
    replace (1 + _ - _) with 1 by lia. apply counts_add64.
Qed.

Lemma drain_ledger (fuel : nat) (now : Z) : ∀ s s' : Mw,
  metered_drain cf signing_key validator_address fuel now s = (s', Ok tt) → ledger 0 s s'.
Proof.
  induction fuel as [|fuel IH]; intros s s'; cbn [metered_drain]; intros (w & s1 & H1 & Hr)%bind_run_Ok;
    destruct s as [st m]; injection H1 as <- <-; cbn [mt_state mt_metrics] in *;
    destruct (wk_retry_queue st) as [|e rest] eqn:Hq; try (injection Hr as <-; by apply job_books_ledger);
    (destruct (_ <=? _); [|injection Hr as <-; by apply job_books_ledger]); [done|].
  apply bind_run_Ok in Hr as ([] & s2 & H2 & Hr). injection H2 as <-. cbn [mt_state mt_metrics] in *.
  apply bind_run_Ok in Hr as ([] & s3 & H3 & Hr). apply process_with_retry_ledger in H3. apply IH in Hr.
  destruct (ledger_trans _ _ _ _ _ H3 Hr) as [Ha Hc]. split; [exact Ha|]. cbn in *. rewrite Hq.
  eapply eq_ind_r with (P := λ n, counts n _ _); [exact Hc|]. cbn [length]. lia.
Qed.

Lemma end_of_turn_books (n : nat) : steps job_books (end_of_turn (E := E) (W := W) n).
Proof.
  unfold end_of_turn. apply steps_bind; [apply _|by intros []|intros w]. apply steps_when; [apply _|].
  apply meter_books, other_metrics.
Qed.
Lemma sleep_books (t : Z) (s s' : Mw) :
  unmetered (E := string) (modify (λ w, set_wk_world (sleep_ms t (wk_world w)) w)) s = (s', Ok tt) → ledger 0 s s'.
Proof. intros [= <-]. apply job_books_ledger. split_and!; [|done..]. unfold archived_counted. cbn. rewrite Z.sub_diag, Z.mul_0_r. apply counts_refl. Qed.
Lemma meter_ledger (f : ArchiveMetrics → ArchiveMetrics) (s s' : Mw) :
  other_metric f → meter (E := string) f s = (s', Ok tt) → ledger 0 s s'.
Proof. intros Hf Hm. apply job_books_ledger. eapply run_steps; [|exact Hm]. by apply meter_books. Qed.

(** The jobs of an event. *)
Lemma turn_ledger (ev : MeteredEvent) (s s' : Mw) (stop : bool) :
  metered_turn cf signing_key validator_address ev s = (s', Ok stop) → ledger (length (received [me_event ev])) s s'.
Proof.
  unfold metered_turn. destruct other_metrics as (_ & _ & _ & _ & _ & Ho6 & Ho7).
  intros (w & s1 & H1 & Hr)%bind_run_Ok. destruct s as [st m]. injection H1 as <- <-. cbn [mt_state mt_metrics] in *.
  apply bind_run_Ok in Hr as ([] & s2 & H2%drain_ledger & Hr). apply bind_run_Ok in Hr as (w2 & s3 & H3 & Hr).
  destruct s2 as [st2 m2]. injection H3 as <- <-. cbn [mt_state mt_metrics] in *.
  change (length (received [me_event ev])) with (0 + length (received [me_event ev]))%nat.
  eapply ledger_trans; [exact H2|]. destruct (me_event ev) as [waited job| |]; cbn [received omap list_omap length].
  - apply bind_run_Ok in Hr as ([] & s4 & H4%sleep_books & Hr).
    apply bind_run_Ok in Hr as ([] & s5 & H5%meter_ledger & Hr); [|apply Ho6].
    apply bind_run_Ok in Hr as ([] & s6 & H6%meter_ledger & Hr); [|apply Ho7].
    apply bind_run_Ok in Hr as ([] & s7 & H7%process_with_retry_ledger & Hr).
    apply bind_run_Ok in Hr as ([] & s8 & H8 & Hr). injection Hr as <- _.
    apply (run_steps _ _ _ _ _ (end_of_turn_books _)), job_books_ledger in H8.
    apply (ledger_trans 0 1 _ s4 _ H4), (ledger_trans 0 1 _ s5 _ H5), (ledger_trans 0 1 _ s6 _ H6), (ledger_trans 1 0 _ s7 _ H7), H8.
  - destruct (bool_decide _).
    + apply bind_run_Ok in Hr as ([] & s4 & H4%meter_ledger & Hr); [|apply Ho6].
      apply bind_run_Ok in Hr as ([] & s5 & H5%meter_ledger & Hr); [|apply Ho7]. injection Hr as <- _.
      apply (ledger_trans 0 0 _ s4 _ H4), H5.
    + apply bind_run_Ok in Hr as ([] & s4 & H4 & Hr). injection Hr as <- _.
      by apply (run_steps _ _ _ _ _ (end_of_turn_books _)), job_books_ledger in H4.
  - destruct (_ <$> _) as [t|]; [|injection Hr as <- _; by apply job_books_ledger].
    apply bind_run_Ok in Hr as ([] & s4 & H4 & Hr). injection Hr as <- _. revert H4. unfold when.
    destruct (0 <? t); [apply sleep_books|]. intros [= <-]. by apply job_books_ledger.
Qed.

Lemma run_ledger (evs : list MeteredEvent) : ∀ (s s' : Mw) (rest : list MeteredEvent),
  metered_run cf signing_key validator_address evs s = (s', Ok rest) →
  ∃ taken, evs = taken ++ rest ∧ ledger (length (received (me_event <$> taken))) s s'.
Proof.
  induction evs as [|ev evs IH]; intros s s' rest; cbn [metered_run].
  { intros [= <- <-]. exists []. split; [done|]. by apply job_books_ledger. }
  intros (stop & s1 & H1%turn_ledger & Hr)%bind_run_Ok. destruct stop.
  { injection Hr as <- <-. exists [ev]. split; [done|exact H1]. }
  apply IH in Hr as (taken & -> & Hl). exists (ev :: taken). split; [done|].
  replace (length _) with (length (received [me_event ev]) + length (received (me_event <$> taken)))%nat.
  { by eapply ledger_trans. }
  cbn. by destruct (me_event ev).
Qed.

Context (TL : TimerLaws W TM) (HL : ArchiveHttpLaws W HT TM).
Context (HE : ∀ h, panicless (be_get_for_import (E := E) h)).

(** C38: the archiver's metrics keep its books.  A run of the worker with its
    metrics ends, and does what the run without them does; and then the successes
    counted are the jobs taken up less those still waiting to be retried, and the
    bytes counted as archived are those of the notices delivered, up to
    wrap-around. *)
Theorem archive_metrics_account (evs : list MeteredEvent) (s : Metered (ArchiverWorker E W)) :
  Forall event_ok (me_event <$> evs) → wk_retry_queue (mt_state s) = [] →
  ∃ s' rest taken, metered_run cf signing_key validator_address evs s = (s', Ok rest) ∧
    worker_run cf signing_key validator_address (me_event <$> evs) (mt_state s) = (mt_state s', Ok (me_event <$> rest)) ∧
    evs = taken ++ rest ∧
    counts (Z.of_nat (length (received (me_event <$> taken))) - Z.of_nat (length (wk_retry_queue (mt_state s'))))
      (jobs_success_total (am_counters (mt_metrics s))) (jobs_success_total (am_counters (mt_metrics s'))) ∧
    counts (BYTES_PER_BLOB * (Z.of_nat (length (wk_notices (mt_state s'))) - Z.of_nat (length (wk_notices (mt_state s)))))
      (archived_bytes (am_gauges (mt_metrics s))) (archived_bytes (am_gauges (mt_metrics s'))).
Proof using TL HL HE.
  intros Hev Hq. destruct (worker_run_run cf signing_key validator_address TL HL HE _ (mt_state s) Hev)
    as (w & rest0 & _ & Hw & _); [unfold queue_ok; by rewrite Hq|].
  apply run_completes in Hw as (s' & rest & Hr). pose proof (run_erases _ _ _ _ Hr) as He.
  apply run_ledger in Hr as Hl. destruct Hl as (taken & -> & Ha & Hc). exists s', rest, taken.
  rewrite Hq, Z.add_0_r in Hc. by split_and!.
Qed.
End worker_erasure.

(** ** The handlers *)

Section handler_metrics.
Context {E : Type} {B : BlobEngine E} {C : Crypto} {ML : MerkleTreeLib} {NC : NodeCodecs}.
Abbreviation Ms := (Metered (State E)) (only parsing).

Lemma prune_erases (h : Height) (m : BlobMetadata) :
  erases (metered_prune_archived_height (E := E) h m) (prune_archived_height h m).
Proof.
  unfold metered_prune_archived_height, prune_archived_height. destruct (_ || _); [apply erases_ret|].
  do 2 (apply erases_bind; [apply erases_unmetered|intros _]). apply erases_before; [apply silent_meter|].
  apply erases_bind; [apply erases_unmetered|intros _; apply erases_unmetered].
Qed.
#[local] Hint Resolve prune_erases : erases.

Lemma record_archive_erases (m : BlobMetadata) (n : ArchiveNotice) :
  erases (metered_record_archive (E := E) m n) (record_archive m n).
Proof. unfold metered_record_archive, record_archive. erases_tac. Qed.
#[local] Hint Resolve record_archive_erases : erases.
Lemma notice_erases (n : ArchiveNotice) :
  erases (metered_handle_archive_notice (E := E) n) (handle_archive_notice n).
Proof. unfold metered_handle_archive_notice, handle_archive_notice. erases_tac. Qed.
Lemma flush_erases : erases (metered_flush_pending_prunes (E := E)) flush_pending_prunes.
Proof.
  unfold metered_flush_pending_prunes, flush_pending_prunes. apply erases_bind; [apply erases_unmetered|]. intros s.
  destruct (decide _); [apply erases_ret|]. apply erases_foreach. intros h. unfold metered_flush_height, flush_height. erases_tac.
Qed.
Lemma rehydrate_height_erases (h : Height) : erases (metered_rehydrate_height (E := E) h) (rehydrate_height h).
Proof. unfold metered_rehydrate_height, rehydrate_height. erases_tac. Qed.

Lemma unmetered_metrics {S Er A} (c : M S Er A) (s s' : Metered S) (r : outcome Er A) :
  unmetered c s = (s', r) → mt_metrics s' = mt_metrics s.
Proof. unfold unmetered, zoom. destruct (c (mt_state s)). by intros [= <- <-]. Qed.

(** What a computation may do to the metrics: nothing, or one update that goes
    with its result. *)
Definition metric_effect {A} (ok : (ArchiveMetrics → ArchiveMetrics) → outcome string A → Prop)
    (c : M Ms string A) : Prop :=
  ∀ s s' r, c s = (s', r) → mt_metrics s' = mt_metrics s ∨ ∃ f, mt_metrics s' = f (mt_metrics s) ∧ ok f r.

Lemma effect_unmetered {A} ok (c : M (State E) string A) : metric_effect ok (unmetered c).
Proof. intros s s' r Hr. left. by eapply unmetered_metrics. Qed.
Lemma effect_ret {A} ok (a : A) : metric_effect ok (ret a).
Proof. intros s s' r [= <- <-]. by left. Qed.
Lemma effect_fail {A} ok (e : string) : metric_effect (A := A) ok (fail e).
Proof. intros s s' r [= <- <-]. by left. Qed.
Lemma effect_bind {A A'} ok (c : M (State E) string A) (k : A → M Ms string A') :
  (∀ a, metric_effect ok (k a)) → metric_effect ok (bind (unmetered c) k).
Proof.
  intros Hk s s' r [(a & s1 & H1 & H2)|(r0 & H1 & _ & _)]%bind_run; apply unmetered_metrics in H1; [|by left].
  rewrite <-H1. by eapply Hk.
Qed.
Lemma effect_count {A} (ok : _ → outcome string A → Prop) (f : ArchiveMetrics → ArchiveMetrics) (e : string) :
  ok f (Err e) → metric_effect ok (meter f ;;; fail e).
Proof. intros Hok s s' r [= <- <-]. right. by exists f. Qed.

(** A prune is counted once it is done. *)
Definition prune_counted (f : ArchiveMetrics → ArchiveMetrics) (r : outcome string unit) : Prop :=
  ∃ n, n ≠ 0 ∧ f = record_pruned n (n * BYTES_PER_BLOB) ∧ r = Ok tt.
Lemma prune_effect (h : Height) (m : BlobMetadata) : metric_effect prune_counted (metered_prune_archived_height h m).
Proof.
  unfold metered_prune_archived_height. destruct (_ || _) eqn:Hb; [apply effect_ret|].
  apply orb_false_iff in Hb as [_ Hn]. apply effect_bind. intros _. apply effect_bind. intros _ s s' r [= <- <-]. right.
  eexists. split; [reflexivity|]. exists (bm_blob_count m). split_and!; [lia|done..].
Qed.

(** Which notices are counted as mismatched. *)
Definition notice_counted (f : ArchiveMetrics → ArchiveMetrics) (r : outcome string unit) : Prop :=
  prune_counted f r ∨
  f = record_receipt_mismatch ∧
    (r = Err "ArchiveNotice archived_by does not match proposer"%string ∨ r = Err "Conflicting ArchiveNotice"%string).

(** The metrics of a notice: handled as without them; a successful one may have
    pruned its height, which is counted; of the refused ones only those of another
    proposer and conflicting ones are counted. *)
Lemma notice_metrics_account (n : ArchiveNotice) (s s' : Ms) (r : outcome string unit) :
  metered_handle_archive_notice n s = (s', r) →
  handle_archive_notice n (mt_state s) = (mt_state s', r) ∧
  (mt_metrics s' = mt_metrics s ∨ ∃ f, mt_metrics s' = f (mt_metrics s) ∧ notice_counted f r).
Proof.
  intros Hr. pose proof (notice_erases n s) as He. rewrite Hr in He. split; [exact He|]. clear He. revert s s' r Hr.
  change (metric_effect notice_counted (metered_handle_archive_notice n)). unfold metered_handle_archive_notice.
  apply effect_bind. intros s. destruct (find_first _ _) as [v|]; [|apply effect_fail].
  destruct (negb _); [apply effect_fail|]. apply effect_bind. intros om. apply effect_bind. intros m.
  destruct (_ <=? _); [apply effect_fail|]. apply effect_bind. intros expected.
  destruct (match expected with Some _ => _ | None => _ end); [apply effect_count; right; auto|].
  apply effect_bind. intros m1. destruct (archival_status _ _) as [|existing].
  2: { destruct (same_receipt _ _); [apply effect_ret|apply effect_count; right; auto]. }
  unfold metered_record_archive. apply effect_bind. intros _. apply effect_bind. intros m2. apply effect_bind. intros _.
  destruct (_ && _); [|apply effect_ret]. apply effect_bind. intros _. apply effect_bind. intros s1.
  destruct (is_height_finalized _ _); [|apply effect_unmetered]. intros s2 s3 r Hr.
  destruct (prune_effect _ _ _ _ _ Hr) as [?|(f & ? & ?)]; [by left|right]. exists f. split; [done|by left].
Qed.

(** Blobs handed out are counted, as are requests for pruned ones. *)
Lemma served_metrics (h : Height) (s s' : Ms) (blobs : list BlobSidecar) :
  metered_get_blobs h s = (s', Ok blobs) → mt_metrics s' = record_served (Z.of_nat (length blobs)) (mt_metrics s).
Proof.
  unfold metered_get_blobs. intros (r & s1 & H1%unmetered_metrics & Hr)%bind_run_Ok.
  assert (metered_serve (be_get_for_import h) s1 = (s', Ok blobs) →
    mt_metrics s' = record_served (Z.of_nat (length blobs)) (mt_metrics s)) as Hs.
  { intros (bs & s2 & H2%unmetered_metrics & Hm)%bind_run_Ok. injection Hm as <- <-. cbn. by rewrite H2, H1. }
  destruct r as [e|[m|]]; [by apply Hs| |by apply Hs]. destruct (bm_pruned m); [|by apply Hs].
  unfold metered_serve_pruned in Hr. apply bind_run_Ok in Hr as (? & s2 & _ & Hf). unfold unmetered, zoom, serve_pruned, fail in Hf.
  by injection Hf.
Qed.
End handler_metrics.

(** ** What is exposed *)

(** The metrics of the archive pipeline, of the blob engine
    ([crates/blob_engine/src/metrics.rs]) and of the database
    ([crates/consensus/src/metrics.rs]). *)
Inductive ArchiveMetric :=
| JobsSuccess | JobsFailure | UploadSuccess | UploadFailures | UploadBytes | ReceiptMismatch | Pruned | Served
| ServedArchived | QueueLen | BacklogHeight | ArchivedBytes | PrunedBytes | UploadDuration | UploadBlobDuration
| NoticePropagation.
Inductive EngineMetric :=
| VerificationsSuccess | VerificationsFailure | VerificationTime | StorageBytesUndecided | StorageBytesDecided
| UndecidedBlobCount | BlobsPerBlock | LifecyclePromoted | LifecycleDropped | LifecyclePruned | StaleRoundCleanup
| RestreamRebuilds | SyncFailures | SyncPackagesRejected | CleanupFailures | OrphanedBlobsDropped.
Inductive DbMetric :=
| DbSize | DbWriteBytes | DbReadBytes | DbKeyReadBytes | DbReadCount | DbWriteCount | DbDeleteCount | DbReadTime
| DbWriteTime | DbDeleteTime.
#[export] Instance ArchiveMetric_eq_dec : EqDecision ArchiveMetric.
Proof. solve_decision. Defined.
#[export] Instance EngineMetric_eq_dec : EqDecision EngineMetric.
Proof. solve_decision. Defined.
#[export] Instance DbMetric_eq_dec : EqDecision DbMetric.
Proof. solve_decision. Defined.

(** [ArchiveMetrics::register]: names under the prefix [archiver]. *)
Definition archive_registry : list (string * ArchiveMetric) := [
  ("jobs_success", JobsSuccess); ("jobs_failure", JobsFailure); ("upload_success", UploadSuccess);
  ("upload_failures", UploadFailures); ("upload_bytes", UploadBytes); ("receipt_mismatch", ReceiptMismatch);
  ("pruned", Pruned); ("served", Served); ("served_archived", ServedArchived); ("queue_len", QueueLen);
  ("backlog_height", BacklogHeight); ("archived_bytes", ArchivedBytes); ("pruned_bytes", PrunedBytes);
  ("upload_duration_seconds", UploadDuration); ("upload_blob_duration_seconds", UploadBlobDuration);
  ("notice_propagation_seconds", NoticePropagation)]%string.
(** [BlobEngineMetrics::register]: under [blob_engine]. *)
Definition engine_registry : list (string * EngineMetric) := [
  ("verifications_success", VerificationsSuccess); ("verifications_failure", VerificationsFailure);
  ("verification_time", VerificationTime); ("storage_bytes_undecided", StorageBytesUndecided);
  ("storage_bytes_decided", StorageBytesDecided); ("undecided_blob_count", UndecidedBlobCount);
  ("blobs_per_block", BlobsPerBlock); ("lifecycle_promoted", LifecyclePromoted);
  ("lifecycle_dropped", LifecycleDropped); ("lifecycle_pruned", LifecyclePruned);
  ("stale_round_cleanup", StaleRoundCleanup); ("restream_rebuilds", RestreamRebuilds);
  ("sync_failures", SyncFailures); ("sync_packages_rejected", SyncPackagesRejected);
  ("cleanup_failures", CleanupFailures); ("orphaned_blobs_dropped", OrphanedBlobsDropped)]%string.
(** [DbMetrics::register]: under [app_channel]. *)
Definition db_registry : list (string * DbMetric) := [
  ("db_size", DbSize); ("db_write_bytes", DbWriteBytes); ("db_read_bytes", DbReadBytes);
  ("db_key_read_bytes", DbKeyReadBytes); ("db_read_count", DbReadCount); ("db_write_count", DbWriteCount);
  ("db_delete_count", DbDeleteCount); ("db_read_time", DbReadTime); ("db_write_time", DbWriteTime);
  ("db_delete_time", DbDeleteTime)]%string.

Definition exposed_names : list string :=
  (λ e : string * ArchiveMetric, ("archiver_" +:+ e.1)%string) <$> archive_registry.
Definition all_names : list string :=
  exposed_names ++ ((λ e : string * EngineMetric, ("blob_engine_" +:+ e.1)%string) <$> engine_registry)
  ++ ((λ e : string * DbMetric, ("app_channel_" +:+ e.1)%string) <$> db_registry).

(** Every metric is exposed, once, and no two share a name. *)
Lemma metrics_exposed_once :
  NoDup all_names ∧ (NoDup archive_registry.*2 ∧ ∀ m, m ∈ archive_registry.*2) ∧
  (NoDup engine_registry.*2 ∧ ∀ m, m ∈ engine_registry.*2) ∧ (NoDup db_registry.*2 ∧ ∀ m, m ∈ db_registry.*2).
Proof.
  split_and!; try (apply (bool_decide_unpack _); vm_compute; exact I);
    intros []; apply (bool_decide_unpack _); vm_compute; exact I.
Qed.

(** *** The counters of the database *)

Record DbMetrics := mkDbMetrics {
  db_size : Z; db_write_bytes : Z; db_read_bytes : Z; db_key_read_bytes : Z; db_read_count : Z; db_write_count : Z;
  db_delete_count : Z; db_read_time : list Z; db_write_time : list Z; db_delete_time : list Z }.
Definition DbMetrics_new : DbMetrics := mkDbMetrics 0 0 0 0 0 0 0 [] [] [].

(** Nothing calls it ([allow(dead_code)]). *)
Definition set_db_size (size : Z) (m : DbMetrics) : DbMetrics :=
  let '(mkDbMetrics _ wb rb kb rc wc dc rt wt dt) := m in mkDbMetrics (to_i64 (wrap64 size)) wb rb kb rc wc dc rt wt dt.

(** The updates the database makes; the size is set by none. *)
Inductive DbUpdate :=
| AddWriteBytes (bytes : Z) | AddReadBytes (bytes : Z) | AddKeyReadBytes (bytes : Z)
| ObserveReadTime (d : Z) | ObserveWriteTime (d : Z) | ObserveDeleteTime (d : Z).
Definition db_update (u : DbUpdate) (m : DbMetrics) : DbMetrics :=
  let '(mkDbMetrics sz wb rb kb rc wc dc rt wt dt) := m in
  match u with
  | AddWriteBytes n => mkDbMetrics sz (add64 wb n) rb kb rc (add64 wc 1) dc rt wt dt
  | AddReadBytes n => mkDbMetrics sz wb (add64 rb n) kb (add64 rc 1) wc dc rt wt dt
  | AddKeyReadBytes n => mkDbMetrics sz wb rb (add64 kb n) rc wc dc rt wt dt
  | ObserveReadTime d => mkDbMetrics sz wb rb kb rc wc dc (rt ++ [d]) wt dt
  | ObserveWriteTime d => mkDbMetrics sz wb rb kb rc wc dc rt (wt ++ [d]) dt
  | ObserveDeleteTime d => mkDbMetrics sz wb rb kb rc wc dc rt wt (dt ++ [d])
  end.

Definition times_deletion (u : DbUpdate) : bool := match u with ObserveDeleteTime _ => true | _ => false end.
(** Deletions are timed but never counted, and the size stays zero. *)
Lemma deletions_never_counted (us : list DbUpdate) :
  let m := foldl (λ m u, db_update u m) DbMetrics_new us in
  db_delete_count m = 0 ∧ db_size m = 0 ∧
  length (db_delete_time m) = length (filter (λ u, times_deletion u = true) us).
Proof.
  induction us as [|u us IH] using rev_ind; [done|]. cbn zeta in *. rewrite foldl_app, filter_app, length_app. cbn [foldl].
  destruct (foldl _ DbMetrics_new us) as [sz wb rb kb rc wc dc rt wt dt]. cbn in IH. destruct IH as (-> & -> & <-).
  by destruct u; cbn; rewrite ?length_app, ?Nat.add_0_r.
Qed.

(** ** Concrete inputs *)

Module MetricsDemo.
#[local] Existing Instances demo_crypto demo_notice_prost demo_timer demo_http.

(** An engine with two blobs. *)
Definition blob_of (i : Z) : BlobSidecar :=
  mkSidecar i [9] (replicate 48 2) (zeros 48) (mkSignedHeader (mkBeaconHeader 7 0 B256_ZERO B256_ZERO B256_ZERO)
    (zeros 64)) [].
#[local] Instance two_blobs : BlobEngine unit := {|
  be_verify_and_store _ _ _ e := (e, Ok tt); be_mark_decided _ _ e := (e, Ok tt);
  be_get_for_import _ e := (e, Ok [blob_of 0; blob_of 1]); be_drop_round _ _ e := (e, Ok tt);
  be_mark_archived _ _ e := (e, Ok tt); be_prune_archived_before _ e := (e, Ok 0);
  be_get_undecided_blobs _ _ e := (e, Ok []) |}.
Lemma two_blobs_panicless (h : Height) : panicless (be_get_for_import (E := unit) h).
Proof. by intros ?. Qed.
Definition job_at (h : Height) (indices : list Z) : ArchiveJob :=
  mkJob h (RSome 0) indices (replicate (length indices) (replicate 48 2))
    (replicate (length indices) (zeros 32)) (replicate (length indices) (zeros 32)).
(** The provider is up after two seconds; deliveries fail as given. *)
Definition metered_at (t : Z) (faults : list bool) : Metered (ArchiverWorker unit Z) :=
  mkMetered (mkWorker tt t [] faults []) ArchiveMetrics_new.
Abbreviation metered_demo evs s := (metered_run ArchiverConfig_default (zeros 32) (zeros 20) evs s).
Definition taking (job : ArchiveJob) : MeteredEvent := mkEvent (JobReceived 10 job) 0 0.
Definition elapsed : MeteredEvent := mkEvent RetryElapsed 0 0.

(** A job fails once, and succeeds when it is retried. *)
Definition retried_events : list MeteredEvent := [taking (job_at 7 [0; 1]); elapsed; elapsed].
Lemma archive_metrics_account_witness :
  ∃ s' rest taken, metered_demo retried_events (metered_at 3000 [false; true]) = (s', Ok rest) ∧
    retried_events = taken ++ rest ∧
    counts (Z.of_nat (length (received (me_event <$> taken))) - Z.of_nat (length (wk_retry_queue (mt_state s')))) 0
      (jobs_success_total (am_counters (mt_metrics s'))) ∧
    counts (BYTES_PER_BLOB * (Z.of_nat (length (wk_notices (mt_state s'))) - 0)) 0
      (archived_bytes (am_gauges (mt_metrics s'))).
Proof.
  destruct (archive_metrics_account ArchiverConfig_default (zeros 32) (zeros 20) demo_timer_laws demo_http_laws
    two_blobs_panicless retried_events (metered_at 3000 [false; true])) as (s' & rest & taken & Hr & _ & Ht & Hc & Ha).
  - repeat constructor; simpl; lia.
  - reflexivity.
  - exists s', rest, taken. split; [exact Hr|]. split; [exact Ht|]. split; [exact Hc|exact Ha].
Defined.
Definition retried_run := metered_demo retried_events (metered_at 3000 [false; true]).

(** Two blobs, three times their size: the first blob was delivered, and counted,
    in both attempts. *)
Example retried_bytes_counted_twice :
  archived_bytes (am_gauges (mt_metrics retried_run.1)) = 3 * BYTES_PER_BLOB ∧
  upload_success_total (am_counters (mt_metrics retried_run.1)) = 4 ∧
  jobs_success_total (am_counters (mt_metrics retried_run.1)) = 1.
Proof. vm_compute. repeat split. Qed.

(** Nothing is pending any more, but the backlog still shows the height. *)
Example backlog_not_cleared_by_retry :
  wk_retry_queue (mt_state retried_run.1) = [] ∧ backlog_height (am_gauges (mt_metrics retried_run.1)) = 7.
Proof. vm_compute. repeat split. Qed.

(** The oldest pending height is 7, the backlog shows 9. *)
Example backlog_shows_latest :
  let s := (metered_demo [taking (job_at 7 [0]); taking (job_at 9 [0])] (metered_at 3000 [true])).1 in
  (aj_height ∘ re_job) <$> wk_retry_queue (mt_state s) = [7] ∧ backlog_height (am_gauges (mt_metrics s)) = 9.
Proof. vm_compute. repeat split. Qed.
End MetricsDemo.
