(* ===== verification/App.v ===== *)
(** * The application loop ([crates/node/src/app.rs])

    The node is driven by messages: the consensus engine asks for values to
    propose, forwards proposals, decisions and sync requests, and the archiver
    hands notices back.  Each message is handled by the operations of the other
    files and answered on a reply channel.  The loop is a function of the
    sequence of events it receives; what it publishes and replies is recorded. *)
From S2P Require Import Prelude Types Merkle Streaming Proposal Metadata BlobStore BlobEngine Store Proto State Archival BlobProposal Commit Decide Sync Client.
Open Scope monad_scope.

(** ** Messages and replies *)

(** [None] in the source's [Round] option types is written [Nil]. *)
Inductive AppMsg :=
| ConsensusReady
| StartedRound (height : Height) (round : Round) (proposer : Address)
| GetValue (height : Height) (round : Round) (timeout : Z)
| ExtendVote
| VerifyVoteExtension
| GetHistoryMinHeight
| RestreamProposal (height : Height) (round valid_round : Round) (address : Address)
| ReceivedProposalPart (from : bytes) (part : StreamMessage)
| Decided (certificate : CommitCertificate)
| ProcessSyncedValue (height : Height) (round : Round) (proposer : Address) (value_bytes : bytes)
| GetDecidedValue (height : Height).

Inductive Next := NextStart (height : Height) (vs : ValidatorSet)
                | NextRestart (height : Height) (vs : ValidatorSet).

Record RawDecidedValue := mkRawDecided {
  rd_certificate : CommitCertificate; rd_value_bytes : bytes }.

Inductive Reply :=
| RStartHeight (height : Height) (vs : ValidatorSet)
| RUndecided (values : list ProposedValue)
| RValue (value : LocallyProposedValue)
| RExtension
| RExtensionOk
| RMinHeight (height : Height)
| RProposal (value : option ProposedValue)
| RNext (next : Next)
| RSynced (value : option ProposedValue)
| RDecidedValue (value : option RawDecidedValue).

(** What the loop selects from; the flag of a message says whether its reply
    channel is still open.  [EvConsensus None] and [EvNotice None] are closed
    channels. *)
Inductive Event :=
| EvShutdown
| EvConsensus (msg : option (AppMsg * bool))
| EvNotice (notice : option ArchiveNotice).

(** ** The node *)

(** The consensus state and the execution layer; the parts published to the
    network, with the failures of the sends to come; the replies sent; the jobs
    submitted, and whether there is an archiver and its channel is open; whether
    notices are still received. *)
Record Node (E N : Type) := mkNode {
  nd_state : State E; nd_el : N;
  nd_published : list StreamMessage; nd_net_faults : list bool;
  nd_replies : list Reply;
  nd_jobs : list ArchiveJob; nd_job_tx : option bool;
  nd_notice_rx : bool }.
Arguments mkNode {E N} _ _ _ _ _ _ _ _.
Arguments nd_state {E N} _.
Arguments nd_el {E N} _.
Arguments nd_published {E N} _.
Arguments nd_net_faults {E N} _.
Arguments nd_replies {E N} _.
Arguments nd_jobs {E N} _.
Arguments nd_job_tx {E N} _.
Arguments nd_notice_rx {E N} _.

Definition EL_GATE_COOLDOWN : Z := 500.
Definition EL_FCU_SUCCESS_CACHE : Z := 500.

Section app.
Context {E : Type} {B : BlobEngine E} `{Crypto} `{MerkleTreeLib} `{NodeCodecs} `{TreeHashLib}
  `{PayloadSsz} `{BlockConversion} `{StreamApi} `{KP : Codec SyncedValuePackage}.
Context {N : Type} {EA : EngineApi N} {TM : Timer N}.
(** [payload.as_ssz_bytes()] *)
Context (payload_as_ssz : ExecutionPayloadV3 → bytes).
Context (ec : ExecutionClient) (cfg : ExecutionRetryConfig).

Abbreviation StM A := (M (State E) string A) (only parsing).
Abbreviation NdM A := (M (Node E N) string A) (only parsing).

Definition set_nd_state (v : State E) (n : Node E N) : Node E N :=
  mkNode v (nd_el n) (nd_published n) (nd_net_faults n) (nd_replies n) (nd_jobs n) (nd_job_tx n)
    (nd_notice_rx n).
Definition set_nd_el (v : N) (n : Node E N) : Node E N :=
  mkNode (nd_state n) v (nd_published n) (nd_net_faults n) (nd_replies n) (nd_jobs n) (nd_job_tx n)
    (nd_notice_rx n).
Definition set_nd_pair (p : State E * N) (n : Node E N) : Node E N := set_nd_el p.2 (set_nd_state p.1 n).
Definition set_nd_jobs (v : list ArchiveJob) (n : Node E N) : Node E N :=
  mkNode (nd_state n) (nd_el n) (nd_published n) (nd_net_faults n) (nd_replies n) v (nd_job_tx n)
    (nd_notice_rx n).
Definition set_nd_notice_rx (v : bool) (n : Node E N) : Node E N :=
  mkNode (nd_state n) (nd_el n) (nd_published n) (nd_net_faults n) (nd_replies n) (nd_jobs n)
    (nd_job_tx n) v.

(** A method of the state; of the state with the execution layer; of the
    client. *)
Definition st {A} (c : StM A) : NdM A := zoom nd_state set_nd_state c.
Definition st_el {A} (c : M (State E * N) string A) : NdM A :=
  zoom (λ n, (nd_state n, nd_el n)) set_nd_pair c.
Definition client {A} (c : M N ExecutionError A) : NdM A :=
  zoom nd_el set_nd_el (map_err error_text c).
Definition update (f : State E → State E) : NdM unit := st (modify f).
Definition engine {A} (c : M E BlobEngineError A) : NdM A := st (with_engine c).

(** [match c.await { Err(e) => error!(..), .. }] *)
Definition tried {A} (c : NdM A) : NdM (string + A) := attempt c.

(** [channels.network.send] *)
Definition publish (m : StreamMessage) : NdM unit := λ n,
  match nd_net_faults n with
  | true :: fs =>
    (mkNode (nd_state n) (nd_el n) (nd_published n) fs (nd_replies n) (nd_jobs n) (nd_job_tx n)
       (nd_notice_rx n), Err "network channel closed"%string)
  | fs =>
    (mkNode (nd_state n) (nd_el n) (nd_published n ++ [m]) (tail fs) (nd_replies n) (nd_jobs n)
       (nd_job_tx n) (nd_notice_rx n), Ok tt)
  end.

(** [reply.send]; [false] when nobody waits for it. *)
Definition reply (open : bool) (r : Reply) : NdM bool := λ n,
  if open
  then (mkNode (nd_state n) (nd_el n) (nd_published n) (nd_net_faults n) (nd_replies n ++ [r])
          (nd_jobs n) (nd_job_tx n) (nd_notice_rx n), Ok true)
  else (n, Ok false).
Definition reply_ (open : bool) (r : Reply) : NdM unit := reply open r ;;; ret tt.

(** ** The head of the chain *)

Definition block_of_header (h : ExecutionPayloadHeader) : ExecutionBlock :=
  mkExecutionBlock (eh_block_hash h) (eh_block_number h) (eh_parent_hash h) (eh_timestamp h)
    load_prev_randao.

Definition load_execution_block (height : Height) : StM (option ExecutionBlock) :=
  let* d := attempt (F := string) (with_store (get_decided_value height)) in
  match d with
  | inr (Some d) =>
    ret (Some (block_of_header (vm_execution_payload_header (v_metadata (dv_value d)))))
  | _ =>
    let* m := with_store (get_blob_metadata height) in
    ret ((λ m, block_of_header (bm_execution_payload_header m)) <$> m)
  end.

Definition get_latest_decided_height : StM (option Height) := with_store max_decided_value_height.

Definition load_decided_block : StM (option ExecutionBlock) :=
  let* height := get_latest_decided_height in
  match height with
  | None => ret None
  | Some height => load_execution_block height
  end.

Definition resolve_cl_head : StM ExecutionBlock :=
  let* block := load_decided_block in
  match block with
  | Some block => modify (set_latest_block (Some block)) ;;; ret block
  | None =>
    let* s := get in
    lift (ok_or (s_latest_block s) "latest_block is None; CL head unavailable"%string)
  end.

(** Still in the cool-down after the execution layer was marked degraded. *)
Definition cooling_down (s : State E) (now : Z) : bool :=
  s_el_degraded s && match s_el_degraded_since s with
                     | Some since => now - since <? EL_GATE_COOLDOWN
                     | None => false
                     end.
(** The head was applied a moment ago. *)
Definition recently_applied (s : State E) (head : B256) (now : Z) : bool :=
  match s_last_fcu_head s, s_last_fcu_success s with
  | Some last_head, Some last_success =>
    bool_decide (last_head = head) && (now - last_success <? EL_FCU_SUCCESS_CACHE)
  | _, _ => false
  end.

Definition ensure_el_matches_cl_head : NdM ExecutionBlock :=
  let* head := st resolve_cl_head in
  let* n := get in
  if cooling_down (nd_state n) (now_ms (nd_el n))
  then fail "EL degraded; skipping FCU during cooldown"%string
  else if recently_applied (nd_state n) (eb_block_hash head) (now_ms (nd_el n)) then ret head
  else
    let* r := st_el (on_el (set_latest_forkchoice_state (eb_block_hash head))) in
    let* n := get in
    let now := now_ms (nd_el n) in
    match r with
    | inr _ =>
      update clear_el_degraded ;;;
      update (set_last_fcu_head (Some (eb_block_hash head))) ;;;
      update (set_last_fcu_success (Some now)) ;;;
      ret head
    | inl SyncingForkchoice =>
      update (mark_el_degraded now "EL syncing for head"%string) ;;;
      fail "Execution layer is syncing"%string
    | inl (ForkchoiceFailed e) =>
      update (mark_el_degraded now "EL rejected forkchoice for head"%string) ;;;
      fail e
    end.

(** ** Handlers *)

Definition consensus_ready (open : bool) : NdM unit :=
  client check_capabilities ;;;
  let* block := st load_decided_block in
  match block with
  | Some b => update (set_latest_block (Some b))
  | None => ret tt
  end ;;;
  let* n := get in
  match s_latest_block (nd_state n) with
  | None => fail "latest_block is None after startup; execution genesis not initialized"%string
  | Some _ =>
    let* max_decided := st get_latest_decided_height in
    let start_height := from_option Height_increment (Height_new 1) max_decided in
    tried ensure_el_matches_cl_head ;;;
    let* sent := reply open (RStartHeight start_height (s_genesis_validators (nd_state n))) in
    if sent : bool then ret tt else fail "Failed to send StartHeight reply; consensus channel closed."%string
  end.

Definition started_round (height : Height) (round : Round) (proposer : Address) (open : bool)
    : NdM unit :=
  when (match Round_as_u32 round with Some r => 0 <? r | None => false end)
    (tried (st (cleanup_stale_round_blobs height round)) ;;; ret tt) ;;;
  update (set_current_height height) ;;;
  update (set_current_round round) ;;;
  update (set_current_proposer (Some proposer)) ;;;
  reply_ open (RUndecided []).

(** *** Proposing *)

(** [State::store_undecided_proposal_data] *)
Definition store_undecided_proposal_data (height : Height) (round : Round) (data : bytes)
    (reqs : list bytes) : StM unit :=
  with_store (store_undecided_block_data height round data reqs).

(** Wait for the slot of the next block, if that leaves time to build it. *)
Definition throttle (head : ExecutionBlock) (timeout started_at : Z) : NdM unit :=
  let* n := get in
  let target := add64 (eb_timestamp head) LOAD_MIN_BLOCK_TIME_SECS * 1000 in
  let now := default 0 (unix_ms (nd_el n)) in
  if now <? target then
    let wait := target - now in
    let remaining := Z.max 0 (timeout - (now_ms (nd_el n) - started_at)) in
    let max_wait := Z.max 0 (remaining - 200) in
    if max_wait <? wait
    then fail "Slot throttle exceeds remaining GetValue timeout; refusing to propose"%string
    else modify (λ n, set_nd_el (sleep_ms wait (nd_el n)) n)
  else ret tt.

(** Build, record and store a value on top of [head]. *)
Definition build_and_store (height : Height) (round : Round) (head : ExecutionBlock)
    : NdM (LocallyProposedValue * bytes * list bytes * list BlobSidecar) :=
  let* (result, bundle) := client (generate_block_with_blobs ec head) in
  let reqs := pr_execution_requests result in
  let data := payload_as_ssz (pr_payload result) in
  let* proposal := st (propose_value_with_blobs height round (pr_payload result) reqs bundle) in
  st (store_undecided_proposal_data height round data reqs) ;;;
  let* (_, sidecars) := st (prepare_blob_sidecar_parts proposal bundle) in
  engine (be_verify_and_store height (Round_as_i64 round) sidecars) ;;;
  ret (proposal, data, reqs, sidecars).

Definition handle_get_value (height : Height) (round : Round) (timeout : Z) (open : bool) : NdM unit :=
  let* n := get in
  let started_at := now_ms (nd_el n) in
  let* known := tried (st (with_store (get_block_data height round))) in
  match known with
  | inr (Some _) => ret tt
  | _ =>
    let* head := ensure_el_matches_cl_head in
    throttle head timeout started_at ;;;
    let* (proposal, data, reqs, sidecars) := build_and_store height round head in
    let* sent := reply open (RValue proposal) in
    if negb sent then fail "Failed to send GetValue reply; channel closed"%string
    else
      let stream_sidecars := if decide (sidecars = []) then None else Some sidecars in
      let* msgs := st (stream_proposal_state proposal data stream_sidecars reqs None) in
      foreach msgs publish
  end.

(** *** Streaming again *)

Definition stream_notice (notice : ArchiveNotice) : StM StreamMessage :=
  let* s := get in
  let* (nonce, msg) := lift (stream_archive_notice (s_stream_nonce s) notice) in
  modify (set_stream_nonce nonce) ;;;
  ret msg.

Definition restream_archive_notices (height : Height) : NdM unit :=
  let* notices := st (load_archive_notices height) in
  foreach notices (λ notice, let* msg := st (stream_notice notice) in publish msg).

(** The sidecars to stream with a proposal; no result when it cannot be
    streamed at all. *)
Definition restream_sidecars (height : Height) (round : Round) (address : Address) (m : BlobMetadata)
    : NdM (option (option (list BlobSidecar))) :=
  if bm_blob_count m =? 0 then ret (Some None)
  else
    let* r := st (attempt (get_undecided_blobs_with_status_check height round)) in
    match r with
    | inr [] => ret None
    | inr sidecars =>
      let* n := get in
      let* rebuilt := tried (lift (rebuild_blob_sidecars_for_restream
                               (s_genesis_validators (nd_state n)) (s_signing_key (nd_state n))
                               m address sidecars)) in
      ret (match rebuilt with inr scs => Some (Some scs) | inl _ => None end)
    | inl (BlobsPruned _ _ _) => tried (restream_archive_notices height) ;;; ret (Some None)
    | inl _ => ret None
    end.

(** Under a new round the proposal is stored again, for the commit to find. *)
Definition replicate_round (height : Height) (p : ProposedValue) (round : Round) (address : Address) (data : bytes)
    (reqs : list bytes) (m : BlobMetadata) (sidecars : option (list BlobSidecar)) : NdM unit :=
  st (store_synced_proposal (mkProposed (pv_height p) round (pv_valid_round p) address (pv_value p)
                               (pv_validity p))) ;;;
  st (store_undecided_proposal_data height round data reqs) ;;;
  st (with_store (put_blob_metadata_undecided height round m)) ;;;
  match sidecars with
  | Some scs => engine (be_verify_and_store height (Round_as_i64 round) scs)
  | None => ret tt
  end.

(** Publishing stops at the first failure. *)
Definition publish_all (msgs : list StreamMessage) : NdM unit := tried (foreach msgs publish) ;;; ret tt.

Definition restream_loaded (height : Height) (round proposal_round : Round) (address : Address)
    (p : ProposedValue) : NdM unit :=
  let* data := tried (st (with_store (get_block_data height proposal_round))) in
  match data with
  | inr (Some data) =>
    let* reqs := tried (st (with_store (get_execution_requests height proposal_round))) in
    match reqs with
    | inl _ => ret tt
    | inr reqs =>
      let reqs := default [] reqs in
      let* m := tried (st (load_blob_metadata_for_round height proposal_round)) in
      match m with
      | inr (Some m) =>
        let* sidecars := restream_sidecars height proposal_round address m in
        match sidecars with
        | None => ret tt
        | Some sidecars =>
          let* stored := (if decide (round = proposal_round) then ret (inr tt)
                          else tried (replicate_round height p round address data reqs m sidecars)) in
          match stored with
          | inl _ => ret tt
          | inr _ =>
            let* msgs := st (stream_proposal_state (mkLocal height round (pv_value p)) data sidecars reqs
                               (Some address)) in
            publish_all msgs ;;;
            tried (restream_archive_notices height) ;;; ret tt
          end
        end
      | _ => ret tt
      end
    end
  | _ => ret tt
  end.

Definition restream_proposal (height : Height) (round valid_round : Round) (address : Address)
    : NdM unit :=
  let* n := get in
  if negb (bool_decide (s_address (nd_state n) = address)) then ret tt
  else
    let proposal_round := if decide (valid_round = Nil) then round else valid_round in
    let* p := tried (st (with_store (get_undecided_proposal height proposal_round))) in
    match p with
    | inr (Some p) => restream_loaded height round proposal_round address p
    | _ => ret tt
    end.

(** *** Receiving *)

Definition part_notice (part : StreamMessage) : option ArchiveNotice :=
  content_data (sm_content part) ≫= as_archive_notice.

Definition handle_proposal_part (from : bytes) (part : StreamMessage) (open : bool) : NdM unit :=
  match part_notice part with
  | Some notice => tried (st (handle_archive_notice notice)) ;;; reply_ open (RProposal None)
  | None =>
    let* n := get in
    let* r := tried (st (received_proposal_part (unix_secs (nd_el n)) from part)) in
    match r with
    | inr (Some pv) =>
      let* gate := tried ensure_el_matches_cl_head in
      reply_ open (RProposal (match gate with inr _ => Some pv | inl _ => None end))
    | inr None => reply_ open (RProposal None)
    | inl _ => reply_ open (RProposal None)
    end
  end.

(** *** Deciding *)

Definition realign_latest_block (height : Height) : NdM unit :=
  match Height_decrement height with
  | None => ret tt
  | Some prev =>
    let* b := tried (st (load_execution_block prev)) in
    match b with
    | inr (Some b) =>
      update (λ s, if match s_latest_block s with
                      | Some old => negb (eb_block_number old =? eb_block_number b)
                      | None => true
                      end
                   then set_latest_block (Some b) s else s)
    | _ => ret tt
    end
  end.

Definition restart (height : Height) (open : bool) : NdM unit :=
  let* n := get in
  reply_ open (RNext (NextRestart height (s_genesis_validators (nd_state n)))).

(** [true] when the job is submitted, or there is nothing to submit it to. *)
Definition submit_job (job : option ArchiveJob) : NdM bool :=
  match job with
  | None => ret true
  | Some job =>
    let* n := get in
    match nd_job_tx n with
    | Some true => modify (λ n, set_nd_jobs (nd_jobs n ++ [job]) n) ;;; ret true
    | Some false => ret false
    | None => ret true
    end
  end.

Definition handle_decided (cert : CommitCertificate) (open : bool) : NdM unit :=
  realign_latest_block (cc_height cert) ;;;
  let* data := tried (st (with_store (get_block_data (cc_height cert) (cc_round cert)))) in
  match data with
  | inr (Some (b :: bs)) =>
    let* outcome := tried (st_el (process_decided_certificate cfg cert (b :: bs))) in
    match outcome with
    | inl _ => restart (cc_height cert) open
    | inr outcome =>
      let* submitted := submit_job (do_archive_job outcome) in
      if negb submitted then restart (cc_height cert) open
      else
        let* n := get in
        reply_ open (RNext (NextStart (s_current_height (nd_state n))
                              (s_genesis_validators (nd_state n))))
    end
  | _ => restart (cc_height cert) open
  end.

(** *** Sync *)

Definition handle_synced_value (height : Height) (round : Round) (proposer : Address)
    (value_bytes : bytes) (open : bool) : NdM unit :=
  match decode value_bytes with
  | Panic => panic
  | Err _ => reply_ open (RSynced None)
  | Ok package =>
    let* r := tried (st (process_synced_package height round proposer package)) in
    reply_ open (RSynced (match r with inr pv => pv | inl _ => None end))
  end.

(** The package for a peer, by what is still there. *)
Definition package_for (value : Value) (payload : option bytes)
    (blobs : BlobEngineError + list BlobSidecar) (reqs : list bytes) (notices : list ArchiveNotice)
    : SyncedValuePackage :=
  match payload, blobs with
  | Some payload, inr blobs => SyncFull value payload blobs reqs notices
  | Some payload, inl (BlobsPruned _ _ _) => SyncMetadataOnly value notices (Some payload) reqs
  | _, _ => SyncMetadataOnly value notices None []
  end.

(** The reads behind a served package; [None] when one of them fails. *)
Definition load_package (height : Height) (d : DecidedValue) : StM (option SyncedValuePackage) :=
  let round := cc_round (dv_certificate d) in
  let* payload := attempt (F := string) (with_store (get_block_data height round)) in
  match payload with
  | inl _ => ret None
  | inr payload =>
    let* reqs := attempt (F := string) (with_store (get_execution_requests height round)) in
    match reqs with
    | inl _ => ret None
    | inr reqs =>
      let* blobs := attempt (get_blobs_with_status_check height) in
      let* notices := attempt (F := string) (load_archive_notices height) in
      match notices with
      | inl _ => ret None
      | inr notices =>
        ret (Some (package_for (dv_value d) payload blobs (default [] reqs) notices))
      end
    end
  end.

Definition raw_decided (d : DecidedValue) (package : option SyncedValuePackage)
    : outcome string (option RawDecidedValue) :=
  match package with
  | None => Ok None
  | Some package =>
    match encode package with
    | Ok b => Ok (Some (mkRawDecided (dv_certificate d) b))
    | Err _ => Ok None
    | Panic => Panic
    end
  end.

Definition handle_get_decided_value (height : Height) (open : bool) : NdM unit :=
  let* d := tried (st (with_store (get_decided_value height))) in
  match d with
  | inr (Some d) =>
    let* package := st (load_package height d) in
    let* raw := lift (raw_decided d package) in
    reply_ open (RDecidedValue raw)
  | _ => reply_ open (RDecidedValue None)
  end.

(** *** Notices of the archiver *)

Definition handle_worker_notice (notice : ArchiveNotice) : NdM unit :=
  tried (st (handle_archive_notice notice)) ;;;
  let* msg := st (stream_notice notice) in
  tried (publish msg) ;;; ret tt.

(** ** The loop *)

Definition handle_msg (msg : AppMsg) (open : bool) : NdM unit :=
  match msg with
  | ConsensusReady => consensus_ready open
  | StartedRound height round proposer => started_round height round proposer open
  | GetValue height round timeout => tried (handle_get_value height round timeout open) ;;; ret tt
  | ExtendVote => reply_ open RExtension
  | VerifyVoteExtension => reply_ open RExtensionOk
  | GetHistoryMinHeight => let* h := st get_earliest_height in reply_ open (RMinHeight h)
  | RestreamProposal height round valid_round address =>
    restream_proposal height round valid_round address
  | ReceivedProposalPart from part => handle_proposal_part from part open
  | Decided cert => handle_decided cert open
  | ProcessSyncedValue height round proposer value_bytes =>
    handle_synced_value height round proposer value_bytes open
  | GetDecidedValue height => handle_get_decided_value height open
  end.

(** [true] when the loop is left. *)
Definition app_step (ev : Event) : NdM bool :=
  match ev with
  | EvShutdown => ret true
  | EvConsensus None => fail "Consensus channel closed unexpectedly"%string
  | EvConsensus (Some (msg, open)) => handle_msg msg open ;;; ret false
  | EvNotice notice =>
    let* n := get in
    if negb (nd_notice_rx n) then ret false
    else match notice with
         | Some notice => handle_worker_notice notice ;;; ret false
         | None => modify (set_nd_notice_rx false) ;;; ret false
         end
  end.

Fixpoint app_loop (evs : list Event) : NdM unit :=
  match evs with
  | [] => ret tt
  | ev :: evs => let* stop := app_step ev in if stop : bool then ret tt else app_loop evs
  end.

Definition run (evs : list Event) : NdM unit := st rehydrate_pending_prunes ;;; app_loop evs.
End app.
