(* ===== verification/AppLog.v ===== *)
(** * The node as a replicated log

    Seen from its peers and from the consensus engine, a node is a log of
    decided heights: a decision adds an entry, nothing removes one, and what the
    node answers follows from the log.  This file states that abstraction and
    shows that the application loop of [App.v], with everything below it,
    refines it for every sequence of events. *)
From S2P Require Import Prelude Types Merkle Streaming Proposal Metadata BlobStore BlobEngine Store Proto State Archival BlobProposal Commit Decide Sync Client App.
Open Scope monad_scope.

(** ** Relations on the store along the handlers *)

Lemma store_archive_records_same `{Codec ArchiveRecord} (h : Height) :
  steps same_tables (store_archive_records h).
Proof. apply steps_blocking, read_tx_same. Qed.
Lemma archived_indexes_same (h : Height) : steps same_tables (archived_blob_indexes h).
Proof. apply steps_blocking, read_tx_same. Qed.
Lemma min_decided_value_height_same : steps same_tables min_decided_value_height.
Proof.
  intros s. unfold min_decided_value_height.
  pose proof (steps_blocking same_tables _ (read_tx_same (λ s, Ok (head (sorted_heights (decided_values s))))) s) as Hs.
  by destruct (blocking _ s) as [s' []].
Qed.
#[export] Hint Resolve store_archive_records_same archived_indexes_same min_decided_value_height_same
  max_decided_value_height_same decided_heights_same : steps.

Section store_relations.
Context {E : Type} {B : BlobEngine E} {C : Crypto} {T : MerkleTreeLib} {NC : NodeCodecs} {TH : TreeHashLib}
  {SZ : PayloadSsz} {BC : BlockConversion} {SA : StreamApi}.
Context (Q : Store → Store → Prop) `{!PreOrder Q}.
Context (Hread : ∀ s fs, Q s (with_tx_faults fs s)).
Context (Hop : ∀ op, decides op = false → steps Q (run_op op)).

Definition store_rel (s s' : State E) : Prop := Q (s_store s) (s_store s').
#[export] Instance store_rel_preorder : PreOrder store_rel.
Proof using PreOrder0.
  unfold store_rel. split; [by intros s|]. intros s1 s2 s3 H1 H2. by etrans.
Qed.

Lemma op_store_rel (op : StoreOp) : decides op = false → steps store_rel (with_store (run_op op)).
Proof using Hop. intros Hd. by apply (steps_with_store _ _ _ (Hop op Hd)). Qed.
Lemma read_store_rel {A} (c : M Store StoreError A) : steps same_tables c → steps store_rel (with_store c).
Proof using Hread.
  intros Hc. apply (steps_with_store _ _ _ Hc). intros s st' [fs ->]. apply Hread.
Qed.
Lemma engine_zoom_store_rel {A Er} (c : M E Er A) :
  steps store_rel (zoom s_blob_engine set_blob_engine c).
Proof using PreOrder0.
  apply (steps_zoom _ (λ _ _, True)); [by intros ?|]. intros s e _. by unfold store_rel.
Qed.
Lemma engine_store_rel {A} (c : M E BlobEngineError A) : steps store_rel (with_engine c).
Proof using PreOrder0. apply engine_zoom_store_rel. Qed.
Lemma modify_store_rel {Er} (f : State E → State E) :
  (∀ s, s_store (f s) = s_store s) → steps (E := Er) store_rel (modify f).
Proof using PreOrder0. intros Hf. apply steps_modify. intros s. unfold store_rel. by rewrite Hf. Qed.
Lemma get_store_rel {Er} : steps (E := Er) store_rel get.
Proof using PreOrder0. by apply steps_get, _. Qed.

Ltac by_op op := apply (op_store_rel op); reflexivity.

Lemma writes_store_rel :
  (∀ p, steps store_rel (with_store (store_undecided_proposal p))) ∧
  (∀ h r, steps store_rel (with_store (delete_undecided_proposal h r))) ∧
  (∀ h r d q, steps store_rel (with_store (store_undecided_block_data h r d q))) ∧
  (∀ h r, steps store_rel (with_store (delete_undecided_block_data h r))) ∧
  (∀ h r m, steps store_rel (with_store (put_blob_metadata_undecided h r m))) ∧
  (∀ h r, steps store_rel (with_store (delete_blob_metadata_undecided h r))) ∧
  (∀ h i a, steps store_rel (with_store (insert_archive_record h i a))) ∧
  (∀ h m, steps store_rel (with_store (update_blob_metadata h m))) ∧
  (∀ h r, steps store_rel (with_store (mark_blob_metadata_decided h r))).
Proof using Hop.
  split_and!; intros.
  - by_op (OpStoreProposal p).
  - by_op (OpDeleteProposal h r).
  - by_op (OpStoreUndecidedBlock h r d q).
  - by_op (OpDeleteUndecidedBlock h r).
  - by_op (OpPutBlobUndecided h r m).
  - by_op (OpDeleteBlobUndecided h r).
  - by_op (OpInsertArchive h i a).
  - by_op (OpUpdateBlob h m).
  - by_op (OpMarkDecided h r).
Qed.

Lemma prune_store_rel (h : Height) : steps store_rel (with_store (prune h)).
Proof using Hop.
  assert (steps Q (prune h)) as Hp.
  { intros s. specialize (Hop (OpPrune h) eq_refl s). cbn [run_op] in Hop. unfold bind in Hop.
    by destruct (prune h s) as [s' []]. }
  by apply (steps_with_store _ _ _ Hp).
Qed.

#[local] Hint Resolve read_store_rel engine_store_rel engine_zoom_store_rel get_store_rel prune_store_rel
  : steps.

(** Steps of a method of the state that does not decide. *)
Ltac methods :=
  pose proof writes_store_rel as (? & ? & ? & ? & ? & ? & ? & ? & ?);
  steps_tac; try (by apply modify_store_rel).

Lemma proposer_address_rel h i : steps store_rel (proposer_address_for_height h i).
Proof using Hread PreOrder0. unfold proposer_address_for_height. steps_tac. Qed.
Lemma resolve_parent_rel h : steps store_rel (resolve_parent_root_for_height h).
Proof using Hread PreOrder0. unfold resolve_parent_root_for_height. steps_tac. Qed.
#[local] Hint Resolve proposer_address_rel resolve_parent_rel : steps.

Lemma prune_archived_rel h m : steps store_rel (prune_archived_height h m).
Proof using Hop PreOrder0. unfold prune_archived_height. methods. Qed.
#[local] Hint Resolve prune_archived_rel : steps.

Lemma rehydrate_rel : steps store_rel rehydrate_pending_prunes.
Proof using Hop Hread PreOrder0.
  assert (∀ h, steps store_rel (rehydrate_height h)) as Hh.
  { intros h. unfold rehydrate_height, add_pending_archive, add_pending_prune. methods. }
  unfold rehydrate_pending_prunes. methods.
Qed.
Lemma flush_rel : steps store_rel flush_pending_prunes.
Proof using Hop Hread PreOrder0.
  assert (∀ h, steps store_rel (flush_height h)) as Hh.
  { intros h. unfold flush_height, add_pending_prune. methods. }
  unfold flush_pending_prunes. methods.
Qed.
Lemma archive_notice_rel n : steps store_rel (handle_archive_notice n).
Proof using Hop Hread PreOrder0.
  unfold handle_archive_notice, record_archive, add_pending_prune. methods.
Qed.
Lemma cleanup_rounds_rel h r : steps store_rel (cleanup_stale_round_blobs h r).
Proof using Hop Hread PreOrder0.
  assert (∀ h c r, steps store_rel (cleanup_round h c r)) as Hr.
  { intros h' c r'. unfold cleanup_round. methods. }
  unfold cleanup_stale_round_blobs. methods.
Qed.
Lemma archive_job_rel h r : steps store_rel (build_archive_job h r).
Proof using Hread PreOrder0. unfold build_archive_job. steps_tac. Qed.
#[local] Hint Resolve archive_notice_rel archive_job_rel flush_rel : steps.

Lemma sidecar_parts_rel v b : steps store_rel (prepare_blob_sidecar_parts v b).
Proof using Hread PreOrder0. unfold prepare_blob_sidecar_parts. steps_tac. Qed.
Lemma verify_sidecars_rel h p m scs : steps store_rel (verify_blob_sidecars h p m scs).
Proof using Hread PreOrder0. unfold verify_blob_sidecars. steps_tac. Qed.
#[local] Hint Resolve verify_sidecars_rel : steps.
Lemma propose_rel h r p q b : steps store_rel (propose_value_with_blobs h r p q b).
Proof using Hop Hread PreOrder0.
  unfold propose_value_with_blobs, assert_current, track_blob_round. methods.
Qed.
Lemma received_part_rel now from part : steps store_rel (received_proposal_part now from part).
Proof using Hop Hread PreOrder0.
  assert (∀ parts, steps store_rel (assemble_and_store_blobs now parts)) as Ha.
  { intros parts. unfold assemble_and_store_blobs, store_blob_round, store_blobless_round. methods. }
  unfold received_proposal_part, track_blob_round. methods.
Qed.
Lemma stream_proposal_rel v d scs q p : steps store_rel (stream_proposal_state v d scs q p).
Proof using PreOrder0. unfold stream_proposal_state. steps_tac. by apply modify_store_rel. Qed.

Lemma synced_package_rel h r p pkg : steps store_rel (process_synced_package h r p pkg).
Proof using Hop Hread PreOrder0.
  assert (∀ ns, steps store_rel (handle_synced_notices ns)) as Hns.
  { intros ns. unfold handle_synced_notices, logged. methods. }
  assert (∀ h r p m root hs, steps store_rel (record_synced_metadata h r p m root hs)) as Hrm.
  { intros. unfold record_synced_metadata. methods. }
  assert (∀ h r p m scs, steps store_rel (import_synced_blobs h r p m scs)) as Him.
  { intros. unfold import_synced_blobs, drop_synced_round, drop_synced_metadata, logged. methods. }
  assert (∀ h r d q, steps store_rel (store_synced_block_data h r d q)) as Hsb.
  { intros. unfold store_synced_block_data. methods. }
  unfold process_synced_package, process_synced_full, process_synced_pruned, store_synced_proposal,
    drop_synced_round, drop_synced_metadata, logged.
  assert (∀ b, steps (E := string) store_rel (modify (advance_latest_block b))) as Hadv.
  { intros b. apply modify_store_rel. intros s. unfold advance_latest_block. by repeat case_match. }
  methods.
Qed.

(** *** A decision *)

Section deciding.
Context {N : Type} {X : ExecutionNotifier N} (cfg : ExecutionRetryConfig) (cert : CommitCertificate).
Context (Hdec : ∀ v, steps Q (store_decided_value cert v)).

Lemma decide_commit_rel : commit_rel cert store_rel.
Proof using Hop Hread Hdec PreOrder0.
  destruct writes_store_rel as (_ & _ & _ & _ & _ & Hdel & _ & _ & Hmark).
  split; [split|..]; try (by intros; unfold store_rel); try (intros; apply engine_store_rel).
  - apply _.
  - intros s fs. apply Hread.
  - intros d q. by_op (OpStoreDecidedBlock (cc_height cert) d q).
  - intros s. apply prune_store_rel.
  - intros v. by apply (steps_with_store _ _ _ (Hdec v)).
  - intros m. by_op (OpPutConsensus (cc_height cert) m).
Qed.

Lemma commit_store_rel : steps store_rel (commit cert).
Proof using Hop Hread Hdec PreOrder0.
  pose proof (commit_persist_rel cert _ decide_commit_rel).
  unfold commit, advance_height. steps_tac; by apply modify_store_rel.
Qed.

Lemma mark_store_rel (t : Z) (e : string) (s : State E) : store_rel s (mark_el_degraded t e s).
Proof using PreOrder0. unfold mark_el_degraded, store_rel. by destruct (s_el_degraded s). Qed.

Lemma archive_job_decided_rel (h : Height) (r : Round) (n : Z) : steps store_rel (decided_archive_job h r n).
Proof using Hread PreOrder0.
  assert (∀ h, steps (E := string) store_rel (add_pending_archive h)) as Hadd.
  { intros h'. by apply modify_store_rel. }
  unfold decided_archive_job, when. steps_tac.
Qed.

Lemma decided_certificate_rel (ssz : bytes) :
  steps (pair_step (N := N) store_rel) (process_decided_certificate cfg cert ssz).
Proof using Hop Hread Hdec PreOrder0.
  pose proof (λ A c, on_state_pair (N := N) store_rel (A := A) c) as Hon.
  pose proof (clock_pair (N := N) store_rel). pose proof (λ A c, waited_pair (N := N) store_rel (A := A) c).
  pose proof (forkchoice_first_pair (N := N) cfg store_rel).
  pose proof (await_forkchoice_pair (N := N) cfg store_rel mark_store_rel).
  pose proof (notify_payload_pair (N := N) cfg store_rel mark_store_rel).
  pose proof commit_store_rel. pose proof archive_job_decided_rel.
  assert (∀ f, (∀ s : State E, s_store (f s) = s_store s) →
    steps (pair_step (N := N) store_rel) (on_state (modify f))) as Hmod.
  { intros f Hf. by apply Hon, modify_store_rel. }
  assert (∀ h r hs, steps store_rel (validate_blobs h r hs)) as Hv.
  { intros. unfold validate_blobs, blobs_to_import. steps_tac. }
  assert (∀ h r hs, steps store_rel (decided_versioned_hashes h r hs)) as Hh.
  { intros. unfold decided_versioned_hashes. steps_tac. }
  assert (steps (pair_step (N := N) store_rel) (prepare_decided cfg cert ssz)) as Hp.
  { unfold prepare_decided. steps_tac. }
  assert (steps (pair_step (N := N) store_rel) (execute_decided cfg cert ssz)) as He.
  { unfold execute_decided. steps_tac. }
  unfold process_decided_certificate, settle_decided. steps_tac; by apply Hmod.
Qed.
End deciding.
End store_relations.

(** ** The same for the node *)

Section node_relations.
Context {E : Type} {B : BlobEngine E} {C : Crypto} {T : MerkleTreeLib} {NC : NodeCodecs} {TH : TreeHashLib}
  {SZ : PayloadSsz} {BC : BlockConversion} {SA : StreamApi} {KP : Codec SyncedValuePackage}.
Context {N : Type} {EA : EngineApi N} {TM : Timer N}.
Context (payload_as_ssz : ExecutionPayloadV3 → bytes) (ec : ExecutionClient) (cfg : ExecutionRetryConfig).
Context (Q : Store → Store → Prop) `{!PreOrder Q}.
Context (Hread : ∀ s fs, Q s (with_tx_faults fs s)).
Context (Hop : ∀ op, decides op = false → steps Q (run_op op)).

Abbreviation NdM A := (M (Node E N) string A) (only parsing).

(** The stores are related, and no reply is sent. *)
Definition quiet (n n' : Node E N) : Prop :=
  store_rel Q (nd_state n) (nd_state n') ∧ nd_replies n' = nd_replies n.
Definition node_rel (n n' : Node E N) : Prop := store_rel Q (nd_state n) (nd_state n').
#[export] Instance node_rel_preorder : PreOrder node_rel.
Proof using PreOrder0.
  unfold node_rel. split; [by intros n|]. intros n1 n2 n3 H1 H2. by etrans.
Qed.
#[export] Instance quiet_preorder : PreOrder quiet.
Proof using PreOrder0.
  unfold quiet. split; [by intros n; split|]. intros n1 n2 n3 [H1 ?] [H2 ?]. split; [by etrans|congruence].
Qed.

Lemma st_quiet {A} (c : M (State E) string A) : steps (store_rel Q) c → steps quiet (st c).
Proof. intros Hc. apply (steps_zoom _ _ _ _ _ Hc). by intros n s Hs; split. Qed.
Lemma st_el_quiet {A} (c : M (State E * N) string A) :
  steps (pair_step (store_rel Q)) c → steps quiet (st_el c).
Proof. intros Hc. apply (steps_zoom _ _ _ _ _ Hc). by intros n [s m] Hs; split. Qed.
Lemma client_quiet {A} (c : M N ExecutionError A) : steps quiet (client (E := E) c).
Proof using PreOrder0.
  apply (steps_zoom _ (λ _ _, True)); [by intros ?|]. by intros n m _; split; [unfold store_rel|].
Qed.
Lemma update_quiet (f : State E → State E) : (∀ s, s_store (f s) = s_store s) → steps quiet (update f).
Proof using PreOrder0. intros Hf. by apply st_quiet, modify_store_rel. Qed.
Lemma publish_quiet (m : StreamMessage) : steps quiet (publish m).
Proof using PreOrder0.
  intros n. unfold publish. destruct (nd_net_faults n) as [|[] fs]; by split; [unfold store_rel|].
Qed.
Lemma modify_quiet (f : Node E N → Node E N) :
  (∀ n, nd_state (f n) = nd_state n ∧ nd_replies (f n) = nd_replies n) → steps (E := string) quiet (modify f).
Proof using PreOrder0.
  intros Hf. apply steps_modify. intros n. destruct (Hf n) as [H1 H2]. split; [|done].
  unfold store_rel. by rewrite H1.
Qed.
Lemma get_quiet : steps (E := string) quiet get.
Proof using PreOrder0. by apply steps_get, _. Qed.
Lemma lift_quiet {A} (o : outcome string A) : steps quiet (lift o).
Proof using PreOrder0. by apply steps_lift, _. Qed.
Lemma tried_quiet {A} (c : NdM A) : steps quiet c → steps quiet (tried c).
Proof. apply steps_attempt. Qed.
#[local] Hint Resolve st_quiet st_el_quiet client_quiet publish_quiet get_quiet lift_quiet tried_quiet
  read_store_rel engine_store_rel engine_zoom_store_rel get_store_rel : steps.

Lemma load_execution_block_rel h : steps (store_rel Q) (load_execution_block (E := E) h).
Proof using Hread PreOrder0. unfold load_execution_block. steps_tac. Qed.
#[local] Hint Resolve load_execution_block_rel : steps.
Lemma load_decided_block_rel : steps (store_rel Q) (load_decided_block (E := E)).
Proof using Hread PreOrder0. unfold load_decided_block, get_latest_decided_height. steps_tac. Qed.
#[local] Hint Resolve load_decided_block_rel : steps.
Lemma latest_height_quiet : steps quiet (st get_latest_decided_height).
Proof using Hread PreOrder0. unfold get_latest_decided_height. eauto with steps. Qed.
#[local] Hint Resolve latest_height_quiet : steps.

Lemma ensure_quiet : steps quiet ensure_el_matches_cl_head.
Proof using Hread PreOrder0.
  assert (steps (store_rel Q) (resolve_cl_head (E := E))) as Hr.
  { unfold resolve_cl_head. steps_tac. by apply modify_store_rel. }
  assert (∀ h, steps quiet (st_el (on_el (set_latest_forkchoice_state h)))) as Hf.
  { intros h. apply st_el_quiet, on_el_pair, _. }
  assert (∀ t e, steps quiet (update (mark_el_degraded t e))) as Hm.
  { intros t e. apply update_quiet. intros s. unfold mark_el_degraded. by destruct (s_el_degraded s). }
  unfold ensure_el_matches_cl_head. steps_tac; by apply update_quiet.
Qed.

Lemma stream_notice_quiet n : steps quiet (st (stream_notice n)).
Proof using PreOrder0.
  apply st_quiet. unfold stream_notice. steps_tac. by apply modify_store_rel.
Qed.
#[local] Hint Resolve ensure_quiet stream_notice_quiet : steps.
Lemma restream_notices_quiet h : steps quiet (restream_archive_notices h).
Proof using Hread PreOrder0.
  assert (steps (store_rel Q) (load_archive_notices (E := E) h)) as Hl.
  { unfold load_archive_notices. steps_tac. }
  unfold restream_archive_notices. steps_tac.
Qed.
#[local] Hint Resolve restream_notices_quiet : steps.

(** The parts of the handlers before and after a reply. *)
Lemma throttle_quiet head t s : steps quiet (throttle (E := E) head t s).
Proof using PreOrder0. unfold throttle. steps_tac; by apply modify_quiet. Qed.
Lemma build_quiet h r head : steps quiet (build_and_store payload_as_ssz ec h r head).
Proof using Hop Hread PreOrder0.
  pose proof (propose_rel (E := E) Q Hread Hop). pose proof (sidecar_parts_rel (E := E) Q Hread).
  pose proof (writes_store_rel (E := E) Q Hop) as (_ & _ & ? & _).
  unfold build_and_store, store_undecided_proposal_data, engine. steps_tac.
Qed.
Lemma restream_quiet h r vr a : steps quiet (restream_proposal h r vr a).
Proof using Hop Hread PreOrder0.
  pose proof (writes_store_rel (E := E) Q Hop) as (? & _ & ? & _ & ? & _).
  pose proof (stream_proposal_rel (E := E) Q).
  assert (∀ h r, steps (store_rel Q) (get_undecided_blobs_with_status_check (E := E) h r)) as Hu.
  { intros. unfold get_undecided_blobs_with_status_check, serve_pruned. steps_tac. }
  assert (∀ h r, steps (store_rel Q) (load_blob_metadata_for_round (E := E) h r)) as Hm.
  { intros. unfold load_blob_metadata_for_round. steps_tac. }
  assert (∀ h r a m, steps quiet (restream_sidecars h r a m)) as Hs.
  { intros. unfold restream_sidecars. steps_tac. }
  assert (∀ h p r a d q m scs, steps quiet (replicate_round h p r a d q m scs)) as Hrep.
  { intros. unfold replicate_round, store_undecided_proposal_data, store_synced_proposal, engine. steps_tac. }
  unfold restream_proposal, restream_loaded, publish_all. steps_tac.
Qed.
Lemma realign_quiet h : steps quiet (realign_latest_block h).
Proof using Hread PreOrder0.
  unfold realign_latest_block. steps_tac. apply update_quiet. intros s. by repeat case_match.
Qed.
Lemma submit_quiet j : steps quiet (submit_job j).
Proof using PreOrder0. unfold submit_job. steps_tac; by apply modify_quiet. Qed.
Lemma worker_notice_quiet n : steps quiet (handle_worker_notice n).
Proof using Hop Hread PreOrder0.
  pose proof (archive_notice_rel (E := E) Q Hread Hop). unfold handle_worker_notice. steps_tac.
Qed.
Lemma load_package_quiet h d : steps quiet (st (load_package h d)).
Proof using Hread PreOrder0.
  apply st_quiet. assert (steps (store_rel Q) (get_blobs_with_status_check (E := E) h)) as Hb.
  { unfold get_blobs_with_status_check, serve_pruned. steps_tac. }
  assert (steps (store_rel Q) (load_archive_notices (E := E) h)) as Hl.
  { unfold load_archive_notices. steps_tac. }
  unfold load_package. steps_tac.
Qed.
End node_relations.

(** ** The abstract log *)

(** A decided height has the bytes of its value and those of its certificate. *)
Abbreviation Log := (gmap Z (list Z * option (list Z))) (only parsing).

Definition log_of (s : Store) : Log :=
  map_imap (λ h vb, Some (vb, certificates s !! h)) (decided_values s).

Lemma log_of_lookup (s : Store) (h : Height) :
  log_of s !! h = (λ vb, (vb, certificates s !! h)) <$> decided_values s !! h.
Proof. unfold log_of. rewrite map_lookup_imap. by destruct (decided_values s !! h). Qed.

(** The greatest decided height. *)
Definition log_tip (lg : Log) (m : Height) : Prop :=
  is_Some (lg !! m) ∧ ∀ k, is_Some (lg !! k) → k ≤ m.

Section log_spec.
Context {NC : NodeCodecs} {KP : Codec SyncedValuePackage}.

(** What a reply says about the log. *)
Definition reply_spec (msg : AppMsg) (lg : Log) (rp : Reply) : Prop :=
  match msg, rp with
  | ConsensusReady, RStartHeight h _ => h = 1 ∨ ∃ m, log_tip lg m ∧ h = Height_increment m
  | StartedRound _ _ _, RUndecided vs => vs = []
  | GetValue h r _, RValue v => lv_height v = h ∧ lv_round v = r
  | ExtendVote, RExtension => True
  | VerifyVoteExtension, RExtensionOk => True
  | GetHistoryMinHeight, RMinHeight _ => True
  | ReceivedProposalPart _ _, RProposal _ => True
  | ProcessSyncedValue h r p _, RSynced None => True
  | ProcessSyncedValue h r p b, RSynced (Some pv) =>
    ∃ pkg, decode b = Ok pkg ∧ pv = mkProposed h r Nil p (package_value pkg) Valid
  | GetDecidedValue _, RDecidedValue None => True
  | GetDecidedValue h, RDecidedValue (Some raw) =>
    ∃ vb cb v pkg, lg !! h = Some (vb, Some cb) ∧ decode vb = Ok v ∧ decode cb = Ok (rd_certificate raw) ∧
      package_value pkg = v ∧ encode pkg = Ok (rd_value_bytes raw)
  | _, _ => False
  end.

Definition decided_reply (cert : CommitCertificate) (lg : Log) (rp : Reply) : Prop :=
  match rp with
  | RNext (NextStart h _) => is_Some (lg !! cc_height cert) ∧ Height_increment (cc_height cert) ≤ h
  | RNext (NextRestart h _) => h = cc_height cert
  | _ => False
  end.

(** A decision may leave the log or enter the certificate with a value. *)
Definition log_decide (cert : CommitCertificate) (lg lg' : Log) : Prop :=
  lg' = lg ∨ ∃ vb cb, encode cert = Ok cb ∧ lg' = <[cc_height cert := (vb, Some cb)]> lg.

Inductive log_step (lg : Log) : Event → list Reply → Log → Prop :=
| log_silent ev : log_step lg ev [] lg
| log_reply msg open rp :
    reply_spec msg lg rp → log_step lg (EvConsensus (Some (msg, open))) [rp] lg
| log_decided cert open rs lg' :
    log_decide cert lg lg' → (length rs ≤ 1)%nat → Forall (decided_reply cert lg') rs →
    log_step lg (EvConsensus (Some (Decided cert, open))) rs lg'.

Inductive log_run : Log → list Event → list Reply → Log → Prop :=
| log_run_nil lg : log_run lg [] [] lg
| log_run_cons lg ev rs lg1 evs rs' lg' :
    log_step lg ev rs lg1 → log_run lg1 evs rs' lg' → log_run lg (ev :: evs) (rs ++ rs') lg'.

Lemma log_step_grows lg ev rs lg' : log_step lg ev rs lg' →
  dom lg ⊆ dom lg' ∧
  (∀ h, lg' !! h ≠ lg !! h → ∃ cert o, ev = EvConsensus (Some (Decided cert, o)) ∧ cc_height cert = h).
Proof.
  intros [ev'|msg o rp _|cert o rs' lg1 [->|(vb & cb & _ & ->)] _ _]; try done.
  split; [rewrite dom_insert; set_solver|]. intros h. destruct (decide (h = cc_height cert)) as [->|Hne].
  - intros _. by exists cert, o.
  - by rewrite lookup_insert_ne.
Qed.

(** The log only grows, by decisions of the run; a height whose successor was
    started is in it from then on. *)
Lemma log_run_grows lg evs rs lg' : log_run lg evs rs lg' →
  dom lg ⊆ dom lg' ∧
  (∀ h, lg' !! h ≠ lg !! h → ∃ cert o, EvConsensus (Some (Decided cert, o)) ∈ evs ∧ cc_height cert = h) ∧
  (∀ h vs, RNext (NextStart h vs) ∈ rs → ∃ cert o, EvConsensus (Some (Decided cert, o)) ∈ evs ∧
     is_Some (lg' !! cc_height cert) ∧ Height_increment (cc_height cert) ≤ h).
Proof.
  induction 1 as [lg|lg ev rs lg1 evs rs' lg' Hs Hr (IH1 & IH2 & IH3)].
  { split_and!; try done. by intros h vs ?%elem_of_nil. }
  destruct (log_step_grows _ _ _ _ Hs) as [Hd Hch]. split_and!; [by etrans|..].
  - intros h Hne. destruct (decide (lg1 !! h = lg !! h)) as [Heq|Hne1].
    + destruct (IH2 h) as (cert & o & ? & ?); [congruence|]. exists cert, o. split; [by right|done].
    + destruct (Hch h Hne1) as (cert & o & -> & ?). exists cert, o. split; [by left|done].
  - intros h vs [Hin|Hin]%elem_of_app.
    2: { destruct (IH3 h vs Hin) as (cert & o & ? & ?). exists cert, o. split; [by right|done]. }
    destruct Hs as [ev|msg o rp Hrp|cert o rs0 lg0 _ _ Hf].
    + by apply elem_of_nil in Hin.
    + apply list_elem_of_singleton in Hin as <-. by destruct msg.
    + rewrite Forall_forall in Hf. specialize (Hf _ Hin). exists cert, o. split; [by left|].
      destruct Hf as [Hin' ?]. split; [|done]. apply elem_of_dom, IH1. by apply elem_of_dom.
Qed.
End log_spec.

(** ** What a run leaves of the log *)

Lemma log_same_of (s s' : Store) : log_same s s' → log_of s' = log_of s.
Proof. unfold log_of. by intros [-> ->]. Qed.

Section log_relations.
Context {NC : NodeCodecs}.

Lemma log_entered_decide (cert : CommitCertificate) (s s' : Store) :
  log_entered cert s s' → log_decide cert (log_of s) (log_of s').
Proof.
  intros [Hs|(vb & cb & Hcb & Hv & Hc)]; [left; by apply log_same_of|right].
  exists vb, cb. split; [done|]. apply map_eq. intros h. rewrite log_of_lookup, Hv, Hc.
  destruct (decide (h = cc_height cert)) as [->|Hne].
  - by rewrite !lookup_insert_eq.
  - by rewrite !lookup_insert_ne, log_of_lookup.
Qed.
End log_relations.

(** Facts about the result of a computation, wherever it started. *)
Definition yields {S Er A} (P : A → Prop) (c : M S Er A) : Prop := ∀ s s' a, c s = (s', Ok a) → P a.

Lemma yields_ret {S Er A} (P : A → Prop) (a : A) : P a → yields P (ret (S := S) (E := Er) a).
Proof. by intros HP s s' ? [= _ <-]. Qed.
Lemma yields_bind_with {S Er A A'} (P0 : A → Prop) (P : A' → Prop) (c : M S Er A) (k : A → M S Er A') :
  yields P0 c → (∀ a, P0 a → yields P (k a)) → yields P (bind c k).
Proof.
  intros Hc Hk s s' a [(x & s1 & Hx & Hr)|(? & _ & _ & ?)]%bind_run; [|done]. eapply Hk; [by eapply Hc|done].
Qed.
Lemma yields_bind {S Er A A'} (P : A' → Prop) (c : M S Er A) (k : A → M S Er A') :
  (∀ a, yields P (k a)) → yields P (bind c k).
Proof. intros Hk. apply (yields_bind_with (λ _, True)); [by intros ? ? ?|auto]. Qed.

Ltac yields_tac :=
  repeat first [apply yields_bind; intros ?|apply yields_ret|progress cbv zeta|case_match|by intros ? ? ?].

(** ** Answers *)

Section answers.
Context {E : Type} {N : Type} (Q : Store → Store → Prop) `{!PreOrder Q}.

(** At most one reply is sent, and it is as specified. *)
Definition answers (P : Reply → Prop) (n n' : Node E N) : Prop :=
  node_rel Q n n' ∧
  (nd_replies n' = nd_replies n ∨ ∃ rp, nd_replies n' = nd_replies n ++ [rp] ∧ P rp).

Lemma quiet_answers (P : Reply → Prop) (n n' : Node E N) : quiet Q n n' → answers P n n'.
Proof. intros [Hs Hr]. split; [done|by left]. Qed.
Lemma quiet_answers_l (P : Reply → Prop) (n n1 n' : Node E N) :
  quiet Q n n1 → answers P n1 n' → answers P n n'.
Proof using PreOrder0.
  intros [Hs Hr] [Hs' Hr']. split; [by etrans|]. by rewrite <-Hr.
Qed.
Lemma quiet_answers_r (P : Reply → Prop) (n n1 n' : Node E N) :
  answers P n n1 → quiet Q n1 n' → answers P n n'.
Proof using PreOrder0.
  intros [Hs Hr] [Hs' Hr']. split; [by etrans|]. by rewrite Hr'.
Qed.

Lemma answers_reply (P : Reply → Prop) (open : bool) (rp : Reply) (n : Node E N) :
  P rp → answers P n (reply open rp n).1.
Proof using PreOrder0.
  intros HP. unfold reply. destruct open; split; unfold node_rel, store_rel; simpl; try done; eauto.
Qed.
Lemma answers_reply_ (P : Reply → Prop) (open : bool) (rp : Reply) (n : Node E N) :
  P rp → answers P n (reply_ open rp n).1.
Proof using PreOrder0.
  intros HP. pose proof (answers_reply P open rp n HP) as Ha. unfold reply_, bind.
  by destruct (reply open rp n) as [n' [|?|]].
Qed.

(** First a computation that sends nothing, of which the result is known. *)
Lemma answers_bind {A A'} (P : Reply → Prop) (c : M (Node E N) string A) (k : A → M (Node E N) string A')
    (n : Node E N) :
  steps (quiet Q) c →
  (∀ a n1, c n = (n1, Ok a) → quiet Q n n1 → answers P n1 (k a n1).1) → answers P n (bind c k n).1.
Proof using PreOrder0.
  intros Hc Hk. specialize (Hc n). unfold bind. destruct (c n) as [n1 [a|e|]]; simpl in *;
    try (by apply quiet_answers). by eapply quiet_answers_l; [|apply Hk].
Qed.
(** The other way round. *)
Lemma answers_then {A A'} (P : Reply → Prop) (c : M (Node E N) string A) (k : A → M (Node E N) string A')
    (n : Node E N) :
  answers P n (c n).1 → (∀ a, steps (quiet Q) (k a)) → answers P n (bind c k n).1.
Proof using PreOrder0.
  intros Hc Hk. unfold bind. destruct (c n) as [n1 [a|e|]]; simpl in *; try done.
  by eapply quiet_answers_r; [|apply Hk].
Qed.
Lemma answers_tried {A} (P : Reply → Prop) (c : M (Node E N) string A) (n : Node E N) :
  answers P n (c n).1 → answers P n (tried c n).1.
Proof. unfold tried, attempt. by destruct (c n) as [n1 [a|e|]]. Qed.
Lemma answers_steps {A} (P : Reply → Prop) (c : M (Node E N) string A) (n : Node E N) :
  steps (quiet Q) c → answers P n (c n).1.
Proof. intros Hc. apply quiet_answers, Hc. Qed.
End answers.

(** ** The handlers *)

Section refinement.
Context {E : Type} {B : BlobEngine E} {C : Crypto} {T : MerkleTreeLib} {NC : NodeCodecs} {TH : TreeHashLib}
  {SZ : PayloadSsz} {BC : BlockConversion} {SA : StreamApi} {KP : Codec SyncedValuePackage}.
Context {N : Type} {EA : EngineApi N} {TM : Timer N}.
Context (payload_as_ssz : ExecutionPayloadV3 → bytes) (ec : ExecutionClient) (cfg : ExecutionRetryConfig).

Abbreviation same := (quiet (E := E) (N := N) log_same) (only parsing).
Abbreviation node_log n := (log_of (s_store (nd_state n))) (only parsing).

(** A state computation run within the node. *)
Lemma st_run {A} (c : M (State E) string A) (n n' : Node E N) (r : outcome string A) :
  st c n = (n', r) → ∃ s, c (nd_state n) = (s, r) ∧ n' = set_nd_state s n.
Proof. unfold st, zoom. destruct (c (nd_state n)) as [s r']. intros [= <- <-]. eauto. Qed.

Lemma log_of_heights (s : Store) (k : Height) :
  is_Some (log_of s !! k) ↔ k ∈ sorted_heights (decided_values s).
Proof. by rewrite elem_of_sorted_heights, log_of_lookup, fmap_is_Some. Qed.

Lemma last_sorted_tip (s : Store) (m : Height) :
  last (sorted_heights (decided_values s)) = Some m → log_tip (log_of s) m.
Proof.
  intros Hl. split; [by apply log_of_heights, last_Some_elem_of|]. intros k Hk%log_of_heights.
  by apply (key_sorted_last id _ _ _ (sort_by_key_sorted _ _) Hl).
Qed.

Lemma max_height_run (s s' : Store) (h : Height) :
  max_decided_value_height s = (s', Ok (Some h)) → log_tip (log_of s) h.
Proof.
  unfold max_decided_value_height.
  destruct (blocking _ s) as [s1 [m1|e|]] eqn:Hr; [|discriminate..]. intros [= _ ->].
  apply read_tx_run in Hr as [Hb _]; [|done]. injection Hb as Hb. by apply last_sorted_tip.
Qed.

(** The parts of the handlers that decide nothing and send no reply. *)
Ltac known_quiet :=
  pose proof (λ A c, client_quiet (E := E) (N := N) (A := A) log_same c);
  pose proof (get_quiet (E := E) (N := N) log_same);
  pose proof (λ A o, lift_quiet (E := E) (N := N) (A := A) log_same o);
  pose proof (λ A c, tried_quiet (E := E) (N := N) (A := A) log_same c);
  pose proof (λ A c, st_quiet (E := E) (N := N) (A := A) log_same c);
  pose proof (λ A c, read_store_rel (E := E) (A := A) log_same log_same_faults c);
  pose proof (ensure_quiet (E := E) (N := N) log_same log_same_faults);
  pose proof (throttle_quiet (E := E) (N := N) log_same);
  pose proof (build_quiet (E := E) (N := N) payload_as_ssz ec log_same log_same_faults run_op_log_same);
  pose proof (publish_quiet (E := E) (N := N) log_same);
  pose proof (latest_height_quiet (E := E) (N := N) log_same log_same_faults);
  pose proof (load_package_quiet (E := E) (N := N) log_same log_same_faults);
  pose proof (load_decided_block_rel (E := E) log_same log_same_faults);
  pose proof (stream_proposal_rel (E := E) log_same);
  pose proof (archive_notice_rel (E := E) log_same log_same_faults run_op_log_same);
  pose proof (received_part_rel (E := E) log_same log_same_faults run_op_log_same);
  pose proof (synced_package_rel (E := E) log_same log_same_faults run_op_log_same);
  pose proof (cleanup_rounds_rel (E := E) log_same log_same_faults run_op_log_same).
Tactic Notation "quietly" "as" simple_intropattern(a) simple_intropattern(n) simple_intropattern(H)
    simple_intropattern(Hq) :=
  apply answers_bind; [apply _|steps_tac; try (by apply update_quiet; [apply _|])|intros a n H Hq].

Lemma quiet_log (n n' : Node E N) : same n n' → node_log n' = node_log n.
Proof. intros [Hs _]. by apply log_same_of. Qed.

Lemma consensus_ready_answers (open : bool) (n : Node E N) :
  answers log_same (reply_spec ConsensusReady (node_log n)) n (consensus_ready open n).1.
Proof using All.
  known_quiet. unfold consensus_ready. quietly as _ n1 _ Q1. quietly as b n2 _ Q2.
  quietly as _ n3 _ Q3. quietly as n3' n4 _ Q4.
  destruct (s_latest_block (nd_state n3')); [|by apply answers_steps, steps_fail, _].
  quietly as m n5 Hm Q5. quietly as _ n6 _ Q6. apply answers_then; [apply _| |steps_tac].
  apply answers_reply; [apply _|]. destruct m as [m|]; [|by left]. right. exists m. split; [|done].
  apply st_run in Hm as (s & (st' & Hm & _)%with_store_run & _). apply max_height_run in Hm.
  by rewrite (quiet_log _ _ Q4), (quiet_log _ _ Q3), (quiet_log _ _ Q2), (quiet_log _ _ Q1) in Hm.
Qed.

Lemma started_round_answers (h : Height) (r : Round) (p : Address) (open : bool) (n : Node E N) (lg : Log) :
  answers log_same (reply_spec (StartedRound h r p) lg) n (started_round h r p open n).1.
Proof using All.
  known_quiet. unfold started_round. quietly as _ n1 _ _. quietly as _ n2 _ _. quietly as _ n3 _ _.
  quietly as _ n4 _ _. by apply answers_reply_; [apply _|].
Qed.

Lemma propose_yields (h : Height) (r : Round) (p : ExecutionPayloadV3) (q : list bytes) (b : option BlobsBundle) :
  yields (λ v, lv_height v = h ∧ lv_round v = r) (propose_value_with_blobs (E := E) h r p q b).
Proof. unfold propose_value_with_blobs. by yields_tac. Qed.

Lemma build_yields (h : Height) (r : Round) (head : ExecutionBlock) :
  yields (λ x, lv_height x.1.1.1 = h ∧ lv_round x.1.1.1 = r)
    (build_and_store (E := E) (N := N) payload_as_ssz ec h r head).
Proof.
  unfold build_and_store. apply yields_bind. intros [res bundle].
  apply (yields_bind_with (λ v, lv_height v = h ∧ lv_round v = r)); [|by intros v Hv; yields_tac].
  intros n n' v (s & Hv & _)%st_run. by eapply propose_yields.
Qed.

Lemma get_value_answers (h : Height) (r : Round) (t : Z) (open : bool) (n : Node E N) (lg : Log) :
  answers log_same (reply_spec (GetValue h r t) lg) n (handle_get_value payload_as_ssz ec h r t open n).1.
Proof using All.
  known_quiet. unfold handle_get_value. quietly as n0 n1 _ _. quietly as known n2 _ _.
  assert (answers log_same (reply_spec (GetValue h r t) lg) n2
    ((let* head := ensure_el_matches_cl_head in
      throttle head t (now_ms (nd_el n0)) ;;;
      let* (proposal, data, reqs, sidecars) := build_and_store payload_as_ssz ec h r head in
      let* sent := reply open (RValue proposal) in
      if negb sent then fail "Failed to send GetValue reply; channel closed"%string
      else
        let stream_sidecars := if decide (sidecars = []) then None else Some sidecars in
        let* msgs := st (stream_proposal_state proposal data stream_sidecars reqs None) in
        foreach msgs publish) n2).1) as Hb.
  { quietly as head n3 _ _. quietly as _ n4 _ _. quietly as [[[v d] q] scs] n5 Hv _.
    apply build_yields in Hv. apply answers_then; [apply _|by apply answers_reply; [apply _|]|]. steps_tac. }
  destruct known as [e|[d|]]; [done| |done]. by apply answers_steps, steps_ret, _.
Qed.

Lemma synced_yields (h : Height) (r : Round) (p : Address) (pkg : SyncedValuePackage) :
  yields (λ o, ∀ pv, o = Some pv → pv = mkProposed h r Nil p (package_value pkg) Valid)
    (process_synced_package (E := E) h r p pkg).
Proof.
  unfold process_synced_package, process_synced_full, process_synced_pruned. yields_tac;
    naive_solver.
Qed.

Lemma get_decided_run (h : Height) (s s' : Store) (d : DecidedValue) :
  get_decided_value h s = (s', Ok (Some d)) →
  ∃ vb cb, log_of s !! h = Some (vb, Some cb) ∧ decode vb = Ok (dv_value d) ∧ decode cb = Ok (dv_certificate d).
Proof.
  intros [Hb _]%read_tx_run; [|done]. revert Hb. rewrite log_of_lookup. unfold decode_ok.
  destruct (decided_values s !! h) as [vb|], (certificates s !! h) as [cb|]; simpl;
    repeat (case_match; simpl; try done); try (intros [= <-]; eauto 10); done.
Qed.

Lemma load_package_yields (h : Height) (d : DecidedValue) :
  yields (λ o, ∀ pkg, o = Some pkg → package_value pkg = dv_value d) (load_package (E := E) h d).
Proof.
  unfold load_package. yields_tac; try done. intros pkg [= <-]. unfold package_for. by repeat case_match.
Qed.

Lemma get_decided_answers (h : Height) (open : bool) (n : Node E N) :
  answers log_same (reply_spec (GetDecidedValue h) (node_log n)) n (handle_get_decided_value h open n).1.
Proof using All.
  known_quiet. unfold handle_get_decided_value. quietly as d n1 Hd Q1.
  destruct d as [e|[d|]]; [by apply answers_reply_; [apply _|]| |by apply answers_reply_; [apply _|]].
  apply attempt_run, st_run in Hd as (s & (st' & Hd & _)%with_store_run & _).
  apply get_decided_run in Hd as (vb & cb & Hlg & Hv & Hc).
  quietly as pkg n2 Hp Q2. apply st_run in Hp as (s2 & Hp & _). apply load_package_yields in Hp.
  quietly as raw n3 Hraw Q3. apply answers_reply_; [apply _|]. injection Hraw as _ Hraw.
  destruct raw as [raw|]; [|done]. unfold raw_decided in Hraw. destruct pkg as [pkg|]; [|done].
  destruct (encode pkg) as [b| |] eqn:Hb; [|done..]. injection Hraw as <-.
  exists vb, cb, (dv_value d), pkg. split_and!; [done..|by apply Hp|done].
Qed.

Lemma proposal_part_answers (from : bytes) (part : StreamMessage) (open : bool) (n : Node E N) (lg : Log) :
  answers log_same (reply_spec (ReceivedProposalPart from part) lg) n (handle_proposal_part from part open n).1.
Proof using All.
  known_quiet. unfold handle_proposal_part. destruct (part_notice part) as [nt|].
  { quietly as _ n1 _ _. by apply answers_reply_; [apply _|]. }
  quietly as n0 n1 _ _. quietly as r n2 _ _.
  destruct r as [e|[pv|]]; [|quietly as g n3 _ _|]; by apply answers_reply_; [apply _|].
Qed.

Lemma synced_value_answers (h : Height) (r : Round) (p : Address) (b : bytes) (open : bool) (n : Node E N) (lg : Log) :
  answers log_same (reply_spec (ProcessSyncedValue h r p b) lg) n (handle_synced_value h r p b open n).1.
Proof using All.
  known_quiet. unfold handle_synced_value.
  destruct (decode b) as [pkg|e|] eqn:Hb; [|by apply answers_reply_; [apply _|]|by apply answers_steps, steps_panic, _].
  quietly as o n1 Ho _. apply answers_reply_; [apply _|]. destruct o as [e|[pv|]]; [done| |done].
  apply attempt_run, st_run in Ho as (s & Ho & _). apply synced_yields in Ho. by exists pkg; split; [|apply Ho].
Qed.

(** Every message but a decision. *)
Lemma handle_msg_answers (msg : AppMsg) (open : bool) (n : Node E N) :
  (∀ cert, msg ≠ Decided cert) →
  answers log_same (reply_spec msg (node_log n)) n (handle_msg payload_as_ssz ec cfg msg open n).1.
Proof using All.
  known_quiet.
  pose proof (restream_quiet (E := E) (N := N) log_same log_same_faults run_op_log_same).
  destruct msg; intros Hm; cbn [handle_msg].
  - apply consensus_ready_answers.
  - apply started_round_answers.
  - apply answers_then; [apply _|apply answers_tried, get_value_answers|]. intros. by apply steps_ret, _.
  - by apply answers_reply_; [apply _|].
  - by apply answers_reply_; [apply _|].
  - assert (steps (store_rel log_same) (get_earliest_height (E := E))).
    { pose proof (get_store_rel (E := E) log_same (Er := string)). unfold get_earliest_height. steps_tac. }
    quietly as h n1 _ _. by apply answers_reply_; [apply _|].
  - by apply answers_steps.
  - apply proposal_part_answers.
  - by destruct (Hm certificate).
  - apply synced_value_answers.
  - apply get_decided_answers.
Qed.

(** *** A decision *)

Lemma quiet_entered (cert : CommitCertificate) (n n' : Node E N) : same n n' → quiet (log_entered cert) n n'.
Proof. intros [Hs Hr]. split; [by left|done]. Qed.

Lemma reply_run (open : bool) (rp : Reply) (n n' : Node E N) (r : outcome string unit) :
  reply_ open rp n = (n', r) →
  r = Ok tt ∧ nd_state n' = nd_state n ∧ nd_replies n' = nd_replies n ++ (if open then [rp] else []).
Proof.
  unfold reply_, bind, reply. destruct open; intros [= <- <-]; simpl; by rewrite ?app_nil_r.
Qed.

Lemma submit_run (job : option ArchiveJob) (n : Node E N) :
  ∃ n' b, submit_job job n = (n', Ok b) ∧ nd_state n' = nd_state n ∧ nd_replies n' = nd_replies n.
Proof.
  unfold submit_job, bind, get, modify, ret. destruct job as [j|]; [|by exists n, true].
  destruct (nd_job_tx n) as [[]|]; by eexists _, _.
Qed.

Lemma realign_errorless (h : Height) : errorless (realign_latest_block (E := E) (N := N) h).
Proof.
  unfold realign_latest_block. destruct (Height_decrement h); [|done].
  apply errorless_bind; [apply errorless_attempt|]. intros [e|[b|]]; done.
Qed.

(** The answer to a decision, sent unless there was a panic, agrees with the
    log: the next height starts only if the decided one is in it. *)
Definition decision_answered (cert : CommitCertificate) (open : bool) (n n' : Node E N)
    (r : outcome string unit) : Prop :=
  log_entered cert (s_store (nd_state n)) (s_store (nd_state n')) ∧
  match r with
  | Ok _ => ∃ nx, nd_replies n' = nd_replies n ++ (if open then [RNext nx] else []) ∧
                  decided_reply cert (node_log n') (RNext nx)
  | Err _ => False
  | Panic => nd_replies n' = nd_replies n
  end.

Lemma decision_answered_l (cert : CommitCertificate) (open : bool) (n n1 n' : Node E N) (r : outcome string unit) :
  quiet (log_entered cert) n n1 → decision_answered cert open n1 n' r → decision_answered cert open n n' r.
Proof. intros [Hs Hr] [Hl Ha]. split; [exact (transitivity Hs Hl)|]. by rewrite <-Hr. Qed.

Lemma restart_answered (cert : CommitCertificate) (open : bool) (n n' : Node E N) (r : outcome string unit) :
  restart (cc_height cert) open n = (n', r) → decision_answered cert open n n' r.
Proof.
  unfold restart, bind at 1, get. intros (-> & Hs & Hr)%reply_run. split; [left; by rewrite Hs|].
  by eexists.
Qed.

Lemma finalize_answered (cert : CommitCertificate) (open : bool) (ssz : bytes) (n n' : Node E N)
    (r : outcome string unit) :
  (let* outcome := tried (st_el (process_decided_certificate cfg cert ssz)) in
   match outcome with
   | inl _ => restart (cc_height cert) open
   | inr outcome =>
     let* submitted := submit_job (do_archive_job outcome) in
     if negb submitted then restart (cc_height cert) open
     else
       let* n := get in
       reply_ open (RNext (NextStart (s_current_height (nd_state n)) (s_genesis_validators (nd_state n))))
   end) n = (n', r) → decision_answered cert open n n' r.
Proof.
  pose proof (decided_certificate_rel (E := E) (N := N) (log_entered cert) (λ s fs, or_introl (log_same_faults s fs))
    (run_op_entered cert) cfg cert (store_decided_entered cert) ssz) as Hst.
  apply st_el_quiet in Hst. pose proof (process_decided_ok cfg cert ssz (nd_state n, nd_el n)) as Hfin.
  unfold bind at 1, tried, attempt. specialize (Hst n). unfold st_el, zoom in *.
  destruct (process_decided_certificate cfg cert ssz _) as [[s1 e1] [o|e|]]; cbn [fst snd] in *;
    [|intros Hr; by eapply decision_answered_l, restart_answered|intros [= <- <-]; by destruct Hst].
  destruct (submit_run (do_archive_job o) (set_nd_pair (s1, e1) n)) as (n2 & b & Hsub & Hs2 & Hr2).
  unfold bind at 1. rewrite Hsub. cbn [fst snd]. intros Hr. eapply decision_answered_l; [exact Hst|].
  assert (quiet (log_entered cert) (set_nd_pair (s1, e1) n) n2) as Hq.
  { split; [|done]. left. unfold store_rel. by rewrite Hs2. }
  eapply decision_answered_l; [exact Hq|]. destruct b; [|by apply restart_answered]. cbn [negb] in Hr.
  unfold bind at 1, get in Hr. apply reply_run in Hr as (-> & Hs & Hr). split; [left; by rewrite Hs|].
  eexists. split; [done|]. destruct (Hfin _ _ eq_refl) as (Hh & [vb Hvb] & _).
  cbn [fst] in Hh, Hvb.
  cbn [decided_reply]. rewrite Hs, Hs2. simpl. rewrite log_of_lookup, Hvb, Hh. split; [by eexists|]. lia.
Qed.

Lemma decision_answered_bind {A} (cert : CommitCertificate) (open : bool) (c : M (Node E N) string A)
    (k : A → M (Node E N) string unit) (n n' : Node E N) (r : outcome string unit) :
  steps same c → errorless c → (∀ a n1, k a n1 = (n', r) → decision_answered cert open n1 n' r) →
  bind c k n = (n', r) → decision_answered cert open n n' r.
Proof.
  intros Hc He Hk. specialize (Hc n). specialize (He n). unfold bind.
  destruct (c n) as [n1 [a|e|]]; cbn [fst snd] in *; [|by destruct (He e)|].
  - intros Hr. eapply decision_answered_l; [by apply quiet_entered|]. by eapply Hk.
  - intros [= <- <-]. destruct Hc. split; [by left|done].
Qed.

Lemma handle_decided_run (cert : CommitCertificate) (open : bool) (n n' : Node E N) (r : outcome string unit) :
  handle_decided cfg cert open n = (n', r) → decision_answered cert open n n' r.
Proof.
  unfold handle_decided.
  apply decision_answered_bind; [by apply realign_quiet; [apply _|]|apply realign_errorless|].
  intros [] n1. apply decision_answered_bind; [|apply errorless_attempt|].
  { apply tried_quiet, st_quiet, read_store_rel; [done|]. eauto with steps. }
  intros [e|[[|b ssz]|]] n2; [..|apply finalize_answered|]; apply restart_answered.
Qed.

(** *** Steps and runs *)

Lemma app_step_refines (ev : Event) (n n' : Node E N) (r : outcome string bool) :
  app_step payload_as_ssz ec cfg ev n = (n', r) →
  ∃ rs, nd_replies n' = nd_replies n ++ rs ∧ log_step (node_log n) ev rs (node_log n').
Proof using All.
  assert (∀ n', same n n' → ∃ rs, nd_replies n' = nd_replies n ++ rs ∧ log_step (node_log n) ev rs (node_log n'))
    as Hsilent.
  { intros n1 Hq. exists []. rewrite (quiet_log _ _ Hq), app_nil_r. split; [apply Hq|constructor]. }
  destruct ev as [|[[msg open]|]|nt]; cbn [app_step].
  - intros [= <- _]. by apply Hsilent.
  - intros Hrun. assert (∃ r0, handle_msg payload_as_ssz ec cfg msg open n = (n', r0)) as [r0 Hm].
    { apply bind_run in Hrun as [(? & n1 & ? & [= <- _])|(? & ? & _)]; eauto. }
    assert ((∃ cert, msg = Decided cert) ∨ ∀ cert, msg ≠ Decided cert) as [[cert ->]|Hnd].
    { destruct msg; first [by left; eexists|by right]. }
    + apply handle_decided_run in Hm as [Hl Ha]. apply log_entered_decide in Hl.
      destruct r0 as [?|?|]; [|done|].
      * destruct Ha as (nx & Hr & Hnx). eexists. split; [exact Hr|]. constructor; [done|destruct open; simpl; lia|].
        destruct open; by repeat constructor.
      * exists []. rewrite app_nil_r. split; [done|]. constructor; [done|simpl; lia|done].
    + pose proof (handle_msg_answers msg open n) as Ha. rewrite Hm in Ha. cbn [fst] in Ha.
      destruct (Ha Hnd) as [Hs [Hr|(rp & Hr & HP)]]; [by apply Hsilent|].
      exists [rp]. split; [done|]. rewrite (log_same_of _ _ Hs). by constructor.
  - intros [= <- _]. by apply Hsilent.
  - intros Hrun. apply Hsilent.
    eapply (run_steps _ _ _ _ _ _ Hrun). Unshelve.
    pose proof (worker_notice_quiet (E := E) (N := N) log_same log_same_faults run_op_log_same).
    pose proof (get_quiet (E := E) (N := N) log_same). steps_tac.
Qed.

Lemma app_loop_refines (evs : list Event) : ∀ (n n' : Node E N) (r : outcome string unit),
  app_loop payload_as_ssz ec cfg evs n = (n', r) →
  ∃ taken rest rs, evs = taken ++ rest ∧ nd_replies n' = nd_replies n ++ rs ∧
    log_run (node_log n) taken rs (node_log n').
Proof using All.
  induction evs as [|ev evs IH]; intros n n' r; cbn [app_loop].
  { intros [= <- _]. exists [], [], []. split_and!; [done|by rewrite app_nil_r|constructor]. }
  intros Hrun.
  assert (∃ n1 r1, app_step payload_as_ssz ec cfg ev n = (n1, r1) ∧
    (n' = n1 ∨ app_loop payload_as_ssz ec cfg evs n1 = (n', r))) as (n1 & r1 & Hs & Hn).
  { apply bind_run in Hrun as [([] & n1 & ? & Hr)|(? & ? & _)]; [injection Hr as <- _|..]; eauto 10. }
  destruct (app_step_refines _ _ _ _ Hs) as (rs & Hrs & Hls). destruct Hn as [->|Hn].
  - exists [ev], evs, (rs ++ []). split_and!; [done|by rewrite app_nil_r|]. econstructor; [done|constructor].
  - destruct (IH _ _ _ Hn) as (taken & rest & rs' & -> & Hrs' & Hlr).
    exists (ev :: taken), rest, (rs ++ rs'). split_and!; [done|by rewrite Hrs', Hrs, app_assoc|by econstructor].
Qed.

(** *** Every table of decided records *)

Lemma quiet_kept {A} (c : M (Node E N) string A) :
  steps (quiet decided_kept) c → steps (node_rel decided_kept) c.
Proof. apply steps_weaken. by intros n n' []. Qed.

Lemma reply_kept (open : bool) (rp : Reply) : steps (node_rel (E := E) (N := N) decided_kept) (reply open rp).
Proof. intros n. unfold reply, node_rel, store_rel. by destruct open. Qed.

Lemma app_step_kept (ev : Event) :
  steps (node_rel decided_kept) (app_step (E := E) (N := N) payload_as_ssz ec cfg ev).
Proof using All.
  pose proof (λ op (_ : decides op = false), run_op_kept op) as Hop. pose proof decided_kept_faults as Hread.
  pose proof reply_kept as Hreply.
  assert (∀ open rp, steps (node_rel (E := E) (N := N) decided_kept) (reply_ open rp)) as Hreply_.
  { intros. unfold reply_. steps_tac. }
  assert (∀ A (c : M (State E) string A), steps (store_rel decided_kept) c →
    steps (node_rel (N := N) decided_kept) (st c)) as Hst.
  { intros A c Hc. by apply quiet_kept, st_quiet. }
  assert (∀ f, (∀ s : State E, s_store (f s) = s_store s) → steps (node_rel (N := N) decided_kept) (update f)) as Hupd.
  { intros f Hf. by apply quiet_kept, update_quiet; [apply _|]. }
  pose proof (λ A c, read_store_rel (E := E) (A := A) _ Hread c) as Hreads.
  pose proof (λ A c, quiet_kept _ (client_quiet (E := E) (N := N) (A := A) _ c)).
  pose proof (quiet_kept _ (get_quiet (E := E) (N := N) _)).
  pose proof (λ A o, quiet_kept _ (lift_quiet (E := E) (N := N) (A := A) _ o)).
  pose proof (quiet_kept _ (ensure_quiet (E := E) (N := N) _ Hread)).
  pose proof (λ h t s, quiet_kept _ (throttle_quiet (E := E) (N := N) _ h t s)).
  pose proof (λ h r b, quiet_kept _ (build_quiet (E := E) (N := N) payload_as_ssz ec _ Hread Hop h r b)).
  pose proof (λ m, quiet_kept _ (publish_quiet (E := E) (N := N) _ m)).
  pose proof (quiet_kept _ (latest_height_quiet (E := E) (N := N) _ Hread)).
  pose proof (λ h d, quiet_kept _ (load_package_quiet (E := E) (N := N) _ Hread h d)).
  pose proof (λ h, quiet_kept _ (realign_quiet (E := E) (N := N) _ Hread h)).
  pose proof (λ j, quiet_kept _ (submit_quiet (E := E) (N := N) _ j)).
  pose proof (λ n, quiet_kept _ (worker_notice_quiet (E := E) (N := N) _ Hread Hop n)).
  pose proof (λ h r v a, quiet_kept _ (restream_quiet (E := E) (N := N) _ Hread Hop h r v a)).
  pose proof (load_decided_block_rel (E := E) _ Hread). pose proof (stream_proposal_rel (E := E) decided_kept).
  pose proof (archive_notice_rel (E := E) _ Hread Hop). pose proof (received_part_rel (E := E) _ Hread Hop).
  pose proof (synced_package_rel (E := E) _ Hread Hop). pose proof (cleanup_rounds_rel (E := E) _ Hread Hop).
  pose proof (λ c b, quiet_kept _ (st_el_quiet _ _ (decided_certificate_rel (E := E) (N := N) _ Hread Hop cfg c
    (λ v, run_op_kept (OpStoreDecided c v)) b))) as Hdecide.
  assert (steps (store_rel decided_kept) (get_earliest_height (E := E))).
  { pose proof (get_store_rel (E := E) decided_kept (Er := string)). unfold get_earliest_height. steps_tac. }
  unfold app_step, handle_msg, consensus_ready, started_round, handle_get_value, handle_proposal_part,
    handle_decided, restart, handle_synced_value, handle_get_decided_value, tried.
  steps_tac; try (by apply Hupd).
Qed.

Lemma app_loop_kept (evs : list Event) :
  steps (node_rel decided_kept) (app_loop (E := E) (N := N) payload_as_ssz ec cfg evs).
Proof using All.
  pose proof app_step_kept. induction evs as [|ev evs IH]; cbn [app_loop]; steps_tac.
Qed.

(** *** Starting again *)

(** On a store without failures, reading leaves the state as it is. *)
Definition untouched (s s' : State E) : Prop := tx_faults (s_store s) = [] → s' = s.
#[export] Instance untouched_preorder : PreOrder untouched.
Proof. split; [by intros s|]. intros s1 s2 s3 H1 H2 Hf. rewrite (H1 Hf) in H2. auto. Qed.

Lemma set_store_same (s : State E) : set_store (s_store s) s = s.
Proof. by destruct s. Qed.

Lemma read_untouched {A} (body : Store → outcome StoreError A) :
  steps untouched (with_store (blocking (read_tx body))).
Proof.
  intros s Hf. unfold with_store, zoom, map_err, blocking. rewrite (read_tx_ok _ _ Hf). apply set_store_same.
Qed.

Lemma max_height_untouched (s : State E) : tx_faults (s_store s) = [] →
  get_latest_decided_height s = (s, Ok (last (sorted_heights (decided_values (s_store s))))).
Proof.
  intros Hf. unfold get_latest_decided_height, with_store, zoom, map_err, max_decided_value_height, blocking.
  rewrite (read_tx_ok _ _ Hf). by rewrite set_store_same.
Qed.

Lemma load_decided_block_untouched : steps untouched (load_decided_block (E := E)).
Proof.
  assert (steps untouched (get_latest_decided_height (E := E))) as Hm.
  { intros s Hf. by rewrite (max_height_untouched s Hf). }
  assert (∀ h, steps untouched (with_store (get_decided_value h))) as Hd by (intros h; apply read_untouched).
  assert (∀ h, steps untouched (with_store (get_blob_metadata h))) as Hb by (intros h; apply read_untouched).
  unfold load_decided_block, load_execution_block. steps_tac.
Qed.

Lemma client_state {A} (c : M N ExecutionError A) (n n' : Node E N) (r : outcome string A) :
  client c n = (n', r) → nd_state n' = nd_state n ∧ nd_replies n' = nd_replies n.
Proof. unfold client, zoom. destruct (map_err _ c _). by intros [= <- _]. Qed.

Lemma consensus_ready_run (n n' : Node E N) :
  tx_faults (s_store (nd_state n)) = [] → consensus_ready true n = (n', Ok tt) →
  ∃ vs, nd_replies n' = nd_replies n ++
    [RStartHeight (from_option Height_increment 1 (last (sorted_heights (decided_values (s_store (nd_state n)))))) vs].
Proof.
  intros Hf. unfold consensus_ready.
  intros [([] & n1 & [Hs1 Hr1]%client_state & Hrun)|(? & _ & _ & ?)]%bind_run; [|done].
  apply bind_run in Hrun as [(b & n2 & (s & Hb & ->)%st_run & Hrun)|(? & _ & _ & ?)]; [|done].
  rewrite Hs1 in Hb. apply (run_steps _ _ _ _ _ load_decided_block_untouched) in Hb. specialize (Hb Hf). subst s.
  apply bind_run in Hrun as [([] & n3 & H3 & Hrun)|(? & _ & _ & ?)]; [|done].
  assert (s_store (nd_state n3) = s_store (nd_state n) ∧ nd_replies n3 = nd_replies n) as [Hs3 Hr3].
  { destruct b as [b|]; by injection H3 as <-. }
  unfold bind at 1, get in Hrun. destruct (s_latest_block (nd_state n3)) as [b'|]; [|done].
  apply bind_run in Hrun as [(m & n4 & (s & Hm & ->)%st_run & Hrun)|(? & _ & _ & ?)]; [|done].
  rewrite max_height_untouched, Hs3 in Hm by (by rewrite Hs3). injection Hm as <- <-.
  apply bind_run in Hrun as [(g & n5 & Hg & Hrun)|(? & _ & _ & ?)]; [|done].
  assert (quiet log_same (set_nd_state (nd_state n3) n3) n5) as [_ Hr5].
  { eapply run_steps, Hg. by apply tried_quiet, ensure_quiet; [apply _|]. }
  apply bind_run in Hrun as [(sent & n6 & H6 & Hrun)|(? & _ & _ & ?)]; [|done].
  injection H6 as <- <-. injection Hrun as <-. eexists. simpl. rewrite Hr5. simpl. by rewrite Hr3.
Qed.
End refinement.

(** ** The node refines the log *)

Section node_log_theorems.
Context {E : Type} {B : BlobEngine E} {C : Crypto} {T : MerkleTreeLib} {NC : NodeCodecs} {TH : TreeHashLib}
  {SZ : PayloadSsz} {BC : BlockConversion} {SA : StreamApi} {KP : Codec SyncedValuePackage}.
Context {N : Type} {EA : EngineApi N} {TM : Timer N}.
Context (payload_as_ssz : ExecutionPayloadV3 → bytes) (ec : ExecutionClient) (cfg : ExecutionRetryConfig).

Abbreviation node_log n := (log_of (s_store (nd_state n))) (only parsing).

(** The start-up scan decides nothing and is silent. *)
Lemma run_run (evs : list Event) (n n' : Node E N) (r : outcome string unit) :
  run payload_as_ssz ec cfg evs n = (n', r) →
  ∃ n1 r1, st rehydrate_pending_prunes n = (n1, r1) ∧ quiet log_same n n1 ∧ node_rel decided_kept n n1 ∧
    (n' = n1 ∨ app_loop payload_as_ssz ec cfg evs n1 = (n', r)).
Proof.
  intros Hrun.
  assert (∀ n1 r1, st rehydrate_pending_prunes n = (n1, r1) → quiet log_same n n1 ∧ node_rel decided_kept n n1) as Hq.
  { intros n1 r1 Hst. split; (eapply run_steps; [|exact Hst]); [|apply quiet_kept]; apply st_quiet.
    - by apply rehydrate_rel; [apply _|exact log_same_faults|exact run_op_log_same].
    - apply rehydrate_rel; [apply _|exact decided_kept_faults|]. intros op _. apply run_op_kept. }
  apply bind_run in Hrun as [([] & n1 & Hst & Hr)|(r0 & Hst & _)]; destruct (Hq _ _ Hst); eauto 10.
Qed.

Lemma run_refines (evs : list Event) (n n' : Node E N) (r : outcome string unit) :
  run payload_as_ssz ec cfg evs n = (n', r) →
  ∃ taken rest rs, evs = taken ++ rest ∧ nd_replies n' = nd_replies n ++ rs ∧
    log_run (node_log n) taken rs (node_log n').
Proof.
  intros (n1 & r1 & _ & Hq & _ & [->|Hl])%run_run.
  - exists [], evs, []. rewrite (log_same_of _ _ (proj1 Hq)), app_nil_r.
    split_and!; [done|apply Hq|constructor].
  - apply app_loop_refines in Hl as (taken & rest & rs & -> & Hr & Hrun).
    rewrite (log_same_of _ _ (proj1 Hq)) in Hrun. destruct Hq as [_ Hq]. rewrite Hq in Hr. eauto 10.
Qed.

(** C1: the node refines the replicated log.  For every sequence of events,
    whatever the store, the execution layer and the network do: the events taken
    and the replies sent are a run of the log, from the log of the initial store
    to that of the final one.  So every reply is one the log allows: consensus is
    started above the tip, a served value is that of the log with its
    certificate, the height after a decision starts only once the decision is in
    the log, and only a decision changes it. *)
Theorem node_refines_log (evs : list Event) (n n' : Node E N) (r : outcome string unit) :
  run payload_as_ssz ec cfg evs n = (n', r) →
  ∃ taken rest rs, evs = taken ++ rest ∧ nd_replies n' = nd_replies n ++ rs ∧
    log_run (node_log n) taken rs (node_log n').
Proof. apply run_refines. Qed.

(** C4: what is decided stays decided.  Over any run, failing ones included, no
    table of decided records loses an entry; the log changes only at heights
    decided in the run; and a height was started in answer to a decision only if
    that decision is still in the log at the end. *)
Theorem decisions_durable (evs : list Event) (n n' : Node E N) (r : outcome string unit) :
  run payload_as_ssz ec cfg evs n = (n', r) →
  decided_kept (s_store (nd_state n)) (s_store (nd_state n')) ∧
  (∀ h, node_log n' !! h ≠ node_log n !! h →
     ∃ cert o, EvConsensus (Some (Decided cert, o)) ∈ evs ∧ cc_height cert = h) ∧
  ∃ rs, nd_replies n' = nd_replies n ++ rs ∧
    ∀ h vs, RNext (NextStart h vs) ∈ rs →
      ∃ cert o, EvConsensus (Some (Decided cert, o)) ∈ evs ∧
        is_Some (node_log n' !! cc_height cert) ∧ Height_increment (cc_height cert) ≤ h.
Proof.
  intros Hrun. pose proof (run_refines _ _ _ _ Hrun) as (taken & rest & rs & -> & Hr & Hlg).
  apply log_run_grows in Hlg as (_ & Hch & Hst). split_and!.
  - apply run_run in Hrun as (n1 & r1 & _ & _ & Hk & [->|Hl]); [done|].
    apply (run_steps _ _ _ _ _ (app_loop_kept payload_as_ssz ec cfg _)) in Hl.
    exact (transitivity (R := node_rel decided_kept) Hk Hl).
  - intros h Hne. destruct (Hch h Hne) as (cert & o & ? & ?). exists cert, o. rewrite elem_of_app. auto.
  - exists rs. split; [done|]. intros h vs Hin. destruct (Hst h vs Hin) as (cert & o & ? & ?).
    exists cert, o. rewrite elem_of_app. auto.
Qed.

(** C12: every decision is answered.  The handler of a decision never returns an
    error: unless it panics, it sends exactly one reply, which either restarts
    the decided height, or starts a height above it, and then the decision is in
    the log. *)
Theorem every_decision_answered (cert : CommitCertificate) (n n' : Node E N) (r : outcome string unit) :
  handle_msg payload_as_ssz ec cfg (Decided cert) true n = (n', r) →
  r = Panic ∨ r = Ok tt ∧
    ∃ nx, nd_replies n' = nd_replies n ++ [RNext nx] ∧
      match nx with
      | NextStart h _ => is_Some (node_log n' !! cc_height cert) ∧ Height_increment (cc_height cert) ≤ h
      | NextRestart h _ => h = cc_height cert
      end.
Proof.
  intros [_ Ha]%handle_decided_run. destruct r as [[]|e|]; [right|done|by left].
  split; [done|]. destruct Ha as (nx & Hr & Hnx). exists nx. by destruct nx.
Qed.

(** After a stop, consensus resumes above everything decided, on a store whose
    tables of decisions are those the run left. *)
Lemma restart_resumes_after_log (ec' : ExecutionClient) (evs : list Event) (n n1 m m' : Node E N)
    (r : outcome string unit) :
  run payload_as_ssz ec cfg evs n = (n1, r) →
  log_same (s_store (nd_state n1)) (s_store (nd_state m)) → tx_faults (s_store (nd_state m)) = [] →
  (∀ k, is_Some (node_log m !! k) → 0 ≤ k < u64_max) →
  handle_msg payload_as_ssz ec' cfg ConsensusReady true m = (m', Ok tt) →
  ∃ h vs rs, nd_replies m' = nd_replies m ++ [RStartHeight h vs] ∧ nd_replies n1 = nd_replies n ++ rs ∧
    (h = 1 ∧ node_log m = ∅ ∨ is_Some (node_log m !! (h - 1))) ∧
    (∀ k, is_Some (node_log m !! k) → k < h) ∧
    (∀ k, is_Some (node_log n !! k) → is_Some (node_log m !! k)) ∧
    (∀ k vs, RNext (NextStart k vs) ∈ rs →
       ∃ cert o, EvConsensus (Some (Decided cert, o)) ∈ evs ∧ is_Some (node_log m !! cc_height cert) ∧
         cc_height cert < h ∧ cc_height cert < k).
Proof.
  intros (taken & rest & rs & -> & Hr & Hrun)%run_refines Hsame Hf Hb Hready.
  apply log_run_grows in Hrun as (Hdom & _ & Hst). rewrite <-(log_same_of _ _ Hsame) in Hst, Hdom.
  apply consensus_ready_run in Hready as [vs Hm]; [|done]. eexists _, vs, rs. split; [exact Hm|split; [done|]].
  assert (∀ k, is_Some (node_log m !! k) →
    k < from_option Height_increment 1 (last (sorted_heights (decided_values (s_store (nd_state m)))))) as Habove.
  { intros k Hk. pose proof (proj1 (log_of_heights _ _) Hk) as Hin.
    destruct (last _) as [t|] eqn:Ht; [|by apply last_None in Ht; rewrite Ht in Hin; apply elem_of_nil in Hin].
    destruct (last_sorted_tip _ _ Ht) as [Htip Hle]. specialize (Hle k Hk). specialize (Hb t Htip).
    simpl. unfold Height_increment. rewrite add64_small; unfold u64_max in *; lia. }
  split_and!; [|exact Habove|intros k; rewrite <-!elem_of_dom; apply Hdom|].
  - destruct (last _) as [t|] eqn:Ht; [right|left].
    + destruct (last_sorted_tip _ _ Ht) as [Htip _]. specialize (Hb t Htip). simpl. unfold Height_increment.
      rewrite add64_small by (unfold u64_max in *; lia). by replace (t + 1 - 1) with t by lia.
    + split; [done|]. apply map_empty. intros k. destruct (node_log m !! k) eqn:Hk; [|done].
      apply last_None in Ht. assert (k ∈ sorted_heights (decided_values (s_store (nd_state m)))) as Hin.
      { by apply log_of_heights; eexists. } rewrite Ht in Hin. by apply elem_of_nil in Hin.
  - intros k vs' Hin. destruct (Hst k vs' Hin) as (cert & o & Hin' & Hs & Hk).
    exists cert, o. rewrite elem_of_app. specialize (Hb _ Hs). unfold Height_increment in Hk.
    rewrite add64_small in Hk by (unfold u64_max in *; lia). split_and!; [by left|done|by apply Habove|lia].
Qed.
End node_log_theorems.

(** ** Concrete inputs *)

(** The node decides height 8, whose payload it holds, and serves it. *)
#[local] Existing Instances demo_rocksdb_engine null_crypto demo_merkle commit_codecs demo_tree_hash
  demo_stream_api demo_api demo_timer.
#[local] Instance decided_ssz : PayloadSsz := {| payload_from_ssz _ := Some decided_payload |}.
#[local] Instance blobless_conversion : BlockConversion := {| block_versioned_hashes _ := Some [] |}.
#[local] Instance demo_packages : Codec SyncedValuePackage :=
  constant_codec (SyncMetadataOnly demo_value_of_payload [] None []).

Definition demo_node : Node BlobEngineImpl Z :=
  mkNode (set_store (with_undecided_block_data {[round_key 8 (RSome 0) := [1]]} (s_store demo_committer))
            demo_committer) 400 [] [] [] [] None true.
Definition demo_events : list Event :=
  [EvConsensus (Some (Decided demo_certificate, true)); EvConsensus (Some (GetDecidedValue 8, true))].
Definition demo_run : Node BlobEngineImpl Z * outcome string unit :=
  run (λ _, [1]) demo_client ExecutionRetryConfig_default demo_events demo_node.

Lemma node_refines_log_witness :
  ∃ taken rest rs, demo_events = taken ++ rest ∧ nd_replies demo_run.1 = rs ∧ length rs = 2%nat ∧
    log_run (log_of (s_store (nd_state demo_node))) taken rs (log_of (s_store (nd_state demo_run.1))).
Proof.
  destruct (node_refines_log (λ _, [1]) demo_client ExecutionRetryConfig_default demo_events demo_node
    demo_run.1 demo_run.2 (surjective_pairing _)) as (taken & rest & rs & He & Hr & Hrun).
  exists taken, rest, rs. split; [exact He|]. split; [exact Hr|]. split; [|exact Hrun].
  transitivity (length (nd_replies demo_run.1)); [by rewrite Hr|vm_compute; reflexivity].
Defined.

Lemma decisions_durable_witness :
  decided_kept (s_store (nd_state demo_node)) (s_store (nd_state demo_run.1)) ∧
  log_of (s_store (nd_state demo_run.1)) !! 8 = Some ([0], Some [0]).
Proof.
  split; [|vm_compute; reflexivity].
  apply (decisions_durable (λ _, [1]) demo_client ExecutionRetryConfig_default demo_events demo_node
    demo_run.1 demo_run.2 (surjective_pairing _)).
Defined.

Lemma every_decision_answered_witness :
  let c := handle_msg (λ _, [1]) demo_client ExecutionRetryConfig_default (Decided demo_certificate) true demo_node in
  c.2 = Ok tt ∧ ∃ nx, nd_replies c.1 = [RNext nx].
Proof.
  cbv zeta. destruct (every_decision_answered (λ _, [1]) demo_client ExecutionRetryConfig_default demo_certificate
    demo_node _ _ (surjective_pairing _)) as [H|[H (nx & Hr & _)]].
  - exfalso. revert H. vm_compute. discriminate.
  - split; [exact H|exists nx; exact Hr].
Defined.

(** Started again on the store of the run, the node resumes at height 9. *)
Lemma demo_log_only (k : Height) : is_Some (log_of (s_store (nd_state demo_run.1)) !! k) → k = 8.
Proof.
  assert (decided_values (s_store (nd_state demo_run.1)) = {[8 := [0]]}) as Hv by (vm_compute; reflexivity).
  rewrite log_of_lookup, Hv, fmap_is_Some. intros [b Hb]. by apply lookup_singleton_Some in Hb as [-> _].
Qed.
