(* ===== verification/AppSafety.v ===== *)
(** * Proposing and voting ([crates/node/src/app.rs])

    When the application loop proposes a value, when it lets consensus vote for
    one, and what it hands to a peer that syncs. *)
From S2P Require Import Prelude Types Merkle Streaming Proposal Metadata BlobStore BlobEngine Store Proto State Archival BlobProposal Commit Decide Sync Client App AppLog.
Open Scope monad_scope.

Section app_safety.
Context {E : Type} {B : BlobEngine E} {C : Crypto} {T : MerkleTreeLib} {NC : NodeCodecs} {TH : TreeHashLib}
  {SZ : PayloadSsz} {BC : BlockConversion} {SA : StreamApi} {KP : Codec SyncedValuePackage}.
Context {N : Type} {EA : EngineApi N} {TM : Timer N}.
Context (payload_as_ssz : ExecutionPayloadV3 → bytes) (ec : ExecutionClient) (cfg : ExecutionRetryConfig).

(** ** The gate *)

(** The execution layer was at [head] a moment ago, or says so now. *)
Definition el_at_head (head : ExecutionBlock) (n n' : Node E N) : Prop :=
  s_latest_block (nd_state n') = Some head ∧
  s_last_fcu_head (nd_state n') = Some (eb_block_hash head) ∧
  ((∃ h, set_latest_forkchoice_state (eb_block_hash head) (nd_el n) = (nd_el n', inr h)) ∨
   nd_el n' = nd_el n ∧
   ∃ t, s_last_fcu_success (nd_state n') = Some t ∧ now_ms (nd_el n) - t < EL_FCU_SUCCESS_CACHE).

Lemma resolve_cl_head_run (s s' : State E) (head : ExecutionBlock) :
  resolve_cl_head s = (s', Ok head) → s_latest_block s' = Some head.
Proof.
  unfold resolve_cl_head. intros (b & s1 & _ & Hr)%bind_run_Ok. destruct b as [b|].
  - unfold bind, modify, ret in Hr. by simplify_eq/=.
  - unfold bind, get, lift in Hr. destruct (s_latest_block s1) eqn:Hb; by simplify_eq/=.
Qed.

Lemma ensure_run (n n' : Node E N) (head : ExecutionBlock) :
  ensure_el_matches_cl_head n = (n', Ok head) → el_at_head head n n'.
Proof.
  unfold ensure_el_matches_cl_head.
  intros [(hd & n1 & (s & Hs & ->)%st_run & Hr)|(? & _ & _ & ?)]%bind_run; [|done].
  apply resolve_cl_head_run in Hs. unfold bind at 1, get in Hr.
  destruct (cooling_down _ _); [done|]. destruct (recently_applied _ _ _) eqn:Hre.
  { injection Hr as <- <-. unfold recently_applied in Hre. simpl in Hre.
    destruct (s_last_fcu_head s) as [lh|] eqn:Hl; [|done]. destruct (s_last_fcu_success s) as [t|] eqn:Ht; [|done].
    apply andb_true_iff in Hre as [->%bool_decide_eq_true Hlt]. split_and!; [done..|]. right. split; [done|].
    exists t. split; [done|lia]. }
  unfold bind at 1, st_el, zoom, on_el in Hr. cbn [fst snd nd_state nd_el set_nd_state] in Hr.
  destruct (set_latest_forkchoice_state (eb_block_hash hd) (nd_el n)) as [m [[|e]|h]] eqn:Hfc; [done..|].
  unfold bind, get, update, st, zoom, modify, ret in Hr. simplify_eq/=. split_and!; [done..|]. left. by exists h.
Qed.

Lemma state_quiet {A} (c : M (State E) string A) (n n' : Node E N) (r : outcome string A) :
  st c n = (n', r) → nd_el n' = nd_el n ∧ nd_replies n' = nd_replies n.
Proof. by intros (s & _ & ->)%st_run. Qed.

Lemma reply_el (open : bool) (rp : Reply) (n n' : Node E N) (r : outcome string unit) :
  reply_ open rp n = (n', r) → nd_el n' = nd_el n.
Proof. unfold reply_, bind, reply. destruct open; by intros [= <- _]. Qed.

(** A call whose error is handled panics or goes on. *)
Lemma tried_run {A A'} (c : M (Node E N) string A) (k : string + A → M (Node E N) string A') (n n' : Node E N)
    (r : outcome string A') :
  bind (tried c) k n = (n', r) → r = Panic ∨ ∃ x n1, tried c n = (n1, Ok x) ∧ k x n1 = (n', r).
Proof. unfold bind, tried, attempt. destruct (c n) as [n1 [a|e|]]; [eauto 10..|]. intros [= _ <-]. by left. Qed.

Lemma tried_st_run {A} (c : M (State E) string A) (n n' : Node E N) (x : string + A) :
  tried (st c) n = (n', Ok x) → nd_el n' = nd_el n ∧ nd_replies n' = nd_replies n ∧
    ∀ a, x = inr a → ∃ s, c (nd_state n) = (s, Ok a).
Proof.
  unfold tried, attempt, st, zoom. destruct (c (nd_state n)) as [s [a|e|]]; intros [= <- <-]; split_and!; try done.
  intros ? [= <-]. eauto.
Qed.

(** C9: consensus votes for a proposal only when the execution layer is at the
    node's head.  A complete proposal is passed on only if it was assembled and
    verified, and the execution layer answered VALID for the head just now, or
    did so less than half a second ago; in every other case the node votes nil. *)
Theorem vote_needs_execution_head (from : bytes) (part : StreamMessage) (n n' : Node E N) (r : outcome string unit) :
  handle_msg payload_as_ssz ec cfg (ReceivedProposalPart from part) true n = (n', r) →
  r = Panic ∨ r = Ok tt ∧ ∃ o, nd_replies n' = nd_replies n ++ [RProposal o] ∧
    ∀ pv, o = Some pv →
      part_notice part = None ∧
      (∃ s, received_proposal_part (unix_secs (nd_el n)) from part (nd_state n) = (s, Ok (Some pv))) ∧
      ∃ head, el_at_head head n n'.
Proof.
  cbn [handle_msg]. unfold handle_proposal_part. destruct (part_notice part) as [nt|].
  { intros [->|(x & n1 & (_ & Hr1 & _)%tried_st_run & Hr)]%tried_run; [by left|right].
    apply reply_run in Hr as (-> & _ & Hr). split; [done|]. exists None. by rewrite Hr, Hr1. }
  unfold bind at 1, get. intros [->|(x & n1 & (He1 & Hr1 & Hx)%tried_st_run & Hr)]%tried_run; [by left|].
  assert (∀ rp n2, nd_replies n2 = nd_replies n1 → reply_ true rp n2 = (n', r) →
    r = Ok tt ∧ nd_replies n' = nd_replies n ++ [rp]) as Hrep.
  { intros rp n2 H2 (-> & _ & Hr')%reply_run. by rewrite Hr', H2, Hr1. }
  destruct x as [e|[pv|]].
  1, 3: right; destruct (Hrep _ _ eq_refl Hr) as [-> Hr']; split; [done|]; by eexists.
  apply tried_run in Hr as [->|(g & n2 & Hg & Hr)]; [by left|right].
  assert (quiet log_same n1 n2) as [_ Hr2].
  { eapply run_steps; [|exact Hg]. by apply tried_quiet, ensure_quiet; [apply _|]. }
  destruct (Hrep _ _ Hr2 Hr) as [-> Hr']. split; [done|]. eexists. split; [exact Hr'|].
  destruct g as [e|head]; [done|]. intros pv' [= <-]. split; [done|]. split; [by apply Hx|].
  apply attempt_run, ensure_run in Hg. exists head. unfold el_at_head in *.
  pose proof (reply_el _ _ _ _ _ Hr) as He. apply reply_run in Hr as (_ & -> & _). by rewrite He, <-He1.
Qed.

(** ** One value per round *)

(** The payload of a round is still there. *)
Definition payload_kept (k : Z * Z) (s s' : Store) : Prop :=
  is_Some (undecided_block_data s !! k) → is_Some (undecided_block_data s' !! k).
#[export] Instance payload_kept_preorder k : PreOrder (payload_kept k).
Proof. unfold payload_kept. split; [by intros s|]. intros s1 s2 s3 H1 H2 ?. auto. Qed.

Lemma store_payload_run (h : Height) (r : Round) (d : bytes) (q : list bytes) (s s' : State E) (u : unit) :
  store_undecided_proposal_data h r d q s = (s', Ok u) →
  is_Some (undecided_block_data (s_store s') !! round_key h r).
Proof.
  intros (st' & Hw & ->)%with_store_run. apply blocking_run, write_tx_run in Hw as (s0 & _ & Hb).
  injection Hb as <- _. simpl. unfold insert_if_absent. destruct (undecided_block_data s0 !! round_key h r) eqn:Hl.
  - rewrite Hl. by eexists.
  - rewrite lookup_insert_eq. by eexists.
Qed.

Lemma build_stores_payload (h : Height) (r : Round) (head : ExecutionBlock) (n n' : Node E N) x :
  build_and_store payload_as_ssz ec h r head n = (n', Ok x) →
  is_Some (undecided_block_data (s_store (nd_state n')) !! round_key h r).
Proof.
  assert (∀ s fs, payload_kept (round_key h r) s (with_tx_faults fs s)) as Hread by (by intros s fs ?).
  unfold build_and_store. intros [([res bundle] & n1 & _ & Hr)|(? & _ & _ & ?)]%bind_run; [|done].
  apply bind_run in Hr as [(v & n2 & _ & Hr)|(? & _ & _ & ?)]; [|done].
  apply bind_run in Hr as [(u & n3 & (s & Hs & ->)%st_run & Hr)|(? & _ & _ & ?)]; [|done].
  apply store_payload_run in Hs. refine (run_steps (node_rel (payload_kept (round_key h r))) _ _ _ _ _ Hr Hs).
  pose proof (sidecar_parts_rel (E := E) _ Hread v bundle) as Hp.
  pose proof (λ A c, engine_store_rel (E := E) (A := A) (payload_kept (round_key h r)) c) as Heng.
  apply (steps_weaken (quiet (payload_kept (round_key h r)))); [by intros ?? []|].
  unfold engine. steps_tac; by apply st_quiet.
Qed.

Lemma reply_rel_payload (k : Z * Z) (open : bool) (rp : Reply) :
  steps (node_rel (E := E) (N := N) (payload_kept k)) (reply open rp).
Proof. intros n. unfold reply, node_rel, store_rel. by destruct open. Qed.

(** When a reply was sent, the silent part before it succeeded. *)
Lemma reply_after {A A'} (c : M (Node E N) string A) (k : A → M (Node E N) string A') (n n' : Node E N)
    (o : outcome string A') :
  steps (quiet log_same) c → bind c k n = (n', o) → nd_replies n' ≠ nd_replies n →
  ∃ a n1, c n = (n1, Ok a) ∧ k a n1 = (n', o) ∧ nd_replies n' ≠ nd_replies n1.
Proof.
  intros Hq [(a & n1 & Hc & Hk)|(r0 & Hc & _)]%bind_run Hne;
    apply (run_steps _ _ _ _ _ Hq) in Hc as Hs; destruct Hs as [_ Hs]; [|done].
  exists a, n1. by rewrite Hs.
Qed.

(** A reply of the handler means that the payload of the round is stored. *)
Lemma get_value_stores_payload (h : Height) (r : Round) (t : Z) (open : bool) (n n' : Node E N)
    (o : outcome string unit) :
  handle_get_value payload_as_ssz ec h r t open n = (n', o) → nd_replies n' ≠ nd_replies n →
  is_Some (undecided_block_data (s_store (nd_state n')) !! round_key h r).
Proof.
  unfold handle_get_value. unfold bind at 1, get. intros Hr Hne.
  apply reply_after in Hr as (known & n1 & _ & Hr & Hne1); [|apply tried_quiet, st_quiet, read_store_rel; eauto with steps|done].
  assert (∃ head n2, (throttle head t (now_ms (nd_el n)) ;;;
    let* (proposal, data, reqs, sidecars) := build_and_store payload_as_ssz ec h r head in
    let* sent := reply open (RValue proposal) in
    if negb sent then fail "Failed to send GetValue reply; channel closed"%string
    else
      let stream_sidecars := if decide (sidecars = []) then None else Some sidecars in
      let* msgs := st (stream_proposal_state proposal data stream_sidecars reqs None) in
      foreach msgs publish) n2 = (n', o) ∧ nd_replies n' ≠ nd_replies n2) as (head & n2 & Hr2 & Hne2).
  { destruct known as [e|[d|]]; [|by injection Hr as <- _|];
      apply reply_after in Hr as (head & n2 & _ & Hr & Hne2); eauto; by apply ensure_quiet; [apply _|]. }
  apply reply_after in Hr2 as ([] & n3 & _ & Hr2 & Hne3); [|by apply throttle_quiet, _|done].
  apply reply_after in Hr2 as ([[[v d] q] scs] & n4 & Hb & Hr2 & _);
    [|by apply build_quiet; [apply _|exact log_same_faults|exact run_op_log_same]|done].
  apply build_stores_payload in Hb.
  refine (run_steps (node_rel (payload_kept (round_key h r))) _ _ _ _ _ Hr2 Hb).
  pose proof (reply_rel_payload (round_key h r)).
  assert (∀ A (c : M (Node E N) string A), steps (quiet (payload_kept (round_key h r))) c →
    steps (node_rel (payload_kept (round_key h r))) c) as Hq.
  { intros A c. apply steps_weaken. by intros ?? []. }
  pose proof (λ m, Hq _ _ (publish_quiet (E := E) (N := N) (payload_kept (round_key h r)) m)).
  pose proof (λ v d scs q p, Hq _ _ (st_quiet _ _ (stream_proposal_rel (E := E) (payload_kept (round_key h r)) v d scs q p))).
  steps_tac.
Qed.

(** C3: a node proposes at most one value for a round.  If a request for a value
    was answered, then any later request for that height and round, on a store
    that has the same undecided payloads and can be read (after a restart too),
    is neither answered nor streamed, and changes nothing. *)
Theorem value_proposed_once (h : Height) (r : Round) (t t' : Z) (open open' : bool) (n n1 m : Node E N)
    (o : outcome string unit) :
  handle_msg payload_as_ssz ec cfg (GetValue h r t) open n = (n1, o) → nd_replies n1 ≠ nd_replies n →
  undecided_block_data (s_store (nd_state m)) = undecided_block_data (s_store (nd_state n1)) →
  tx_faults (s_store (nd_state m)) = [] →
  handle_msg payload_as_ssz ec cfg (GetValue h r t') open' m = (m, Ok tt).
Proof.
  cbn [handle_msg]. intros Hrun Hne Heq Hf.
  assert (∃ o, handle_get_value payload_as_ssz ec h r t open n = (n1, o)) as [o1 Hg].
  { unfold bind, tried, attempt in Hrun.
    destruct (handle_get_value _ _ _ _ _ _ n) as [n2 [?|?|]]; injection Hrun as <- _; eauto. }
  destruct (get_value_stores_payload _ _ _ _ _ _ _ Hg Hne) as [b Hb]. rewrite <-Heq in Hb.
  assert (st (with_store (get_block_data h r)) m = (m, Ok (Some (br_execution_payload_ssz (BlockPayloadRecord_decode b)))))
    as Hread.
  { unfold st, with_store, zoom, map_err, get_block_data, blocking, load_block_payload_record. unfold bind at 1.
    rewrite (read_tx_ok _ _ Hf), Hb. simpl. rewrite set_store_same. by destruct m. }
  unfold bind at 1, tried at 1, attempt, handle_get_value. unfold bind at 1, get. unfold bind at 1, tried, attempt.
  by rewrite Hread.
Qed.
End app_safety.

(** ** Serving a value to a peer *)

Section peer_sync.
Context {E : Type} {B : BlobEngine E} {C : Crypto} {T : MerkleTreeLib} {NC : NodeCodecs} {TH : TreeHashLib}
  {SZ : PayloadSsz} {BC : BlockConversion} {SA : StreamApi}.
Context (WY : ProstMessage MsgSyncedValuePackage) (LY : ProstLaws MsgSyncedValuePackage WY).
Context {N : Type} {EA : EngineApi N} {TM : Timer N}.
Context (payload_as_ssz : ExecutionPayloadV3 → bytes) (ec : ExecutionClient) (cfg : ExecutionRetryConfig).
#[local] Existing Instance package_codec.

(** Whatever else of a package survives the wire, its value does. *)
Lemma package_value_roundtrip (pkg pkg' : SyncedValuePackage) (b : bytes) :
  value_wf (package_value pkg) → encode pkg = Ok b → decode b = Ok pkg' → package_value pkg' = package_value pkg.
Proof using LY.
  intros Hv [= <-]. cbn [decode package_codec proto_codec]. rewrite prost_decode_encode.
  unfold SyncedValuePackage_from_proto, SyncedValuePackage_to_proto.
  destruct pkg as [v pl scs q ns|v ns pl q]; cbn [ppackage missing ok_or obind package_value] in *;
    rewrite Value_roundtrip by done; cbn [obind].
  - destruct (omapM _ _); [|done..]; cbn [obind]. destruct (omapM _ _); [|done..]. by intros [= <-].
  - destruct (omapM _ _); [|done..]. by intros [= <-].
Qed.

(** The single reply of a message other than a decision is one the log allows. *)
Lemma one_reply_spec (msg : AppMsg) (a a' : Node E N) (o : outcome string unit) (rp : Reply) :
  handle_msg payload_as_ssz ec cfg msg true a = (a', o) → nd_replies a' = nd_replies a ++ [rp] →
  (∀ cert, msg ≠ Decided cert) → reply_spec msg (log_of (s_store (nd_state a))) rp.
Proof.
  intros Hrun Hr Hm. pose proof (handle_msg_answers payload_as_ssz ec cfg msg true a Hm) as [_ Ha].
  rewrite Hrun in Ha. cbn [fst] in Ha. rewrite Hr in Ha. destruct Ha as [Ha|(rp' & Ha & Hs)].
  - apply (f_equal length) in Ha. rewrite length_app in Ha. simpl in Ha. lia.
  - by apply app_inj_2 in Ha as [_ [= <-]].
Qed.
End peer_sync.

(** ** Concrete inputs *)

#[local] Existing Instances demo_rocksdb_engine null_crypto demo_merkle commit_codecs demo_tree_hash
  demo_ssz demo_stream_api demo_api demo_timer blobless_conversion demo_packages.

(** The last part of a proposal arrives while the execution layer is ready. *)
Definition demo_voter : Node BlobEngineImpl Z := mkNode demo_receiver 101000 [] [] [] [] None true.
Definition demo_vote : Node BlobEngineImpl Z * outcome string unit :=
  handle_msg (λ _, [1]) demo_client ExecutionRetryConfig_default
    (ReceivedProposalPart [5] (mkMsg [9] 3 SFin)) true demo_voter.

Lemma vote_needs_execution_head_witness :
  ∃ pv head, nd_replies demo_vote.1 = [RProposal (Some pv)] ∧
    s_last_fcu_head (nd_state demo_vote.1) = Some (eb_block_hash head).
Proof.
  destruct (vote_needs_execution_head (λ _, [1]) demo_client ExecutionRetryConfig_default [5] (mkMsg [9] 3 SFin)
    demo_voter demo_vote.1 demo_vote.2 (surjective_pairing _)) as [H|(_ & o & Hr & Ho)].
  - exfalso. revert H. vm_compute. discriminate.
  - assert (is_Some o) as [pv ->].
    { assert (match nd_replies demo_vote.1 with [RProposal o] => is_Some o | _ => False end) as Hs
        by (vm_compute; eauto). rewrite Hr in Hs. exact Hs. }
    destruct (Ho pv eq_refl) as (_ & _ & head & _ & Hh & _). exists pv, head. split; [exact Hr|exact Hh].
Defined.

(** A value is proposed, and asked for again. *)
Definition demo_builder : Node BlobEngineImpl Z :=
  mkNode (set_latest_block (Some demo_head) demo_committer) 101000 [] [] [] [] None true.
Definition demo_proposed : Node BlobEngineImpl Z * outcome string unit :=
  handle_msg (λ _, [1]) demo_client ExecutionRetryConfig_default (GetValue 8 (RSome 0) 3000) true demo_builder.

Lemma value_proposed_once_witness :
  length (nd_replies demo_proposed.1) = 1%nat ∧
  handle_msg (λ _, [1]) demo_client ExecutionRetryConfig_default (GetValue 8 (RSome 0) 3000) true demo_proposed.1
    = (demo_proposed.1, Ok tt).
Proof.
  assert (length (nd_replies demo_proposed.1) = 1%nat) as H1 by (vm_compute; reflexivity).
  split; [exact H1|].
  apply (value_proposed_once (λ _, [1]) demo_client ExecutionRetryConfig_default 8 (RSome 0) 3000 3000 true true
    demo_builder demo_proposed.1 demo_proposed.1 demo_proposed.2).
  - apply surjective_pairing.
  - intros Heq. rewrite Heq in H1. exact (Nat.neq_0_succ 0 H1).
  - reflexivity.
  - vm_compute. reflexivity.
Defined.
