(* ===== verification/Messages.v ===== *)
(** * The messages of the network codec ([codec/proto/mod.rs])

    The codecs of what peers exchange next to proposal streams: signed votes and
    proposals, the certificates of the liveness protocol, and the status,
    requests and responses of sync.  The theorems follow a message from the node
    that sends it to the node that reads it: signed messages still verify,
    certificates and sync responses arrive as they were sent, and no bytes of a
    peer make a decoder panic. *)
From S2P Require Import Prelude Types Merkle Streaming Proposal Metadata BlobStore BlobEngine Store Proto Votes State Archival BlobProposal Commit Decide Sync Client App AppLog AppSafety.
Open Scope outcome_scope.

(** ** Signed consensus messages *)

Inductive SignedConsensusMsg :=
| SCVote (v : SignedMessage Vote)
| SCProposal (p : SignedMessage Proposal).

Inductive MsgSignedBody := SBProposal (p : MsgProposal) | SBVote (v : MsgVote).
Record MsgSignedMessage := mkPSigned {
  psg_message : option MsgSignedBody; psg_signature : option bytes }.

Definition consensus_from_proto (p : MsgSignedMessage) : outcome string SignedConsensusMsg :=
  let? ps := missing (psg_signature p) "signature" in
  let? signature := decode_signature ps in
  let? message := missing (psg_message p) "message" in
  match message with
  | SBProposal p => let? proposal := Proposal_from_proto p in Ok (SCProposal (mkSigned proposal signature))
  | SBVote v => let? vote := Vote_from_proto v in Ok (SCVote (mkSigned vote signature))
  end.

Definition consensus_to_proto (m : SignedConsensusMsg) : outcome string MsgSignedMessage :=
  match m with
  | SCVote v =>
    let? p := Vote_to_proto (sg_message v) in
    Ok (mkPSigned (Some (SBVote p)) (Some (encode_signature (sg_signature v))))
  | SCProposal p =>
    let? pp := Proposal_to_proto (sg_message p) in
    Ok (mkPSigned (Some (SBProposal pp)) (Some (encode_signature (sg_signature p))))
  end.

Definition encode_vote (v : SignedMessage Vote) : outcome string MsgSignedMessage :=
  let? p := Vote_to_proto (sg_message v) in
  Ok (mkPSigned (Some (SBVote p)) (Some (encode_signature (sg_signature v)))).

(** [Result::ok] *)
Definition ok {E A} (o : outcome E A) : option A := match o with Ok a => Some a | _ => None end.

Definition decode_vote (m : MsgSignedMessage) : option (SignedMessage Vote) :=
  ps ← psg_signature m;
  v ← match psg_message m with Some (SBVote v) => Some v | _ => None end;
  signature ← ok (decode_signature ps);
  vote ← ok (Vote_from_proto v);
  Some (mkSigned vote signature).

(** ** Vote extensions *)

Record MsgExtension := mkPExtension { pex_data : bytes; pex_signature : option bytes }.

Definition decode_extension (p : MsgExtension) : outcome string SignedExtension :=
  let? ps := missing (pex_signature p) "signature" in
  let? signature := decode_signature ps in
  Ok (mkExtension (pex_data p) signature).
Definition encode_extension (e : SignedExtension) : MsgExtension :=
  mkPExtension (ext_message e) (Some (encode_signature (ext_signature e))).

(** ** Liveness messages *)

Record PolkaCertificate := mkPolka {
  pk_height : Height; pk_round : Round; pk_value_id : Z; pk_signatures : list (Address * Signature) }.
Record MsgPolkaSignature := mkPPolkaSignature {
  ppks_validator_address : option bytes; ppks_signature : option bytes }.
Record MsgPolkaCertificate := mkPPolka {
  ppk_height : Z; ppk_round : Z; ppk_value_id : option Z; ppk_signatures : list MsgPolkaSignature }.

Definition encode_polka_certificate (c : PolkaCertificate) : outcome string MsgPolkaCertificate :=
  let? round := ok_or (Round_as_u32 (pk_round c)) "polka certificate round is nil"%string in
  Ok (mkPPolka (pk_height c) round (Some (pk_value_id c))
        ((λ s, mkPPolkaSignature (Some (Address_to_proto s.1)) (Some (encode_signature s.2))) <$> pk_signatures c)).

Definition decode_polka_signature (p : MsgPolkaSignature) : outcome string (Address * Signature) :=
  let? pa := missing (ppks_validator_address p) "validator_address" in
  let? ps := missing (ppks_signature p) "signature" in
  let? signature := decode_signature ps in
  let? address := Address_from_proto pa in
  Ok (address, signature).

Definition decode_polka_certificate (p : MsgPolkaCertificate) : outcome string PolkaCertificate :=
  let? id := missing (ppk_value_id p) "value_id" in
  let? sigs := omapM decode_polka_signature (ppk_signatures p) in
  Ok (mkPolka (ppk_height p) (RSome (ppk_round p)) id sigs).

Inductive RoundCertificateType := CertPrecommit | CertSkip.
Record RoundSignature := mkRoundSignature {
  rs_vote_type : VoteType; rs_value_id : NilOrVal; rs_address : Address; rs_signature : Signature }.
Record RoundCertificate := mkRoundCertificate {
  rc_height : Height; rc_round : Round; rc_cert_type : RoundCertificateType;
  rc_signatures : list RoundSignature }.

Record MsgRoundSignature := mkPRoundSignature {
  prs_vote_type : Z; prs_validator_address : option bytes; prs_signature : option bytes;
  prs_value_id : option Z }.
Record MsgRoundCertificate := mkPRoundCertificate {
  prc_height : Z; prc_round : Z; prc_cert_type : Z; prc_signatures : list MsgRoundSignature }.

Definition encode_cert_type (t : RoundCertificateType) : Z :=
  match t with CertPrecommit => 0 | CertSkip => 1 end.
(** Unlike the type of a vote, an unknown certificate type is an error. *)
Definition decode_cert_type (z : Z) : outcome string RoundCertificateType :=
  if z =? 0 then Ok CertPrecommit else if z =? 1 then Ok CertSkip
  else Err "Unknown RoundCertificateType"%string.

Definition encode_round_signature (s : RoundSignature) : MsgRoundSignature :=
  mkPRoundSignature (encode_votetype (rs_vote_type s)) (Some (Address_to_proto (rs_address s)))
    (Some (encode_signature (rs_signature s))) (NilOrVal_to_proto (rs_value_id s)).

Definition encode_round_certificate (c : RoundCertificate) : outcome string MsgRoundCertificate :=
  let? round := ok_or (Round_as_u32 (rc_round c)) "round certificate round is nil"%string in
  Ok (mkPRoundCertificate (rc_height c) round (encode_cert_type (rc_cert_type c))
        (encode_round_signature <$> rc_signatures c)).

Definition decode_round_signature (p : MsgRoundSignature) : outcome string RoundSignature :=
  let? pa := missing (prs_validator_address p) "validator_address" in
  let? ps := missing (prs_signature p) "signature" in
  let? signature := decode_signature ps in
  let? address := Address_from_proto pa in
  Ok (mkRoundSignature (decode_votetype (prs_vote_type p)) (NilOrVal_from_proto (prs_value_id p)) address signature).

Definition decode_round_certificate (p : MsgRoundCertificate) : outcome string RoundCertificate :=
  let? t := decode_cert_type (prc_cert_type p) in
  let? sigs := omapM decode_round_signature (prc_signatures p) in
  Ok (mkRoundCertificate (prc_height p) (RSome (prc_round p)) t sigs).

Definition encode_vote_msg (v : SignedMessage Vote) : outcome string MsgSignedMessage :=
  let? p := Vote_to_proto (sg_message v) in
  Ok (mkPSigned (Some (SBVote p)) (Some (encode_signature (sg_signature v)))).

Definition decode_vote_msg (m : MsgSignedMessage) : outcome string (SignedMessage Vote) :=
  let? ps := missing (psg_signature m) "signature" in
  let? v := match psg_message m with
            | Some (SBVote v) => Ok v
            | _ => Err "Invalid message type: not a vote"%string
            end in
  let? signature := decode_signature ps in
  let? vote := Vote_from_proto v in
  Ok (mkSigned vote signature).

Inductive LivenessMsg :=
| LVote (v : SignedMessage Vote)
| LPolkaCertificate (c : PolkaCertificate)
| LSkipRoundCertificate (c : RoundCertificate).

Inductive MsgLivenessBody :=
| LBVote (m : MsgSignedMessage)
| LBPolkaCertificate (c : MsgPolkaCertificate)
| LBRoundCertificate (c : MsgRoundCertificate).
Record MsgLivenessMessage := mkPLiveness { plv_message : option MsgLivenessBody }.

Definition liveness_from_proto (p : MsgLivenessMessage) : outcome string LivenessMsg :=
  match plv_message p with
  | Some (LBVote v) => let? v := decode_vote_msg v in Ok (LVote v)
  | Some (LBPolkaCertificate c) => let? c := decode_polka_certificate c in Ok (LPolkaCertificate c)
  | Some (LBRoundCertificate c) => let? c := decode_round_certificate c in Ok (LSkipRoundCertificate c)
  | None => Err "message"%string
  end.

Definition liveness_to_proto (m : LivenessMsg) : outcome string MsgLivenessMessage :=
  match m with
  | LVote v => let? p := encode_vote_msg v in Ok (mkPLiveness (Some (LBVote p)))
  | LPolkaCertificate c => let? p := encode_polka_certificate c in Ok (mkPLiveness (Some (LBPolkaCertificate p)))
  | LSkipRoundCertificate c =>
    let? p := encode_round_certificate c in Ok (mkPLiveness (Some (LBRoundCertificate p)))
  end.

(** ** Sync *)

(** [libp2p]'s peer identities, as they are read from bytes. *)
Class PeerIdLib (P : Type) := {
  PeerId_from_bytes : bytes → option P;
  PeerId_to_bytes : P → bytes }.
Class PeerIdLaws (P : Type) (L : PeerIdLib P) := {
  PeerId_roundtrip : ∀ p, PeerId_from_bytes (PeerId_to_bytes p) = Some p }.

Record Status (P : Type) := mkStatus {
  stt_peer_id : P; stt_tip_height : Height; stt_history_min_height : Height }.
Arguments mkStatus {P}. Arguments stt_peer_id {P}. Arguments stt_tip_height {P}. Arguments stt_history_min_height {P}.

Record MsgStatus := mkPStatus { pstt_peer_id : option bytes; pstt_height : Z; pstt_earliest_height : Z }.

Definition status_from_proto {P} `{PeerIdLib P} (p : MsgStatus) : outcome string (Status P) :=
  let? pid := missing (pstt_peer_id p) "peer_id" in
  let? peer := ok_or (PeerId_from_bytes pid) "invalid peer_id bytes"%string in
  Ok (mkStatus peer (pstt_height p) (pstt_earliest_height p)).
Definition status_to_proto {P} `{PeerIdLib P} (s : Status P) : MsgStatus :=
  mkPStatus (Some (PeerId_to_bytes (stt_peer_id s))) (stt_tip_height s) (stt_history_min_height s).

(** A request is for an inclusive range of heights. *)
Inductive SyncRequest := ValueRequest (start end_ : Height).
Record MsgValueRequest := mkPValueRequest { pvr_height : Z; pvr_end_height : option Z }.
Record MsgSyncRequest := mkPSyncRequest { psr_request : option MsgValueRequest }.

Definition request_from_proto (p : MsgSyncRequest) : outcome string SyncRequest :=
  let? req := missing (psr_request p) "request" in
  let start := pvr_height req in
  Ok (ValueRequest start (default start (pvr_end_height req))).
Definition request_to_proto (r : SyncRequest) : MsgSyncRequest :=
  match r with
  | ValueRequest start end_ =>
    mkPSyncRequest (Some (mkPValueRequest start (if negb (end_ =? start) then Some end_ else None)))
  end.

Record MsgSyncedValue := mkPSyncedValue {
  psv_value_bytes : bytes; psv_certificate : option MsgCommitCertificate }.

Definition encode_synced_value (v : RawDecidedValue) : outcome string MsgSyncedValue :=
  let? c := encode_certificate (rd_certificate v) in
  Ok (mkPSyncedValue (rd_value_bytes v) (Some c)).
Definition decode_synced_value (p : MsgSyncedValue) : outcome string RawDecidedValue :=
  let? pc := missing (psv_certificate p) "certificate" in
  let? c := decode_certificate pc in
  Ok (mkRawDecided c (psv_value_bytes p)).

Inductive SyncResponse := ValueResponse (start_height : Height) (values : list RawDecidedValue).
Record MsgValueResponse := mkPValueResponse { pvs_start_height : Z; pvs_values : list MsgSyncedValue }.
Record MsgSyncResponse := mkPSyncResponse { psp_response : option MsgValueResponse }.

Definition decode_sync_response (p : MsgSyncResponse) : outcome string SyncResponse :=
  let? r := missing (psp_response p) "messages" in
  let? values := omapM decode_synced_value (pvs_values r) in
  Ok (ValueResponse (pvs_start_height r) values).
Definition encode_sync_response (r : SyncResponse) : outcome string MsgSyncResponse :=
  match r with
  | ValueResponse start values =>
    let? vs := omapM encode_synced_value values in
    Ok (mkPSyncResponse (Some (mkPValueResponse start vs)))
  end.

(** ** Well-formed messages and round trips *)

Definition signed_vote_wf (v : SignedMessage Vote) : Prop :=
  vote_wf (sg_message v) ∧ vt_extension (sg_message v) = None ∧ has_length 64 (sg_signature v).
Definition consensus_msg_wf (m : SignedConsensusMsg) : Prop :=
  match m with
  | SCVote v => signed_vote_wf v
  | SCProposal p => proposal_wf (sg_message p) ∧ has_length 64 (sg_signature p)
  end.
Definition signature_wf (s : Address * Signature) : Prop := has_length 20 s.1 ∧ has_length 64 s.2.
Definition polka_wf (c : PolkaCertificate) : Prop := pk_round c ≠ Nil ∧ Forall signature_wf (pk_signatures c).
Definition round_certificate_wf (c : RoundCertificate) : Prop :=
  rc_round c ≠ Nil ∧ Forall (λ s, has_length 20 (rs_address s) ∧ has_length 64 (rs_signature s)) (rc_signatures c).
Definition liveness_wf (m : LivenessMsg) : Prop :=
  match m with
  | LVote v => signed_vote_wf v
  | LPolkaCertificate c => polka_wf c
  | LSkipRoundCertificate c => round_certificate_wf c
  end.
Definition response_wf (r : SyncResponse) : Prop :=
  match r with ValueResponse _ values => Forall (λ v, certificate_wf (rd_certificate v)) values end.

Section message_codecs.
Context `{ProstMessage MsgSignedMessage} `{ProstMessage MsgLivenessMessage} `{ProstMessage MsgStatus}
  `{ProstMessage MsgSyncRequest} `{ProstMessage MsgSyncResponse}.
Definition signed_codec : Codec SignedConsensusMsg :=
  proto_codec consensus_to_proto consensus_from_proto consensus_msg_wf.
Definition liveness_codec : Codec LivenessMsg := proto_codec liveness_to_proto liveness_from_proto liveness_wf.
Definition status_codec {P} `{PeerIdLib P} : Codec (Status P) :=
  proto_codec (λ s, Ok (status_to_proto s)) status_from_proto (λ _, True).
Definition request_codec : Codec SyncRequest :=
  proto_codec (λ r, Ok (request_to_proto r)) request_from_proto (λ _, True).
Definition response_codec : Codec SyncResponse :=
  proto_codec encode_sync_response decode_sync_response response_wf.
End message_codecs.

Lemma on_wire_id (v : Vote) : vt_extension v = None → on_wire v = v.
Proof. destruct v; simpl. by intros ->. Qed.

(** A signed vote arrives without its extension. *)
Lemma encode_vote_msg_wire (v : SignedMessage Vote) :
  vote_wf (sg_message v) → has_length 64 (sg_signature v) →
  obind (encode_vote_msg v) decode_vote_msg = Ok (mkSigned (on_wire (sg_message v)) (sg_signature v)).
Proof.
  intros Hv Hs. pose proof (Vote_roundtrip (sg_message v) Hv) as Hrt. unfold encode_vote_msg, decode_vote_msg.
  destruct (Vote_to_proto (sg_message v)) as [p| |]; simpl in *; try done.
  rewrite signature_roundtrip by done. simpl. by rewrite Hrt.
Qed.

(** The two readers of a signed vote agree. *)
Lemma decode_vote_agrees (m : MsgSignedMessage) : decode_vote m = ok (decode_vote_msg m).
Proof.
  unfold decode_vote, decode_vote_msg. destruct m as [[[p|v]|] [s|]]; simpl; try done.
  destruct (decode_signature s); simpl; try done. by destruct (Vote_from_proto v).
Qed.

Lemma consensus_vote_wire (v : SignedMessage Vote) :
  vote_wf (sg_message v) → has_length 64 (sg_signature v) →
  obind (consensus_to_proto (SCVote v)) consensus_from_proto
    = Ok (SCVote (mkSigned (on_wire (sg_message v)) (sg_signature v))).
Proof.
  intros Hv Hs. pose proof (Vote_roundtrip (sg_message v) Hv) as Hrt.
  unfold consensus_to_proto, consensus_from_proto.
  destruct (Vote_to_proto (sg_message v)) as [p| |]; simpl in *; try done.
  rewrite signature_roundtrip by done. simpl. by rewrite Hrt.
Qed.

Lemma consensus_msg_roundtrip (m : SignedConsensusMsg) :
  consensus_msg_wf m → obind (consensus_to_proto m) consensus_from_proto = Ok m.
Proof.
  destruct m as [[v s]|[p s]].
  - intros (Hv & He & Hs). rewrite consensus_vote_wire by done. simpl in *. by rewrite on_wire_id.
  - intros [Hp Hs]. simpl in *. pose proof (Proposal_roundtrip p Hp) as Hrt.
    unfold consensus_to_proto, consensus_from_proto. simpl.
    destruct (Proposal_to_proto p) as [pp| |]; simpl in *; try done.
    rewrite signature_roundtrip by done. simpl. by rewrite Hrt.
Qed.

Lemma extension_roundtrip (e : SignedExtension) :
  has_length 64 (ext_signature e) → decode_extension (encode_extension e) = Ok e.
Proof. intros He. unfold decode_extension, encode_extension. simpl. proto_tac. by destruct e. Qed.

Lemma polka_roundtrip (c : PolkaCertificate) :
  polka_wf c → obind (encode_polka_certificate c) decode_polka_certificate = Ok c.
Proof.
  destruct c as [h [|r] id sigs]; intros [Hr Hs]; [done|]. simpl in *.
  unfold decode_polka_certificate. simpl. rewrite (omapM_roundtrip _ _ signature_wf); [done| |done].
  intros [a s] [Ha Hsig]. unfold decode_polka_signature. simpl in *. by proto_tac.
Qed.

Lemma cert_type_roundtrip (t : RoundCertificateType) : decode_cert_type (encode_cert_type t) = Ok t.
Proof. by destruct t. Qed.

Lemma round_signature_roundtrip (s : RoundSignature) :
  has_length 20 (rs_address s) ∧ has_length 64 (rs_signature s) →
  decode_round_signature (encode_round_signature s) = Ok s.
Proof. destruct s. intros [Ha Hs]. unfold decode_round_signature. simpl in *. by proto_tac. Qed.

Lemma round_certificate_roundtrip (c : RoundCertificate) :
  round_certificate_wf c → obind (encode_round_certificate c) decode_round_certificate = Ok c.
Proof.
  destruct c as [h [|r] t sigs]; intros [Hr Hs]; [done|]. simpl in *.
  unfold decode_round_certificate. simpl. rewrite cert_type_roundtrip. simpl.
  rewrite (omapM_roundtrip _ _ _ _ round_signature_roundtrip Hs). done.
Qed.

Lemma liveness_roundtrip (m : LivenessMsg) :
  liveness_wf m → obind (liveness_to_proto m) liveness_from_proto = Ok m.
Proof.
  destruct m as [[v s]|c|c]; unfold liveness_to_proto, liveness_from_proto.
  - intros (Hv & He & Hs). pose proof (encode_vote_msg_wire (mkSigned v s) Hv Hs) as Hrt.
    destruct (encode_vote_msg _); simpl in *; try done. by rewrite Hrt, on_wire_id.
  - intros Hc%polka_roundtrip. destruct (encode_polka_certificate c); simpl in *; try done. by rewrite Hc.
  - intros Hc%round_certificate_roundtrip.
    destruct (encode_round_certificate c); simpl in *; try done. by rewrite Hc.
Qed.

Lemma request_roundtrip (r : SyncRequest) : request_from_proto (request_to_proto r) = Ok r.
Proof.
  destruct r as [s e]. unfold request_from_proto. simpl. destruct (e =? s) eqn:E; simpl; [|done].
  by apply Z.eqb_eq in E as ->.
Qed.

Lemma status_roundtrip {P} (L : PeerIdLib P) (LL : PeerIdLaws P L) (s : Status P) :
  status_from_proto (status_to_proto s) = Ok s.
Proof. unfold status_from_proto. simpl. rewrite PeerId_roundtrip. by destruct s. Qed.

Lemma synced_values_roundtrip (vs : list RawDecidedValue) :
  Forall (λ v, certificate_wf (rd_certificate v)) vs →
  obind (omapM encode_synced_value vs) (omapM decode_synced_value) = Ok vs.
Proof.
  induction 1 as [|[c b] vs Hc _ IH]; [done|]. apply certificate_roundtrip in Hc as Hrt.
  cbn [omapM]. unfold encode_synced_value at 1. simpl in *.
  destruct (encode_certificate c) as [p| |]; simpl in *; try done.
  destruct (omapM encode_synced_value vs) as [ps| |]; simpl in *; try done.
  unfold decode_synced_value at 1. simpl. rewrite Hrt. simpl. by rewrite IH.
Qed.

Lemma sync_response_roundtrip (r : SyncResponse) :
  response_wf r → obind (encode_sync_response r) decode_sync_response = Ok r.
Proof.
  destruct r as [start vs]. intros Hvs%synced_values_roundtrip.
  unfold encode_sync_response, decode_sync_response.
  destruct (omapM encode_synced_value vs); simpl in *; try done. by rewrite Hvs.
Qed.

(** ** What decoding admits *)

Lemma Address_from_proto_wf (b : bytes) (a : Address) : Address_from_proto b = Ok a → has_length 20 a.
Proof.
  unfold Address_from_proto. destruct (_ =? 20)%nat eqn:E; [|done]. intros [= <-]. by apply Nat.eqb_eq in E.
Qed.
Lemma decode_signature_wf (b : bytes) (s : Signature) : decode_signature b = Ok s → has_length 64 s.
Proof. unfold decode_signature. case_decide; [|done]. by intros [= <-]. Qed.
#[local] Hint Resolve Address_from_proto_wf decode_signature_wf : core.

Lemma omapM_Forall {E A B} (f : A → outcome E B) (Q : B → Prop) (l : list A) (ys : list B) :
  (∀ x y, f x = Ok y → Q y) → omapM f l = Ok ys → Forall Q ys.
Proof.
  intros Hf Hl. apply omapM_Ok_iff in Hl. induction Hl; constructor; eauto.
Qed.

Lemma Vote_from_proto_wf (p : MsgVote) (v : Vote) :
  Vote_from_proto p = Ok v → vote_wf v ∧ vt_extension v = None.
Proof. unfold Vote_from_proto, missing. intros H. decoded. simplify_eq. split; [split|]; simpl; eauto. Qed.

Lemma decode_vote_msg_wf (p : MsgSignedMessage) (v : SignedMessage Vote) :
  decode_vote_msg p = Ok v → signed_vote_wf v.
Proof.
  unfold decode_vote_msg, missing. intros H. decoded. destruct (psg_message p) as [[|]|]; simplify_eq.
  match goal with Hv : Vote_from_proto _ = Ok _ |- _ => apply Vote_from_proto_wf in Hv as [??] end.
  split_and!; simpl; eauto.
Qed.

Lemma decode_certificate_wf (p : MsgCommitCertificate) (c : CommitCertificate) :
  decode_certificate p = Ok c → certificate_wf c.
Proof.
  unfold decode_certificate, missing. intros H. decoded. simplify_eq. split; [done|]. simpl.
  eapply omapM_Forall; [|done]. intros q [a s]. unfold decode_commit_signature, missing. intros H. decoded.
  simplify_eq. simpl. eauto.
Qed.

Lemma decode_polka_wf (p : MsgPolkaCertificate) (c : PolkaCertificate) :
  decode_polka_certificate p = Ok c → polka_wf c.
Proof.
  unfold decode_polka_certificate, missing. intros H. decoded. simplify_eq. split; [done|]. simpl.
  eapply omapM_Forall; [|done]. intros q [a s]. unfold decode_polka_signature, missing, signature_wf. intros H.
  decoded. simplify_eq. simpl. eauto.
Qed.

Lemma decode_round_certificate_wf (p : MsgRoundCertificate) (c : RoundCertificate) :
  decode_round_certificate p = Ok c → round_certificate_wf c.
Proof.
  unfold decode_round_certificate. intros H. decoded. simplify_eq. split; [done|]. simpl.
  eapply omapM_Forall; [|done]. intros q s. unfold decode_round_signature, missing. intros H.
  decoded. simplify_eq. simpl. eauto.
Qed.

Lemma liveness_from_proto_wf (p : MsgLivenessMessage) (m : LivenessMsg) :
  liveness_from_proto p = Ok m → liveness_wf m.
Proof.
  unfold liveness_from_proto. destruct p as [[[v|c|c]|]]; simpl; [| | |done]; intros H; decoded; simplify_eq; simpl;
    eauto using decode_vote_msg_wf, decode_polka_wf, decode_round_certificate_wf.
Qed.

Lemma decode_sync_response_wf (p : MsgSyncResponse) (r : SyncResponse) :
  decode_sync_response p = Ok r → response_wf r.
Proof.
  unfold decode_sync_response, missing. intros H. decoded. simplify_eq. simpl.
  eapply omapM_Forall; [|done]. intros q [c b]. unfold decode_synced_value, missing. intros H. decoded.
  simplify_eq. simpl. eauto using decode_certificate_wf.
Qed.

(** The base fee is the only part of a signed message whose value depends on its
    bytes being bytes. *)
Definition fee_bytes (p : MsgSignedMessage) : bytes :=
  match psg_message p with
  | Some (SBProposal p) =>
    match ppl_value p with
    | Some v => match mbind pm_header (pval_metadata v) with Some h => ph_base_fee_per_gas h | None => [] end
    | None => []
    end
  | _ => []
  end.

Lemma of_le_range (b : bytes) : Forall is_byte b → 0 ≤ of_le b < 256 ^ Z.of_nat (length b).
Proof.
  induction 1 as [|x b Hx _ IH]; [done|]. cbn [of_le foldr length]. fold (of_le b).
  rewrite Nat2Z.inj_succ, Z.pow_succ_r by lia. unfold is_byte in Hx. lia.
Qed.

Lemma bytes_to_b256_wf (b h : bytes) : bytes_to_b256 b = Ok h → has_length 32 h.
Proof.
  unfold bytes_to_b256. destruct b; [by intros [= <-]|]. destruct (_ =? 32)%nat eqn:E; [|done].
  unfold B256_from_slice. apply Nat.eqb_eq in E. case_decide; [|done]. by intros [= <-].
Qed.
Lemma bytes_to_bloom_wf (b h : bytes) : bytes_to_bloom b = Ok h → has_length 256 h.
Proof.
  unfold bytes_to_bloom. destruct b; [by intros [= <-]|]. destruct (_ =? 256)%nat eqn:E; [|done].
  apply Nat.eqb_eq in E. by intros [= <-].
Qed.
Lemma bytes_to_u256_wf (b : bytes) (z : Z) : Forall is_byte b → bytes_to_u256 b = Ok z → 0 ≤ z < 2^256.
Proof.
  intros Hb%of_le_range. unfold bytes_to_u256. destruct b as [|x b]; [by intros [= <-]|].
  destruct (32 <? _)%nat eqn:E; [done|]. apply Nat.ltb_ge in E. intros [= <-]. split; [apply Hb|]. eapply Z.lt_le_trans; [apply Hb|].
  change (2^256) with (256 ^ 32). apply Z.pow_le_mono_r; lia.
Qed.

Lemma header_from_proto_wf (p : MsgHeader) (h : ExecutionPayloadHeader) :
  Forall is_byte (ph_base_fee_per_gas p) → header_from_proto p = Ok h → header_wf h.
Proof.
  unfold header_from_proto. intros Hb H. decoded. injection H as <-.
  split_and!; cbn; eauto using bytes_to_b256_wf, bytes_to_bloom_wf;
    try (by eapply bytes_to_u256_wf).
  intros r ->. destruct (ph_requests_hash p) as [|y l]; [done|]. decoded. simplify_eq.
  by eapply bytes_to_b256_wf.
Qed.

Lemma Value_from_proto_wf (p : MsgValue) (v : Value) :
  (∀ h, mbind pm_header (pval_metadata p) = Some h → Forall is_byte (ph_base_fee_per_gas h)) →
  Value_from_proto p = Ok v → value_wf v.
Proof.
  unfold Value_from_proto, value_wf. intros Hb H. decoded. injection H as <-. cbn [v_metadata].
  destruct (pval_metadata p) as [pm|].
  - unfold ValueMetadata_from_proto, missing in *. decoded. simplify_eq/=. split_and!; cbn.
    + eapply header_from_proto_wf; [|done]. apply Hb. by cbn.
    + eapply omapM_Forall; [|done]. intros c y. unfold KzgCommitment_from_slice. case_decide; [|done].
      by intros [= <-].
    + by match goal with Hu : try_u16 _ = Some _ |- _ => apply try_u16_Some in Hu as [-> ?] end.
  - match goal with Hn : ValueMetadata_new _ _ = Ok _ |- _ => injection Hn as <- end. split_and!; cbn.
    + unfold header_wf. cbn. split_and!; try reflexivity; try lia; done.
    + constructor.
    + unfold is_u16. lia.
Qed.

Lemma consensus_from_proto_wf (p : MsgSignedMessage) (m : SignedConsensusMsg) :
  Forall is_byte (fee_bytes p) → consensus_from_proto p = Ok m → consensus_msg_wf m.
Proof.
  unfold consensus_from_proto, missing, fee_bytes. intros Hb H.
  destruct p as [[[q|v]|] [sg|]]; cbn in Hb, H; decoded; simplify_eq; cbn.
  - split; [|eauto]. match goal with Hp : Proposal_from_proto _ = Ok _ |- _ => rename Hp into Hprop end.
    unfold Proposal_from_proto, missing in Hprop. decoded. simplify_eq. split_and!; cbn; [done|eauto|].
    match goal with Hv : Value_from_proto _ = Ok _ |- _ => eapply Value_from_proto_wf, Hv end.
    intros h Hh. destruct (ppl_value q); simplify_eq/=. by rewrite Hh in Hb.
  - match goal with Hv : Vote_from_proto _ = Ok _ |- _ => apply Vote_from_proto_wf in Hv as [??] end.
    split_and!; cbn; eauto.
Qed.

(** ** Decoders do not panic *)

Definition no_panic {E A} (o : outcome E A) : Prop := o ≠ Panic.

Create HintDb no_panic.
Lemma obind_no_panic {E A B} (o : outcome E A) (f : A → outcome E B) :
  no_panic o → (∀ a, no_panic (f a)) → no_panic (obind o f).
Proof. unfold no_panic. destruct o; simpl; auto. Qed.
Lemma ok_or_no_panic {E A} (o : option A) (e : E) : no_panic (ok_or o e).
Proof. by destruct o. Qed.
Lemma missing_no_panic {A} (o : option A) (f : string) : no_panic (missing o f).
Proof. by destruct o. Qed.
Lemma omapM_no_panic {E A B} (f : A → outcome E B) (l : list A) :
  (∀ x, no_panic (f x)) → no_panic (omapM f l).
Proof.
  intros Hf. induction l; [done|]. cbn [omapM]. apply obind_no_panic; [done|]. intros y.
  by apply obind_no_panic.
Qed.
Lemma Ok_no_panic {E A} (a : A) : no_panic (E := E) (Ok a).
Proof. done. Qed.
Lemma Err_no_panic {E A} (e : E) : no_panic (A := A) (Err e).
Proof. done. Qed.
#[local] Hint Resolve obind_no_panic ok_or_no_panic missing_no_panic omapM_no_panic Ok_no_panic Err_no_panic : no_panic.
#[local] Hint Extern 2 (no_panic (if ?b then _ else _)) => destruct b : no_panic.
#[local] Hint Extern 2 (no_panic (match ?b with _ => _ end)) => destruct b : no_panic.

Lemma Address_no_panic (b : bytes) : no_panic (Address_from_proto b).
Proof. unfold Address_from_proto. auto with no_panic. Qed.
Lemma signature_no_panic (b : bytes) : no_panic (decode_signature b).
Proof. unfold decode_signature. auto with no_panic. Qed.
Lemma b256_no_panic (b : bytes) : no_panic (bytes_to_b256 b).
Proof.
  unfold bytes_to_b256, B256_from_slice. destruct b as [|x b]; [done|].
  destruct (_ =? 32)%nat eqn:E; [|done]. apply Nat.eqb_eq in E. cbn [negb]. by rewrite decide_True.
Qed.
Lemma commitment_no_panic (b : bytes) : no_panic (KzgCommitment_from_slice b).
Proof. unfold KzgCommitment_from_slice. auto with no_panic. Qed.
#[local] Hint Resolve Address_no_panic signature_no_panic b256_no_panic commitment_no_panic : no_panic.

Lemma header_no_panic (p : MsgHeader) : no_panic (header_from_proto p).
Proof.
  unfold header_from_proto, bytes_to_bloom, bytes_to_u256. auto 40 with no_panic.
Qed.
#[local] Hint Resolve header_no_panic : no_panic.
Lemma Value_no_panic (p : MsgValue) : no_panic (Value_from_proto p).
Proof.
  unfold Value_from_proto, ValueMetadata_from_proto. destruct (pval_metadata p); [auto 20 with no_panic|done].
Qed.
#[local] Hint Resolve Value_no_panic : no_panic.
Lemma Vote_no_panic (p : MsgVote) : no_panic (Vote_from_proto p).
Proof. unfold Vote_from_proto. auto with no_panic. Qed.
#[local] Hint Resolve Vote_no_panic : no_panic.
Lemma Proposal_no_panic (p : MsgProposal) : no_panic (Proposal_from_proto p).
Proof. unfold Proposal_from_proto. auto 20 with no_panic. Qed.
#[local] Hint Resolve Proposal_no_panic : no_panic.

Lemma consensus_no_panic (p : MsgSignedMessage) : no_panic (consensus_from_proto p).
Proof. unfold consensus_from_proto. auto 20 with no_panic. Qed.
Lemma liveness_no_panic (p : MsgLivenessMessage) : no_panic (liveness_from_proto p).
Proof.
  unfold liveness_from_proto, decode_vote_msg, decode_polka_certificate, decode_round_certificate,
    decode_polka_signature, decode_round_signature, decode_cert_type. auto 40 with no_panic.
Qed.
Lemma response_no_panic (p : MsgSyncResponse) : no_panic (decode_sync_response p).
Proof.
  unfold decode_sync_response, decode_synced_value, decode_certificate, decode_commit_signature.
  auto 40 with no_panic.
Qed.

Lemma codec_no_panic {A P} `{ProstMessage P} (to_p : A → outcome string P) (from_p : P → outcome string A)
    (wf : A → Prop) (b : bytes) :
  (∀ p, no_panic (from_p p)) → no_panic (decode (Codec := proto_codec to_p from_p wf) b).
Proof. intros Hp. cbn [decode proto_codec]. by destruct (prost_decode b). Qed.

(** ** Properties *)

Section message_theorems.
Context {C : Crypto} {CL : CryptoLaws C} {P : Type} (PL : PeerIdLib P) (PLL : PeerIdLaws P PL).
Context (WV : ProstMessage MsgVote) (WP : ProstMessage MsgProposal).
Context (WS : ProstMessage MsgSignedMessage) (LS : ProstLaws MsgSignedMessage WS).
Context (WL : ProstMessage MsgLivenessMessage) (LL : ProstLaws MsgLivenessMessage WL).
Context (WT : ProstMessage MsgStatus) (LT : ProstLaws MsgStatus WT).
Context (WQ : ProstMessage MsgSyncRequest) (LQ : ProstLaws MsgSyncRequest WQ).
Context (WR : ProstMessage MsgSyncResponse) (LR : ProstLaws MsgSyncResponse WR).

(** C28: what a validator signs, its peers accept.  With signatures of 64 bytes,
    every vote and every proposal of a round can be signed and sent; a peer reads
    the same message, but for a vote's extension, which does not travel, with the
    same signature, and that signature verifies there under the signer's key. *)
Theorem signed_messages_travel (pr : Ed25519Provider) (v : Vote) (p : Proposal) :
  (∀ msg, has_length 64 (ed25519_sign (private_key pr) msg)) → vote_wf v → proposal_wf p →
  (∃ s b, sign_vote pr v = Ok (mkSigned v s) ∧
     encode (Codec := signed_codec) (SCVote (mkSigned v s)) = Ok b ∧
     decode (Codec := signed_codec) b = Ok (SCVote (mkSigned (on_wire v) s)) ∧
     verify_signed_vote (on_wire v) s (ed25519_public (private_key pr)) = Ok Valid_) ∧
  (∃ s b, sign_proposal pr p = Ok (mkSigned p s) ∧
     encode (Codec := signed_codec) (SCProposal (mkSigned p s)) = Ok b ∧
     decode (Codec := signed_codec) b = Ok (SCProposal (mkSigned p s)) ∧
     verify_signed_proposal p s (ed25519_public (private_key pr)) = Ok Valid_).
Proof using CL LS.
  intros Hlen Hv Hp.
  assert (∀ data, has_length 64 (sign pr data)) as Hsig by (intros data; apply Hlen). split.
  - pose proof (signed_vote_verifies WV pr v) as Hs. destruct (vt_round v) eqn:Hr; [by destruct Hv|].
    destruct Hs as ([v' s] & Hs & Hm & Hver). simpl in Hm, Hver. subst v'. exists s.
    assert (has_length 64 s) as Hl.
    { unfold sign_vote in Hs. destruct (Vote_to_bytes v) as [bs| |]; simplify_eq/=. apply Hsig. }
    pose proof (consensus_vote_wire (mkSigned v s) Hv Hl) as Hw. cbn [encode decode signed_codec proto_codec].
    destruct (consensus_to_proto _) as [q| |]; simpl in Hw |- *; try done.
    exists (encode_to_vec q). by rewrite prost_decode_encode.
  - pose proof (signed_proposal_verifies WP pr p) as Hs. destruct (pl_round p) eqn:Hr; [by destruct Hp|].
    destruct Hs as ([p' s] & Hs & Hm & Hver). simpl in Hm, Hver. subst p'. exists s.
    assert (has_length 64 s) as Hl.
    { unfold sign_proposal in Hs. destruct (Proposal_to_bytes p) as [bs| |]; simplify_eq/=. apply Hsig. }
    destruct (decode_encode (CodecLaws := proto_codec_laws _ LS _ _ _ consensus_msg_roundtrip)
      (SCProposal (mkSigned p s))) as (b & He & Hd); [done|]. by exists b.
Qed.

(** What was read can be sent on, and reads as the same again. *)
Definition resendable {A} (K : Codec A) (b : bytes) : Prop :=
  ∀ m, decode (Codec := K) b = Ok m → ∃ b', encode (Codec := K) m = Ok b' ∧ decode (Codec := K) b' = Ok m.

Lemma proto_resendable {A Q} (W : ProstMessage Q) (LW : ProstLaws Q W) (to_p : A → outcome string Q)
    (from_p : Q → outcome string A) (wf : A → Prop) (b : bytes) :
  (∀ a, wf a → obind (to_p a) from_p = Ok a) →
  (∀ q a, prost_decode b = Some q → from_p q = Ok a → wf a) → resendable (proto_codec to_p from_p wf) b.
Proof.
  intros Hrt Hwf m. cbn [decode proto_codec]. destruct (prost_decode b) as [q|] eqn:Hq; [|done].
  intros Hm. by apply (decode_encode (CodecLaws := proto_codec_laws W LW _ _ _ Hrt)), (Hwf q).
Qed.

(** C18: no bytes of a peer make the decoders of signed messages, liveness
    messages, sync statuses, requests and responses panic.  What any of the five
    decodes to can be sent on, and reads as the same message again; for a
    proposal, the bytes of its base fee must be bytes. *)
Theorem peer_bytes_never_panic (b : bytes) :
  (∀ q, prost_decode b = Some q → Forall is_byte (fee_bytes q)) →
  (decode (Codec := signed_codec) b ≠ Panic ∧ decode (Codec := liveness_codec) b ≠ Panic ∧
   decode (Codec := status_codec (P := P)) b ≠ Panic ∧ decode (Codec := request_codec) b ≠ Panic ∧
   decode (Codec := response_codec) b ≠ Panic) ∧
  resendable signed_codec b ∧ resendable liveness_codec b ∧ resendable (status_codec (P := P)) b ∧
  resendable request_codec b ∧ resendable response_codec b.
Proof using LS LL LT LQ LR PLL.
  intros Hb. split; [split_and!; apply codec_no_panic|split_and!; apply proto_resendable; try done].
  - apply consensus_no_panic.
  - apply liveness_no_panic.
  - intros q. unfold status_from_proto. auto with no_panic.
  - intros q. unfold request_from_proto. auto with no_panic.
  - apply response_no_panic.
  - apply consensus_msg_roundtrip.
  - intros q a Hq. by apply consensus_from_proto_wf, Hb.
  - apply liveness_roundtrip.
  - intros q a _. apply liveness_from_proto_wf.
  - intros a _. by apply status_roundtrip.
  - intros a _. by apply request_roundtrip.
  - apply sync_response_roundtrip.
  - intros q a _. apply decode_sync_response_wf.
Qed.
End message_theorems.

(** ** A sync exchange, end to end *)

Section sync_exchange.
Context {E : Type} {B : BlobEngine E} {C : Crypto} {T : MerkleTreeLib} {NC : NodeCodecs} {TH : TreeHashLib}
  {SZ : PayloadSsz} {BC : BlockConversion} {SA : StreamApi}.
Context (WY : ProstMessage MsgSyncedValuePackage) (LY : ProstLaws MsgSyncedValuePackage WY).
Context (WR : ProstMessage MsgSyncResponse) (LR : ProstLaws MsgSyncResponse WR).
Context {N : Type} {EA : EngineApi N} {TM : Timer N}.
Context (payload_as_ssz : ExecutionPayloadV3 → bytes) (ec : ExecutionClient) (cfg : ExecutionRetryConfig).
#[local] Existing Instance package_codec.

(** A node with this log answers a request for a height with this value. *)
Definition serves (lg : Log) (h : Height) (raw : RawDecidedValue) : Prop :=
  ∃ (n n1 : Node E N) o, log_of (s_store (nd_state n)) = lg ∧
    handle_msg payload_as_ssz ec cfg (GetDecidedValue h) true n = (n1, o) ∧
    nd_replies n1 = nd_replies n ++ [RDecidedValue (Some raw)].

(** A node asked to import these bytes hands this proposed value to consensus. *)
Definition imports (h : Height) (r : Round) (p : Address) (value_bytes : bytes) (pv : ProposedValue) : Prop :=
  ∃ (m m1 : Node E N) o,
    handle_msg payload_as_ssz ec cfg (ProcessSyncedValue h r p value_bytes) true m = (m1, o) ∧
    nd_replies m1 = nd_replies m ++ [RSynced (Some pv)].

(** C10: sync carries decisions, and nothing else.  Values a node serves for the
    heights from [start] on can be sent as a response; a peer that decodes the
    response finds, for each height, the certificate the node has in its log, and
    if it imports the value, consensus gets exactly the value decided there. *)
Theorem sync_response_carries_decisions (lg : Log) (start : Height) (raws : list RawDecidedValue) :
  (∀ i raw, raws !! i = Some raw → serves lg (start + Z.of_nat i) raw) →
  (∀ h vb cb v, lg !! h = Some (vb, cb) → decode vb = Ok v → value_wf v) →
  (∀ h vb cb c, lg !! h = Some (vb, Some cb) → decode cb = Ok c → certificate_wf c) →
  ∃ b, encode (Codec := response_codec) (ValueResponse start raws) = Ok b ∧
    decode (Codec := response_codec) b = Ok (ValueResponse start raws) ∧
    ∀ i raw r p pv, raws !! i = Some raw →
      imports (start + Z.of_nat i) r p (rd_value_bytes raw) pv →
      ∃ vb cb v, lg !! (start + Z.of_nat i) = Some (vb, Some cb) ∧ decode vb = Ok v ∧
        decode cb = Ok (rd_certificate raw) ∧
        pv = mkProposed (start + Z.of_nat i) r Nil p v Valid.
Proof using LY LR.
  intros Hserve Hval Hcert.
  assert (∀ i raw, raws !! i = Some raw → ∃ vb cb v pkg, lg !! (start + Z.of_nat i) = Some (vb, Some cb) ∧
    decode vb = Ok v ∧ decode cb = Ok (rd_certificate raw) ∧ package_value pkg = v ∧
    encode pkg = Ok (rd_value_bytes raw)) as Hspec.
  { intros i raw Hi. destruct (Hserve i raw Hi) as (n & n1 & o & <- & Hrun & Hr).
    by pose proof (one_reply_spec WY payload_as_ssz ec cfg _ _ _ _ _ Hrun Hr (λ _, ltac:(done))). }
  destruct (decode_encode (CodecLaws := proto_codec_laws _ LR _ _ _ sync_response_roundtrip)
    (ValueResponse start raws)) as (b & He & Hd).
  { apply Forall_lookup. intros i raw Hi. destruct (Hspec i raw Hi) as (vb & cb & v & _ & Hl & _ & Hc & _).
    by eapply Hcert. }
  exists b. split_and!; [done..|].
  intros i raw r p pv Hi (m & m1 & o & Hrun & Hr). destruct (Hspec i raw Hi) as (vb & cb & v & pkg & Hl & Hv & Hc & Hp & Hb).
  destruct (one_reply_spec WY payload_as_ssz ec cfg _ _ _ _ _ Hrun Hr) as (pkg' & Hdec & ->); [done|].
  exists vb, cb, v. split_and!; try done. f_equal. rewrite <-Hp.
  eapply (package_value_roundtrip WY LY); [|done..]. rewrite Hp. by eapply Hval.
Qed.
End sync_exchange.

(** ** Concrete inputs *)

#[export] Instance MsgVote_eq_dec : EqDecision MsgVote.
Proof. solve_decision. Defined.
#[export] Instance MsgVote_countable : Countable MsgVote.
Proof.
  refine (inj_countable'
    (λ p, (pvo_vote_type p, pvo_height p, pvo_round p, pvo_value p, pvo_validator_address p))
    (λ '(a, b, c, d, e), mkPVote a b c d e) _). by intros [].
Defined.
#[export] Instance MsgProposal_eq_dec : EqDecision MsgProposal.
Proof. solve_decision. Defined.
#[export] Instance MsgProposal_countable : Countable MsgProposal.
Proof.
  refine (inj_countable'
    (λ p, (ppl_height p, ppl_round p, ppl_value p, ppl_pol_round p, ppl_validator_address p))
    (λ '(a, b, c, d, e), mkPProposal a b c d e) _). by intros [].
Defined.
#[export] Instance MsgSignedBody_eq_dec : EqDecision MsgSignedBody.
Proof. solve_decision. Defined.
#[export] Instance MsgSignedBody_countable : Countable MsgSignedBody.
Proof.
  refine (inj_countable' (λ b, match b with SBProposal p => inl p | SBVote v => inr v end)
    (λ b, match b with inl p => SBProposal p | inr v => SBVote v end) _). by intros [].
Defined.
#[export] Instance MsgSignedMessage_eq_dec : EqDecision MsgSignedMessage.
Proof. solve_decision. Defined.
#[export] Instance MsgSignedMessage_countable : Countable MsgSignedMessage.
Proof.
  refine (inj_countable' (λ p, (psg_message p, psg_signature p)) (λ '(a, b), mkPSigned a b) _). by intros [].
Defined.
#[export] Instance MsgCommitSignature_eq_dec : EqDecision MsgCommitSignature.
Proof. solve_decision. Defined.
#[export] Instance MsgCommitSignature_countable : Countable MsgCommitSignature.
Proof.
  refine (inj_countable' (λ p, (pcs_validator_address p, pcs_signature p)) (λ '(a, b), mkPCommitSignature a b) _).
  by intros [].
Defined.
#[export] Instance MsgCommitCertificate_eq_dec : EqDecision MsgCommitCertificate.
Proof. solve_decision. Defined.
#[export] Instance MsgCommitCertificate_countable : Countable MsgCommitCertificate.
Proof.
  refine (inj_countable' (λ p, (pcc_height p, pcc_round p, pcc_value_id p, pcc_signatures p))
    (λ '(a, b, c, d), mkPCertificate a b c d) _). by intros [].
Defined.
#[export] Instance MsgSyncedValue_eq_dec : EqDecision MsgSyncedValue.
Proof. solve_decision. Defined.
#[export] Instance MsgSyncedValue_countable : Countable MsgSyncedValue.
Proof.
  refine (inj_countable' (λ p, (psv_value_bytes p, psv_certificate p)) (λ '(a, b), mkPSyncedValue a b) _).
  by intros [].
Defined.
#[export] Instance MsgValueResponse_eq_dec : EqDecision MsgValueResponse.
Proof. solve_decision. Defined.
#[export] Instance MsgValueResponse_countable : Countable MsgValueResponse.
Proof.
  refine (inj_countable' (λ p, (pvs_start_height p, pvs_values p)) (λ '(a, b), mkPValueResponse a b) _).
  by intros [].
Defined.
#[export] Instance MsgSyncResponse_eq_dec : EqDecision MsgSyncResponse.
Proof. solve_decision. Defined.
#[export] Instance MsgSyncResponse_countable : Countable MsgSyncResponse.
Proof. refine (inj_countable' psp_response mkPSyncResponse _). by intros []. Defined.

#[export] Instance MsgPolkaSignature_eq_dec : EqDecision MsgPolkaSignature.
Proof. solve_decision. Defined.
#[export] Instance MsgPolkaSignature_countable : Countable MsgPolkaSignature.
Proof.
  refine (inj_countable' (λ p, (ppks_validator_address p, ppks_signature p)) (λ '(a, b), mkPPolkaSignature a b) _).
  by intros [].
Defined.
#[export] Instance MsgPolkaCertificate_eq_dec : EqDecision MsgPolkaCertificate.
Proof. solve_decision. Defined.
#[export] Instance MsgPolkaCertificate_countable : Countable MsgPolkaCertificate.
Proof.
  refine (inj_countable' (λ p, (ppk_height p, ppk_round p, ppk_value_id p, ppk_signatures p))
    (λ '(a, b, c, d), mkPPolka a b c d) _). by intros [].
Defined.
#[export] Instance MsgRoundSignature_eq_dec : EqDecision MsgRoundSignature.
Proof. solve_decision. Defined.
#[export] Instance MsgRoundSignature_countable : Countable MsgRoundSignature.
Proof.
  refine (inj_countable' (λ p, (prs_vote_type p, prs_validator_address p, prs_signature p, prs_value_id p))
    (λ '(a, b, c, d), mkPRoundSignature a b c d) _). by intros [].
Defined.
#[export] Instance MsgRoundCertificate_eq_dec : EqDecision MsgRoundCertificate.
Proof. solve_decision. Defined.
#[export] Instance MsgRoundCertificate_countable : Countable MsgRoundCertificate.
Proof.
  refine (inj_countable' (λ p, (prc_height p, prc_round p, prc_cert_type p, prc_signatures p))
    (λ '(a, b, c, d), mkPRoundCertificate a b c d) _). by intros [].
Defined.
#[export] Instance MsgLivenessBody_eq_dec : EqDecision MsgLivenessBody.
Proof. solve_decision. Defined.
#[export] Instance MsgLivenessBody_countable : Countable MsgLivenessBody.
Proof.
  refine (inj_countable'
    (λ b, match b with LBVote m => inl m | LBPolkaCertificate c => inr (inl c) | LBRoundCertificate c => inr (inr c) end)
    (λ b, match b with inl m => LBVote m | inr (inl c) => LBPolkaCertificate c | inr (inr c) => LBRoundCertificate c end)
    _). by intros [].
Defined.
#[export] Instance MsgLivenessMessage_eq_dec : EqDecision MsgLivenessMessage.
Proof. solve_decision. Defined.
#[export] Instance MsgLivenessMessage_countable : Countable MsgLivenessMessage.
Proof. refine (inj_countable' plv_message mkPLiveness _). by intros []. Defined.

(** A round certificate of a type the node does not know. *)
Definition demo_unknown_certificate : MsgLivenessMessage :=
  mkPLiveness (Some (LBRoundCertificate (mkPRoundCertificate 7 0 9 []))).
Definition demo_unknown_bytes : bytes := encode_to_vec (ProstMessage := countable_prost _) demo_unknown_certificate.
Definition demo_peers : PeerIdLib bytes := {| PeerId_from_bytes := Some; PeerId_to_bytes := id |}.
Lemma demo_peers_laws : PeerIdLaws bytes demo_peers.
Proof. by split. Qed.
#[export] Instance MsgStatus_eq_dec : EqDecision MsgStatus.
Proof. solve_decision. Defined.
#[export] Instance MsgStatus_countable : Countable MsgStatus.
Proof.
  refine (inj_countable' (λ p, (pstt_peer_id p, pstt_height p, pstt_earliest_height p))
    (λ '(a, b, c), mkPStatus a b c) _). by intros [].
Defined.
#[export] Instance MsgValueRequest_eq_dec : EqDecision MsgValueRequest.
Proof. solve_decision. Defined.
#[export] Instance MsgValueRequest_countable : Countable MsgValueRequest.
Proof.
  refine (inj_countable' (λ p, (pvr_height p, pvr_end_height p)) (λ '(a, b), mkPValueRequest a b) _). by intros [].
Defined.
#[export] Instance MsgSyncRequest_eq_dec : EqDecision MsgSyncRequest.
Proof. solve_decision. Defined.
#[export] Instance MsgSyncRequest_countable : Countable MsgSyncRequest.
Proof. refine (inj_countable' psr_request mkPSyncRequest _). by intros []. Defined.

(** A signed vote for nil on the wire. *)
Definition demo_wire_vote : MsgSignedMessage :=
  mkPSigned (Some (SBVote (mkPVote 1 7 0 None (Some (zeros 20))))) (Some (zeros 64)).
Definition demo_wire_vote_bytes : bytes := encode_to_vec (ProstMessage := countable_prost _) demo_wire_vote.

Lemma peer_bytes_never_panic_witness :
  decode (Codec := @liveness_codec (countable_prost _)) demo_unknown_bytes = Err "Unknown RoundCertificateType"%string ∧
  ∃ m b', decode (Codec := @signed_codec (countable_prost _)) demo_wire_vote_bytes = Ok m ∧
    encode (Codec := @signed_codec (countable_prost _)) m = Ok b' ∧
    decode (Codec := @signed_codec (countable_prost _)) b' = Ok m.
Proof.
  split; [vm_compute; reflexivity|].
  destruct (peer_bytes_never_panic demo_peers demo_peers_laws (countable_prost _) (countable_prost_laws _)
    (countable_prost _) (countable_prost_laws _) (countable_prost _) (countable_prost_laws _)
    (countable_prost _) (countable_prost_laws _) (countable_prost _) (countable_prost_laws _) demo_wire_vote_bytes)
    as [_ [Hs _]].
  - unfold demo_wire_vote_bytes. intros q. rewrite (prost_decode_encode (ProstLaws := countable_prost_laws _)).
    intros [= <-]. constructor.
  - destruct (decode (Codec := @signed_codec (countable_prost _)) demo_wire_vote_bytes) as [m|e|] eqn:Hd;
      [|vm_compute in Hd; discriminate..].
    destruct (Hs m Hd) as (b' & He & Hd'). exists m, b'. split; [reflexivity|]. split; [exact He|exact Hd'].
Defined.

(** A vote and a proposal of round 0. *)
Definition demo_signed_vote : Vote :=
  mkVote Precommit 7 (RSome 0) (NVVal 5) (zeros 20) (Some (mkExtension [1] (zeros 64))).
Definition demo_signed_proposal : Proposal :=
  mkProposal 7 (RSome 0) (mkValue 5 (mkValueMetadata (zero_header 0) [] 0 0) []) Nil (zeros 20).

Lemma demo_signed_proposal_wf : proposal_wf demo_signed_proposal.
Proof.
  split_and!; [done|reflexivity|]. split; [|split].
  - unfold header_wf. simpl. split_and!; try reflexivity; try lia; done.
  - constructor.
  - unfold is_u16. simpl. lia.
Qed.

Lemma signed_messages_travel_witness :
  ∃ s b, encode (Codec := @signed_codec (countable_prost _)) (SCVote (mkSigned demo_signed_vote s)) = Ok b ∧
    decode (Codec := @signed_codec (countable_prost _)) b
      = Ok (SCVote (mkSigned (new_precommit 7 (RSome 0) (NVVal 5) (zeros 20)) s)) ∧
    bool_decide (s = demo_signature [9] ([1; 7; 0; 1; 5; 1] ++ zeros 20)) = true.
Proof.
  destruct (signed_messages_travel (C := short_crypto) (CL := short_crypto_laws) demo_vote_prost (countable_prost _)
    (countable_prost _) (countable_prost_laws _) (mkProvider [9]) demo_signed_vote demo_signed_proposal)
    as [(s & b & Hs & He & Hd & Hv) _].
  - intros msg. unfold has_length. cbn [ed25519_sign short_crypto private_key]. unfold demo_signature.
    rewrite length_take, !length_app. unfold zeros. rewrite length_replicate. lia.
  - split; [done|reflexivity].
  - exact demo_signed_proposal_wf.
  - exists s, b. split; [exact He|]. split; [exact Hd|]. injection Hs as <-. vm_compute. reflexivity.
Defined.

#[local] Existing Instances demo_rocksdb_engine null_crypto demo_merkle commit_codecs demo_tree_hash
  demo_ssz demo_stream_api demo_api demo_timer blobless_conversion demo_packages.

(** Height 8, decided by one node, is imported by another one, whatever the
    wire format. *)
Section demo_wire.
Context (W : ProstMessage MsgSyncedValuePackage).
#[local] Instance wire_packages : Codec SyncedValuePackage := package_codec.
Definition demo_wire_package : SyncedValuePackage := SyncFull demo_value_of_payload [1] [] [] [].
Definition demo_served : Node BlobEngineImpl Z * outcome string unit :=
  handle_msg (λ _, [1]) demo_client ExecutionRetryConfig_default (GetDecidedValue 8) true demo_run.1.
Definition demo_imported : Node BlobEngineImpl Z * outcome string unit :=
  handle_msg (λ _, [1]) demo_client ExecutionRetryConfig_default
    (ProcessSyncedValue 8 (RSome 0) (zeros 20) (encode_to_vec (SyncedValuePackage_to_proto demo_wire_package))) true
    demo_node.

Lemma demo_served_replies :
  nd_replies demo_served.1 = nd_replies demo_run.1 ++
    [RDecidedValue (Some (mkRawDecided demo_certificate
       (encode_to_vec (SyncedValuePackage_to_proto demo_wire_package))))].
Proof. vm_compute. reflexivity. Qed.

Lemma demo_imported_replies :
  ProstLaws MsgSyncedValuePackage W →
  nd_replies demo_imported.1 = [RSynced (Some (mkProposed 8 (RSome 0) Nil (zeros 20) demo_value_of_payload Valid))].
Proof.
  intros HL. unfold demo_imported. cbn [handle_msg]. unfold handle_synced_value.
  replace (decode _) with (Ok (E := string) demo_wire_package).
  - vm_compute. reflexivity.
  - cbn [decode wire_packages package_codec proto_codec]. rewrite prost_decode_encode. vm_compute. reflexivity.
Qed.

Lemma demo_imports :
  ProstLaws MsgSyncedValuePackage W →
  imports W (λ _, [1]) demo_client ExecutionRetryConfig_default 8 (RSome 0) (zeros 20)
    (encode_to_vec (SyncedValuePackage_to_proto demo_wire_package))
    (mkProposed 8 (RSome 0) Nil (zeros 20) demo_value_of_payload Valid).
Proof.
  intros HL. exists demo_node, demo_imported.1, demo_imported.2.
  split; [exact (surjective_pairing demo_imported)|exact (demo_imported_replies HL)].
Qed.
Lemma demo_serves :
  serves W (λ _, [1]) demo_client ExecutionRetryConfig_default (log_of (s_store (nd_state demo_run.1))) 8
    (mkRawDecided demo_certificate (encode_to_vec (SyncedValuePackage_to_proto demo_wire_package))).
Proof.
  exists demo_run.1, demo_served.1, demo_served.2.
  split; [reflexivity|split; [exact (surjective_pairing demo_served)|exact demo_served_replies]].
Qed.
End demo_wire.

Lemma demo_log_value (h : Z) (vb : bytes) (cb : option bytes) (v : Value) :
  log_of (s_store (nd_state demo_run.1)) !! h = Some (vb, cb) → decode vb = Ok v → value_wf v.
Proof.
  intros _ [= <-]. split; [|split].
  - unfold header_wf. vm_compute. split_and!; try reflexivity; try discriminate. by intros r [= <-].
  - constructor.
  - unfold is_u16. simpl. lia.
Qed.

Lemma demo_log_certificate (h : Z) (vb cb : bytes) (c : CommitCertificate) :
  log_of (s_store (nd_state demo_run.1)) !! h = Some (vb, Some cb) → decode cb = Ok c → certificate_wf c.
Proof. intros _ [= <-]. split; [done|constructor]. Qed.

Lemma sync_response_carries_decisions_witness :
  ∃ b raw, encode (Codec := @response_codec (countable_prost _)) (ValueResponse 8 [raw]) = Ok b ∧
    ∃ vb cb, log_of (s_store (nd_state demo_run.1)) !! 8 = Some (vb, Some cb) ∧
      decode vb = Ok demo_value_of_payload ∧ decode cb = Ok demo_certificate.
Proof.
  pose (raw := mkRawDecided demo_certificate
    (encode_to_vec (ProstMessage := countable_prost _) (SyncedValuePackage_to_proto demo_wire_package))).
  destruct (sync_response_carries_decisions (countable_prost _) (countable_prost_laws _)
    (countable_prost _) (countable_prost_laws _) (λ _, [1]) demo_client ExecutionRetryConfig_default
    (log_of (s_store (nd_state demo_run.1))) 8 [raw]) as (b & He & _ & Hi).
  - intros [|i] raw' Hr; [|done]. injection Hr as <-.
    exact (demo_serves (countable_prost _)).
  - exact demo_log_value.
  - exact demo_log_certificate.
  - exists b, raw. split; [exact He|].
    destruct (Hi 0%nat raw (RSome 0) (zeros 20) (mkProposed 8 (RSome 0) Nil (zeros 20) demo_value_of_payload Valid))
      as (vb & cb & v & Hlg & Hv & Hc & Heq); [reflexivity| |].
    + exact (demo_imports _ (countable_prost_laws _)).
    + exists vb, cb. split; [exact Hlg|]. split; [|exact Hc]. rewrite Hv. f_equal. by injection Heq as ->.
Defined.
