(* ===== verification/Startup.v ===== *)
(** * Starting the node ([crates/node/src/node.rs], [crates/cli/src/config_wrapper.rs])

    [start] reads the configuration, the keys and the two genesis files, opens
    the databases, puts the consensus state in order, recovers the archive jobs
    a previous process left unfinished, and checks the execution layer before it
    hands everything to the application loop.  Files, environment variables and
    the consensus engine are parameters. *)
From Stdlib Require Import Ascii.
From S2P Require Import Prelude Text Types Merkle Streaming Proposal Metadata BlobStore BlobEngine Store Proto State Archival BlobProposal Commit Decide Sync Client Archiver App AppLog.
Open Scope monad_scope.

(** ** Configuration *)

(** The settings the node itself reads. *)
Record Config := mkConfig { cfg_moniker : string; cfg_archiver : ArchiverConfig }.

(** [std::env::var], without the variables that are unset or not text *)
Definition Vars : Type := string → option string.

Definition env_get (vars : Vars) (key : string) : option string :=
  match trim <$> vars key with
  | Some v => if decide (v = EmptyString) then None else Some v
  | None => None
  end.

Definition override {A} (o : option A) (x : A) : A := default x o.

Definition apply_archiver_env_overrides (vars : Vars) (cf : ArchiverConfig) : ArchiverConfig :=
  let get k := env_get vars k in
  mkArchiverConfig
    (override (get "ULTRAMARINE_ARCHIVER_ENABLED"%string ≫= parse_bool) (cf_enabled cf))
    (override (get "ULTRAMARINE_ARCHIVER_PROVIDER_URL"%string) (cf_provider_url cf))
    (override (Some <$> get "ULTRAMARINE_ARCHIVER_UPLOAD_PATH"%string) (cf_upload_path cf))
    (override (get "ULTRAMARINE_ARCHIVER_PROVIDER_ID"%string) (cf_provider_id cf))
    (override (Some <$> get "ULTRAMARINE_ARCHIVER_BEARER_TOKEN"%string) (cf_bearer_token cf))
    (override (Z.max 1 <$> (get "ULTRAMARINE_ARCHIVER_RETRY_ATTEMPTS"%string ≫= parse_uint (2^32)))
       (cf_retry_attempts cf))
    (override (Z.max 1 <$> (get "ULTRAMARINE_ARCHIVER_RETRY_BACKOFF_MS"%string ≫= parse_uint (2^64)))
       (cf_retry_backoff_ms cf))
    (override (Z.max 1 <$> (get "ULTRAMARINE_ARCHIVER_MAX_QUEUE_SIZE"%string ≫= parse_uint (2^64)))
       (cf_max_queue_size cf)).

(** ** The execution layer's genesis block *)

(** [alloy_genesis::Genesis] as far as it is read; [A] is its allocation. *)
Record ChainConfig := mkChainConfig {
  ch_london_block : option Z; ch_shanghai_time : option Z; ch_cancun_time : option Z;
  ch_prague_time : option Z }.
Record ExecutionGenesis (A : Type) := mkExecutionGenesis {
  eg_config : ChainConfig; eg_nonce : Z; eg_timestamp : Z; eg_extra_data : bytes; eg_gas_limit : Z;
  eg_difficulty : Z; eg_mix_hash : B256; eg_coinbase : Address; eg_alloc : A;
  eg_base_fee_per_gas : option Z; eg_excess_blob_gas : option Z; eg_blob_gas_used : option Z;
  eg_number : option Z; eg_parent_hash : option B256 }.
Arguments mkExecutionGenesis {A} _ _ _ _ _ _ _ _ _ _ _ _ _ _.
Arguments eg_config {A} _.
Arguments eg_nonce {A} _.
Arguments eg_timestamp {A} _.
Arguments eg_extra_data {A} _.
Arguments eg_gas_limit {A} _.
Arguments eg_difficulty {A} _.
Arguments eg_mix_hash {A} _.
Arguments eg_coinbase {A} _.
Arguments eg_alloc {A} _.
Arguments eg_base_fee_per_gas {A} _.
Arguments eg_excess_blob_gas {A} _.
Arguments eg_blob_gas_used {A} _.
Arguments eg_number {A} _.
Arguments eg_parent_hash {A} _.

(** [alloy_consensus::Header]: the fields that are set; the others keep their
    defaults. *)
Record ElHeader := mkElHeader {
  hd_parent_hash : B256; hd_number : Z; hd_gas_limit : Z; hd_difficulty : Z; hd_nonce : bytes;
  hd_extra_data : bytes; hd_timestamp : Z; hd_mix_hash : B256; hd_beneficiary : Address;
  hd_state_root : B256; hd_base_fee_per_gas : option Z; hd_withdrawals_root : option B256;
  hd_parent_beacon_block_root : option B256; hd_blob_gas_used : option Z;
  hd_excess_blob_gas : option Z; hd_requests_hash : option B256 }.

(** What the [alloy] crates provide. *)
Class ExecutionGenesisLib := {
  Alloc : Type;
  parse_execution_genesis : bytes → option (ExecutionGenesis Alloc);
  state_root_ref_unhashed : Alloc → B256;
  hash_slow : ElHeader → B256;
  INITIAL_BASE_FEE : Z; EMPTY_WITHDRAWALS : B256; EMPTY_REQUESTS_HASH : B256 }.

Definition fork_block_active_at_genesis (block : option Z) : bool := bool_decide (block = Some 0).
Definition fork_time_active_at_genesis (time : option Z) (genesis_ts : Z) : bool :=
  match time with Some t => t <=? genesis_ts | None => false end.

Section genesis_block.
Context `{ExecutionGenesisLib}.

Definition build_execution_genesis_header (g : ExecutionGenesis Alloc) : outcome string ElHeader :=
  (let? base_fee :=
     if fork_block_active_at_genesis (ch_london_block (eg_config g)) then
       let base_fee := default INITIAL_BASE_FEE (eg_base_fee_per_gas g) in
       if base_fee <=? u64_max then Ok (Some base_fee)
       else Err "genesis base_fee_per_gas does not fit in u64"%string
     else Ok None in
   let active time := fork_time_active_at_genesis (time (eg_config g)) (eg_timestamp g) in
   let cancun := active ch_cancun_time in
   Ok (mkElHeader
     (default B256_ZERO (eg_parent_hash g)) (default 0 (eg_number g)) (eg_gas_limit g) (eg_difficulty g)
     (be_bytes 8 (eg_nonce g)) (eg_extra_data g) (eg_timestamp g) (eg_mix_hash g) (eg_coinbase g)
     (state_root_ref_unhashed (eg_alloc g)) base_fee
     (if active ch_shanghai_time then Some EMPTY_WITHDRAWALS else None)
     (if cancun then Some B256_ZERO else None)
     (if cancun then Some (default 0 (eg_blob_gas_used g)) else None)
     (if cancun then Some (default 0 (eg_excess_blob_gas g)) else None)
     (if active ch_prague_time then Some EMPTY_REQUESTS_HASH else None)))%outcome.

(** [None] when the file cannot be read. *)
Definition execution_genesis_block_from_file (raw : option bytes) : outcome string ExecutionBlock :=
  (let? raw := ok_or raw "Failed to read execution genesis"%string in
   let? genesis := ok_or (parse_execution_genesis raw) "Failed to parse execution genesis"%string in
   let? header := build_execution_genesis_header genesis in
   Ok (mkExecutionBlock (hash_slow header) (hd_number header) (hd_parent_hash header)
         (hd_timestamp header) load_prev_randao))%outcome.
End genesis_block.

(** ** The endpoint of the execution layer *)

Inductive EngineApiEndpoint :=
| Http (url : string)
| Ipc (path : string).

Definition default_engine_http (moniker : string) : string :=
  if decide (moniker = "test-1") then "http://localhost:18551"
  else if decide (moniker = "test-2") then "http://localhost:28551"
  else "http://localhost:8551".

(** [Path::join] of a relative path *)
Definition path_join (dir file : string) : string :=
  if bool_decide (last (String.list_ascii_of_string dir) = Some "/"%char)
  then (dir ++ file)%string else (dir ++ "/" ++ file)%string.

Definition engine_endpoint (ipc_path http_url : option string) (moniker : string)
    (current_dir : option string) : outcome string EngineApiEndpoint :=
  match ipc_path with
  | Some p =>
    if str_starts_with "/" p then Ok (Ipc p)
    else match current_dir with
         | Some d => Ok (Ipc (path_join d p))
         | None => Err "no current directory"%string
         end
  | None => Ok (Http (default (default_engine_http moniker) http_url))
  end.

(** The secret of the Engine API: 32 raw bytes or 64 hexadecimal digits.  A
    byte sequence that is not UTF-8 is replaced by a character that is not a
    digit; either way the decoding fails. *)
Definition jwt_secret_of (raw : bytes) : outcome string bytes :=
  if (length raw =? 32)%nat then Ok raw
  else
    match hex_decode (trim (text_of_bytes raw)) with
    | None => Err "JWT secret must be 32 raw bytes or 64 hex chars"%string
    | Some decoded =>
      if (length decoded =? 32)%nat then Ok decoded
      else Err "JWT secret must decode to exactly 32 bytes"%string
    end.

Definition jwt_secret (endpoint : EngineApiEndpoint) (jwt_file : option bytes) : outcome string bytes :=
  match endpoint with
  | Ipc _ => Ok (zeros 32)
  | Http _ => (let? raw := ok_or jwt_file "Failed to read JWT secret"%string in jwt_secret_of raw)%outcome
  end.

(** ** Start *)

(** The fields of the [App] struct; files are named by their paths. *)
Record AppOptions := mkOptions {
  ao_config : Config; ao_start_height : option Height; ao_execution_genesis_file : option string;
  ao_engine_http_url : option string; ao_engine_ipc_path : option string; ao_jwt_path : option string }.

(** What [start] finds: variables, files (the private key is read twice),
    whether the consensus engine, the databases and the two HTTP clients start,
    and the state of the databases. *)
Record Environment (E : Type) := mkEnvironment {
  ev_vars : Vars; ev_current_dir : option string; ev_read_file : string → option bytes;
  ev_private_key : outcome string bytes; ev_private_key_again : outcome string bytes;
  ev_genesis : outcome string ValidatorSet; ev_start_engine : outcome string unit;
  ev_store : outcome string Store; ev_blob_engine : outcome string E;
  ev_archiver_client : outcome string unit; ev_engine_client : outcome string unit }.
Arguments ev_vars {E} _.
Arguments ev_current_dir {E} _.
Arguments ev_read_file {E} _.
Arguments ev_private_key {E} _.
Arguments ev_private_key_again {E} _.
Arguments ev_genesis {E} _.
Arguments ev_start_engine {E} _.
Arguments ev_store {E} _.
Arguments ev_blob_engine {E} _.
Arguments ev_archiver_client {E} _.
Arguments ev_engine_client {E} _.

(** What start-up changes: the state with its databases, the execution layer,
    the jobs handed to the worker; [bt_job_faults] says which of the sends to
    come find the worker's channel closed. *)
Record Boot (E N : Type) := mkBoot {
  bt_state : State E; bt_el : N; bt_sent : list ArchiveJob; bt_job_faults : list bool }.
Arguments mkBoot {E N} _ _ _ _.
Arguments bt_state {E N} _.
Arguments bt_el {E N} _.
Arguments bt_sent {E N} _.
Arguments bt_job_faults {E N} _.

(** The worker that was spawned: its configuration, key and address. *)
Record ArchiverHandle := mkArchiverHandle {
  ah_config : ArchiverConfig; ah_signing_key : bytes; ah_address : Address }.

Definition demand (b : bool) (e : string) : outcome string unit := if b then Ok tt else Err e.

Section start.
Context {E : Type} {B : BlobEngine E} `{Crypto} `{MerkleTreeLib} `{NodeCodecs} `{ExecutionGenesisLib}.
Context {N : Type} {EA : EngineApi N}.
(** [cfg!(test)], [cfg!(feature = "test-harness")] *)
Context (cfg_test cfg_test_harness : bool).

Definition Address_from_public_key (k : PublicKey) : Address := take 20 (keccak256 k).

Definition validate_validator_archiver_setting (is_validator archiver_enabled : bool) : outcome string unit :=
  demand (negb (is_validator && negb archiver_enabled && negb cfg_test_harness))
    "archiver.enabled=false but this node is in the validator set".

Definition validate_archiver_config_strict (cf : ArchiverConfig) : outcome string unit :=
  if cf_enabled cf && negb (cfg_test || cfg_test_harness) then
    (let? _ := demand (negb (str_starts_with "mock://" (cf_provider_url cf)))
                 "Archiver is enabled but provider_url is mock mode" in
     let? _ := demand (negb (is_blank (cf_provider_url cf)))
                 "Archiver is enabled but archiver.provider_url is empty" in
     let? _ := demand (negb (is_blank (cf_provider_id cf)))
                 "Archiver is enabled but archiver.provider_id is empty" in
     demand (negb (is_blank (default EmptyString (cf_bearer_token cf))))
       "Archiver is enabled but archiver.bearer_token is not set")%outcome
  else Ok tt.

Definition load_config (ao : AppOptions) (vars : Vars) : Config :=
  let c := ao_config ao in
  if cfg_test_harness then c
  else mkConfig (cfg_moniker c) (apply_archiver_env_overrides vars (cfg_archiver c)).

(** Up to the construction of the state: nothing is written yet. *)
Definition prepare (ao : AppOptions) (ev : Environment E) : outcome string (State E * bytes * Address) :=
  (let cf := cfg_archiver (load_config ao (ev_vars ev)) in
   let? _ := validate_archiver_config_strict cf in
   let? private_key := ev_private_key ev in
   let address := Address_from_public_key (ed25519_public private_key) in
   let? genesis := ev_genesis ev in
   let is_validator := bool_decide (is_Some (get_by_address genesis address)) in
   let? _ := validate_validator_archiver_setting is_validator (cf_enabled cf) in
   let? _ := ev_start_engine ev in
   let? store := ev_store ev in
   let? blob_engine := ev_blob_engine ev in
   let start_height := default 1 (ao_start_height ao) in
   let? archiver_key := ev_private_key_again ev in
   let state := State_new genesis private_key address start_height store blob_engine in
   let? path := ok_or (match ao_execution_genesis_file ao with
                       | Some p => Some p
                       | None => ev_vars ev "ULTRAMARINE_EL_GENESIS_JSON"%string
                       end) "execution genesis path missing"%string in
   let? block := execution_genesis_block_from_file (ev_read_file ev path) in
   Ok (set_latest_block (Some block) state, archiver_key, address))%outcome.

Abbreviation BtM A := (M (Boot E N) string A) (only parsing).

Definition bt_st {A} (c : M (State E) string A) : BtM A :=
  zoom bt_state (λ s b, mkBoot s (bt_el b) (bt_sent b) (bt_job_faults b)) c.
Definition bt_client {A} (c : M N ExecutionError A) : BtM A :=
  zoom bt_el (λ n b, mkBoot (bt_state b) n (bt_sent b) (bt_job_faults b)) (map_err error_text c).

(** [handle.job_tx.send(job)]; [false] when the worker's channel is closed.  The
    send waits for room in the channel. *)
Definition send_job (job : ArchiveJob) : BtM bool := λ b,
  match bt_job_faults b with
  | true :: fs => (mkBoot (bt_state b) (bt_el b) (bt_sent b) fs, Ok false)
  | fs => (mkBoot (bt_state b) (bt_el b) (bt_sent b ++ [job]) (tail fs), Ok true)
  end.
Fixpoint send_jobs (jobs : list ArchiveJob) : BtM unit :=
  match jobs with
  | [] => ret tt
  | job :: jobs => let* sent := send_job job in if sent : bool then send_jobs jobs else ret tt
  end.

(** [spawn_archiver]; a channel of capacity zero panics. *)
Definition spawn_archiver (cf : ArchiverConfig) (key : bytes) (address : Address) (ev : Environment E)
    : outcome string ArchiverHandle :=
  if cf_max_queue_size cf =? 0 then Panic
  else (let? _ := ev_archiver_client ev in Ok (mkArchiverHandle cf key address))%outcome.

Definition start_archiver (cf : ArchiverConfig) (key : bytes) (address : Address) (ev : Environment E)
    : BtM (option ArchiverHandle) :=
  if cf_enabled cf then
    bt_st (modify (set_archiver_enabled true)) ;;;
    let* handle := lift (spawn_archiver cf key address ev) in
    let* recovered := attempt (bt_st recover_pending_archive_jobs) in
    match recovered with
    | inr jobs => send_jobs jobs
    | inl _ => ret tt
    end ;;;
    ret (Some handle)
  else ret None.

Definition execution_client (ao : AppOptions) (ev : Environment E) : outcome string ExecutionClient :=
  (let? endpoint := engine_endpoint (ao_engine_ipc_path ao) (ao_engine_http_url ao)
                      (cfg_moniker (ao_config ao)) (ev_current_dir ev) in
   let jwt_path := default "./assets/jwtsecret"%string (ao_jwt_path ao) in
   let? _ := jwt_secret endpoint (ev_read_file ev jwt_path) in
   let? _ := ev_engine_client ev in
   Ok (ExecutionClient_new (Some 20%nat) (Some 500) (Some 500)))%outcome.

Definition boot (ao : AppOptions) (ev : Environment E) (key : bytes) (address : Address)
    : BtM (option ArchiverHandle * ExecutionClient) :=
  bt_st hydrate_blob_parent_root ;;;
  bt_st cleanup_stale_blob_metadata ;;;
  let* handle := start_archiver (cfg_archiver (load_config ao (ev_vars ev))) key address ev in
  let* client := lift (execution_client ao ev) in
  bt_client check_capabilities ;;;
  ret (handle, client).

(** The node that is handed to the application loop, the worker with the jobs it
    was given, and the client; [None] when start-up ended before it touched the
    databases. *)
Record Started := mkStarted {
  sd_node : Node E N; sd_archiver : option ArchiverHandle; sd_jobs : list ArchiveJob;
  sd_client : ExecutionClient }.

Definition start (ao : AppOptions) (ev : Environment E) (el : N) (job_faults net_faults : list bool)
    : option (Boot E N) * outcome string Started :=
  match prepare ao ev with
  | Ok (state, key, address) =>
    let (b, r) := boot ao ev key address (mkBoot state el [] job_faults) in
    (Some b,
     (let? hc := r in
      let archiver := bool_decide (is_Some hc.1) in
      Ok (mkStarted (mkNode (bt_state b) (bt_el b) [] net_faults [] [] (if archiver then Some true else None) archiver)
            hc.1 (bt_sent b) hc.2))%outcome)
  | Err e => (None, Err e)
  | Panic => (None, Panic)
  end.
End start.

(** ** Which archive jobs are open *)

(** Reading the decided blobs of a height: an engine promises a view of them that
    reading does not change and that a successful read returns, and that an
    engine in order can be read again and again. *)
Class ImportView (E : Type) (B : BlobEngine E) := {
  imports : E → Height → list BlobSidecar;
  import_reads h e e' r : be_get_for_import h e = (e', r) →
    (∀ h', imports e' h' = imports e h') ∧ ∀ scs, r = Ok scs → scs = imports e h;
  import_ready : E → Prop;
  import_ready_reads h e : import_ready e →
    ∃ e' scs, be_get_for_import h e = (e', Ok scs) ∧ import_ready e' }.

Section recovery.
Context {E : Type} {B : BlobEngine E} {IV : ImportView E B} {C : Crypto} {T : MerkleTreeLib} {NC : NodeCodecs}.

(** A read on a store whose next transaction works. *)
Definition reads {A} (c : M Store StoreError A) (st : Store) : outcome StoreError A :=
  (c (with_tx_faults [] st)).2.

Definition decided_round (st : Store) (h : Height) : option Round :=
  match reads (get_consensus_block_metadata h) st with
  | Ok (Some cm) => Some (cm_round cm)
  | Ok None =>
    match reads (get_decided_value h) st with
    | Ok (Some dv) => Some (cc_round (dv_certificate dv))
    | _ => None
    end
  | _ => None
  end.

(** The decided blobs of a height that have no receipt. *)
Definition unarchived (s : State E) (h : Height) : list BlobSidecar :=
  filter (λ sc, sc_index sc ∉ (archival_range h (blob_archival (s_store s))).*1)
    (imports (s_blob_engine s) h).

Definition proposed_here (s : State E) (m : BlobMetadata) : bool :=
  match bm_proposer_index_hint m ≫= get_by_index (s_genesis_validators s) with
  | Some v => bool_decide (val_address v = s_address s)
  | None => false
  end.

(** The archive job a height is owed: the node proposed it, its blobs are still
    there, and some of them have no receipt. *)
Definition pending_job (s : State E) (h : Height) : option ArchiveJob :=
  match read_blob_metadata h (s_store s) with
  | Ok (Some m) =>
    if (bm_blob_count m =? 0) || bm_pruned m || all_archived m || negb (proposed_here s m) then None
    else
      match decided_round (s_store s) h, unarchived s h with
      | Some r, (_ :: _) as todo =>
        Some (mkJob h r (sc_index <$> todo) (sc_kzg_commitment <$> todo) (blob_keccak <$> todo)
                (versioned_hashes_from_sidecars todo))
      | _, _ => None
      end
  | _ => None
  end.

(** Only the failures to come and the engine behind its view may differ. *)
Definition reading (s s' : State E) : Prop :=
  ∃ e st, s' = set_blob_engine e (set_store st s) ∧ same_tables (s_store s) st ∧
    ∀ h, imports e h = imports (s_blob_engine s) h.
#[export] Instance reading_preorder : PreOrder reading.
Proof.
  split.
  - intros s. exists (s_blob_engine s), (s_store s). split_and!; [by destruct s|done..].
  - intros s1 s2 s3 (e & st & -> & Hs & He) (e' & st' & -> & Hs' & He'). exists e', st'.
    split_and!; [done|by etrans|]. intros h. etrans; [apply He'|apply He].
Qed.

Lemma same_state_reading (s s' : State E) : same_state s s' → reading s s'.
Proof. intros (st & Hs & ->). exists (s_blob_engine s), st. split_and!; [by destruct s|done..]. Qed.

Lemma reading_pending (s s' : State E) (h : Height) : reading s s' → pending_job s' h = pending_job s h.
Proof.
  intros (e & st & -> & [fs ->] & He). unfold pending_job, unarchived. cbn. rewrite He. done.
Qed.

(** A read of the store that succeeded. *)
Lemma with_store_reads {A} (body : Store → outcome StoreError A) (s s' : State E) (a : A) :
  (∀ st fs, body (with_tx_faults fs st) = body st) →
  with_store (blocking (read_tx body)) s = (s', Ok a) → reading s s' ∧ body (s_store s) = Ok a.
Proof.
  intros Hb. unfold with_store, zoom, map_err.
  destruct (blocking (read_tx body) (s_store s)) as [st [x|x|]] eqn:Hr; [|done..]. intros [= <- ->].
  apply read_tx_run in Hr as [Hr Hs]; [|done]. split; [|done]. apply same_state_reading. by exists st.
Qed.

Lemma reads_body {A} (body : Store → outcome StoreError A) (st : Store) (a : A) :
  (∀ st fs, body (with_tx_faults fs st) = body st) → body st = Ok a → reads (blocking (read_tx body)) st = Ok a.
Proof.
  intros Hb Ha. unfold reads, blocking, read_tx, bind, next_fault. cbn. rewrite Hb, Ha. done.
Qed.

Lemma build_archive_job_reads (h : Height) (r : Round) (s s' : State E) (o : option ArchiveJob)
    (m : BlobMetadata) :
  read_blob_metadata h (s_store s) = Ok (Some m) → (bm_blob_count m =? 0) = false →
  build_archive_job h r s = (s', Ok o) →
  reading s s' ∧
  o = match unarchived s h with
      | [] => None
      | todo => Some (mkJob h r (sc_index <$> todo) (sc_kzg_commitment <$> todo) (blob_keccak <$> todo)
                        (versioned_hashes_from_sidecars todo))
      end.
Proof.
  intros Hm Hc. unfold build_archive_job. intros (om & s1 & H1 & Hr)%bind_run_Ok.
  apply with_store_reads in H1 as [R1 H1]; [|done]. rewrite Hm in H1. injection H1 as <-. rewrite Hc in Hr.
  apply bind_run_Ok in Hr as (arch & s2 & H2 & Hr). apply with_store_reads in H2 as [R2 H2]; [|done].
  injection H2 as <-. apply bind_run_Ok in Hr as (scs & s3 & H3 & Hr).
  unfold with_engine, zoom, map_err in H3.
  destruct (be_get_for_import h (s_blob_engine s2)) as [e [x|x|]] eqn:Hg; [|done..]. injection H3 as <- ->.
  apply import_reads in Hg as [He Hscs]. specialize (Hscs _ eq_refl). subst scs.
  assert (reading s s2) as (e2 & st2 & -> & [fs ->] & He2) by by etrans.
  destruct R1 as (e1 & st1 & -> & [fs1 ->] & He1). cbn in Hr. rewrite He2 in Hr.
  assert (reading s (set_blob_engine e (set_blob_engine e2 (set_store (with_tx_faults fs (s_store s)) s)))) as Hrd.
  { exists e, (with_tx_faults fs (s_store s)). split_and!; [done|by exists fs|]. intros h'. rewrite He. apply He2. }
  unfold unarchived. destruct (filter _ (imports (s_blob_engine s) h)); by injection Hr as <- <-.
Qed.

Ltac no_job H := injection H as <- <-; cbn; by rewrite app_nil_r.

Lemma recover_height_job_reads (h : Height) (jobs jobs' : list ArchiveJob) (s s' : State E) :
  recover_height_job jobs h s = (s', Ok jobs') →
  reading s s' ∧ jobs' = jobs ++ option_list (pending_job s h).
Proof.
  unfold recover_height_job. intros (om & s1 & H1 & Hr)%bind_run_Ok.
  apply with_store_reads in H1 as [R1 H1]; [|done]. unfold pending_job. rewrite H1.
  destruct om as [m|]; [|no_job Hr].
  destruct (_ || _ || _) eqn:Hskip; cbn [orb]; [no_job Hr|].
  apply bind_run_Ok in Hr as (cm & s2 & H2 & Hr). apply with_store_reads in H2 as [R2 H2]; [|done].
  apply bind_run_Ok in Hr as (round & s3 & H3 & Hr).
  assert (reading s2 s3 ∧ round = decided_round (s_store s) h) as [R3 ->].
  { assert (same_tables (s_store s) (s_store s1)) as [fs Hst1] by by destruct R1 as (? & ? & -> & ? & _).
    unfold decided_round, get_consensus_block_metadata. rewrite Hst1 in H2. rewrite (reads_body _ _ cm) by done.
    destruct cm as [cm|]; [by injection H3 as <- <-|].
    apply bind_run_Ok in H3 as (dv & s4 & H4 & H3). injection H3 as <- <-.
    unfold get_decided_value in *. apply with_store_reads in H4 as [R4 H4]; [|done]. split; [done|].
    assert (same_tables (s_store s1) (s_store s2)) as [fs2 Hst2] by by destruct R2 as (? & ? & -> & ? & _).
    rewrite Hst2, Hst1 in H4. rewrite (reads_body _ _ dv) by done. by destruct dv. }
  assert (reading s s3) as R by (etrans; [exact R1|]; by etrans).
  pose proof R as (e & st & Hs3 & [fs ->] & He).
  destruct (decided_round _ _) as [r|]; [|destruct (negb (proposed_here s m)); no_job Hr].
  apply bind_run_Ok in Hr as (s4 & s5 & [= <- <-] & Hr).
  assert (proposed_here s3 m = proposed_here s m) as Hp by by rewrite Hs3.
  change (match bm_proposer_index_hint m ≫= get_by_index (s_genesis_validators s3) with
          | Some v => bool_decide (val_address v = s_address s3) | None => false end)
    with (proposed_here s3 m) in Hr. rewrite Hp in Hr.
  destruct (negb (proposed_here s m)); [no_job Hr|].
  apply bind_run_Ok in Hr as (job & s6 & H6 & Hr). injection Hr as <- <-.
  apply (build_archive_job_reads _ _ _ _ _ m) in H6 as [R6 ->];
    [|by rewrite Hs3|by destruct (_ =? _)].
  split; [by etrans|]. do 2 f_equal. unfold unarchived. rewrite Hs3. cbn. by rewrite He.
Qed.

Lemma recover_jobs_reads (hs : list Height) : ∀ (jobs jobs' : list ArchiveJob) (s s' : State E),
  foldM recover_height_job jobs hs s = (s', Ok jobs') →
  reading s s' ∧ jobs' = jobs ++ omap (pending_job s) hs.
Proof.
  induction hs as [|h hs IH]; cbn [foldM]; intros jobs jobs' s s' Hr.
  { injection Hr as <- <-. by rewrite app_nil_r. }
  apply bind_run_Ok in Hr as (jobs1 & s1 & H1 & Hr).
  apply recover_height_job_reads in H1 as [R1 ->]. apply IH in Hr as [R2 ->].
  split; [by etrans|]. rewrite <-app_assoc. f_equal. cbn.
  replace (omap (pending_job s1) hs) with (omap (pending_job s) hs).
  - by destruct (pending_job s h).
  - apply list_omap_ext, Forall_Forall2_diag, Forall_forall. intros x _.
    symmetry. by apply reading_pending.
Qed.

Lemma recover_reads (s s' : State E) (jobs : list ArchiveJob) :
  recover_pending_archive_jobs s = (s', Ok jobs) →
  reading s s' ∧ jobs = omap (pending_job s) (sorted_heights (blob_metadata_decided (s_store s))).
Proof.
  unfold recover_pending_archive_jobs. intros (hs & s1 & H1 & Hr)%bind_run_Ok.
  apply with_store_reads in H1 as [R1 [= <-]]; [|done]. apply recover_jobs_reads in Hr as [R2 ->].
  split; [by etrans|]. apply list_omap_ext, Forall_Forall2_diag, Forall_forall. intros x _.
  by apply reading_pending.
Qed.

Lemma recover_complete (s s' : State E) (jobs : list ArchiveJob) (j : ArchiveJob) :
  recover_pending_archive_jobs s = (s', Ok jobs) → (j ∈ jobs ↔ ∃ h, pending_job s h = Some j).
Proof.
  intros [_ ->]%recover_reads. rewrite list_elem_of_omap. split; [intros (h & _ & Hh); eauto|].
  intros [h Hh]. exists h. split; [|done]. apply elem_of_sorted_heights. unfold pending_job, read_blob_metadata in Hh.
  by destruct (blob_metadata_decided (s_store s) !! h).
Qed.

(** *** Recovery succeeds on databases in order *)

(** The records recovery reads of the decided heights decode. *)
Definition records_readable (st : Store) : Prop :=
  ∀ h, is_Some (blob_metadata_decided st !! h) →
    is_ok (read_blob_metadata h st) = true ∧ is_ok (reads (get_consensus_block_metadata h) st) = true ∧
    is_ok (reads (get_decided_value h) st) = true.

Definition recoverable (s : State E) : Prop :=
  tx_faults (s_store s) = [] ∧ import_ready (s_blob_engine s) ∧ records_readable (s_store s).

(** A read of the store, with no failure to come, changes nothing. *)
Lemma calm_read {A} (body : Store → outcome StoreError A) (s : State E) :
  tx_faults (s_store s) = [] → is_ok (reads (blocking (read_tx body)) (s_store s)) = true →
  ∃ a, with_store (blocking (read_tx body)) s = (s, Ok a).
Proof.
  intros Hf. unfold reads. rewrite with_tx_faults_nil by done. unfold with_store, zoom, map_err, blocking.
  rewrite read_tx_ok by done. destruct (body (s_store s)) as [a|e|]; [|done..]. intros _.
  exists a. by destruct s.
Qed.

Lemma build_archive_job_total (h : Height) (r : Round) (s : State E) :
  recoverable s → is_Some (blob_metadata_decided (s_store s) !! h) →
  ∃ e o, build_archive_job h r s = (set_blob_engine e s, Ok o) ∧ import_ready e.
Proof.
  intros (Hf & He & Hrec) Hh. destruct (Hrec h Hh) as (Hm & _ & _).
  assert (set_blob_engine (s_blob_engine s) s = s) as Hid by by destruct s.
  unfold build_archive_job. destruct (calm_read (read_blob_metadata h) s Hf) as [om Hom].
  { unfold reads, blocking. rewrite with_tx_faults_nil, read_tx_ok by done. by destruct (read_blob_metadata h _). }
  unfold get_blob_metadata, bind at 1. rewrite Hom. destruct om as [m|]; [|exists (s_blob_engine s), None; by rewrite Hid].
  destruct (_ =? 0); [exists (s_blob_engine s), None; by rewrite Hid|].
  destruct (calm_read (λ s, Ok (archival_range h (blob_archival s)).*1) s Hf) as [ar Har].
  { unfold reads, blocking. by rewrite with_tx_faults_nil, read_tx_ok by done. }
  unfold archived_blob_indexes, bind at 1. rewrite Har.
  destruct (import_ready_reads h _ He) as (e' & scs & Hscs & He').
  unfold bind at 1, with_engine, zoom, map_err. rewrite Hscs.
  cbn [omap_err]. destruct (filter (λ sc, sc_index sc ∉ ar) scs); by eexists e', _.
Qed.

Lemma recover_height_job_total (jobs : list ArchiveJob) (h : Height) (s : State E) :
  recoverable s → is_Some (blob_metadata_decided (s_store s) !! h) →
  ∃ e jobs', recover_height_job jobs h s = (set_blob_engine e s, Ok jobs') ∧ import_ready e.
Proof.
  intros Hr Hh. pose proof Hr as (Hf & He & Hrec). destruct (Hrec h Hh) as (Hm & Hc & Hv).
  assert (set_blob_engine (s_blob_engine s) s = s) as Hid by by destruct s.
  assert (∃ e jobs', (s, Ok jobs) = (set_blob_engine e s, @Ok string _ jobs') ∧ import_ready e) as Hnone.
  { exists (s_blob_engine s), jobs. by rewrite Hid. }
  unfold recover_height_job. destruct (calm_read (read_blob_metadata h) s Hf) as [om Hom].
  { unfold reads, blocking. rewrite with_tx_faults_nil, read_tx_ok by done. by destruct (read_blob_metadata h _). }
  unfold get_blob_metadata, bind at 1. rewrite Hom. destruct om as [m|]; [|done].
  destruct (_ || _ || _); [done|].
  destruct (calm_read _ s Hf Hc) as [cm Hcm]. unfold get_consensus_block_metadata, bind at 1. rewrite Hcm.
  destruct (calm_read _ s Hf Hv) as [dv Hdv]. set (round := match cm with Some _ => _ | None => _ end).
  assert (∃ o, round s = (s, Ok o)) as [o Ho].
  { unfold round, bind, ret, get_decided_value. destruct cm; [by eexists|]. rewrite Hdv. by eexists. }
  unfold bind at 1. rewrite Ho. destruct o as [r|]; [|done]. unfold bind at 1, get.
  destruct (negb _); [done|]. destruct (build_archive_job_total h r s Hr Hh) as (e & oj & Hj & He').
  unfold bind. rewrite Hj. by exists e, (jobs ++ option_list oj).
Qed.

Lemma recover_total (s : State E) :
  recoverable s → ∃ s' jobs, recover_pending_archive_jobs s = (s', Ok jobs).
Proof.
  intros Hr. unfold recover_pending_archive_jobs, bind, decided_heights.
  destruct (calm_read (λ s, Ok (sorted_heights (blob_metadata_decided s))) s (proj1 Hr)) as [hs Hhs].
  { unfold reads, blocking. rewrite with_tx_faults_nil by apply Hr. by rewrite read_tx_ok by apply Hr. }
  rewrite Hhs. apply with_store_reads in Hhs as [_ [= <-]]; [|done].
  assert (Forall (λ h, is_Some (blob_metadata_decided (s_store s) !! h))
            (sorted_heights (blob_metadata_decided (s_store s)))) as Hin.
  { apply Forall_forall. intros h. by rewrite elem_of_sorted_heights. }
  revert Hr Hin. generalize (sorted_heights (blob_metadata_decided (s_store s))) as hs. intros hs.
  revert s. generalize (@nil ArchiveJob) as jobs.
  induction hs as [|h hs IH]; intros jobs s Hr Hin; cbn [foldM]; [by eexists _, _|].
  apply Forall_cons in Hin as [Hh Hin].
  destruct (recover_height_job_total jobs h s Hr Hh) as (e & jobs' & Hj & He). unfold bind. rewrite Hj.
  apply IH; [|done]. destruct Hr as (? & _ & ?). done.
Qed.
End recovery.

(** The RocksDB engine has such a view: the decided blobs that decode. *)
Section rocksdb_imports.
Context `{KzgLib} `{KS : Codec BlobSidecar}.

Definition rocksdb_imports (e : BlobEngineImpl) (h : Height) : list BlobSidecar :=
  match read_blobs (scan_prefix (cf_decided (bi_store e)) (decided_prefix h)) with Ok l => l | _ => [] end.

Lemma rocksdb_import_reads (h : Height) (e e' : BlobEngineImpl) (r : outcome BlobEngineError (list BlobSidecar)) :
  get_for_import h e = (e', r) →
  (∀ h', rocksdb_imports e' h' = rocksdb_imports e h') ∧ ∀ scs, r = Ok scs → scs = rocksdb_imports e h.
Proof.
  unfold get_for_import, on_store, zoom, map_err. pose proof (get_decided_blobs_same_decided h (bi_store e)) as Hs.
  destruct (get_decided_blobs h (bi_store e)) as [d r1] eqn:Hd. intros [= <- <-].
  unfold same_decided in Hs. cbn in Hs. unfold rocksdb_imports. cbn. rewrite Hs. split; [done|]. intros scs Hok. destruct r1 as [l|x|]; [|done..].
  injection Hok as <-. revert Hd. unfold get_decided_blobs, spawn_blocking, bind, db_call, get, lift.
  destruct (db_faults (bi_store e)) as [|[] fs]; cbn; [|done|]; by destruct (read_blobs _); intros [= <- <-].
Qed.

(** In order: no call fails, and every decided blob decodes. *)
Definition rocksdb_ready (e : BlobEngineImpl) : Prop :=
  db_faults (bi_store e) = [] ∧
  ∀ h, is_ok (read_blobs (scan_prefix (cf_decided (bi_store e)) (decided_prefix h))) = true.

Lemma rocksdb_ready_reads (h : Height) (e : BlobEngineImpl) :
  rocksdb_ready e → ∃ e' scs, get_for_import h e = (e', Ok scs) ∧ rocksdb_ready e'.
Proof.
  intros [Hf Hd]. specialize (Hd h) as Hh. unfold get_for_import, on_store, zoom, map_err, get_decided_blobs,
    spawn_blocking, bind, db_call, get, lift. rewrite Hf. cbn.
  destruct (read_blobs _) as [scs|x|]; [|done..]. by eexists _, scs.
Qed.

#[export] Instance rocksdb_import_view : ImportView BlobEngineImpl rocksdb_engine :=
  {| imports := rocksdb_imports; import_reads := rocksdb_import_reads;
     import_ready := rocksdb_ready; import_ready_reads := rocksdb_ready_reads |}.
End rocksdb_imports.

(** ** What start-up leaves behind *)

Section start_proofs.
Context {E : Type} {B : BlobEngine E} {IV : ImportView E B} {C : Crypto} {T : MerkleTreeLib} {NC : NodeCodecs}
  {GL : ExecutionGenesisLib}.
Context {N : Type} {EA : EngineApi N}.
Context (cfg_test cfg_test_harness : bool).

(** What identifies the node and its place in the chain. *)
Definition same_identity (s s' : State E) : Prop :=
  s_genesis_validators s' = s_genesis_validators s ∧ s_signing_key s' = s_signing_key s ∧
  s_address s' = s_address s ∧ s_current_height s' = s_current_height s ∧
  s_latest_block s' = s_latest_block s ∧ s_executed_height s' = s_executed_height s ∧
  s_archiver_enabled s' = s_archiver_enabled s ∧ ∀ h, imports (s_blob_engine s') h = imports (s_blob_engine s) h.
#[local] Instance same_identity_preorder : PreOrder same_identity.
Proof.
  split; [by intros s|]. intros s1 s2 s3 (?&?&?&?&?&?&?&?) (?&?&?&?&?&?&?&?).
  unfold same_identity. split_and!; congruence.
Qed.

Lemma reading_identity (s s' : State E) : reading s s' → same_identity s s'.
Proof. by intros (e & st & -> & _ & He). Qed.

Lemma with_store_identity {A} (c : M Store StoreError A) : steps same_identity (with_store c).
Proof. by apply (steps_with_store _ (λ _ _, True)). Qed.
Lemma modify_identity {Er} (f : State E → State E) :
  (∀ s, same_identity s (f s)) → steps (E := Er) same_identity (modify f).
Proof. apply steps_modify. Qed.
#[local] Hint Resolve with_store_identity : steps.

Section store_relation.
Context (Q : Store → Store → Prop) `{!PreOrder Q}.
Context (Hread : ∀ s fs, Q s (with_tx_faults fs s)).
Context (Hop : ∀ op, decides op = false → steps Q (run_op op)).

Lemma blocking_read_rel {A} (body : Store → outcome StoreError A) :
  steps (store_rel Q) (with_store (E := E) (blocking (read_tx body))).
Proof using Hread. apply (read_store_rel Q Hread), steps_blocking, read_tx_same. Qed.
#[local] Hint Resolve blocking_read_rel : steps.

Lemma hydrate_root_rel : steps (store_rel Q) (hydrate_blob_parent_root (E := E)).
Proof using Hop Hread PreOrder0.
  pose proof (op_store_rel (E := E) Q Hop OpSeedGenesis eq_refl : steps _ (with_store seed_genesis_blob_metadata)).
  unfold hydrate_blob_parent_root, get_latest_blob_metadata.
  steps_tac; by apply modify_store_rel.
Qed.

Lemma cleanup_metadata_rel : steps (store_rel Q) (cleanup_stale_blob_metadata (E := E)).
Proof using Hop Hread PreOrder0.
  pose proof (writes_store_rel (E := E) Q Hop) as (_ & _ & _ & _ & _ & ? & _ & _ & _).
  unfold cleanup_stale_blob_metadata, get_all_undecided_blob_metadata_before. steps_tac.
Qed.
End store_relation.

Lemma hydrate_root_identity : steps same_identity (hydrate_blob_parent_root (E := E)).
Proof. unfold hydrate_blob_parent_root. steps_tac; by apply modify_identity. Qed.

(** The cached parent root is that of the latest decided blob metadata, or of
    the genesis metadata when there is none. *)
Definition root_of_latest (st : Store) (s : State E) : Prop :=
  ∃ h m, s_last_blob_sidecar_height s = h ∧ s_last_blob_sidecar_root s = hash_tree_root (to_beacon_header m) ∧
    (reads get_latest_blob_metadata st = Ok (Some (h, m)) ∨
     reads get_latest_blob_metadata st = Ok None ∧ h = 0 ∧ BlobMetadata_genesis (E := string) = Ok m).

Lemma hydrate_root_run (s s' : State E) (u : unit) :
  hydrate_blob_parent_root s = (s', Ok u) → root_of_latest (s_store s) s'.
Proof using IV.
  unfold hydrate_blob_parent_root. intros (o & s1 & H1 & Hr)%bind_run_Ok.
  unfold get_latest_blob_metadata in H1. apply with_store_reads in H1 as [_ H1]; [|done].
  assert (reads get_latest_blob_metadata (s_store s) = Ok o) as Hl by by apply reads_body.
  destruct o as [[h m]|].
  - injection Hr as <-. exists h, m. split_and!; [done..|]. by left.
  - apply bind_run_Ok in Hr as (g & s2 & Hg & Hr). injection Hg as <- Hg.
    apply bind_run_Ok in Hr as (v & s3 & _ & Hr). injection Hr as <-. exists 0, g.
    split_and!; [done..|]. right. by subst g.
Qed.

(** Cleaning up changes the store only. *)
Definition store_only (s s' : State E) : Prop := ∃ st, s' = set_store st s.
#[local] Instance store_only_preorder : PreOrder store_only.
Proof. split; [intros s; exists (s_store s); by destruct s|]. intros s1 s2 s3 [st ->] [st' ->]. by exists st'. Qed.
Lemma with_store_only {A} (c : M Store StoreError A) : steps store_only (with_store c).
Proof. apply (steps_with_store _ (λ _ _, True)); [done|]. intros s st _. by exists st. Qed.
#[local] Hint Resolve with_store_only : steps.
Lemma cleanup_metadata_only : steps store_only (cleanup_stale_blob_metadata (E := E)).
Proof. unfold cleanup_stale_blob_metadata. steps_tac. Qed.

Lemma recover_steps : steps reading (recover_pending_archive_jobs (E := E)).
Proof.
  assert (∀ A (body : Store → outcome StoreError A),
    steps reading (with_store (E := E) (blocking (read_tx body)))) as Hst.
  { intros A body. apply (steps_with_store _ same_tables); [apply steps_blocking, read_tx_same|].
    intros s st Hs. apply same_state_reading. by exists st. }
  assert (∀ h, steps reading (with_engine (E := E) (be_get_for_import h))) as Hen.
  { intros h s. unfold with_engine, zoom, map_err. destruct (be_get_for_import h (s_blob_engine s)) as [e r] eqn:Hg.
    apply import_reads in Hg as [He _]. exists e, (s_store s). split_and!; [by destruct s|done..]. }
  unfold recover_pending_archive_jobs, recover_height_job, build_archive_job, decided_heights, get_blob_metadata,
    get_consensus_block_metadata, get_decided_value, archived_blob_indexes. steps_tac.
Qed.

Lemma send_jobs_run (jobs : list ArchiveJob) : ∀ (b : Boot E N), ∃ sent rest b',
  send_jobs jobs b = (b', Ok tt) ∧ jobs = sent ++ rest ∧ bt_sent b' = bt_sent b ++ sent ∧
  bt_state b' = bt_state b ∧ bt_el b' = bt_el b ∧ (bt_job_faults b = [] → rest = []).
Proof.
  induction jobs as [|j jobs IH]; intros b; cbn [send_jobs].
  { exists [], [], b. by rewrite (app_nil_r (bt_sent b)). }
  unfold bind, send_job. destruct (bt_job_faults b) as [|[] fs] eqn:Hf.
  2: { exists [], (j :: jobs), (mkBoot (bt_state b) (bt_el b) (bt_sent b) fs).
       cbn. by rewrite app_nil_r. }
  all: destruct (IH (mkBoot (bt_state b) (bt_el b) (bt_sent b ++ [j]) (tail (bt_job_faults b))))
    as (sent & rest & b' & Hr & -> & Hs & H1 & H2 & H3); rewrite Hf in Hr.
  all: exists (j :: sent), rest, b'; cbn in *; rewrite Hr, Hs, <-app_assoc, Hf in *; split_and!; auto; done.
Qed.

(** The tables of decisions, and the decided records. *)
Definition chain_kept (st st' : Store) : Prop := log_same st st' ∧ decided_kept st st'.
#[local] Instance chain_kept_preorder : PreOrder chain_kept.
Proof. split; [by split|]. intros s1 s2 s3 [H1 K1] [H2 K2]. split; by etrans. Qed.
Lemma chain_kept_faults (st : Store) (fs : list (option TxFault)) : chain_kept st (with_tx_faults fs st).
Proof. split; auto with steps. Qed.
Lemma run_op_chain_kept (op : StoreOp) : decides op = false → steps chain_kept (run_op op).
Proof. intros Hd st. split; [by apply run_op_log_same|apply run_op_kept]. Qed.

Definition capable (c : EngineCapabilities) : Prop :=
  forkchoice_updated_v3 c = true ∧ get_payload_v4 c = true ∧ new_payload_v4 c = true.

Lemma check_capabilities_run (n n' : N) (u : unit) :
  check_capabilities n = (n', Ok u) → ∃ c, ea_exchange_capabilities n = (n', Ok c) ∧ capable c.
Proof.
  unfold check_capabilities. intros (c & n1 & Hc & Hr)%bind_run_Ok.
  destruct (_ || _ || _) eqn:Hb; [done|]. injection Hr as <-. exists c. split; [done|].
  unfold capable. destruct (forkchoice_updated_v3 c), (get_payload_v4 c), (new_payload_v4 c); done.
Qed.

(** No failure to come stays so, and the blob engine is not touched. *)
Definition calm (s s' : State E) : Prop :=
  (tx_faults (s_store s) = [] → tx_faults (s_store s') = []) ∧ s_blob_engine s' = s_blob_engine s.
#[local] Instance calm_preorder : PreOrder calm.
Proof. split; [by intros s; split|]. intros s1 s2 s3 [H1 E1] [H2 E2]. split; [auto|congruence]. Qed.

Lemma calm_store {A} (c : M Store StoreError A) :
  steps (λ st st', tx_faults st = [] → tx_faults st' = []) c → steps calm (with_store c).
Proof. intros Hc. apply (steps_with_store _ _ _ Hc). intros s st Hst. by split. Qed.
Lemma calm_read_tx {A} (body : Store → outcome StoreError A) : steps calm (with_store (blocking (read_tx body))).
Proof.
  apply calm_store, steps_blocking. intros st Hf. by rewrite read_tx_ok.
Qed.
Lemma calm_write_tx {A} (body : Store → outcome StoreError (Store * A)) :
  (∀ st st' a, body st = Ok (st', a) → tx_faults st' = tx_faults st) →
  steps (λ st st', tx_faults st = [] → tx_faults st' = []) (blocking (write_tx body)).
Proof.
  intros Hb. apply steps_blocking. intros st Hf. unfold write_tx, bind, next_fault. rewrite Hf.
  destruct (body st) as [[st' a]|e|] eqn:Hst; [|done..]. simpl. by rewrite (Hb _ _ _ Hst).
Qed.
Lemma calm_modify {Er} (f : State E → State E) : (∀ s, calm s (f s)) → steps (E := Er) calm (modify f).
Proof. apply steps_modify. Qed.
#[local] Hint Resolve calm_read_tx : steps.

Lemma seed_calm : steps calm (with_store (E := E) seed_genesis_blob_metadata).
Proof.
  apply calm_store. unfold seed_genesis_blob_metadata, bind, lift. intros st.
  destruct BlobMetadata_genesis as [m|e|]; [|done..]. apply calm_write_tx. clear st. intros st st' a.
  destruct (blob_metadata_decided st !! 0); [by intros [= <- _]|].
  destruct (encode m); [|done..]. by intros [= <- _].
Qed.
Lemma hydrate_root_calm : steps calm (hydrate_blob_parent_root (E := E)).
Proof.
  pose proof seed_calm. unfold hydrate_blob_parent_root, get_latest_blob_metadata.
  steps_tac; by apply calm_modify.
Qed.
Lemma cleanup_metadata_calm : steps calm (cleanup_stale_blob_metadata (E := E)).
Proof.
  assert (∀ h r, steps calm (with_store (E := E) (delete_blob_metadata_undecided h r))).
  { intros h r. apply calm_store, calm_write_tx. by intros st st' a [= <- _]. }
  unfold cleanup_stale_blob_metadata, get_all_undecided_blob_metadata_before. steps_tac.
Qed.

(** The state once the databases are in order. *)
Definition in_order (s s2 : State E) : Prop :=
  same_identity s s2 ∧ chain_kept (s_store s) (s_store s2) ∧ root_of_latest (s_store s) s2 ∧ calm s s2.

Lemma order_run (b b2 : Boot E N) (u : unit) :
  (bt_st hydrate_blob_parent_root ;;; bt_st cleanup_stale_blob_metadata) b = (b2, Ok u) →
  in_order (bt_state b) (bt_state b2) ∧ bt_el b2 = bt_el b ∧ bt_sent b2 = bt_sent b ∧
  bt_job_faults b2 = bt_job_faults b.
Proof using IV.
  intros ([] & b1 & H1 & H2)%bind_run_Ok. apply zoom_Ok in H1 as (s1 & H1 & ->).
  apply zoom_Ok in H2 as (s2 & H2 & ->). cbn [bt_state bt_el bt_sent bt_job_faults] in *. split_and!; [|done..].
  pose proof (hydrate_root_rel chain_kept chain_kept_faults run_op_chain_kept (bt_state b)) as K1.
  pose proof (hydrate_root_identity (bt_state b)) as I1. pose proof (hydrate_root_calm (bt_state b)) as C1.
  pose proof (cleanup_metadata_calm s1) as C2. rewrite H1 in K1, I1, C1. rewrite H2 in C2.
  apply hydrate_root_run in H1.
  pose proof (cleanup_metadata_rel chain_kept chain_kept_faults run_op_chain_kept s1) as K2.
  pose proof (cleanup_metadata_only s1) as I2. rewrite H2 in K2, I2. destruct I2 as [st I2]. cbn [fst] in *. subst s2.
  unfold in_order. split; [etrans; [exact I1|done]|]. split; [by etrans|]. split; [|by etrans].
  destruct H1 as (h & m & Hh & Hm & Hor). by exists h, m.
Qed.

(** The archiver with the jobs it was handed. *)
Lemma start_archiver_run (cf : ArchiverConfig) (key : bytes) (a : Address) (ev : Environment E)
    (b b' : Boot E N) (o : option ArchiverHandle) :
  start_archiver cf key a ev b = (b', Ok o) → bt_el b' = bt_el b ∧
  if cf_enabled cf then
    o = Some (mkArchiverHandle cf key a) ∧ cf_max_queue_size cf ≠ 0 ∧
    reading (set_archiver_enabled true (bt_state b)) (bt_state b') ∧
    ∃ r, (recover_pending_archive_jobs (set_archiver_enabled true (bt_state b))).2 = r ∧
      match r with
      | Ok jobs => ∃ sent rest, jobs = sent ++ rest ∧ bt_sent b' = bt_sent b ++ sent ∧
          (bt_job_faults b = [] → rest = [])
      | Err _ => bt_sent b' = bt_sent b
      | Panic => False
      end
  else o = None ∧ b' = b.
Proof.
  unfold start_archiver. destruct (cf_enabled cf); [|by intros [= <- <-]].
  intros ([] & b1 & H1 & Hr)%bind_run_Ok. apply zoom_Ok in H1 as (s1 & H1 & ->). injection H1 as <-.
  apply bind_run_Ok in Hr as (h & b2 & H2 & Hr). unfold lift, spawn_archiver in H2.
  destruct (cf_max_queue_size cf =? 0) eqn:Hq; [done|]. injection H2 as <- H2.
  apply obind_Ok in H2 as (u & _ & [= <-]).
  apply bind_run_Ok in Hr as (rec & b3 & H3 & Hr). unfold attempt, bt_st, zoom in H3. cbn in H3.
  pose proof (recover_steps (set_archiver_enabled true (bt_state b))) as Hrd.
  destruct (recover_pending_archive_jobs _) as [s3 [jobs|e|]]; [..|done]; injection H3 as <- <-; cbn in Hrd, Hr.
  - apply bind_run_Ok in Hr as ([] & b4 & H4 & Hr). injection Hr as <- <-.
    destruct (send_jobs_run jobs (mkBoot s3 (bt_el b) (bt_sent b) (bt_job_faults b)))
      as (sent & rest & b5 & Hs & -> & H5 & H6 & H7 & H8). rewrite Hs in H4. injection H4 as <-. cbn in *.
    rewrite H6, H7. split_and!; [done..|lia|done|]. eexists. split; [done|]. by exists sent, rest.
  - injection Hr as <- <-. split_and!; [done..|lia|done|]. eexists. split; [done|]. done.
Qed.

Abbreviation start_ := (start cfg_test cfg_test_harness) (only parsing).
Abbreviation archiver_of ao ev := (cfg_archiver (load_config cfg_test_harness ao (ev_vars ev))) (only parsing).

Lemma demand_Ok (b : bool) (e : string) (u : unit) : demand b e = Ok u → b = true.
Proof. by destruct b. Qed.

Lemma prepare_run (ao : AppOptions) (ev : Environment E) (s : State E) (key2 : bytes) (a : Address) :
  prepare cfg_test cfg_test_harness ao ev = Ok (s, key2, a) →
  ∃ key vs st e path blk,
    validate_archiver_config_strict cfg_test cfg_test_harness (archiver_of ao ev) = Ok tt ∧
    validate_validator_archiver_setting cfg_test_harness (bool_decide (is_Some (get_by_address vs a)))
      (cf_enabled (archiver_of ao ev)) = Ok tt ∧
    ev_private_key ev = Ok key ∧ ev_private_key_again ev = Ok key2 ∧ ev_genesis ev = Ok vs ∧
    ev_store ev = Ok st ∧ ev_blob_engine ev = Ok e ∧ a = Address_from_public_key (ed25519_public key) ∧
    execution_genesis_block_from_file (ev_read_file ev path) = Ok blk ∧
    s = set_latest_block (Some blk) (State_new vs key a (default 1 (ao_start_height ao)) st e).
Proof.
  unfold prepare. intros ([] & H1 & Hr)%obind_Ok. apply obind_Ok in Hr as (key & Hk & Hr).
  apply obind_Ok in Hr as (vs & Hvs & Hr). apply obind_Ok in Hr as ([] & H2 & Hr).
  apply obind_Ok in Hr as (? & _ & Hr). apply obind_Ok in Hr as (st & Hst & Hr).
  apply obind_Ok in Hr as (e & He & Hr). apply obind_Ok in Hr as (k2 & Hk2 & Hr).
  apply obind_Ok in Hr as (path & _ & Hr). apply obind_Ok in Hr as (blk & Hb & Hr).
  injection Hr as <- <- <-. by exists key, vs, st, e, path, blk.
Qed.

(** What the parts of a successful start did. *)
Lemma start_run (ao : AppOptions) (ev : Environment E) (el : N) (jf nf : list bool) (b : option (Boot E N))
    (sd : Started) :
  start_ ao ev el jf nf = (b, Ok sd) →
  ∃ s0 key2 a b2 b3,
    prepare cfg_test cfg_test_harness ao ev = Ok (s0, key2, a) ∧
    in_order s0 (bt_state b2) ∧ bt_el b2 = el ∧ bt_sent b2 = [] ∧ bt_job_faults b2 = jf ∧
    start_archiver (archiver_of ao ev) key2 a ev b2 = (b3, Ok (sd_archiver sd)) ∧
    execution_client ao ev = Ok (sd_client sd) ∧
    (∃ c, ea_exchange_capabilities el = (nd_el (sd_node sd), Ok c) ∧ capable c) ∧
    nd_state (sd_node sd) = bt_state b3 ∧ sd_jobs sd = bt_sent b3.
Proof using IV.
  unfold start. destruct (prepare _ _ ao ev) as [[[s0 key2] a]|e|]; [|done..].
  destruct (boot _ ao ev key2 a (mkBoot s0 el [] jf)) as [b' r] eqn:Hb. intros [= _ Hr].
  apply obind_Ok in Hr as ([o cl] & -> & [= <-]). unfold boot in Hb.
  apply bind_run_Ok in Hb as ([] & b1 & H1 & Hb). apply bind_run_Ok in Hb as ([] & b2 & H2 & Hb).
  assert ((bt_st hydrate_blob_parent_root ;;; bt_st cleanup_stale_blob_metadata) (mkBoot s0 el [] jf) = (b2, Ok tt))
    as Ho by (unfold bind; by rewrite H1).
  apply order_run in Ho as (Ho & Hel & Hse & Hjf).
  apply bind_run_Ok in Hb as (o' & b3 & H3 & Hb). apply bind_run_Ok in Hb as (cl' & b4 & H4 & Hb).
  injection H4 as <- H4. apply bind_run_Ok in Hb as ([] & b5 & H5 & Hb). injection Hb as <- <- <-.
  apply zoom_Ok in H5 as (n & H5 & ->). unfold map_err in H5.
  destruct (check_capabilities (bt_el b3)) as [n' [u|?|]] eqn:Hc; [|done..]. injection H5 as <-.
  apply check_capabilities_run in Hc as (c & Hc & Hcap).
  pose proof (start_archiver_run _ _ _ _ _ _ _ H3) as [Hel3 _]. rewrite Hel3, Hel in Hc.
  exists s0, key2, a, b2, b3. split_and!; try done. by exists c.
Qed.

(** The state that is handed to the loop, once the archiver is started. *)
Lemma started_state (ao : AppOptions) (ev : Environment E) (el : N) (jf nf : list bool) (b : option (Boot E N))
    (sd : Started) :
  start_ ao ev el jf nf = (b, Ok sd) →
  ∃ s0 key2 a s2, prepare cfg_test cfg_test_harness ao ev = Ok (s0, key2, a) ∧ in_order s0 s2 ∧
    s_archiver_enabled s2 = s_archiver_enabled s0 ∧
    reading (if cf_enabled (archiver_of ao ev) then set_archiver_enabled true s2 else s2) (nd_state (sd_node sd)).
Proof using IV.
  intros (s0 & key2 & a & b2 & b3 & Hp & Ho & _ & _ & _ & Ha & _ & _ & -> & _)%start_run.
  exists s0, key2, a, (bt_state b2). apply start_archiver_run in Ha as [_ Ha].
  split_and!; [done..| |].
  - by destruct Ho as ((_ & _ & _ & _ & _ & _ & He & _) & _).
  - destruct (cf_enabled _); [by destruct Ha as (_ & _ & ? & _)|]. destruct Ha as [_ ->]. reflexivity.
Qed.

(** *** A first start *)

(** The store of a node that never ran, and the store once it holds the encoded
    genesis metadata. *)
Definition seeded_store (b : bytes) : Store :=
  with_blob_metadata_meta {[LATEST_HEIGHT := be_bytes 8 0]} (with_blob_metadata_decided {[0 := b]} (empty_store [])).

Lemma hydrate_fresh (s : State E) (g : BlobMetadata) (b : bytes) :
  s_store s = empty_store [] → BlobMetadata_genesis (E := string) = Ok g → encode g = Ok b →
  hydrate_blob_parent_root s =
    (set_last_blob_sidecar_height 0 (set_last_blob_sidecar_root (hash_tree_root (to_beacon_header g))
       (set_store (seeded_store b) s)), Ok tt).
Proof.
  intros Hs Hg Hb.
  assert (BlobMetadata_genesis (E := StoreError) = Ok g) as Hg' by (injection Hg as <-; reflexivity).
  unfold hydrate_blob_parent_root, bind, with_store, zoom, map_err, get_latest_blob_metadata,
    seed_genesis_blob_metadata, insert_genesis_blob_metadata, blocking, bind, lift.
  rewrite Hs, read_tx_ok by done. rewrite Hg, Hg'. unfold write_tx, bind, next_fault. cbn. by rewrite Hb.
Qed.

Lemma cleanup_fresh (s : State E) (b : bytes) :
  s_store s = seeded_store b → cleanup_stale_blob_metadata s = (s, Ok tt).
Proof.
  intros Hs. unfold cleanup_stale_blob_metadata, bind, get, with_store, zoom, map_err,
    get_all_undecided_blob_metadata_before, blocking. rewrite Hs, read_tx_ok by done. cbn.
  rewrite <-Hs. by destruct s.
Qed.

(** Nothing is owed by a node that decided nothing. *)
Lemma recover_fresh (s : State E) (b : bytes) :
  s_store s = seeded_store b →
  ∃ r, recover_pending_archive_jobs s = (s, r) ∧ (r = Ok [] ∨ ∃ e, r = Err e).
Proof.
  intros Hs.
  assert (∀ A (body : Store → outcome StoreError A), with_store (blocking (read_tx body)) s =
    (s, omap_err store_msg (match body (s_store s) with Panic => Err TaskJoin | r => r end))) as Hread.
  { intros A body. unfold with_store, zoom, map_err, blocking. rewrite read_tx_ok by by rewrite Hs.
    by destruct s, (body _). }
  unfold recover_pending_archive_jobs, decided_heights, bind. rewrite Hread. cbn [omap_err].
  replace (sorted_heights _) with [0]; [|rewrite Hs; reflexivity]. cbn [foldM].
  assert (with_store (get_consensus_block_metadata 0) s = (s, Ok None)) as Hc
    by (unfold get_consensus_block_metadata; by rewrite Hread, Hs).
  assert (with_store (get_decided_value 0) s = (s, Ok None)) as Hv by (unfold get_decided_value; by rewrite Hread, Hs).
  unfold recover_height_job, bind, ret, get_blob_metadata. rewrite Hread.
  destruct (read_blob_metadata 0 (s_store s)) as [[m|]|e|]; cbn [omap_err]; eauto.
  destruct (_ || _ || _); [eauto|]. rewrite Hc, Hv. eauto.
Qed.

Lemma start_archiver_fresh (cf : ArchiverConfig) (key : bytes) (a : Address) (ev : Environment E) (b : Boot E N)
    (enc : bytes) :
  cf_enabled cf = true → cf_max_queue_size cf ≠ 0 → ev_archiver_client ev = Ok tt →
  s_store (bt_state b) = seeded_store enc →
  start_archiver cf key a ev b =
    (mkBoot (set_archiver_enabled true (bt_state b)) (bt_el b) (bt_sent b) (bt_job_faults b),
     Ok (Some (mkArchiverHandle cf key a))).
Proof.
  intros He Hq Hc Hs. unfold start_archiver. rewrite He. unfold spawn_archiver. rewrite Hc.
  rewrite (proj2 (Z.eqb_neq _ _) Hq). cbn [obind]. unfold bind, attempt, bt_st, zoom, modify, lift. cbn.
  destruct (recover_fresh (set_archiver_enabled true (bt_state b)) enc Hs) as (r & -> & [->|[e ->]]); done.
Qed.

(** A node with its archiver set up comes up on empty databases when its client
    can be built and its execution layer is capable. *)
Lemma first_start (ao : AppOptions) (ev : Environment E) (s0 : State E) (key : bytes) (a : Address)
    (g : BlobMetadata) (enc : bytes) (el el' : N) (jf nf : list bool) (cl : ExecutionClient) (cap : EngineCapabilities) :
  prepare cfg_test cfg_test_harness ao ev = Ok (s0, key, a) → s_store s0 = empty_store [] →
  BlobMetadata_genesis (E := string) = Ok g → encode g = Ok enc →
  cf_enabled (archiver_of ao ev) = true → cf_max_queue_size (archiver_of ao ev) ≠ 0 →
  ev_archiver_client ev = Ok tt → execution_client ao ev = Ok cl →
  ea_exchange_capabilities el = (el', Ok cap) → capable cap →
  ∃ b s, start_ ao ev el jf nf = (Some b, Ok (mkStarted (mkNode s el' [] nf [] [] (Some true) true)
      (Some (mkArchiverHandle (archiver_of ao ev) key a)) [] cl)) ∧
    s = set_archiver_enabled true (set_last_blob_sidecar_height 0
          (set_last_blob_sidecar_root (hash_tree_root (to_beacon_header g)) (set_store (seeded_store enc) s0))).
Proof.
  intros Hp Hs Hg Hb He Hq Hac Hcl Hx (H1 & H2 & H3). unfold start. rewrite Hp. unfold boot.
  unfold bind at 1, bt_st at 1, zoom. cbn [bt_state]. rewrite (hydrate_fresh s0 g enc) by done.
  unfold bind at 1, bt_st at 1, zoom. cbn [bt_state]. rewrite (cleanup_fresh _ enc) by done.
  unfold bind at 1. rewrite (start_archiver_fresh _ _ _ _ _ enc) by done. unfold bind at 1, lift. rewrite Hcl.
  unfold bind at 1, bt_client, zoom, map_err, check_capabilities. cbn [bt_el]. unfold bind at 1. rewrite Hx, H1, H2, H3.
  cbn [negb orb]. by do 2 eexists.
Qed.

(** An archiver that can work: a real provider, with an identifier and a token. *)
Definition provider_set (cf : ArchiverConfig) : Prop :=
  str_starts_with "mock://" (cf_provider_url cf) = false ∧ is_blank (cf_provider_url cf) = false ∧
  is_blank (cf_provider_id cf) = false ∧ ∃ tok, cf_bearer_token cf = Some tok ∧ is_blank tok = false.

Lemma strict_provider_set (cf : ArchiverConfig) :
  validate_archiver_config_strict false false cf = Ok tt → cf_enabled cf = true → provider_set cf.
Proof.
  unfold validate_archiver_config_strict. intros Hv He. rewrite He in Hv. cbn [andb orb negb] in Hv.
  apply obind_Ok in Hv as (? & H1%demand_Ok%negb_true_iff & Hv).
  apply obind_Ok in Hv as (? & H2%demand_Ok%negb_true_iff & Hv).
  apply obind_Ok in Hv as (? & H3%demand_Ok%negb_true_iff & H4%demand_Ok%negb_true_iff).
  split_and!; [done..|]. destruct (cf_bearer_token cf) as [tok|]; [by exists tok|]. vm_compute in H4. done.
Qed.

(** C15: a node that starts is fit to take part.  Its archiver, when enabled, has a
    real provider with a token, and a validator has it enabled; its execution
    layer offers the methods consensus needs.  It is the validator of its key, at
    the configured height, with the execution layer's genesis block as head; no
    decision and no decided record of the store it found is lost; and the parent
    root it builds on is that of the latest decided blob metadata. *)
Theorem started_node_sound (ao : AppOptions) (ev : Environment E) (el : N) (jf nf : list bool)
    (b : option (Boot E N)) (sd : Started) :
  start_ ao ev el jf nf = (b, Ok sd) →
  let cf := archiver_of ao ev in
  let s := nd_state (sd_node sd) in
  ∃ key vs st path blk,
    ev_private_key ev = Ok key ∧ ev_genesis ev = Ok vs ∧ ev_store ev = Ok st ∧
    execution_genesis_block_from_file (ev_read_file ev path) = Ok blk ∧
    (s_genesis_validators s = vs ∧ s_signing_key s = key ∧
     s_address s = Address_from_public_key (ed25519_public key) ∧
     s_current_height s = default 1 (ao_start_height ao) ∧ s_latest_block s = Some blk ∧
     s_archiver_enabled s = cf_enabled cf) ∧
    log_same st (s_store s) ∧ decided_kept st (s_store s) ∧ root_of_latest st s ∧
    (cfg_test = false → cfg_test_harness = false → cf_enabled cf = true → provider_set cf) ∧
    (cfg_test_harness = false → is_Some (get_by_address vs (s_address s)) → cf_enabled cf = true) ∧
    ∃ c, ea_exchange_capabilities el = (nd_el (sd_node sd), Ok c) ∧ capable c.
Proof using IV.
  intros Hs cf s. pose proof (started_state _ _ _ _ _ _ _ Hs) as (s0 & key2 & a & s2 & Hp & Ho & Hen & Hrd).
  apply start_run in Hs as (_ & _ & _ & _ & _ & _ & _ & _ & _ & _ & _ & _ & Hc & _ & _).
  apply prepare_run in Hp as (key & vs & st & e & path & blk & Hv & Hva & Hk & _ & Hvs & Hst & _ & -> & Hb & ->).
  destruct Ho as (Hid & [Hlog Hkept] & Hroot & _). cbn in Hid, Hlog, Hkept, Hroot.
  destruct Hrd as (e' & st' & Hs' & [fs Hfs] & _). fold s in Hs'.
  assert (s_store s = with_tx_faults fs (s_store s2)) as Hss.
  { rewrite Hs', Hfs. by destruct (cf_enabled _). }
  exists key, vs, st, path, blk. destruct Hid as (H1 & H2 & H3 & H4 & H5 & _ & H6 & _).
  do 4 (split; [done|]). split; [|split; [|split; [|split; [|split; [|split; [|done]]]]]].
  - rewrite Hs'. by destruct (cf_enabled _).
  - rewrite Hss. destruct Hlog. by split.
  - rewrite Hss. destruct Hkept. by split.
  - destruct Hroot as (h & m & Hh & Hm & Hor). exists h, m. rewrite Hs'. by destruct (cf_enabled _).
  - intros -> ->. by apply strict_provider_set.
  - intros -> Hval. unfold validate_validator_archiver_setting in Hva. apply demand_Ok in Hva.
    assert (s_address s = Address_from_public_key (ed25519_public key)) as Ha.
    { rewrite Hs'. by destruct (cf_enabled _). }
    rewrite Ha in Hval. rewrite bool_decide_eq_true_2 in Hva by done. unfold cf. by destruct (cf_enabled _).
Qed.
End start_proofs.

(** ** Archiving across a restart *)

Section archiving.
Context {E : Type} {B : BlobEngine E} {IV : ImportView E B} {C : Crypto} {T : MerkleTreeLib} {NC : NodeCodecs}
  {GL : ExecutionGenesisLib}.
Context {N W : Type} {EA : EngineApi N} {HT : ArchiveHttp W} {TM : Timer W}.
Context (TL : TimerLaws W TM) (HL : ArchiveHttpLaws W HT TM).
Context (HE : ∀ h, panicless (be_get_for_import (E := E) h)).
Context (cfg_test cfg_test_harness : bool).

Section worker_events.
Context (cf : ArchiverConfig) (signing_key : bytes) (address : Address).
Abbreviation run_worker := (worker_run (E := E) (W := W) cf signing_key address) (only parsing).

Lemma job_turn_goes_on (d : Z) (j : ArchiveJob) (w w' : ArchiverWorker E W) (stop : bool) :
  worker_turn cf signing_key address (JobReceived d j) w = (w', Ok stop) → stop = false.
Proof.
  unfold worker_turn. intros (w0 & w1 & _ & Hr)%bind_run_Ok. apply bind_run_Ok in Hr as (? & w2 & _ & Hr).
  apply bind_run_Ok in Hr as (w3 & w4 & _ & Hr). apply bind_run_Ok in Hr as (? & w5 & _ & Hr).
  apply bind_run_Ok in Hr as (? & w6 & _ & Hr). by injection Hr as _ <-.
Qed.

Lemma worker_run_suffix (evs : list WorkerEvent) : ∀ (w w' : ArchiverWorker E W) (rest : list WorkerEvent),
  run_worker evs w = (w', Ok rest) → ∃ taken, evs = taken ++ rest.
Proof.
  induction evs as [|ev evs IH]; cbn [worker_run]; intros w w' rest Hr; [injection Hr as _ <-; by exists []|].
  apply bind_run_Ok in Hr as (stop & w1 & _ & Hr). destruct stop; [injection Hr as _ <-; by exists [ev]|].
  destruct (IH _ _ _ Hr) as [taken ->]. by exists (ev :: taken).
Qed.

(** Jobs waiting in the channel are all taken before the worker can stop. *)
Lemma worker_takes_jobs (js : list ArchiveJob) (evs : list WorkerEvent) :
  ∀ (w w' : ArchiverWorker E W) (rest : list WorkerEvent),
  run_worker ((JobReceived 0 <$> js) ++ evs) w = (w', Ok rest) → ∃ taken, evs = taken ++ rest.
Proof.
  induction js as [|j js IH]; intros w w' rest Hr; [by eapply worker_run_suffix|].
  cbn [fmap list_fmap app worker_run] in Hr. apply bind_run_Ok in Hr as (stop & w1 & H1 & Hr).
  apply job_turn_goes_on in H1 as ->. by eapply IH.
Qed.
End worker_events.

(** Databases in order at start-up are in order when recovery reads them. *)
Lemma archiver_recoverable (ao : AppOptions) (ev : Environment E) (s0 s2 : State E) (key2 : bytes) (a : Address)
    (st : Store) (eng : E) :
  prepare cfg_test cfg_test_harness ao ev = Ok (s0, key2, a) → in_order s0 s2 →
  ev_store ev = Ok st → tx_faults st = [] → ev_blob_engine ev = Ok eng → import_ready eng →
  records_readable (s_store s2) → recoverable (set_archiver_enabled true s2).
Proof.
  intros (key & vs & st' & e & path & blk & _ & _ & _ & _ & _ & Hst & He & _ & _ & ->)%prepare_run Ho Hev Hf
    Heng Hready Hrr.
  destruct Ho as (_ & _ & _ & Hc & Hen). rewrite Hev in Hst. injection Hst as <-.
  rewrite Heng in He. injection He as <-. split_and!; [by apply Hc|by cbn; rewrite Hen|done].
Qed.

(** C14: a restart loses no archive job.  A node that starts with its archiver,
    on databases in order (no access fails, and the records of its decided
    heights and their blobs decode), hands the worker exactly the jobs that are
    owed: one for each decided height the node proposed whose blobs are not all
    archived, with the blobs that have no receipt.  Whatever the worker then
    receives, and whatever the provider does, each of these jobs has had a signed
    notice delivered for each of its blobs or waits to be tried again within a
    minute. *)
Theorem restart_resumes_archiving (ao : AppOptions) (ev : Environment E) (el : N) (nf : list bool)
    (b : option (Boot E N)) (sd : Started) (ah : ArchiverHandle) (st : Store) (eng : E) :
  start cfg_test cfg_test_harness ao ev el [] nf = (b, Ok sd) → sd_archiver sd = Some ah →
  ev_store ev = Ok st → tx_faults st = [] → ev_blob_engine ev = Ok eng → import_ready eng →
  let s := nd_state (sd_node sd) in
  records_readable (s_store s) →
  (∀ j, j ∈ sd_jobs sd ↔ ∃ h, pending_job s h = Some j) ∧
  ∀ evs (w : ArchiverWorker E W), Forall event_ok evs → wk_retry_queue w = [] →
    ∃ w' rest, worker_run (ah_config ah) (ah_signing_key ah) (ah_address ah)
                 ((JobReceived 0 <$> sd_jobs sd) ++ evs) w = (w', Ok rest) ∧
      ∀ h j, pending_job s h = Some j →
        job_done (ah_config ah) (ah_signing_key ah) (ah_address ah) j w' ∨
        ∃ e, e ∈ wk_retry_queue w' ∧ re_job e = j ∧ re_retry_at e ≤ now_ms (wk_world w') + MAX_RETRY_BACKOFF_MS.
Proof using TL HL HE IV.
  intros Hs Hah Hev Hf Heng Hready s Hrr.
  apply start_run in Hs as (s0 & key2 & a & b2 & b3 & Hp & Ho & _ & Hse & Hjf & Ha & _ & _ & Hst & Hj).
  rewrite Hah in Ha. apply start_archiver_run in Ha as [_ Ha]. destruct (cf_enabled _); [|by destruct Ha].
  destruct Ha as (_ & _ & Hrd & r & Hrec & Hsent). unfold s. rewrite Hst, Hj. rewrite Hse, Hjf in Hsent.
  set (s1 := set_archiver_enabled true (bt_state b2)) in *.
  assert (recoverable s1) as Hrs.
  { apply (archiver_recoverable ao ev s0 (bt_state b2) key2 a st eng); try done.
    unfold s in Hrr. rewrite Hst in Hrr. destruct Hrd as (e' & st1 & Hb3 & [fs ->] & _).
    rewrite Hb3 in Hrr. exact Hrr. }
  destruct (recover_total s1 Hrs) as (s1' & jobs & Hr). rewrite Hr in Hrec. cbn in Hrec. subst r.
  destruct Hsent as (sent & rest & -> & -> & Hrest). rewrite (Hrest eq_refl), app_nil_r in Hr.
  assert (∀ j, j ∈ sent ↔ ∃ h, pending_job (bt_state b3) h = Some j) as Hjobs.
  { intros j. rewrite (recover_complete _ _ _ _ Hr). split; intros [h Hh]; exists h.
    - by rewrite (reading_pending _ _ _ Hrd).
    - by rewrite <-(reading_pending _ _ _ Hrd). }
  split; [exact Hjobs|]. intros evs w Hevs Hq.
  destruct (worker_run_run (ah_config ah) (ah_signing_key ah) (ah_address ah) TL HL HE
    ((JobReceived 0 <$> sent) ++ evs) w) as (w' & rest' & taken & Hrun & Heq & _ & Hok & Hacc & _).
  { apply Forall_app. split; [|done]. apply Forall_fmap, Forall_forall. intros j _. done. }
  { unfold queue_ok. by rewrite Hq. }
  exists w', rest'. split; [done|]. intros h j Hpj.
  apply worker_takes_jobs in Hrun as [taken' ->]. rewrite app_assoc in Heq. apply app_inv_tail in Heq as <-.
  destruct (Hacc j) as [?|Hin]; [|by left|].
  - apply elem_of_app. left. apply list_elem_of_omap. exists (JobReceived 0 j). split; [|done].
    apply elem_of_app. left. apply list_elem_of_fmap_2, Hjobs. by exists h.
  - right. apply list_elem_of_fmap in Hin as (e & -> & He). exists e. split_and!; [done..|].
    unfold queue_ok in Hok. rewrite Forall_forall in Hok. by apply Hok.
Qed.
End archiving.

(** ** Consensus across a restart *)

Section resuming.
Context {E : Type} {B : BlobEngine E} {IV : ImportView E B} {C : Crypto} {T : MerkleTreeLib} {NC : NodeCodecs}
  {TH : TreeHashLib} {SZ : PayloadSsz} {BC : BlockConversion} {SA : StreamApi} {KP : Codec SyncedValuePackage}
  {GL : ExecutionGenesisLib}.
Context {N : Type} {EA : EngineApi N} {TM : Timer N}.
Context (payload_as_ssz : ExecutionPayloadV3 → bytes) (ec : ExecutionClient) (cfg : ExecutionRetryConfig).
Context (cfg_test cfg_test_harness : bool).

Lemma started_log (ao : AppOptions) (ev : Environment E) (el : N) (jf nf : list bool) (b : option (Boot E N))
    (sd : Started) (st : Store) :
  start cfg_test cfg_test_harness ao ev el jf nf = (b, Ok sd) → ev_store ev = Ok st →
  log_same st (s_store (nd_state (sd_node sd))).
Proof using IV.
  intros (s0 & key2 & a & s2 & Hp & (_ & [Hlog _] & _) & _ & Hrd)%started_state Hst.
  apply prepare_run in Hp as (key & vs & st' & e & path & blk & _ & _ & _ & _ & _ & Hst' & _ & _ & _ & ->).
  rewrite Hst in Hst'. injection Hst' as <-. etrans; [exact Hlog|].
  destruct Hrd as (e' & st' & -> & [fs ->] & _). by destruct (cf_enabled _).
Qed.

Lemma started_silent (ao : AppOptions) (ev : Environment E) (el : N) (jf nf : list bool) (b : option (Boot E N))
    (sd : Started) :
  start cfg_test cfg_test_harness ao ev el jf nf = (b, Ok sd) → nd_replies (sd_node sd) = [].
Proof.
  unfold start. destruct (prepare _ _ ao ev) as [[[s0 key2] a]|e|]; [|done..].
  destruct (boot _ ao ev key2 a _) as [b' [hc|e|]]; [|done..]. by intros [= _ <-].
Qed.

(** C13: after a stop, consensus resumes above everything decided.  Whatever a
    process did, the next one, started on the decisions it left and with a store
    that can be read, asks consensus for the first height above them.  Nothing
    that was decided before or during the earlier run is missing, so no decided
    height is run again: every start the earlier run asked for answered a
    decision that is in the store, at a height below the one asked for then and
    below the one asked for now. *)
Theorem restarted_node_resumes (evs : list Event) (n n1 m' : Node E N) (r : outcome string unit)
    (ao : AppOptions) (ev : Environment E) (el : N) (jf nf : list bool) (b : option (Boot E N)) (sd : Started)
    (st : Store) :
  run payload_as_ssz ec cfg evs n = (n1, r) →
  ev_store ev = Ok st → log_same (s_store (nd_state n1)) st →
  start cfg_test cfg_test_harness ao ev el jf nf = (b, Ok sd) →
  tx_faults (s_store (nd_state (sd_node sd))) = [] →
  (∀ k, is_Some (log_of st !! k) → 0 ≤ k < u64_max) →
  handle_msg payload_as_ssz (sd_client sd) cfg ConsensusReady true (sd_node sd) = (m', Ok tt) →
  ∃ h vs rs, nd_replies m' = [RStartHeight h vs] ∧ nd_replies n1 = nd_replies n ++ rs ∧
    (h = 1 ∧ log_of st = ∅ ∨ is_Some (log_of st !! (h - 1))) ∧
    (∀ k, is_Some (log_of st !! k) → k < h) ∧
    (∀ k, is_Some (log_of (s_store (nd_state n)) !! k) → is_Some (log_of st !! k)) ∧
    (∀ k vs, RNext (NextStart k vs) ∈ rs →
       ∃ cert o, EvConsensus (Some (Decided cert, o)) ∈ evs ∧ is_Some (log_of st !! cc_height cert) ∧
         cc_height cert < h ∧ cc_height cert < k).
Proof using IV.
  intros Hrun Hst Hsame Hs Hf Hb Hready. pose proof (started_log _ _ _ _ _ _ _ _ Hs Hst) as Hlog.
  rewrite <-(log_same_of _ _ Hlog) in *.
  destruct (restart_resumes_after_log payload_as_ssz ec cfg (sd_client sd) evs n n1 (sd_node sd) m' r)
    as (h & vs & rs & Hr & H); [done|by etrans|done..|].
  exists h, vs, rs. split; [|exact H]. by rewrite Hr, (started_silent _ _ _ _ _ _ _ Hs).
Qed.
End resuming.

(** ** The channels of recovery

    While [start] sends the recovered jobs, the worker already processes them:
    a step relation over the job channel, whose capacity is the queue size of the
    configuration, and the notice channel, whose receiver is only polled by the
    application loop, which [start] has not spawned yet.  A send on a full channel
    waits. *)
Module Recovery.

Definition NOTICE_CAPACITY : nat := 100.

Record Channels := mkChannels {
  ch_to_send : list ArchiveJob;                       (* the loop of [start] *)
  ch_queue : list ArchiveJob;                         (* [job_tx] *)
  ch_current : option (ArchiveJob * list Z);          (* the worker, with the blobs left *)
  ch_notices : nat;                                   (* [notice_tx] *)
  ch_retry : list ArchiveJob }.

Section steps.
Context (capacity : nat).
(** Whether every attempt at a job goes through: the engine has its blobs and the
    provider takes every upload.  When not, an attempt may fail at any of the
    job's blobs, with the notices of the earlier ones sent, and the job waits to
    be tried again. *)
Context (jobs_succeed : bool).

Inductive chan_step : Channels → Channels → Prop :=
| step_send j js q cur n rt :
    (length q < capacity)%nat →
    chan_step (mkChannels (j :: js) q cur n rt) (mkChannels js (q ++ [j]) cur n rt)
| step_recv js j q n rt :
    chan_step (mkChannels js (j :: q) None n rt) (mkChannels js q (Some (j, aj_blob_indices j)) n rt)
| step_notice js q j i l n rt :
    (n < NOTICE_CAPACITY)%nat →
    chan_step (mkChannels js q (Some (j, i :: l)) n rt) (mkChannels js q (Some (j, l)) (S n) rt)
| step_processed js q j n rt :
    chan_step (mkChannels js q (Some (j, [])) n rt) (mkChannels js q None n rt)
| step_failed js q j i l n rt :
    jobs_succeed = false →
    chan_step (mkChannels js q (Some (j, i :: l)) n rt) (mkChannels js q None n (rt ++ [j]))
| step_retry js q j n rt :
    chan_step (mkChannels js q None n (j :: rt)) (mkChannels js q (Some (j, aj_blob_indices j)) n rt).

Definition initial (jobs : list ArchiveJob) : Channels := mkChannels jobs [] None 0 [].
Definition reachable (jobs : list ArchiveJob) : Channels → Prop := rtc chan_step (initial jobs).

Lemma reachable_ind (P : Channels → Prop) (jobs : list ArchiveJob) (c : Channels) :
  P (initial jobs) → (∀ c c', P c → chan_step c c' → P c') → reachable jobs c → P c.
Proof. intros H0 HS Hr. revert H0. induction Hr; eauto. Qed.

Lemma queue_at_most_sent (jobs : list ArchiveJob) (c : Channels) :
  reachable jobs c → (length (ch_queue c) + length (ch_to_send c) ≤ length jobs)%nat.
Proof.
  apply (reachable_ind (λ c, length (ch_queue c) + length (ch_to_send c) ≤ length jobs)%nat); [done|].
  clear c. intros c c' IH Hs.
  destruct Hs; cbn in *; rewrite ?length_app; cbn; lia.
Qed.

Definition delivered (cur : option (ArchiveJob * list Z)) : nat :=
  match cur with Some (j, l) => length (aj_blob_indices j) - length l | None => 0 end.

(** When every job goes through, each one that was finished left a notice
    nobody has received. *)
Record stalled (jobs : list ArchiveJob) (c : Channels) (finished : nat) : Prop := {
  st_account : (length jobs = finished + length (option_list (ch_current c)) + length (ch_queue c)
                              + length (ch_to_send c))%nat;
  st_notices : (finished + delivered (ch_current c) ≤ ch_notices c ≤ NOTICE_CAPACITY)%nat;
  st_queue : (length (ch_queue c) ≤ capacity)%nat;
  st_blobs : Forall (λ j, aj_blob_indices j ≠ []) (ch_to_send c ++ ch_queue c ++ (option_list (ch_current c)).*1);
  st_left : ∀ j l, ch_current c = Some (j, l) → (length l ≤ length (aj_blob_indices j))%nat;
  st_retry : ch_retry c = [] }.

Lemma reachable_stalled (jobs : list ArchiveJob) (c : Channels) :
  jobs_succeed = true → Forall (λ j, aj_blob_indices j ≠ []) jobs → reachable jobs c → ∃ k, stalled jobs c k.
Proof.
  intros Hup Hj. apply (reachable_ind (λ c, ∃ k, stalled jobs c k)); clear c.
  { exists 0%nat. split; cbn; try done; [lia|lia|]. by rewrite app_nil_r. }
  intros c c' [k [H1 H2 H3 H4 H5 H6]] Hs. destruct Hs; cbn in *; try done.
  - exists k. split; cbn; try done; [rewrite length_app; cbn; lia|rewrite length_app; cbn; lia|].
    apply Forall_cons in H4 as [Hx H4]. apply Forall_app in H4 as [Ha Hb]. apply Forall_app in Hb as [Hb Hc].
    rewrite !Forall_app, Forall_singleton. done.
  - exists k. split; cbn; try done; [lia|lia|lia| |by intros ? ? [= <- <-]].
    rewrite app_nil_r in H4. apply Forall_app in H4 as [Ha Hb]. apply Forall_cons in Hb as [Hx Hb].
    rewrite !Forall_app, Forall_singleton. done.
  - exists k. pose proof (H5 _ _ eq_refl). cbn in *.
    split; cbn; try done; [lia|]. intros ? ? [= <- <-]. lia.
  - exists (S k). rewrite !Forall_app, Forall_singleton in H4. destruct H4 as (Ha & Hb & Hc).
    destruct (aj_blob_indices j) eqn:Hi; [done|]. cbn in *.
    split; cbn; try done; [lia|lia|]. by rewrite app_nil_r, Forall_app.
  - congruence.
Qed.
End steps.

(** C16: whether start-up gets past the recovery of archive jobs.  When the
    recovered jobs fit the worker's channel, [start] can always send the next one.
    When there are more than the channel, the notices nobody receives yet and the
    job in hand can absorb, and every job goes through, its blobs being there and
    the provider taking every upload, [start] never gets to send the last one: it
    waits for the worker, the worker for room in the notice channel, and that
    channel for the loop [start] has yet to spawn. *)
Theorem recovery_needs_room (capacity : nat) (jobs : list ArchiveJob) :
  Forall (λ j, aj_blob_indices j ≠ []) jobs →
  ((length jobs ≤ capacity)%nat → ∀ jobs_succeed c, reachable capacity jobs_succeed jobs c → ch_to_send c ≠ [] →
     ∃ c', chan_step capacity jobs_succeed c c' ∧ (length (ch_to_send c') < length (ch_to_send c))%nat) ∧
  ((capacity + NOTICE_CAPACITY + 1 < length jobs)%nat → ∀ c, reachable capacity true jobs c → ch_to_send c ≠ []).
Proof.
  intros Hj. split.
  - intros Hle up c Hr%queue_at_most_sent Hne. destruct c as [[|j js] q cur n rt]; [done|]. cbn in *.
    eexists. split; [apply step_send; lia|]. cbn. lia.
  - intros Hlt c Hr He. destruct (reachable_stalled capacity true jobs c eq_refl Hj Hr) as [k [H1 H2 H3 _ _ _]].
    rewrite He in H1. unfold NOTICE_CAPACITY in *.
    assert (length (option_list (ch_current c)) ≤ 1)%nat by (destruct (ch_current c); cbn; lia). cbn in H1. lia.
Qed.
End Recovery.

(** The jobs of [recover_pending_archive_jobs] have blobs. *)
Lemma pending_job_blobs {E : Type} {B : BlobEngine E} {IV : ImportView E B} {C : Crypto} {T : MerkleTreeLib}
    {NC : NodeCodecs} (s : State E) (h : Height) (j : ArchiveJob) :
  pending_job s h = Some j → aj_blob_indices j ≠ [].
Proof.
  unfold pending_job. destruct (read_blob_metadata h (s_store s)) as [[m|]|e|]; [|done..].
  destruct (_ || _); [done|]. destruct (decided_round _ _) as [r|]; [|done].
  destruct (unarchived s h) as [|sc todo]; [done|]. by intros [= <-].
Qed.

(** ** Concrete inputs *)

Module Demo.
Definition demo_options : AppOptions :=
  mkOptions (mkConfig "node" (mkArchiverConfig true "https://s3" None "s3" (Some "token"%string) 3 1000 10)) (Some 9)
    (Some "genesis.json"%string) None (Some "/ipc"%string) None.
#[local] Instance demo_genesis_lib : ExecutionGenesisLib := {|
  Alloc := unit;
  parse_execution_genesis _ := Some (mkExecutionGenesis (mkChainConfig (Some 0) (Some 0) (Some 0) (Some 0)) 0 0 [] 30
    0 B256_ZERO (zeros 20) tt None None None None None);
  state_root_ref_unhashed _ := B256_ZERO; hash_slow _ := replicate 32 5;
  INITIAL_BASE_FEE := 1000000000; EMPTY_WITHDRAWALS := B256_ZERO; EMPTY_REQUESTS_HASH := B256_ZERO |}.
Definition demo_environment {E : Type} (vs : ValidatorSet) (st : Store) (e : E) : Environment E :=
  mkEnvironment E (λ _, None) None (λ _, Some [1]) (Ok (zeros 32)) (Ok (zeros 32)) (Ok vs) (Ok tt) (Ok st) (Ok e)
    (Ok tt) (Ok tt).

Section archiving_demo.
#[local] Existing Instances null_crypto demo_merkle demo_notice_prost demo_timer demo_api demo_http shelf_engine.
#[local] Instance shelf_view : ImportView unit shelf_engine.
Proof.
  refine {| imports _ _ := [demo_sidecar]; import_ready _ := True |}.
  - intros h e e' r [= <- <-]. split; [done|]. by intros scs [= <-].
  - intros h e _. by eexists _, _.
Defined.

Definition demo_block_metadata : ConsensusBlockMetadata :=
  mkConsensusMetadata 7 (RSome 0) (zeros 20) 0 B256_ZERO B256_ZERO 0 0.
#[local] Instance disk_codecs : NodeCodecs := {|
  nc_value := demo_value_codec; nc_proposed := demo_proposed_codec;
  nc_certificate := demo_certificate_codec; nc_consensus := constant_codec demo_block_metadata;
  nc_metadata := @nc_metadata demo_codecs; nc_record := @nc_record demo_codecs;
  nc_payload := demo_payload_prost; nc_notice_body := demo_notice_prost |}.
Definition demo_set : ValidatorSet :=
  mkValidatorSet [mkValidator (Address_from_public_key (zeros 32)) (zeros 32) 1].
(** Height 7, which the node proposed, has a blob without a receipt. *)
Definition demo_disk : Store :=
  with_consensus_block_metadata {[7 := [0]]}
    (with_blob_metadata_meta {[LATEST_HEIGHT := be_bytes 8 7]} (demo_store_with demo_half_archived)).
Definition demo_started : option (Boot unit Z) * outcome string Started :=
  start false false demo_options (demo_environment demo_set demo_disk tt) 0 [] [].

Lemma started_node_sound_witness :
  ∃ sd, demo_started.2 = Ok sd ∧ provider_set (cfg_archiver (ao_config demo_options)) ∧
    log_same demo_disk (s_store (nd_state (sd_node sd))) ∧ s_current_height (nd_state (sd_node sd)) = 9 ∧
    s_archiver_enabled (nd_state (sd_node sd)) = true.
Proof.
  destruct demo_started as [b r] eqn:Hs. destruct r as [sd|e|]; [|exfalso; vm_compute in Hs; discriminate..].
  exists sd. split; [reflexivity|].
  destruct (started_node_sound false false demo_options (demo_environment demo_set demo_disk tt) 0 [] [] b sd Hs)
    as (key & vs & st & path & blk & _ & _ & Hst & _ & (_ & _ & _ & Hh & _ & Ha) & Hlog & _ & _ & Hp & _ & _).
  split; [apply Hp; reflexivity|]. injection Hst as ->. split; [exact Hlog|]. split; [exact Hh|exact Ha].
Defined.

Definition demo_pending : ArchiveJob :=
  mkJob 7 (RSome 0) [1] [replicate 48 2] [blob_keccak demo_sidecar] [versioned_hash (replicate 48 2)].

Lemma restart_resumes_archiving_witness :
  ∃ sd ah w' rest, demo_started.2 = Ok sd ∧ sd_archiver sd = Some ah ∧ sd_jobs sd = [demo_pending] ∧
    worker_run (ah_config ah) (ah_signing_key ah) (ah_address ah) [JobReceived 0 demo_pending; RetryElapsed]
      (demo_worker 0) = (w', Ok rest) ∧
    (job_done (ah_config ah) (ah_signing_key ah) (ah_address ah) demo_pending w' ∨
     ∃ e, e ∈ wk_retry_queue w' ∧ re_job e = demo_pending).
Proof.
  destruct demo_started as [b r] eqn:Hs. destruct r as [sd|e|]; [|exfalso; vm_compute in Hs; discriminate..].
  assert (sd_jobs sd = [demo_pending]) as Hj by (vm_compute in Hs; injection Hs as _ <-; vm_compute; reflexivity).
  destruct (sd_archiver sd) as [ah|] eqn:Hah; [|exfalso; vm_compute in Hs; injection Hs as _ <-; discriminate].
  destruct (restart_resumes_archiving demo_timer_laws demo_http_laws shelf_panicless false false demo_options
    (demo_environment demo_set demo_disk tt) 0 [] b sd ah demo_disk tt Hs Hah eq_refl eq_refl eq_refl)
    as [Hjobs Hw].
  { exact I. }
  { vm_compute in Hs. injection Hs as _ <-. cbn [nd_state sd_node s_store]. intros h [x Hx].
    change (({[7 := [0]]} : HTable) !! h = Some x) in Hx.
    apply lookup_singleton_Some in Hx as [<- _]. vm_compute. auto. }
  assert (∃ h, pending_job (nd_state (sd_node sd)) h = Some demo_pending) as [h Hh].
  { apply Hjobs. rewrite Hj. left. }
  destruct (Hw [RetryElapsed] (demo_worker 0)) as (w' & rest & Hrun & Hd); [repeat constructor|reflexivity|].
  rewrite Hj in Hrun. exists sd, ah, w', rest. repeat (split; [reflexivity || exact Hj || exact Hah || exact Hrun|]).
  destruct (Hd h demo_pending Hh) as [H|(e & He & Hre & _)]; [left; exact H|right; exists e; split; assumption].
Defined.
End archiving_demo.

Section resuming_demo.
#[local] Existing Instances demo_rocksdb_engine null_crypto demo_merkle commit_codecs demo_tree_hash
  demo_stream_api demo_api demo_timer decided_ssz blobless_conversion demo_packages.
#[local] Instance demo_view : ImportView BlobEngineImpl demo_rocksdb_engine :=
  @rocksdb_import_view demo_kzg demo_sidecar_codec.

(** Started on the store of the run that decided height 8. *)
Definition demo_restarted : option (Boot BlobEngineImpl Z) * outcome string Started :=
  start false false demo_options
    (demo_environment demo_validators (s_store (nd_state demo_run.1)) (s_blob_engine (nd_state demo_run.1)))
    400 [] [].

Lemma restarted_node_resumes_witness :
  ∃ sd vs, demo_restarted.2 = Ok sd ∧
    nd_replies (handle_msg (λ _, [1]) (sd_client sd) ExecutionRetryConfig_default ConsensusReady true (sd_node sd)).1
    = [RStartHeight 9 vs].
Proof.
  destruct demo_restarted as [b r] eqn:Hs. destruct r as [sd|e|]; [|exfalso; vm_compute in Hs; discriminate..].
  destruct (handle_msg (λ _, [1]) (sd_client sd) ExecutionRetryConfig_default ConsensusReady true (sd_node sd))
    as [m' r'] eqn:Hm.
  assert (r' = Ok tt ∧ tx_faults (s_store (nd_state (sd_node sd))) = []) as [-> Hf].
  { vm_compute in Hs. injection Hs as _ <-. split; [|reflexivity]. vm_compute in Hm. injection Hm as _ <-. reflexivity. }
  destruct (restarted_node_resumes (λ _, [1]) demo_client ExecutionRetryConfig_default false false demo_events
    demo_node demo_run.1 m' demo_run.2 demo_options
    (demo_environment demo_validators (s_store (nd_state demo_run.1)) (s_blob_engine (nd_state demo_run.1)))
    400 [] [] b sd (s_store (nd_state demo_run.1)) (surjective_pairing _) eq_refl (reflexivity _) Hs Hf)
    as (h & vs & rs & Hr & _ & Hh & _); [intros k ->%demo_log_only; unfold u64_max; lia|exact Hm|].
  exists sd, vs. split; [reflexivity|]. destruct Hh as [[_ He]|Hh%demo_log_only].
  - assert (log_of (s_store (nd_state demo_run.1)) !! 8 = Some ([0], Some [0])) as H8 by (vm_compute; reflexivity).
    rewrite He in H8. discriminate.
  - assert (h = 9) as -> by lia. rewrite Hm. exact Hr.
Defined.
End resuming_demo.

(** A channel of two jobs: a single job goes through, two hundred do not. *)
Lemma recovery_needs_room_witness :
  (∃ c', Recovery.chan_step 2 true (Recovery.initial [demo_job]) c') ∧
  ∀ c, Recovery.reachable 2 true (replicate 200 demo_job) c → Recovery.ch_to_send c ≠ [].
Proof.
  split.
  - destruct (Recovery.recovery_needs_room 2 [demo_job]) as [H _]; [by repeat constructor|].
    destruct (H ltac:(simpl; lia) true (Recovery.initial [demo_job]) (rtc_refl _ _) ltac:(discriminate)) as (c' & Hc & _).
    exists c'. exact Hc.
  - apply (Recovery.recovery_needs_room 2 (replicate 200 demo_job)).
    + apply Forall_replicate. discriminate.
    + rewrite length_replicate. unfold Recovery.NOTICE_CAPACITY. lia.
Defined.
End Demo.
