(* ===== verification/Genesis.v ===== *)
(** * The execution genesis builder ([crates/genesis/src/lib.rs])

    The genesis file of the execution layer: built from an allocation, adjusted
    as JSON and written to disk.  The file is what the nodes read back at
    start-up ([Startup.v]), so the theorem here is about both ends: every genesis
    this builder makes is accepted there, and gives a block 0 with all the forks
    the node relies on active. *)
From S2P Require Import Prelude Text Files Types Startup.
Open Scope outcome_scope.

(** ** Genesis *)

(** [alloy_genesis::ChainConfig]: the fields the builder sets, the others keep
    their defaults. *)
Record FullChainConfig := mkFullChainConfig {
  fc_chain_id : Z; fc_homestead_block : option Z; fc_eip150_block : option Z; fc_eip155_block : option Z;
  fc_eip158_block : option Z; fc_byzantium_block : option Z; fc_constantinople_block : option Z;
  fc_petersburg_block : option Z; fc_istanbul_block : option Z; fc_berlin_block : option Z;
  fc_london_block : option Z; fc_shanghai_time : option Z; fc_cancun_time : option Z;
  fc_prague_time : option Z; fc_merge_netsplit_block : option Z;
  fc_terminal_total_difficulty : option Z; fc_terminal_total_difficulty_passed : bool }.

(** What the node reads of it. *)
Definition read_config (c : FullChainConfig) : ChainConfig :=
  mkChainConfig (fc_london_block c) (fc_shanghai_time c) (fc_cancun_time c) (fc_prague_time c).

(** An account has a balance and nothing else. *)
Abbreviation GenesisAlloc := (gmap Address Z) (only parsing).
Record Genesis := mkGenesis {
  gn_config : FullChainConfig; gn_nonce : Z; gn_timestamp : Z; gn_extra_data : bytes; gn_gas_limit : Z;
  gn_difficulty : Z; gn_mix_hash : B256; gn_coinbase : Address; gn_alloc : GenesisAlloc;
  gn_base_fee_per_gas : option Z; gn_excess_blob_gas : option Z; gn_blob_gas_used : option Z;
  gn_number : option Z; gn_parent_hash : option B256 }.

(** [b"Load Network Dev"] *)
Definition GENESIS_EXTRA_DATA : bytes := [76; 111; 97; 100; 32; 78; 101; 116; 119; 111; 114; 107; 32; 68; 101; 118].

(** [now] is the system's time in seconds, [None] before the epoch. *)
Definition build_genesis_from_alloc (now : option Z) (chain_id : Z) (alloc : GenesisAlloc)
    : outcome string Genesis :=
  match now with
  | None => Panic                                  (* expect("Time went backwards") *)
  | Some now =>
    Ok {| gn_config := {|
            fc_chain_id := chain_id; fc_homestead_block := Some 0; fc_eip150_block := Some 0;
            fc_eip155_block := Some 0; fc_eip158_block := Some 0; fc_byzantium_block := Some 0;
            fc_constantinople_block := Some 0; fc_petersburg_block := Some 0; fc_istanbul_block := Some 0;
            fc_berlin_block := Some 0; fc_london_block := Some 0; fc_shanghai_time := Some 0;
            fc_cancun_time := Some 0; fc_prague_time := Some 0; fc_merge_netsplit_block := Some 0;
            fc_terminal_total_difficulty := Some 0; fc_terminal_total_difficulty_passed := true |};
          gn_nonce := 0; gn_timestamp := now; gn_extra_data := GENESIS_EXTRA_DATA;
          gn_gas_limit := LOAD_EXECUTION_GAS_LIMIT; gn_difficulty := 0; gn_mix_hash := B256_ZERO;
          gn_coinbase := zeros 20; gn_alloc := alloc; gn_base_fee_per_gas := Some 7;
          gn_excess_blob_gas := None; gn_blob_gas_used := None; gn_number := Some 0;
          gn_parent_hash := Some B256_ZERO |}
  end.

Definition build_genesis := build_genesis_from_alloc.

Definition TEST_MNEMONICS : list string := [
  "test test test test test test test test test test test junk";
  "abandon abandon abandon abandon abandon abandon abandon abandon abandon abandon abandon about";
  "zero zero zero zero zero zero zero zero zero zero zero zoo" ]%string.

(** The wallet and number parsers of [alloy]. *)
Class WalletLib := {
  mnemonic_address : string → option Address;
  Address_from_str : string → option Address;
  U256_from_str : string → option Z }.

Section builder.
Context `{WalletLib} (now : option Z).

(** The address of the signer; [expect] panics on a phrase that is no mnemonic. *)
Definition make_signer (mnemonic : string) : outcome string Address :=
  match mnemonic_address mnemonic with Some a => Ok a | None => Panic end.
Definition make_signers : outcome string (list Address) := omapM make_signer TEST_MNEMONICS.

Definition build_dev_genesis (chain_id : Z) : outcome string Genesis :=
  let? signer_addresses := make_signers in
  let? balance := match U256_from_str "15000000000000000000000" with Some b => Ok b | None => Panic end in
  build_genesis_from_alloc now chain_id
    (foldl (λ alloc addr, <[addr := balance]> alloc) ∅ signer_addresses).

(** Later entries of an address replace earlier ones. *)
Fixpoint alloc_of_strings (map : GenesisAlloc) (alloc : list (string * string)) : outcome string GenesisAlloc :=
  match alloc with
  | [] => Ok map
  | (address, balance_wei) :: alloc =>
    let? addr := ok_or (Address_from_str address) "invalid address"%string in
    let? balance := ok_or (U256_from_str balance_wei) "invalid balance"%string in
    alloc_of_strings (<[addr := balance]> map) alloc
  end.
Definition build_genesis_from_alloc_strings (chain_id : Z) (alloc : list (string * string))
    : outcome string Genesis :=
  let? map := alloc_of_strings ∅ alloc in
  build_genesis_from_alloc now chain_id map.
End builder.

(** ** The file *)

(** [serde_json::Value], of which an object's members are changed by name. *)
Inductive Json :=
| JString (s : string)
| JBool (b : bool)
| JNumber (z : Z)
| JArray (values : list Json)
| JNull
| JObject (members : list (string * Json)).

Fixpoint member (key : string) (ms : list (string * Json)) : option Json :=
  match ms with
  | [] => None
  | m :: ms => if decide (m.1 = key) then Some m.2 else member key ms
  end.
Definition json_get (key : string) (j : Json) : option Json :=
  match j with JObject ms => member key ms | _ => None end.
Definition json_remove (key : string) (j : Json) : Json :=
  match j with JObject ms => JObject (List.filter (λ m, negb (bool_decide (m.1 = key))) ms) | _ => j end.
(** [Map::insert] replaces the value of a key that is present. *)
Fixpoint members_insert (key : string) (v : Json) (ms : list (string * Json)) : list (string * Json) :=
  match ms with
  | [] => [(key, v)]
  | m :: ms => if decide (m.1 = key) then (key, v) :: ms else m :: members_insert key v ms
  end.
Definition json_insert (key : string) (v : Json) (j : Json) : Json :=
  match j with JObject ms => JObject (members_insert key v ms) | _ => j end.

Definition ZERO_HASH_TEXT : string := hex0x (zeros 32).

(** The changes made to the JSON of a genesis before it is written. *)
Definition adjust_genesis (value : Json) : Json :=
  let value := json_insert "parentHash" (JString ZERO_HASH_TEXT)
                 (json_insert "gasUsed" (JString "0x0") value) in
  match json_get "config" value with
  | Some config =>
    match json_get "daoForkSupport" config with
    | Some (JBool false) => json_insert "config" (json_remove "daoForkSupport" config) value
    | _ => value
    end
  | None => value
  end.

(** The JSON of a genesis in [alloy] and [serde_json], and its text. *)
Class GenesisJson (L : ExecutionGenesisLib) := {
  genesis_to_value : Genesis → Json;
  value_to_text : Json → bytes;
  alloc_read : GenesisAlloc → Alloc }.

(** What the node sees of a genesis. *)
Definition node_view {L : ExecutionGenesisLib} {J : GenesisJson L} (g : Genesis) : ExecutionGenesis Alloc :=
  mkExecutionGenesis (read_config (gn_config g)) (gn_nonce g) (gn_timestamp g) (gn_extra_data g)
    (gn_gas_limit g) (gn_difficulty g) (gn_mix_hash g) (gn_coinbase g) (alloc_read (gn_alloc g))
    (gn_base_fee_per_gas g) (gn_excess_blob_gas g) (gn_blob_gas_used g) (gn_number g) (gn_parent_hash g).

(** The reader goes by the names of members: a genesis has no member [gasUsed],
    and a missing [daoForkSupport] is false. *)
Definition reads_same (j j' : Json) : Prop :=
  (∀ key, key ≠ "gasUsed"%string → key ≠ "config"%string → json_get key j = json_get key j') ∧
  match json_get "config" j, json_get "config" j' with
  | Some c, Some c' =>
    (∀ key, key ≠ "daoForkSupport"%string → json_get key c = json_get key c') ∧
    default (JBool false) (json_get "daoForkSupport" c) = default (JBool false) (json_get "daoForkSupport" c')
  | None, None => True
  | _, _ => False
  end.

Class GenesisJsonLaws (L : ExecutionGenesisLib) (J : GenesisJson L) : Prop := {
  genesis_is_object : ∀ g, ∃ ms, genesis_to_value g = JObject ms;
  genesis_parent_member : ∀ g, gn_parent_hash g = Some B256_ZERO →
    json_get "parentHash" (genesis_to_value g) = Some (JString ZERO_HASH_TEXT);
  genesis_roundtrip : ∀ g, parse_execution_genesis (value_to_text (genesis_to_value g)) = Some (node_view g);
  parse_by_name : ∀ j j', reads_same j j' →
    parse_execution_genesis (value_to_text j) = parse_execution_genesis (value_to_text j') }.

(** ** Members *)

Lemma members_insert_get (key k : string) (v : Json) (ms : list (string * Json)) :
  json_get k (JObject (members_insert key v ms)) =
    if decide (k = key) then Some v else json_get k (JObject ms).
Proof.
  induction ms as [|[k' v'] ms IH]; simpl in *; repeat (case_decide; simpl in *); by simplify_eq.
Qed.

Lemma json_remove_get (key k : string) (j : Json) :
  json_get k (json_remove key j) = if decide (k = key) then None else json_get k j.
Proof.
  destruct j as [| | | | |ms]; simpl; try by case_decide.
  induction ms as [|[k' v'] ms IH]; simpl; [by case_decide|].
  case_bool_decide as Hk; simpl; rewrite IH; repeat (case_decide; simpl in *); by simplify_eq.
Qed.

(** The reader does not notice the adjustments when the genesis has a zero
    parent. *)
Lemma adjust_reads_same (ms : list (string * Json)) :
  json_get "parentHash" (JObject ms) = Some (JString ZERO_HASH_TEXT) →
  reads_same (JObject ms) (adjust_genesis (JObject ms)).
Proof.
  intros Hp. unfold adjust_genesis. cbn [json_insert].
  set (ms1 := members_insert "parentHash" _ _).
  assert (∀ k, k ≠ "gasUsed"%string → json_get k (JObject ms1) = json_get k (JObject ms)) as Hms.
  { intros k Hk. unfold ms1. rewrite members_insert_get. destruct (decide (k = "parentHash"%string)) as [->|Hne]; [done|].
    rewrite members_insert_get. by rewrite decide_False. }
  pose proof (Hms "config"%string) as Hc. rewrite Hc by done.
  destruct (json_get "config" (JObject ms)) as [c|] eqn:Hcfg.
  2: { split; [|by rewrite Hcfg, Hc]. intros k Hk _. by rewrite Hms. }
  destruct (json_get "daoForkSupport" c) as [[]|] eqn:Hd;
    try (split; [intros k Hk _; by rewrite Hms|by rewrite Hcfg, Hc by done]).
  destruct b; [split; [intros k Hk _; by rewrite Hms|by rewrite Hcfg, Hc by done]|].
  split; cbn [json_insert].
  - intros k Hk Hkc. rewrite members_insert_get, decide_False, Hms by done. done.
  - rewrite Hcfg, members_insert_get, decide_True by done. split.
    + intros k Hk. by rewrite json_remove_get, decide_False.
    + rewrite json_remove_get, decide_True by done. by rewrite Hd.
Qed.

(** [fs::create_dir_all], then [fs::write]. *)
Definition write_genesis {L : ExecutionGenesisLib} {J : GenesisJson L} (path : Path) (g : Genesis)
    : M Fs string unit :=
  (create_dir_all "cannot create directory"%string ;;;
   open_truncated path "cannot open file"%string ;;;
   write_all path (value_to_text (adjust_genesis (genesis_to_value g))) "cannot write file"%string)%monad.

(** ** Properties *)

(** The last balance given for an address. *)
Definition last_balance `{WalletLib} (a : Address) (alloc : list (string * string)) : option Z :=
  foldl (λ acc e, if decide (Address_from_str e.1 = Some a) then U256_from_str e.2 else acc) None alloc.

Lemma alloc_of_strings_lookup `{WalletLib} (alloc : list (string * string)) : ∀ map map',
  alloc_of_strings map alloc = Ok map' → ∀ a,
  map' !! a = foldl (λ acc e, if decide (Address_from_str e.1 = Some a) then U256_from_str e.2 else acc)
                (map !! a) alloc.
Proof.
  induction alloc as [|[s b] alloc IH]; intros map map'; simpl; [by intros [= ->]|].
  destruct (Address_from_str s) as [a0|] eqn:Ha; simpl; [|done].
  destruct (U256_from_str b) as [z|] eqn:Hb; simpl; [|done].
  intros Hrun a. rewrite (IH _ _ Hrun a). f_equal. case_decide as Hd.
  - injection Hd as ->. by rewrite lookup_insert_eq.
  - by rewrite lookup_insert_ne by congruence.
Qed.

Section genesis_theorems.
Context {L : ExecutionGenesisLib} {J : GenesisJson L} {JL : GenesisJsonLaws L J} {W : WalletLib}.

Lemma written_genesis_parsed (g : Genesis) :
  gn_parent_hash g = Some B256_ZERO →
  parse_execution_genesis (value_to_text (adjust_genesis (genesis_to_value g))) = Some (node_view g).
Proof using JL.
  intros Hp. rewrite <-genesis_roundtrip. symmetry. apply parse_by_name.
  pose proof (genesis_parent_member g Hp) as Hm. destruct (genesis_is_object g) as [ms Hms]. rewrite Hms in *.
  by apply adjust_reads_same.
Qed.

(** C31: a genesis file written by this tool starts nodes.  Built at time [t] from
    an allocation that parses, the genesis gives each address the last balance
    listed for it; once it is written, a node that reads the file gets block 0,
    with a zero parent and time [t], whose header has the base fee 7, the gas
    limit of the network and the fields of the London, Shanghai, Cancun and
    Prague forks. *)
Theorem built_genesis_starts_nodes (t chain_id : Z) (alloc : list (string * string)) (m : GenesisAlloc)
    (path : Path) (fs fs' : Fs) (g : Genesis) :
  0 ≤ t → alloc_of_strings ∅ alloc = Ok m →
  build_genesis_from_alloc_strings (Some t) chain_id alloc = Ok g →
  write_genesis path g fs = (fs', Ok tt) →
  (∀ a, gn_alloc g !! a = last_balance a alloc) ∧
  ∃ hd, execution_genesis_block_from_file (read_file fs' path)
          = Ok (mkExecutionBlock (hash_slow hd) 0 B256_ZERO t load_prev_randao) ∧
    hd_number hd = 0 ∧ hd_parent_hash hd = B256_ZERO ∧ hd_timestamp hd = t ∧
    hd_gas_limit hd = LOAD_EXECUTION_GAS_LIMIT ∧ hd_state_root hd = state_root_ref_unhashed (alloc_read m) ∧
    hd_base_fee_per_gas hd = Some 7 ∧ hd_withdrawals_root hd = Some EMPTY_WITHDRAWALS ∧
    hd_parent_beacon_block_root hd = Some B256_ZERO ∧ hd_blob_gas_used hd = Some 0 ∧
    hd_excess_blob_gas hd = Some 0 ∧ hd_requests_hash hd = Some EMPTY_REQUESTS_HASH.
Proof using JL.
  intros Ht Hm Hg Hw. unfold build_genesis_from_alloc_strings in Hg. rewrite Hm in Hg.
  injection Hg as <-. split.
  { intros a. cbn [gn_alloc]. rewrite (alloc_of_strings_lookup _ _ _ Hm). unfold last_balance. by rewrite lookup_empty. }
  set (g := {| gn_config := _ |}) in *.
  assert (read_file fs' path = Some (value_to_text (adjust_genesis (genesis_to_value g)))) as Hf.
  { revert Hw. unfold write_genesis, create_dir_all, open_truncated, write_all, fs_call, bind, modify, set_file, read_file.
    destruct fs as [fm [|[n1|] [|[n2|] [|[n3|] fl]]]]; simpl; intros [= <-]; simpl; by rewrite lookup_insert_eq. }
  unfold execution_genesis_block_from_file. rewrite Hf. cbn [ok_or obind].
  rewrite written_genesis_parsed by done. cbn [ok_or obind].
  unfold build_execution_genesis_header, fork_block_active_at_genesis, fork_time_active_at_genesis, node_view, read_config. simpl.
  replace (0 <=? t) with true by lia. simpl. eexists. split; [reflexivity|]. simpl. by split_and!.
Qed.

End genesis_theorems.

(** ** Concrete inputs *)

#[export] Instance FullChainConfig_eq_dec : EqDecision FullChainConfig.
Proof. solve_decision. Defined.
#[export] Instance FullChainConfig_countable : Countable FullChainConfig.
Proof.
  refine (inj_countable'
    (λ c, (fc_chain_id c, fc_homestead_block c, fc_eip150_block c, fc_eip155_block c, fc_eip158_block c,
       fc_byzantium_block c, fc_constantinople_block c, fc_petersburg_block c, fc_istanbul_block c,
       fc_berlin_block c, fc_london_block c, fc_shanghai_time c, fc_cancun_time c, fc_prague_time c,
       fc_merge_netsplit_block c, fc_terminal_total_difficulty c, fc_terminal_total_difficulty_passed c))
    (λ '(a, b, c, d, e, f, g, h, i, j, k, l, m, n, o, p, q), mkFullChainConfig a b c d e f g h i j k l m n o p q) _).
  by intros [].
Defined.
#[export] Instance Genesis_eq_dec : EqDecision Genesis.
Proof. solve_decision. Defined.
#[export] Instance Genesis_countable : Countable Genesis.
Proof.
  refine (inj_countable'
    (λ g, (gn_config g, gn_nonce g, gn_timestamp g, gn_extra_data g, gn_gas_limit g, gn_difficulty g, gn_mix_hash g,
       gn_coinbase g, gn_alloc g, gn_base_fee_per_gas g, gn_excess_blob_gas g, gn_blob_gas_used g, gn_number g,
       gn_parent_hash g))
    (λ '(a, b, c, d, e, f, g, h, i, j, k, l, m, n), mkGenesis a b c d e f g h i j k l m n) _).
  by intros [].
Defined.

(** JSON with the genesis in one member. *)
Definition demo_parse (b : bytes) : option (ExecutionGenesis GenesisAlloc) :=
  match b with
  | [Z.pos p] =>
    (λ g, mkExecutionGenesis (read_config (gn_config g)) (gn_nonce g) (gn_timestamp g) (gn_extra_data g)
       (gn_gas_limit g) (gn_difficulty g) (gn_mix_hash g) (gn_coinbase g) (gn_alloc g) (gn_base_fee_per_gas g)
       (gn_excess_blob_gas g) (gn_blob_gas_used g) (gn_number g) (gn_parent_hash g)) <$> countable.decode p
  | _ => None
  end.
Definition demo_el : ExecutionGenesisLib := {|
  Alloc := GenesisAlloc; parse_execution_genesis := demo_parse;
  state_root_ref_unhashed m := [Z.of_nat (size m)]; hash_slow hd := [hd_timestamp hd];
  INITIAL_BASE_FEE := 1000000000; EMPTY_WITHDRAWALS := zeros 32; EMPTY_REQUESTS_HASH := zeros 32 |}.
Definition demo_json : GenesisJson demo_el := {|
  genesis_to_value g := JObject [("data"%string, JNumber (Z.pos (countable.encode g)));
    ("parentHash"%string, JString ZERO_HASH_TEXT); ("config"%string, JObject [("daoForkSupport"%string, JBool false)])];
  value_to_text j := match json_get "data" j with Some (JNumber z) => [z] | _ => [] end;
  alloc_read m := (m : @Alloc demo_el) |}.
Lemma demo_json_laws : GenesisJsonLaws demo_el demo_json.
Proof.
  constructor; try done.
  - intros g. by eexists.
  - intros g. cbn [parse_execution_genesis demo_el value_to_text genesis_to_value demo_json].
    cbn [json_get member fst snd]. rewrite decide_True by done. unfold demo_parse. by rewrite countable.decode_encode.
  - intros j j' [Hj _]. cbn [parse_execution_genesis demo_el value_to_text demo_json]. by rewrite (Hj "data"%string).
Qed.

(** Addresses and balances as text. *)
Definition text_bytes (s : string) : bytes :=
  (λ a, Z.of_nat (Ascii.nat_of_ascii a)) <$> String.list_ascii_of_string s.
Definition demo_wallet : WalletLib := {|
  mnemonic_address s := Some (zeros 20); Address_from_str s := Some (text_bytes s);
  U256_from_str := parse_uint (2^256) |}.
#[local] Existing Instance demo_wallet.
Definition demo_alloc : list (string * string) :=
  [("alice", "5"); ("bob", "7"); ("alice", "9")]%string.

Definition demo_genesis : outcome string Genesis :=
  build_genesis_from_alloc_strings (Some 1700000000) 1 demo_alloc.
Definition demo_written (g : Genesis) : Fs :=
  (@write_genesis demo_el demo_json ["genesis.json"%string] g (mkFs ∅ [])).1.

Lemma built_genesis_starts_nodes_witness :
  ∃ g hd, demo_genesis = Ok g ∧ gn_alloc g !! text_bytes "alice" = Some 9 ∧
    execution_genesis_block_from_file (H := demo_el) (read_file (demo_written g) ["genesis.json"%string])
      = Ok (mkExecutionBlock (hash_slow (ExecutionGenesisLib := demo_el) hd) 0 B256_ZERO 1700000000 load_prev_randao).
Proof.
  assert (∃ m, alloc_of_strings (H := demo_wallet) ∅ demo_alloc = Ok m) as [m Hm] by (eexists; reflexivity).
  assert (∃ g, demo_genesis = Ok g) as [g Hg] by (eexists; reflexivity).
  destruct (built_genesis_starts_nodes (L := demo_el) (J := demo_json) (JL := demo_json_laws) (W := demo_wallet)
    1700000000 1 demo_alloc m ["genesis.json"%string] (mkFs ∅ []) (demo_written g) g) as [Ha (hd & Hb & _)].
  - lia.
  - exact Hm.
  - exact Hg.
  - reflexivity.
  - exists g, hd. split; [exact Hg|]. split; [rewrite Ha; vm_compute; reflexivity|exact Hb].
Defined.
