(* ===== verification/Commands.v ===== *)
(** * The commands ([crates/cli], [bin/ultramarine])

    [init] and the two testnet generators, which write the files a node starts
    from, and the [start] command, which reads them.  Random numbers and the
    formats of the files are parameters.  The theorems join both ends: the nodes
    of a generated testnet start as validators of one genesis and can reach each
    other, and a node made by [init] is not a validator of its own genesis. *)
From Stdlib Require Import Ascii.
From stdpp Require Import pretty.
From S2P Require Import Prelude Text Files Types Merkle Metadata BlobStore BlobEngine Store Votes State Archiver Client App Startup.
Open Scope monad_scope.

(** ** Command-line arguments ([args.rs]) *)

Definition APP_FOLDER : string := ".malachite".
Definition CONFIG_FILE : string := "config.toml".
Definition GENESIS_FILE : string := "genesis.json".
Definition PRIV_VALIDATOR_KEY_FILE : string := "priv_validator_key.json".

(** [--home], and the user's home directory, if there is one. *)
Record Args := mkArgs { arg_home : option Path; arg_base_dir : option Path }.

Definition get_home_dir (a : Args) : outcome CliError Path :=
  match arg_home a with
  | Some path => Ok path
  | None => (let? base := ok_or (arg_base_dir a) DirPath in Ok (join base APP_FOLDER))%outcome
  end.
Definition get_config_dir (a : Args) : outcome CliError Path :=
  (let? home := get_home_dir a in Ok (join home "config"))%outcome.
Definition get_config_file_path (a : Args) : outcome CliError Path :=
  (let? dir := get_config_dir a in Ok (join dir CONFIG_FILE))%outcome.
Definition get_genesis_file_path (a : Args) : outcome CliError Path :=
  (let? dir := get_config_dir a in Ok (join dir GENESIS_FILE))%outcome.
Definition get_priv_validator_key_file_path (a : Args) : outcome CliError Path :=
  (let? dir := get_config_dir a in Ok (join dir PRIV_VALIDATOR_KEY_FILE))%outcome.

(** ** Runtime flavours ([testnet.rs]) *)

Inductive RuntimeFlavour := FSingleThreaded | FMultiThreaded (n : Z).

(** [str::split_once] at a character *)
Fixpoint split_at_char (c : ascii) (l : list ascii) : option (list ascii * list ascii) :=
  match l with
  | [] => None
  | a :: l =>
    if decide (a = c) then Some ([], l)
    else match split_at_char c l with Some (p, r) => Some (a :: p, r) | None => None end
  end.
Definition split_once (c : ascii) (s : string) : option (string * string) :=
  match split_at_char c (String.list_ascii_of_string s) with
  | Some (p, r) => Some (String.string_of_list_ascii p, String.string_of_list_ascii r)
  | None => None
  end.

Definition RuntimeFlavour_from_str (s : string) : outcome string RuntimeFlavour :=
  match split_once ":" s with
  | Some (flavour, n) =>
    if decide (flavour = "multi-threaded"%string) then
      match parse_uint (2^64) n with
      | Some n => Ok (FMultiThreaded n)
      | None => Err "Invalid number of threads"%string
      end
    else Err "Invalid runtime flavour"%string
  | None =>
    if decide (s = "single-threaded"%string) then Ok FSingleThreaded
    else if decide (s = "multi-threaded"%string) then Ok (FMultiThreaded 0)
    else Err "Invalid runtime flavour"%string
  end.

(** ** Node configuration ([new.rs], [distributed_testnet.rs]) *)

Inductive RuntimeConfig := SingleThreaded | MultiThreaded (worker_threads : Z).
Inductive BootstrapProtocol := BootKademlia | BootFull.
Inductive Selector := SelectKademlia | SelectRandom.
Inductive TransportProtocol := Tcp | Quic.
Record LoggingConfig := mkLogging { log_level : string; log_format : string }.

Record DiscoveryConfig := mkDiscovery {
  dc_enabled : bool; dc_bootstrap_protocol : BootstrapProtocol; dc_selector : Selector;
  dc_num_outbound_peers : Z; dc_num_inbound_peers : Z; dc_max_connections_per_peer : Z;
  dc_ephemeral_connection_timeout_ms : Z }.
Record P2pConfig := mkP2p {
  p2p_listen_addr : string; p2p_persistent_peers : list string; p2p_discovery : DiscoveryConfig }.

(** The settings the generators write; the others have the defaults of the
    consensus engine.  [ncf_sync] is [None] for the default sync settings. *)
Record SyncConfig := mkSync {
  sy_enabled : bool; sy_status_update_interval_s : Z; sy_request_timeout_s : Z }.
Record NodeConfig := mkNodeConfig {
  ncf_moniker : string; ncf_consensus_enabled : bool; ncf_consensus_p2p : P2pConfig;
  ncf_queue_capacity : Z; ncf_mempool_p2p : P2pConfig; ncf_max_tx_count : Z;
  ncf_gossip_batch_size : Z; ncf_sync : option SyncConfig; ncf_metrics_enabled : bool;
  ncf_metrics_port : Z; ncf_logging : LoggingConfig; ncf_runtime : RuntimeConfig;
  ncf_archiver : ArchiverConfig }.

Definition CONSENSUS_BASE_PORT : Z := 27000.
Definition MEMPOOL_BASE_PORT : Z := 28000.
Definition METRICS_BASE_PORT : Z := 29000.
Definition MIN_VOTING_POWER : Z := 1.
Definition MAX_VOTING_POWER : Z := 1.

(** [TransportProtocol::multiaddr] *)
Class AddressLib := { multiaddr : TransportProtocol → string → Z → string }.

(** The random numbers the commands draw.  The [i]-th key of the generator
    seeded with [0x42], and the [i]-th key ever drawn from the system; a number
    in a closed range; a choice of elements. *)
Class Random := {
  seeded_key : nat → bytes; os_key : nat → bytes;
  gen_range : Z → Z → Z;
  choose_multiple : list nat → nat → list nat }.
Class RandomLaws (R : Random) : Prop := {
  gen_range_in : ∀ lo hi, lo ≤ hi → lo ≤ gen_range lo hi ≤ hi;
  choose_multiple_in : ∀ l n x, x ∈ choose_multiple l n → x ∈ l;
  choose_multiple_length : ∀ l n, length (choose_multiple l n) = Nat.min n (length l) }.

(** [Itertools::unique] *)
Fixpoint unique (seen : list nat) (l : list nat) : list nat :=
  match l with
  | [] => []
  | x :: l => if decide (x ∈ seen) then unique seen l else x :: unique (x :: seen) l
  end.

(** The settings all nodes of a testnet share. *)
Record NetOptions := mkNetOptions {
  no_runtime : RuntimeConfig; no_enable_discovery : bool; no_bootstrap_protocol : BootstrapProtocol;
  no_selector : Selector; no_num_outbound_peers : Z; no_num_inbound_peers : Z;
  no_ephemeral_connection_timeout_ms : Z; no_transport : TransportProtocol; no_logging : LoggingConfig }.

Definition discovery_of (o : NetOptions) (enabled : bool) (out inb timeout : Z) : DiscoveryConfig :=
  mkDiscovery enabled (no_bootstrap_protocol o) (no_selector o) out inb 5 timeout.

Definition others (index total : nat) : list nat := List.filter (λ j, negb (j =? index)%nat) (seq 0 total).

Section configs.
Context `{AddressLib} `{Random}.

Definition local_addr (o : NetOptions) (base : Z) (j : nat) : string :=
  multiaddr (no_transport o) "127.0.0.1" (add64 base (Z.of_nat j)).

Definition generate_config {E} (index total : nat) (o : NetOptions) : outcome E NodeConfig :=
  match try_u16 (add64 METRICS_BASE_PORT (Z.of_nat index)) with
  | None => Panic                                 (* expect("metrics port fits in u16") *)
  | Some metrics_port =>
    let discovery enabled :=
      discovery_of o enabled (no_num_outbound_peers o) (no_num_inbound_peers o)
        (no_ephemeral_connection_timeout_ms o) in
    let persistent_peers :=
      if no_enable_discovery o then
        let count := if (1 <? total)%nat then Z.to_nat (gen_range 1 (Z.of_nat total / 2)) else O in
        let peers := choose_multiple (others index total) count in
        local_addr o CONSENSUS_BASE_PORT <$> unique [] peers
      else local_addr o CONSENSUS_BASE_PORT <$> others index total in
    Ok {| ncf_moniker := "test-" +:+ pretty (N.of_nat index); ncf_consensus_enabled := true;
          ncf_consensus_p2p := mkP2p (local_addr o CONSENSUS_BASE_PORT index) persistent_peers
                                 (discovery (no_enable_discovery o));
          ncf_queue_capacity := 0;
          ncf_mempool_p2p := mkP2p (local_addr o MEMPOOL_BASE_PORT index)
                               (local_addr o MEMPOOL_BASE_PORT <$> others index total) (discovery false);
          ncf_max_tx_count := 10000; ncf_gossip_batch_size := 0; ncf_sync := None;
          ncf_metrics_enabled := true; ncf_metrics_port := metrics_port; ncf_logging := no_logging o;
          ncf_runtime := no_runtime o; ncf_archiver := ArchiverConfig_default |}
  end.

(** The address of node [j] on its machine; indexing no machines panics, as does
    the remainder by zero. *)
Definition machine_addr {E} (o : NetOptions) (machines : list string) (j : nat) : outcome E string :=
  match machines !! (j mod length machines)%nat with
  | Some m => Ok (multiaddr (no_transport o) m (add64 CONSENSUS_BASE_PORT (Z.of_nat j)))
  | None => Panic
  end.

(** [peers] of a node: with discovery the [bootstrap_set_size] nodes before it,
    otherwise every node before it. *)
Definition earlier_nodes (o : NetOptions) (index bootstrap_set_size : nat) : list nat :=
  if no_enable_discovery o
  then unique [] (seq (index - bootstrap_set_size) (index - (index - bootstrap_set_size)))
  else seq 0 index.

Definition generate_distributed_config {E} (index : nat) (machines : list string) (bootstrap_set_size : nat)
    (o : NetOptions) : outcome E NodeConfig :=
  (match try_u16 (add64 METRICS_BASE_PORT (Z.of_nat index)) with
   | None => Panic                         (* expect("distributed-testnet metrics port fits in u16") *)
   | Some metrics_port =>
     let? persistent_peers := omapM (machine_addr o machines) (earlier_nodes o index bootstrap_set_size) in
     Ok {| ncf_moniker := "test-" +:+ pretty (N.of_nat index); ncf_consensus_enabled := true;
           ncf_consensus_p2p :=
             mkP2p (multiaddr (no_transport o) "0.0.0.0" (add64 CONSENSUS_BASE_PORT (Z.of_nat index)))
               persistent_peers
               (discovery_of o (no_enable_discovery o) (no_num_outbound_peers o) (no_num_inbound_peers o)
                  (no_ephemeral_connection_timeout_ms o));
           ncf_queue_capacity := 0;
           ncf_mempool_p2p :=
             mkP2p (multiaddr (no_transport o) "0.0.0.0" (add64 MEMPOOL_BASE_PORT (Z.of_nat index))) []
               (discovery_of o false 0 0 0);
           ncf_max_tx_count := 10000; ncf_gossip_batch_size := 0; ncf_sync := Some (mkSync false 10 10);
           ncf_metrics_enabled := true; ncf_metrics_port := metrics_port; ncf_logging := no_logging o;
           ncf_runtime := no_runtime o; ncf_archiver := ArchiverConfig_default |}
   end)%outcome.
End configs.

(** ** Keys, genesis and files ([new.rs], [file.rs]) *)

(** The disk, and how many keys were drawn from the system. *)
Record World := mkWorld { wd_fs : Fs; wd_drawn : nat }.
Abbreviation WdM A := (M World CliError A) (only parsing).

Definition on_disk {A} (c : M Fs CliError A) : WdM A :=
  zoom wd_fs (λ fs w, mkWorld fs (wd_drawn w)) c.

(** The formats of the three files; rendering can fail. *)
Class FileFormats := {
  config_to_toml : NodeConfig → option bytes; toml_to_config : bytes → option NodeConfig;
  genesis_to_json : ValidatorSet → option bytes; json_to_genesis : bytes → option ValidatorSet;
  key_to_json : bytes → option bytes; json_to_key : bytes → option bytes }.
Class FileFormatLaws (F : FileFormats) : Prop := {
  config_roundtrip : ∀ c b, config_to_toml c = Some b → toml_to_config b = Some c;
  genesis_file_roundtrip : ∀ g b, genesis_to_json g = Some b → json_to_genesis b = Some g;
  key_roundtrip : ∀ k b, key_to_json k = Some b → json_to_key b = Some k }.

Definition load_config_file `{FileFormats} (fs : Fs) (path : Path) : outcome CliError NodeConfig :=
  (let? content := ok_or (read_file fs path) (OpenFile path) in
   ok_or (toml_to_config content) (ToJSON "invalid configuration"%string))%outcome.

Section commands.
Context `{Crypto} `{AddressLib} `{Random} `{FileFormats}.

Definition generate_private_keys (size : nat) (deterministic : bool) : WdM (list bytes) :=
  if deterministic then ret (seeded_key <$> seq 0 size)
  else λ w, (mkWorld (wd_fs w) (wd_drawn w + size), Ok (os_key <$> seq (wd_drawn w) size)).

(** [Validator::new]: the address is that of the key. *)
Definition Validator_new (pk : PublicKey) (power : Z) : Validator :=
  mkValidator (Address_from_public_key pk) pk power.

(** [App::make_genesis] *)
Definition make_genesis {E} (validators : list (PublicKey * Z)) : outcome E ValidatorSet :=
  ValidatorSet_new ((λ v, Validator_new v.1 v.2) <$> validators).

Definition generate_genesis {E} (pks : list PublicKey) : outcome E ValidatorSet :=
  make_genesis ((λ pk, (pk, gen_range MIN_VOTING_POWER MAX_VOTING_POWER)) <$> pks).

Definition save_rendered (path : Path) (data : option bytes) : M Fs CliError unit :=
  match data with
  | Some data => save path data
  | None => fail (ToJSON "cannot render"%string)
  end.
Definition save_config (path : Path) (c : NodeConfig) : M Fs CliError unit := save_rendered path (config_to_toml c).
Definition save_genesis (path : Path) (g : ValidatorSet) : M Fs CliError unit := save_rendered path (genesis_to_json g).
Definition save_priv_validator_key (path : Path) (k : bytes) : M Fs CliError unit := save_rendered path (key_to_json k).

(** ** [init] *)

(** A file that exists is kept unless it is to be overwritten. *)
Definition unless_there (path : Path) (overwrite : bool) (c : WdM unit) : WdM unit :=
  let* there := on_disk (exists_ path) in
  if there && negb overwrite then ret tt else c.

Definition init (config : NodeConfig) (config_file genesis_file key_file : Path) (overwrite : bool) : WdM unit :=
  unless_there config_file overwrite (on_disk (save_config config_file config)) ;;;
  unless_there key_file overwrite (
    let* private_keys := generate_private_keys 1 false in
    match private_keys !! 0%nat with
    | Some key => on_disk (save_priv_validator_key key_file key)
    | None => panic
    end) ;;;
  unless_there genesis_file overwrite (
    let* private_keys := generate_private_keys 1 false in
    let* genesis := lift (generate_genesis (ed25519_public <$> private_keys)) in
    on_disk (save_genesis genesis_file genesis)).

(** [InitCmd::run], with the options of the command; the transport is TCP and
    the runtime single threaded. *)
Definition InitCmd_run (o : NetOptions) (config_file genesis_file key_file : Path) (overwrite : bool) : WdM unit :=
  let* config := lift (generate_config 0 1
    (mkNetOptions SingleThreaded (no_enable_discovery o) (no_bootstrap_protocol o) (no_selector o)
       (no_num_outbound_peers o) (no_num_inbound_peers o) (no_ephemeral_connection_timeout_ms o) Tcp
       (no_logging o))) in
  init config config_file genesis_file key_file overwrite.

(** The [init] function of the binary. *)
Definition init_command (a : Args) (o : NetOptions) (overwrite : bool) : WdM unit :=
  let* config_file := lift (get_config_file_path a) in
  let* genesis_file := lift (get_genesis_file_path a) in
  let* key_file := lift (get_priv_validator_key_file_path a) in
  InitCmd_run o config_file genesis_file key_file overwrite.

(** ** Testnets *)

Definition node_home (home : Path) (i : nat) : Path := join home (pretty (N.of_nat i)).
Definition node_args (home : Path) (i : nat) : Args := mkArgs (Some (node_home home i)) None.

(** The files of one node. *)
Definition write_node (config : nat → outcome CliError NodeConfig) (genesis : ValidatorSet) (home : Path)
    (i : nat) (private_key : bytes) : WdM unit :=
  let a := node_args home i in
  let* path := lift (get_config_file_path a) in
  let* c := lift (config i) in
  on_disk (save_config path c) ;;;
  let* path := lift (get_priv_validator_key_file_path a) in
  on_disk (save_priv_validator_key path private_key) ;;;
  let* path := lift (get_genesis_file_path a) in
  on_disk (save_genesis path genesis).

Fixpoint write_nodes (config : nat → outcome CliError NodeConfig) (genesis : ValidatorSet) (home : Path)
    (i : nat) (private_keys : list bytes) : WdM unit :=
  match private_keys with
  | [] => ret tt
  | key :: keys => write_node config genesis home i key ;;; write_nodes config genesis home (S i) keys
  end.

Definition generate_network (config : nat → outcome CliError NodeConfig) (nodes : nat) (home : Path)
    (deterministic : bool) : WdM unit :=
  let* private_keys := generate_private_keys nodes deterministic in
  let* genesis := lift (generate_genesis (ed25519_public <$> private_keys)) in
  write_nodes config genesis home 0 (take nodes private_keys).

Definition testnet (nodes : nat) (home : Path) (o : NetOptions) (deterministic : bool) : WdM unit :=
  generate_network (λ i, generate_config i nodes o) nodes home deterministic.
Definition distributed_testnet (nodes : nat) (home : Path) (o : NetOptions) (machines : list string)
    (bootstrap_set_size : nat) (deterministic : bool) : WdM unit :=
  generate_network (λ i, generate_distributed_config i machines bootstrap_set_size o) nodes home deterministic.

(** [TestnetCmd::run] and [DistributedTestnetCmd::run] choose the runtime. *)
Definition runtime_of (f : RuntimeFlavour) : RuntimeConfig :=
  match f with FSingleThreaded => SingleThreaded | FMultiThreaded n => MultiThreaded n end.

(** The [testnet] and [distributed_testnet] functions of the binary. *)
Definition testnet_command (a : Args) (nodes : nat) (o : NetOptions) (deterministic : bool) : WdM unit :=
  let* home := lift (get_home_dir a) in
  let* _ := lift (get_genesis_file_path a) in
  let* _ := lift (get_priv_validator_key_file_path a) in
  testnet nodes home o deterministic.
Definition distributed_testnet_command (a : Args) (nodes : nat) (o : NetOptions) (machines : list string)
    (bootstrap_set_size : nat) (deterministic : bool) : WdM unit :=
  let* home := lift (get_home_dir a) in
  let* _ := lift (get_genesis_file_path a) in
  let* _ := lift (get_priv_validator_key_file_path a) in
  distributed_testnet nodes home o machines bootstrap_set_size deterministic.

(** ** The [start] command *)

(** [StartCmd] *)
Record StartCmd := mkStartCmd {
  sc_start_height : option Z; sc_engine_http_url : option string; sc_engine_ipc_path : option string;
  sc_execution_genesis_path : option string; sc_jwt_path : option string }.

(** The [App] of the binary's [start], with the logging of the command line. *)
Definition start_app (fs : Fs) (a : Args) (cmd : StartCmd) (logging : LoggingConfig)
    : outcome CliError (NodeConfig * AppOptions) :=
  (let? config_file := get_config_file_path a in
   let? c := load_config_file fs config_file in
   let? _ := get_home_dir a in
   let? _ := get_genesis_file_path a in
   let? _ := get_priv_validator_key_file_path a in
   let c := mkNodeConfig (ncf_moniker c) (ncf_consensus_enabled c) (ncf_consensus_p2p c) (ncf_queue_capacity c)
              (ncf_mempool_p2p c) (ncf_max_tx_count c) (ncf_gossip_batch_size c) (ncf_sync c)
              (ncf_metrics_enabled c) (ncf_metrics_port c) logging (ncf_runtime c) (ncf_archiver c) in
   Ok (c, mkOptions (mkConfig (ncf_moniker c) (ncf_archiver c)) (sc_start_height cmd)
            (sc_execution_genesis_path cmd) (sc_engine_http_url cmd) (sc_engine_ipc_path cmd) (sc_jwt_path cmd)))%outcome.

(** [App::load_private_key_file] and [App::load_genesis] *)
Definition load_private_key_file (fs : Fs) (path : Path) : outcome string bytes :=
  (let? content := ok_or (read_file fs path) "cannot read private key"%string in
   ok_or (json_to_key content) "invalid private key"%string)%outcome.
Definition load_genesis (fs : Fs) (path : Path) : outcome string ValidatorSet :=
  (let? content := ok_or (read_file fs path) "cannot read genesis"%string in
   ok_or (json_to_genesis content) "invalid genesis"%string)%outcome.

(** What a node finds at its start: the files of its home, and the rest as
    given. *)
Definition home_environment {E} (fs : Fs) (home : Path) (ev : Environment E) : Environment E :=
  let key := load_private_key_file fs (join (join home "config") PRIV_VALIDATOR_KEY_FILE) in
  mkEnvironment E (ev_vars ev) (ev_current_dir ev) (ev_read_file ev) key key
    (load_genesis fs (join (join home "config") GENESIS_FILE)) (ev_start_engine ev) (ev_store ev)
    (ev_blob_engine ev) (ev_archiver_client ev) (ev_engine_client ev).
End commands.

(** ** What a generator leaves on disk *)

Definition config_path (home : Path) (f : string) : Path := join (join home "config") f.
Definition of_node (home : Path) (i : nat) (p : Path) : Prop := ∃ f, p = config_path (node_home home i) f.

Lemma of_node_disjoint (home : Path) (i j : nat) (p : Path) : of_node home i p → of_node home j p → i = j.
Proof.
  intros [f ->] [g Hg]. unfold config_path, node_home, join in Hg.
  apply app_inj_2 in Hg as [Hg _]; [|done]. apply app_inj_2 in Hg as [Hg _]; [|done].
  apply app_inj_2 in Hg as [_ Hg]; [|done]. injection Hg as Hg. apply (inj pretty) in Hg. lia.
Qed.

Lemma others_spec (i j total : nat) : j ∈ others i total ↔ (j < total)%nat ∧ j ≠ i.
Proof.
  unfold others. rewrite list_elem_of_In, filter_In, in_seq. destruct (Nat.eqb_spec j i); simpl; lia.
Qed.
Lemma elem_of_unique (l : list nat) : ∀ seen x, x ∈ unique seen l ↔ x ∈ l ∧ x ∉ seen.
Proof.
  induction l as [|y l IH]; intros seen x; simpl.
  { split; [by intros ?%elem_of_nil|by intros [?%elem_of_nil _]]. }
  case_decide as Hy; [|rewrite elem_of_cons]; rewrite IH; rewrite ?elem_of_cons;
    destruct (decide (x = y)) as [->|]; naive_solver.
Qed.

Section command_proofs.
Context {C : Crypto} {A : AddressLib} {R : Random} {F : FileFormats}.

Lemma save_rendered_run (path : Path) (data : option bytes) (fs : Fs) :
  touches (λ p, p = path) fs (save_rendered path data fs).1 ∧
  ((save_rendered path data fs).2 = Ok tt →
   ∃ b, data = Some b ∧ fs_files (save_rendered path data fs).1 = <[path := b]> (fs_files fs)).
Proof.
  destruct data as [b|]; simpl; [|done]. destruct (save_run path b fs) as [Ht Hf].
  split; [done|]. intros Hok. exists b. auto.
Qed.

(** The files of a node hold its configuration, its key and the genesis. *)
Definition node_files (fs : Fs) (home : Path) (i : nat) (c : NodeConfig) (key : bytes) (g : ValidatorSet) : Prop :=
  ∃ bc bk bg, config_to_toml c = Some bc ∧ key_to_json key = Some bk ∧ genesis_to_json g = Some bg ∧
    fs_files fs !! config_path (node_home home i) CONFIG_FILE = Some bc ∧
    fs_files fs !! config_path (node_home home i) PRIV_VALIDATOR_KEY_FILE = Some bk ∧
    fs_files fs !! config_path (node_home home i) GENESIS_FILE = Some bg.

Lemma node_files_touched (home : Path) (i : nat) (P : Path → Prop) (fs fs' : Fs) c key g :
  touches P fs fs' → (∀ p, of_node home i p → ¬ P p) →
  node_files fs home i c key g → node_files fs' home i c key g.
Proof.
  intros Ht HP (bc & bk & bg & ? & ? & ? & H1 & H2 & H3). exists bc, bk, bg.
  split_and!; try done; rewrite Ht; try done; apply HP; by eexists.
Qed.

Lemma write_node_Ok config (g : ValidatorSet) (home : Path) (i : nat) (key : bytes) (w w' : World) :
  write_node config g home i key w = (w', Ok tt) →
  ∃ c, config i = Ok c ∧ node_files (wd_fs w') home i c key g ∧ touches (of_node home i) (wd_fs w) (wd_fs w').
Proof.
  destruct w as [fs d]. unfold write_node, on_disk, save_config, save_genesis, save_priv_validator_key.
  cbn [get_config_file_path get_config_dir get_home_dir node_args arg_home obind get_priv_validator_key_file_path
       get_genesis_file_path].
  unfold bind, lift, zoom. cbn [wd_fs wd_drawn].
  destruct (config i) as [c| |]; [|done..].
  pose proof (save_rendered_run (config_path (node_home home i) CONFIG_FILE) (config_to_toml c) fs) as [Ht1 Hf1].
  unfold config_path in *. destruct (save_rendered _ _ fs) as [fs1 [[]| |]]; try done. cbn [fst snd wd_fs wd_drawn] in *.
  destruct (Hf1 eq_refl) as (bc & Hbc & Hfs1).
  pose proof (save_rendered_run (config_path (node_home home i) PRIV_VALIDATOR_KEY_FILE) (key_to_json key) fs1) as [Ht2 Hf2].
  unfold config_path in *. destruct (save_rendered _ _ fs1) as [fs2 [[]| |]]; try done. cbn [fst snd wd_fs wd_drawn] in *.
  destruct (Hf2 eq_refl) as (bk & Hbk & Hfs2).
  pose proof (save_rendered_run (config_path (node_home home i) GENESIS_FILE) (genesis_to_json g) fs2) as [Ht3 Hf3].
  unfold config_path in *. destruct (save_rendered _ _ fs2) as [fs3 [[]| |]]; try done. cbn [fst snd wd_fs wd_drawn] in *.
  destruct (Hf3 eq_refl) as (bg & Hbg & Hfs3). intros [= <-]. exists c. split; [done|]. split.
  - exists bc, bk, bg. unfold config_path. cbn [wd_fs]. rewrite Hfs3, Hfs2, Hfs1. split_and!; try done.
    + rewrite !lookup_insert_ne by (by intros [_ [=]]%app_inj_2). by rewrite lookup_insert_eq.
    + rewrite lookup_insert_ne by (by intros [_ [=]]%app_inj_2). by rewrite lookup_insert_eq.
    + by rewrite lookup_insert_eq.
  - intros p Hp. cbn [wd_fs]. rewrite Ht3, Ht2, Ht1; [done|..]; intros ->; apply Hp; by eexists.
Qed.

Lemma write_nodes_Ok config (g : ValidatorSet) (home : Path) (keys : list bytes) : ∀ i w w',
  write_nodes config g home i keys w = (w', Ok tt) →
  (∀ k key, keys !! k = Some key → ∃ c, config (i + k)%nat = Ok c ∧ node_files (wd_fs w') home (i + k) c key g) ∧
  touches (λ p, ∃ k, (k < length keys)%nat ∧ of_node home (i + k) p) (wd_fs w) (wd_fs w').
Proof.
  induction keys as [|key keys IH]; intros i w w'; cbn [write_nodes].
  { intros [= <-]. split; [done|]. by intros p. }
  intros (u & w1 & H1 & H2)%bind_run_Ok. destruct u. apply write_node_Ok in H1 as (c & Hc & Hn & Ht1).
  apply IH in H2 as [Hks Ht2]. split.
  - intros [|k] key' Hk; simpl in Hk.
    + injection Hk as <-. rewrite Nat.add_0_r. exists c. split; [done|].
      eapply node_files_touched; [exact Ht2| |done]. intros p Hp (k & _ & Hk).
      pose proof (of_node_disjoint _ _ _ _ Hp Hk). lia.
    + rewrite Nat.add_succ_r. by apply Hks.
  - intros p Hp. rewrite Ht2, Ht1; [done|..].
    + intros Ho. apply Hp. exists 0%nat. rewrite Nat.add_0_r. split; [simpl; lia|done].
    + intros (k & Hk & Ho). apply Hp. exists (S k). rewrite Nat.add_succ_r. split; [simpl; lia|done].
Qed.

Lemma elem_of_dedup {T} `{EqDecision T} (l : list T) (x : T) : x ∈ dedup l ↔ x ∈ l.
Proof.
  induction l as [|y [|z l] IH]; [done..|]. cbn [dedup] in *. case_decide as Hyz.
  - subst z. rewrite IH. rewrite !elem_of_cons. tauto.
  - rewrite !elem_of_cons in *. rewrite <-IH. tauto.
Qed.

Lemma get_by_address_member (vs : ValidatorSet) (v : Validator) :
  v ∈ vs_validators vs → ∃ v', get_by_address vs (val_address v) = Some v' ∧ v' ∈ vs_validators vs ∧
    val_address v' = val_address v.
Proof.
  intros Hv. unfold get_by_address, find_first.
  assert (v ∈ filter (λ x, bool_decide (val_address x = val_address v) = true) (vs_validators vs)) as Hin.
  { apply list_elem_of_filter. split; [by apply bool_decide_eq_true|done]. }
  destruct (filter _ (vs_validators vs)) as [|v' l] eqn:Hf; [by apply elem_of_nil in Hin|].
  exists v'. split; [done|]. assert (v' ∈ v' :: l) as Hv' by left. rewrite <-Hf in Hv'.
  apply list_elem_of_filter in Hv' as [Ha ?]. by apply bool_decide_eq_true in Ha.
Qed.

Lemma generate_genesis_member {E} (pks : list PublicKey) (vs : ValidatorSet) (pk : PublicKey) :
  generate_genesis (E := E) pks = Ok vs → pk ∈ pks →
  Validator_new pk (gen_range MIN_VOTING_POWER MAX_VOTING_POWER) ∈ vs_validators vs.
Proof.
  unfold generate_genesis, make_genesis, ValidatorSet_new, sort_validators. intros Hg Hpk.
  assert (Validator_new pk (gen_range MIN_VOTING_POWER MAX_VOTING_POWER) ∈
    dedup ((λ v, Validator_new v.1 v.2) <$> ((λ pk, (pk, gen_range MIN_VOTING_POWER MAX_VOTING_POWER)) <$> pks))) as Hin.
  { apply elem_of_dedup. rewrite <-list_fmap_compose. apply list_elem_of_fmap. by exists pk. }
  destruct (dedup _); [done|]. by injection Hg as <-.
Qed.

Lemma generate_genesis_power {E} (pks : list PublicKey) (vs : ValidatorSet) (v : Validator) :
  generate_genesis (E := E) pks = Ok vs → v ∈ vs_validators vs →
  val_voting_power v = gen_range MIN_VOTING_POWER MAX_VOTING_POWER.
Proof.
  unfold generate_genesis, make_genesis, ValidatorSet_new, sort_validators. intros Hg Hv.
  assert (v ∈ dedup ((λ v, Validator_new v.1 v.2) <$>
    ((λ pk, (pk, gen_range MIN_VOTING_POWER MAX_VOTING_POWER)) <$> pks))) as Hin.
  { destruct (dedup _); [done|]. by injection Hg as <-. }
  rewrite elem_of_dedup, <-list_fmap_compose in Hin. by apply list_elem_of_fmap in Hin as (pk & -> & _).
Qed.

Lemma generate_network_Ok config (nodes : nat) (home : Path) (det : bool) (w w' : World) :
  generate_network config nodes home det w = (w', Ok tt) →
  ∃ keys vs, length keys = nodes ∧ generate_genesis (E := CliError) (ed25519_public <$> keys) = Ok vs ∧
    ∀ i key, keys !! i = Some key → ∃ c, config i = Ok c ∧ node_files (wd_fs w') home i c key vs.
Proof.
  unfold generate_network. intros (keys & w1 & Hk & Hrun)%bind_run_Ok.
  assert (length keys = nodes) as Hlen.
  { unfold generate_private_keys in Hk. destruct det; injection Hk as <- <-; by rewrite length_fmap, length_seq. }
  apply bind_run_Ok in Hrun as (vs & w2 & Hg & Hrun). injection Hg as -> Hg.
  rewrite take_ge in Hrun by lia. apply write_nodes_Ok in Hrun as [Hn _]. exists keys, vs. by split_and!.
Qed.

(** ** Properties *)

Context {FL : FileFormatLaws F} {RL : RandomLaws R} {EL : ExecutionGenesisLib}.

Lemma node_files_loaded (fs : Fs) (home : Path) (i : nat) (c : NodeConfig) (key : bytes) (vs : ValidatorSet) :
  node_files fs home i c key vs →
  load_config_file fs (config_path (node_home home i) CONFIG_FILE) = Ok c ∧
  load_private_key_file fs (config_path (node_home home i) PRIV_VALIDATOR_KEY_FILE) = Ok key ∧
  load_genesis fs (config_path (node_home home i) GENESIS_FILE) = Ok vs.
Proof using FL.
  intros (bc & bk & bg & Hc & Hk & Hg & H1 & H2 & H3).
  unfold load_config_file, load_private_key_file, load_genesis, read_file. rewrite H1, H2, H3. simpl.
  by rewrite (config_roundtrip _ _ Hc), (key_roundtrip _ _ Hk), (genesis_file_roundtrip _ _ Hg).
Qed.

Lemma generated_archiver (i nodes : nat) (o : NetOptions) (c : NodeConfig) machines bset :
  generate_config (E := CliError) i nodes o = Ok c ∨
    generate_distributed_config (E := CliError) i machines bset o = Ok c →
  ncf_archiver c = ArchiverConfig_default.
Proof.
  unfold generate_config, generate_distributed_config. destruct (try_u16 _); [|by intros []].
  intros [[= <-]|H]; [done|]. destruct (omapM _ _); [|done..]. by injection H as <-.
Qed.

(** The settings of the archiver are taken when the token comes from the
    environment and nothing else is overridden. *)
Lemma default_archiver_with_token (vars : Vars) (token : string) :
  env_get vars "ULTRAMARINE_ARCHIVER_BEARER_TOKEN" = Some token → is_blank token = false →
  env_get vars "ULTRAMARINE_ARCHIVER_ENABLED" = None → env_get vars "ULTRAMARINE_ARCHIVER_PROVIDER_URL" = None →
  env_get vars "ULTRAMARINE_ARCHIVER_PROVIDER_ID" = None →
  let cf := apply_archiver_env_overrides vars ArchiverConfig_default in
  cf_enabled cf = true ∧ cf_max_queue_size cf ≠ 0 ∧ validate_archiver_config_strict false false cf = Ok tt.
Proof.
  intros Ht Hb He Hu Hi. cbn zeta. unfold apply_archiver_env_overrides. rewrite Ht, He, Hu, Hi.
  split; [done|]. split.
  { cbn [cf_max_queue_size ArchiverConfig_default]. destruct (_ ≫= parse_uint (2 ^ 64)); cbn; lia. } unfold validate_archiver_config_strict.
  cbn [cf_enabled cf_provider_url cf_provider_id cf_bearer_token override from_option id mbind option_bind fmap option_fmap option_map].
  rewrite Hb. vm_compute. reflexivity.
Qed.

(** C30: a generated testnet starts.  When [testnet] or [distributed_testnet] has
    succeeded, there is one genesis, of validators of power one, such that every
    node comes up when it is started on its files: with the key that was generated
    for it, as a validator of that genesis, at the start height, with its archiver
    running and no archive job owed.  For this the environment holds a token for
    the archiver and overrides neither its flag nor its provider; the databases are
    empty; the consensus engine, both HTTP clients, the execution genesis and the
    JWT secret of the Engine API are in order; and the execution layer offers the
    methods consensus needs. *)
Theorem testnet_nodes_start {E N : Type} {B : BlobEngine E} {T : MerkleTreeLib} {NC : NodeCodecs} {EA : EngineApi N}
    (nodes bset : nat) (home : Path) (o : NetOptions) (machines : list string) (det : bool) (w w' : World) :
  testnet nodes home o det w = (w', Ok tt) ∨ distributed_testnet nodes home o machines bset det w = (w', Ok tt) →
  ∃ keys vs, length keys = nodes ∧
    ∀ i key, keys !! i = Some key →
      let address := Address_from_public_key (ed25519_public key) in
      (∃ v, get_by_address vs address = Some v ∧ val_voting_power v = 1) ∧
      ∀ cmd logging (ev : Environment E) token path block engine raw secret g enc (el el' : N) cap jf nf,
        env_get (ev_vars ev) "ULTRAMARINE_ARCHIVER_BEARER_TOKEN" = Some token → is_blank token = false →
        env_get (ev_vars ev) "ULTRAMARINE_ARCHIVER_ENABLED" = None →
        env_get (ev_vars ev) "ULTRAMARINE_ARCHIVER_PROVIDER_URL" = None →
        env_get (ev_vars ev) "ULTRAMARINE_ARCHIVER_PROVIDER_ID" = None →
        ev_start_engine ev = Ok tt → ev_store ev = Ok (empty_store []) → ev_blob_engine ev = Ok engine →
        ev_archiver_client ev = Ok tt → ev_engine_client ev = Ok tt →
        sc_execution_genesis_path cmd = Some path →
        execution_genesis_block_from_file (ev_read_file ev path) = Ok block →
        sc_engine_ipc_path cmd = None →
        ev_read_file ev (default "./assets/jwtsecret"%string (sc_jwt_path cmd)) = Some raw →
        jwt_secret_of raw = Ok secret →
        BlobMetadata_genesis (E := string) = Ok g → encode g = Ok enc →
        ea_exchange_capabilities el = (el', Ok cap) → capable cap →
        ∃ c ao b sd, start_app (wd_fs w') (node_args home i) cmd logging = Ok (c, ao) ∧
          start false false ao (home_environment (wd_fs w') (node_home home i) ev) el jf nf = (Some b, Ok sd) ∧
          nd_state (sd_node sd) =
            set_archiver_enabled true (set_last_blob_sidecar_height 0
              (set_last_blob_sidecar_root (hash_tree_root (to_beacon_header g))
                (set_store (seeded_store enc)
                  (set_latest_block (Some block)
                    (State_new vs key address (default 1 (sc_start_height cmd)) (empty_store []) engine))))) ∧
          nd_el (sd_node sd) = el' ∧ sd_jobs sd = [] ∧
          ∃ cf, sd_archiver sd = Some (mkArchiverHandle cf key address) ∧ cf_bearer_token cf = Some token.
Proof using FL RL.
  intros Hrun.
  assert (∃ config, generate_network config nodes home det w = (w', Ok tt) ∧
    ∀ i c, config i = Ok c → ncf_archiver c = ArchiverConfig_default) as (config & Hnet & Harch).
  { destruct Hrun as [Hrun|Hrun]; (eexists; split; [exact Hrun|]); intros i c Hc.
    - eapply (generated_archiver i nodes o c [] 0). by left.
    - eapply (generated_archiver i nodes o c machines bset). by right. }
  apply generate_network_Ok in Hnet as (keys & vs & Hlen & Hg & Hn). exists keys, vs. split; [done|].
  intros i key Hi. cbn zeta. destruct (Hn i key Hi) as (c & Hc & Hfiles).
  destruct (node_files_loaded _ _ _ _ _ _ Hfiles) as (Hlc & Hlk & Hlg).
  assert (ed25519_public key ∈ ed25519_public <$> keys) as Hpk.
  { apply list_elem_of_fmap. exists key. split; [done|]. by eapply list_elem_of_lookup_2. }
  destruct (get_by_address_member _ _ (generate_genesis_member _ _ _ Hg Hpk)) as (v & Hv & Hin & _).
  cbn [Validator_new val_address] in Hv. split.
  { exists v. split; [done|]. rewrite (generate_genesis_power _ _ _ Hg Hin).
    pose proof (gen_range_in MIN_VOTING_POWER MAX_VOTING_POWER). unfold MIN_VOTING_POWER, MAX_VOTING_POWER in *. lia. }
  intros cmd logging ev token path block engine raw secret g enc el el' cap jf nf Ht Hb He Hu Hid Hse Hst Hen
    Hac Hec Hp Hblk Hipc Hraw Hsec Hgm Henc Hx Hcap.
  unfold start_app. cbn [get_config_file_path get_config_dir get_home_dir node_args arg_home obind
    get_priv_validator_key_file_path get_genesis_file_path].
  unfold config_path in Hlc, Hlk, Hlg. rewrite Hlc. cbn [obind]. eexists _, _.
  set (ao := mkOptions _ _ _ _ _ _). set (env := home_environment _ _ _).
  destruct (default_archiver_with_token _ _ Ht Hb He Hu Hid) as (Hon & Hq & Hstrict).
  assert (cfg_archiver (load_config false ao (ev_vars env))
    = apply_archiver_env_overrides (ev_vars ev) ArchiverConfig_default) as Hcf.
  { cbn. by rewrite (Harch i c Hc). }
  destruct (first_start false false ao env
    (set_latest_block (Some block) (State_new vs key (Address_from_public_key (ed25519_public key))
       (default 1 (sc_start_height cmd)) (empty_store []) engine)) key (Address_from_public_key (ed25519_public key))
    g enc el el' jf nf (ExecutionClient_new (Some 20%nat) (Some 500) (Some 500)) cap) as (b & s & Hs & Hstate);
    try done; try by rewrite Hcf.
  - unfold prepare. rewrite Hcf, Hstrict. unfold env, home_environment, ao.
    cbn [ev_private_key ev_genesis ev_start_engine ev_store ev_blob_engine ev_private_key_again ev_read_file
      ao_start_height ao_execution_genesis_file].
    rewrite Hlk, Hlg. cbn [obind]. rewrite Hv, Hon, Hse, Hst, Hen, Hp. cbn. by rewrite Hblk.
  - unfold execution_client, ao, env, home_environment.
    cbn [ao_engine_ipc_path ao_engine_http_url ao_jwt_path ev_read_file ev_engine_client].
    rewrite Hipc. cbn [engine_endpoint obind jwt_secret]. by rewrite Hraw, Hec; cbn; rewrite Hsec.
  - eexists b, _. split; [reflexivity|]. split; [exact Hs|]. cbn [nd_state nd_el sd_node sd_jobs sd_archiver].
    split_and!; [exact Hstate|done..|]. eexists. split; [reflexivity|]. rewrite Hcf.
    unfold apply_archiver_env_overrides. by rewrite Ht.
Qed.

(** *** [init] *)

(** Draw one key from the system. *)
Lemma draw_one (w : World) :
  generate_private_keys 1 false w = (mkWorld (wd_fs w) (wd_drawn w + 1), Ok [os_key (wd_drawn w)]).
Proof. done. Qed.

Lemma save_step (path : Path) (data : option bytes) (w w' : World) :
  on_disk (save_rendered path data) w = (w', Ok tt) →
  wd_drawn w' = wd_drawn w ∧ ∃ b, data = Some b ∧ fs_files (wd_fs w') = <[path := b]> (fs_files (wd_fs w)).
Proof.
  unfold on_disk. intros (fs & Hs & ->)%zoom_Ok. split; [done|].
  pose proof (save_rendered_run path data (wd_fs w)) as [_ H]. rewrite Hs in H. by apply H.
Qed.

(** A file that is not there is written, whatever [overwrite] says. *)
Lemma unless_there_missing (path : Path) (overwrite : bool) (c : WdM unit) (w : World) :
  fs_files (wd_fs w) !! path = None → unless_there path overwrite c w = c w.
Proof.
  intros Hp. unfold unless_there, bind, on_disk, zoom, exists_. rewrite Hp.
  rewrite bool_decide_false by (by intros [? [=]]). by destruct w.
Qed.

Lemma init_fresh (config : NodeConfig) (cf gf kf : Path) (overwrite : bool) (w w' : World) :
  fs_files (wd_fs w) = ∅ → cf ≠ kf → cf ≠ gf → kf ≠ gf →
  init config cf gf kf overwrite w = (w', Ok tt) →
  ∃ bk bg vs, key_to_json (os_key (wd_drawn w)) = Some bk ∧ genesis_to_json vs = Some bg ∧
    generate_genesis (E := CliError) [ed25519_public (os_key (S (wd_drawn w)))] = Ok vs ∧
    fs_files (wd_fs w') !! kf = Some bk ∧ fs_files (wd_fs w') !! gf = Some bg.
Proof.
  intros Hempty Hck Hcg Hkg Hrun. unfold init, save_config, save_genesis, save_priv_validator_key in Hrun.
  apply bind_run_Ok in Hrun as ([] & w1 & H1 & Hrun). rewrite unless_there_missing in H1 by (by rewrite Hempty).
  apply save_step in H1 as (Hd1 & bc & _ & Hf1).
  apply bind_run_Ok in Hrun as ([] & w2 & H2 & H3). rewrite unless_there_missing in H2.
  2: { by rewrite Hf1, lookup_insert_ne, Hempty by done. }
  apply bind_run_Ok in H2 as (ks & w2' & Hk & H2). rewrite draw_one in Hk. injection Hk as <- <-.
  apply save_step in H2 as (Hd2 & bk & Hbk & Hf2). cbn [wd_fs wd_drawn] in *.
  rewrite unless_there_missing in H3.
  2: { by rewrite Hf2, lookup_insert_ne, Hf1, lookup_insert_ne, Hempty by done. }
  apply bind_run_Ok in H3 as (ks & w3 & Hk & H3). rewrite draw_one in Hk. injection Hk as <- <-.
  apply bind_run_Ok in H3 as (vs & w4 & Hg & H3). injection Hg as <- Hg.
  apply save_step in H3 as (_ & bg & Hbg & Hf3). cbn [wd_fs wd_drawn] in *.
  rewrite Hd2, Hd1, Nat.add_1_r in Hg. rewrite Hd1 in Hbk.
  exists bk, bg, vs. rewrite Hf3, Hf2. split_and!; try done.
  - rewrite <-Hg. by unfold lift.
  - by rewrite lookup_insert_ne, lookup_insert_eq by done.
  - by rewrite lookup_insert_eq.
Qed.

(** [init] makes a node that is not a validator of its own genesis.  On an
    empty home the key file gets one key drawn from the system and the genesis is
    made from the next one; unless both keys have one address, the genesis has a
    single validator, which is not the node. *)
Theorem init_excludes_node (o : NetOptions) (overwrite : bool) (home : Path) (w w' : World) :
  fs_files (wd_fs w) = ∅ →
  init_command (mkArgs (Some home) None) o overwrite w = (w', Ok tt) →
  Address_from_public_key (ed25519_public (os_key (wd_drawn w)))
    ≠ Address_from_public_key (ed25519_public (os_key (S (wd_drawn w)))) →
  ∃ key vs, load_private_key_file (wd_fs w') (config_path home PRIV_VALIDATOR_KEY_FILE) = Ok key ∧
    load_genesis (wd_fs w') (config_path home GENESIS_FILE) = Ok vs ∧ vs_count vs = 1 ∧
    get_by_address vs (Address_from_public_key (ed25519_public key)) = None.
Proof using FL.
  intros Hempty Hrun Hne. unfold init_command, InitCmd_run in Hrun.
  cbn [get_config_file_path get_config_dir get_home_dir arg_home obind get_priv_validator_key_file_path
       get_genesis_file_path] in Hrun.
  do 3 apply bind_run_Ok in Hrun as (? & ? & [= <- <-] & Hrun).
  apply bind_run_Ok in Hrun as (config & w1 & Hc & Hrun). injection Hc as <- _.
  apply init_fresh in Hrun as (bk & bg & vs & Hbk & Hbg & Hg & Hfk & Hfg); [|done|by intros [_ [=]]%app_inj_2..].
  exists (os_key (wd_drawn w)), vs. unfold load_private_key_file, load_genesis, read_file, config_path.
  rewrite Hfk, Hfg. cbn [ok_or obind]. rewrite (key_roundtrip _ _ Hbk), (genesis_file_roundtrip _ _ Hbg).
  injection Hg as <-. split_and!; try done. unfold get_by_address, find_first, sort_validators.
  cbn [vs_validators fmap list_fmap dedup].
  rewrite filter_cons, decide_False; [done|]. cbn. intros Heq%bool_decide_eq_true. by apply Hne.
Qed.

(** *** Peers and ports *)

(** The ports a node listens on: consensus, mempool, metrics. *)
Definition node_ports (index : nat) : list Z :=
  [add64 CONSENSUS_BASE_PORT (Z.of_nat index); add64 MEMPOOL_BASE_PORT (Z.of_nat index);
   add64 METRICS_BASE_PORT (Z.of_nat index)].

Lemma node_ports_small (i : nat) :
  Z.of_nat i < 2^63 → node_ports i = [27000 + Z.of_nat i; 28000 + Z.of_nat i; 29000 + Z.of_nat i].
Proof.
  intros Hi. unfold node_ports, CONSENSUS_BASE_PORT, MEMPOOL_BASE_PORT, METRICS_BASE_PORT.
  by rewrite !add64_small by lia.
Qed.

(** A testnet's ports are in order exactly up to 1000 nodes.  A configuration
    is generated for exactly the first 36536 nodes, beyond which the generator
    panics; its metrics port fits 16 bits.  The ports of different nodes are
    disjoint exactly when there are at most 1000 nodes: from then on the
    consensus ports run into the mempool ports of the first nodes. *)
Theorem testnet_ports (nodes : nat) (o : NetOptions) :
  Z.of_nat nodes < 2^63 →
  (∀ i, (i < nodes)%nat →
     ((∃ c, generate_config (E := CliError) i nodes o = Ok c ∧ is_u16 (ncf_metrics_port c) ∧
        ncf_metrics_port c ∈ node_ports i) ↔ Z.of_nat i < 36536) ∧
     (36536 ≤ Z.of_nat i → generate_config (E := CliError) i nodes o = Panic)) ∧
  ((∀ i j p, (i < nodes)%nat → (j < nodes)%nat → p ∈ node_ports i → p ∈ node_ports j → i = j) ↔
   (nodes ≤ 1000)%nat).
Proof.
  intros Hn. split.
  - intros i Hi.
    assert (36536 ≤ Z.of_nat i → generate_config (E := CliError) i nodes o = Panic) as Hbig.
    { intros Hi'. unfold generate_config, METRICS_BASE_PORT. rewrite add64_small by lia. unfold try_u16.
      destruct (_ && _) eqn:E; [lia|done]. }
    split; [|done]. split.
    + intros (c & Hc & _). destruct (decide (Z.of_nat i < 36536)); [done|]. rewrite Hbig in Hc by lia. done.
    + intros Hi'. unfold generate_config. rewrite node_ports_small by lia. unfold METRICS_BASE_PORT.
      rewrite add64_small by lia. rewrite try_u16_id by (unfold is_u16; lia). eexists. split; [reflexivity|].
      cbn [ncf_metrics_port]. unfold is_u16. split; [lia|]. rewrite list_elem_of_In. simpl. auto.
  - split.
    + intros Hd. destruct (decide (nodes ≤ 1000)%nat) as [|Hgt]; [done|].
      assert (1000%nat = 0%nat) as Hc; [|lia].
      apply (Hd 1000%nat 0%nat 28000); try lia; rewrite node_ports_small by lia; rewrite list_elem_of_In; simpl; lia.
    + intros Hle i j p Hi Hj. rewrite !node_ports_small by lia. rewrite !list_elem_of_In. simpl. lia.
Qed.

(** The nodes of a testnet reach each other.  Without discovery every node
    has every other node's listening address among its peers; with discovery its
    peers are listening addresses of other nodes, and there is one as soon as
    there are two nodes.  In a distributed testnet each node dials the ones
    before it, on their machines; with discovery and a bootstrap set it still
    dials the one just before. *)
Theorem testnet_nodes_connect (nodes bset i j : nat) (o : NetOptions) (machines : list string)
    (ci cj di : NodeConfig) :
  (j < i)%nat → (i < nodes)%nat →
  generate_config (E := CliError) i nodes o = Ok ci → generate_config (E := CliError) j nodes o = Ok cj →
  generate_distributed_config (E := CliError) i machines bset o = Ok di →
  (no_enable_discovery o = false →
     p2p_listen_addr (ncf_consensus_p2p cj) ∈ p2p_persistent_peers (ncf_consensus_p2p ci) ∧
     p2p_listen_addr (ncf_consensus_p2p ci) ∈ p2p_persistent_peers (ncf_consensus_p2p cj)) ∧
  (no_enable_discovery o = true →
     p2p_persistent_peers (ncf_consensus_p2p ci) ≠ [] ∧
     ∀ p, p ∈ p2p_persistent_peers (ncf_consensus_p2p ci) →
       ∃ k, (k < nodes)%nat ∧ k ≠ i ∧ p = local_addr o CONSENSUS_BASE_PORT k) ∧
  (no_enable_discovery o = false ∨ (0 < bset)%nat ∧ i = S j →
     ∃ m, machines !! (j mod length machines)%nat = Some m ∧
       multiaddr (no_transport o) m (add64 CONSENSUS_BASE_PORT (Z.of_nat j))
         ∈ p2p_persistent_peers (ncf_consensus_p2p di)).
Proof using RL.
  intros Hji Hi Hci Hcj Hdi. unfold generate_config in Hci, Hcj. unfold generate_distributed_config in Hdi.
  destruct (try_u16 (add64 METRICS_BASE_PORT (Z.of_nat i))) as [mi|]; [|done].
  destruct (try_u16 (add64 METRICS_BASE_PORT (Z.of_nat j))) as [mj|]; [|done].
  apply obind_Ok in Hdi as (peers & Hpeers & Hdi). injection Hci as <-. injection Hcj as <-. injection Hdi as <-.
  cbn [ncf_consensus_p2p p2p_listen_addr p2p_persistent_peers]. split_and!.
  - intros ->. split; apply list_elem_of_fmap; eexists; (split; [reflexivity|]); apply others_spec; lia.
  - intros ->. pose proof (gen_range_in 1 (Z.of_nat nodes / 2)) as Hr.
    assert (1 ≤ Z.of_nat nodes / 2) as Hhalf by (apply Z.div_le_lower_bound; lia).
    destruct (Nat.ltb_spec 1 nodes) as [Hlt|]; [|lia]. split.
    + intros Hnil%fmap_nil_inv.
      pose proof (choose_multiple_length (others i nodes) (Z.to_nat (gen_range 1 (Z.of_nat nodes / 2)))) as Hlen.
      assert (choose_multiple (others i nodes) (Z.to_nat (gen_range 1 (Z.of_nat nodes / 2))) = []) as He.
      { apply elem_of_nil_inv. intros x Hx. apply (not_elem_of_nil x). rewrite <-Hnil. apply elem_of_unique.
        split; [done|]. apply not_elem_of_nil. }
      rewrite He in Hlen. simpl in Hlen. assert (j ∈ others i nodes) as Hj by (apply others_spec; lia).
      destruct (others i nodes); [by apply elem_of_nil in Hj|]. simpl in Hlen. lia.
    + intros p (k & -> & Hk)%list_elem_of_fmap. apply elem_of_unique in Hk as [Hk _].
      apply choose_multiple_in, others_spec in Hk as [? ?]. by exists k.
  - intros Hc. assert (j ∈ earlier_nodes o i bset) as Hj.
    { unfold earlier_nodes. destruct (no_enable_discovery o).
      - destruct Hc as [|[Hb ->]]; [done|]. apply elem_of_unique. split; [|apply not_elem_of_nil].
        apply elem_of_seq. lia.
      - apply elem_of_seq. lia. }
    apply omapM_Ok_iff in Hpeers. apply list_elem_of_lookup in Hj as [k Hk].
    destruct (Forall2_lookup_l _ _ _ _ _ Hpeers Hk) as (a & Ha & Hm). unfold machine_addr in Hm.
    destruct (machines !! _) as [m|] eqn:Hma; [|done]. injection Hm as <-. exists m. split; [done|].
    by eapply list_elem_of_lookup_2.
Qed.

(** A testnet without nodes has no genesis. *)
Lemma empty_testnet_panics (home : Path) (o : NetOptions) (det : bool) (w : World) :
  (testnet 0 home o det w).2 = Panic.
Proof. unfold testnet, generate_network, generate_private_keys. by destruct det. Qed.
End command_proofs.

(** ** Concrete inputs *)

Module Demo.
#[export] Instance ArchiverConfig_eq_dec : EqDecision ArchiverConfig.
Proof. solve_decision. Defined.
#[export] Instance BootstrapProtocol_eq_dec : EqDecision BootstrapProtocol.
Proof. solve_decision. Defined.
#[export] Instance Selector_eq_dec : EqDecision Selector.
Proof. solve_decision. Defined.
#[export] Instance DiscoveryConfig_eq_dec : EqDecision DiscoveryConfig.
Proof. solve_decision. Defined.
#[export] Instance P2pConfig_eq_dec : EqDecision P2pConfig.
Proof. solve_decision. Defined.
#[export] Instance SyncConfig_eq_dec : EqDecision SyncConfig.
Proof. solve_decision. Defined.
#[export] Instance LoggingConfig_eq_dec : EqDecision LoggingConfig.
Proof. solve_decision. Defined.
#[export] Instance RuntimeConfig_eq_dec : EqDecision RuntimeConfig.
Proof. solve_decision. Defined.
#[export] Instance NodeConfig_eq_dec : EqDecision NodeConfig.
Proof. solve_decision. Defined.
#[export] Instance ValidatorSet_eq_dec : EqDecision ValidatorSet.
Proof. solve_decision. Defined.

#[local] Existing Instance short_crypto.
#[local] Instance demo_addresses : AddressLib := {|
  multiaddr _ host port := (host +:+ ":" +:+ pretty (Z.to_N port))%string |}.
#[local] Instance demo_random : Random := {|
  seeded_key i := [Z.of_nat i]; os_key i := [100 + Z.of_nat i];
  gen_range lo _ := lo; choose_multiple l n := take n l |}.
Lemma demo_random_laws : RandomLaws demo_random.
Proof.
  constructor; simpl.
  - intros lo hi Hle. lia.
  - intros l n x. rewrite <-(take_drop n l) at 2. intros Hx. by apply elem_of_app; left.
  - intros l n. by rewrite length_take.
Qed.

Definition demo_net : NetOptions :=
  mkNetOptions SingleThreaded false BootFull SelectRandom 20 20 5000 Tcp (mkLogging "debug" "plaintext").
(** Files that hold the position of their content among those written here. *)
Definition demo_configs : list NodeConfig :=
  omap (λ i, match generate_config (E := string) i 2 demo_net with Ok c => Some c | _ => None end) [0%nat; 1%nat] ++
  match generate_config (E := string) 0 1 demo_net with Ok c => [c] | _ => [] end.
Definition demo_genesis_of (keys : list bytes) : list ValidatorSet :=
  match generate_genesis (E := string) keys with Ok vs => [vs] | _ => [] end.
Definition demo_geneses : list ValidatorSet := demo_genesis_of [[0]; [1]] ++ demo_genesis_of [[101]].
Definition render_in {T} `{EqDecision T} (l : list T) (x : T) : option bytes :=
  (λ i, [Z.of_nat i]) <$> position (λ y, bool_decide (y = x)) l.
Definition parse_in {T} (l : list T) (b : bytes) : option T :=
  match b with [z] => l !! Z.to_nat z | _ => None end.
#[local] Instance demo_formats : FileFormats := {|
  config_to_toml := render_in demo_configs; toml_to_config := parse_in demo_configs;
  genesis_to_json := render_in demo_geneses; json_to_genesis := parse_in demo_geneses;
  key_to_json k := Some k; json_to_key b := Some b |}.

Lemma render_parse {T} `{EqDecision T} (l : list T) (x : T) (b : bytes) :
  render_in l x = Some b → parse_in l b = Some x.
Proof.
  unfold render_in, parse_in. destruct (position _ l) as [i|] eqn:Hp; [|done]. intros [= <-].
  apply position_Some_lookup in Hp as (y & Hy & Hb & _). apply bool_decide_eq_true in Hb as ->. by rewrite Nat2Z.id.
Qed.
Lemma demo_formats_laws : FileFormatLaws demo_formats.
Proof. constructor; simpl; [by intros ?? ?%render_parse|by intros ?? ?%render_parse|by intros ?? [= ->]]. Qed.

Definition demo_world : World := mkWorld (mkFs ∅ []) 0.
Definition demo_testnet : World * outcome CliError unit := testnet 2 ["home"%string] demo_net true demo_world.

#[local] Instance demo_execution : ExecutionGenesisLib := {|
  Alloc := unit;
  parse_execution_genesis _ := Some (mkExecutionGenesis (mkChainConfig (Some 0) (Some 0) (Some 0) (Some 0)) 0 0 [] 30
    0 B256_ZERO (zeros 20) tt None None None None None);
  state_root_ref_unhashed _ := B256_ZERO; hash_slow _ := replicate 32 5;
  INITIAL_BASE_FEE := 1000000000; EMPTY_WITHDRAWALS := B256_ZERO; EMPTY_REQUESTS_HASH := B256_ZERO |}.
Definition demo_vars : Vars :=
  λ k, if decide (k = "ULTRAMARINE_ARCHIVER_BEARER_TOKEN"%string) then Some "secret"%string else None.
#[local] Existing Instances shelf_rocksdb demo_merkle archive_codecs demo_api.
Definition empty_engine : BlobEngineImpl := mkEngine (mkBlobDb ∅ ∅ []) demo_metrics.
Definition demo_env : Environment BlobEngineImpl :=
  mkEnvironment BlobEngineImpl demo_vars None
    (λ p, Some (if decide (p = "./assets/jwtsecret"%string) then zeros 32 else [1]))
    (Err EmptyString) (Err EmptyString) (Err EmptyString) (Ok tt) (Ok (empty_store [])) (Ok empty_engine)
    (Ok tt) (Ok tt).
Definition demo_start : StartCmd := mkStartCmd None None None (Some "el.json"%string) None.
Definition demo_genesis_metadata : BlobMetadata :=
  Eval vm_compute in match BlobMetadata_genesis (E := string) with Ok g => g | _ => demo_metadata end.
Definition demo_genesis_bytes : bytes :=
  match encode demo_genesis_metadata with Ok b => b | _ => [] end.

Lemma testnet_nodes_start_witness :
  ∃ c ao b sd, start_app (wd_fs demo_testnet.1) (node_args ["home"%string] 1) demo_start (no_logging demo_net) = Ok (c, ao) ∧
    start false false ao (home_environment (wd_fs demo_testnet.1) (node_home ["home"%string] 1) demo_env) 0 [] []
      = (Some b, Ok sd) ∧
    s_current_height (nd_state (sd_node sd)) = 1 ∧ sd_jobs sd = [] ∧ demo_testnet.2 = Ok tt.
Proof.
  assert (demo_testnet.2 = Ok tt) as Hok by (vm_compute; reflexivity).
  destruct (testnet_nodes_start (FL := demo_formats_laws) (RL := demo_random_laws) 2 0 ["home"%string]
    demo_net [] true demo_world demo_testnet.1) as (keys & vs & Hlen & Hk).
  { left. rewrite (surjective_pairing (testnet _ _ _ _ _)). f_equal. }
  destruct keys as [|k0 [|k1 [|]]]; try discriminate.
  destruct (Hk 1%nat k1 eq_refl) as [_ Hstart].
  destruct (Hstart demo_start (no_logging demo_net) demo_env "secret"%string "el.json"%string
    (mkExecutionBlock (replicate 32 5) 0 B256_ZERO 0 load_prev_randao) empty_engine (zeros 32) (zeros 32)
    demo_genesis_metadata demo_genesis_bytes 0 0 (from_response_strings ULTRAMARINE_CAPABILITIES) [] [])
    as (c & ao & b & sd & Hc & Hs & Hst & _ & Hj & _);
    [vm_compute; reflexivity..|repeat split; vm_compute; reflexivity|].
  exists c, ao, b, sd. split; [exact Hc|]. split; [exact Hs|]. split; [rewrite Hst; reflexivity|].
  split; [exact Hj|exact Hok].
Defined.

Definition demo_init : World * outcome CliError unit :=
  init_command (mkArgs (Some ["home"%string]) None) demo_net false demo_world.
Lemma init_excludes_node_witness :
  demo_init.2 = Ok tt ∧ ∃ key vs,
    load_private_key_file (wd_fs demo_init.1) (config_path ["home"%string] PRIV_VALIDATOR_KEY_FILE) = Ok key ∧
    load_genesis (wd_fs demo_init.1) (config_path ["home"%string] GENESIS_FILE) = Ok vs ∧ vs_count vs = 1 ∧
    get_by_address vs (Address_from_public_key (ed25519_public key)) = None.
Proof.
  assert (demo_init.2 = Ok tt) as Hok by (vm_compute; reflexivity). split; [exact Hok|].
  apply (init_excludes_node (FL := demo_formats_laws) demo_net false ["home"%string] demo_world demo_init.1).
  - reflexivity.
  - rewrite (surjective_pairing (init_command _ _ _ _)). f_equal.
  - vm_compute. discriminate.
Defined.

Lemma testnet_ports_witness :
  generate_config (E := CliError) (Z.to_nat 36536) (Z.to_nat 40000) demo_net = Panic ∧
  ¬ (∀ i j p, (i < 1001)%nat → (j < 1001)%nat → p ∈ node_ports i → p ∈ node_ports j → i = j).
Proof.
  split.
  - apply (proj1 (testnet_ports (Z.to_nat 40000) demo_net ltac:(lia)) (Z.to_nat 36536)); lia.
  - intros H. apply (proj2 (testnet_ports 1001 demo_net ltac:(lia))) in H. lia.
Defined.

Definition demo_config (i : nat) : option NodeConfig :=
  match generate_config (E := CliError) i 2 demo_net with Ok c => Some c | _ => None end.
Lemma testnet_nodes_connect_witness :
  ∃ c d, generate_config (E := CliError) 1 2 demo_net = Ok c ∧
    generate_distributed_config (E := CliError) 1 ["10.0.0.1"; "10.0.0.2"]%string 1 demo_net = Ok d ∧
    "127.0.0.1:27000"%string ∈ p2p_persistent_peers (ncf_consensus_p2p c) ∧
    "10.0.0.1:27000"%string ∈ p2p_persistent_peers (ncf_consensus_p2p d).
Proof.
  assert (∃ c, generate_config (E := CliError) 1 2 demo_net = Ok c) as [c Hc] by (eexists; reflexivity).
  assert (∃ c, generate_config (E := CliError) 0 2 demo_net = Ok c) as [c0 Hc0] by (eexists; reflexivity).
  assert (∃ d, generate_distributed_config (E := CliError) 1 ["10.0.0.1"; "10.0.0.2"]%string 1 demo_net = Ok d)
    as [d Hd] by (eexists; reflexivity).
  destruct (testnet_nodes_connect (RL := demo_random_laws) 2 1 1 0 demo_net ["10.0.0.1"; "10.0.0.2"]%string c c0 d
    ltac:(lia) ltac:(lia) Hc Hc0 Hd) as (H1 & _ & H3).
  exists c, d. split; [exact Hc|]. split; [exact Hd|]. destruct (H1 eq_refl) as [Hp _].
  destruct (H3 (or_introl eq_refl)) as (m & Hm & Hp'). injection Hm as <-. split; [|exact Hp'].
  revert Hp. injection Hc0 as <-. vm_compute. exact id.
Defined.

(** Flavours of the runtime, as given on the command line. *)
Lemma flavours :
  RuntimeFlavour_from_str "single-threaded" = Ok FSingleThreaded ∧
  RuntimeFlavour_from_str "multi-threaded" = Ok (FMultiThreaded 0) ∧
  RuntimeFlavour_from_str "multi-threaded:8" = Ok (FMultiThreaded 8) ∧
  RuntimeFlavour_from_str "multi-threaded:x" = Err "Invalid number of threads"%string ∧
  RuntimeFlavour_from_str "single-threaded:1" = Err "Invalid runtime flavour"%string.
Proof. by vm_compute. Qed.
End Demo.
