(* ===== verification/Spam.v ===== *)
(** * The load generator ([crates/utils])

    Transactions with generated blobs ([tx.rs]) and the command that sends them
    to a node at a given rate ([commands/spam.rs]): the sender's loop with its
    nonces and limits, and the tracker that counts results.  The KZG library,
    the signer, the transaction encoding and the HTTP exchange are parameters;
    what a run needs of a clock is the interface of [Client.v]. *)
From Stdlib Require Import Ascii.
From stdpp Require Import pretty.
From S2P Require Import Prelude Text Files Types Votes Client Transport Startup Genesis.
Open Scope Z_scope.

(** ** Test blobs ([tx.rs]) *)

(** [chunk_idx]-th field element: three bytes are set, the others are zero. *)
Definition test_chunk (blob_index chunk_idx : nat) : bytes :=
  [((Z.of_nat blob_index mod 256) * 17) mod 256;
   ((Z.of_nat chunk_idx mod 256) * 31) mod 256;
   ((Z.of_nat (blob_index + chunk_idx) mod 256) * 13) mod 256] ++ zeros 29.

(** [CKzgBlob::from_bytes] checks the length. *)
Definition generate_test_blob (blob_index : nat) : outcome string bytes :=
  let data := concat (test_chunk blob_index <$> seq 0 4096) in
  if Z.of_nat (length data) =? BYTES_PER_BLOB then Ok data else Err "Failed to create blob"%string.

(** [c_kzg]: commitments and proofs of blobs under the loaded trusted setup. *)
Class CKzg := {
  blob_to_kzg_commitment : bytes → string + KzgCommitment;
  compute_blob_kzg_proof : bytes → KzgCommitment → string + bytes }.

Definition of_sum {A} (r : string + A) : outcome string A :=
  match r with inl e => Err e | inr a => Ok a end.

Section transactions.
Context `{Crypto} `{CKzg}.

Definition blob_with_kzg (i : nat) : outcome string (bytes * KzgCommitment * bytes) :=
  let? blob := generate_test_blob i in
  let? commitment := of_sum (blob_to_kzg_commitment blob) in
  let? proof := of_sum (compute_blob_kzg_proof blob commitment) in
  Ok (blob, commitment, proof).

Definition generate_blobs_with_kzg (blob_count : nat)
    : outcome string (list bytes * list KzgCommitment * list bytes * list B256) :=
  let? made := omapM blob_with_kzg (seq 0 blob_count) in
  let commitments := (λ b, b.1.2) <$> made in
  Ok ((λ b, b.1.1) <$> made, commitments, snd <$> made, versioned_hash <$> commitments).

(** [copy_from_slice] panics when the lengths differ. *)
Definition fixed_bytes (n : Z) (b : bytes) : outcome string bytes :=
  if Z.of_nat (length b) =? n then Ok b else Panic.
Definition convert_to_alloy_blob : bytes → outcome string bytes := fixed_bytes BYTES_PER_BLOB.
Definition convert_to_alloy_commitment : KzgCommitment → outcome string bytes := fixed_bytes 48.
Definition convert_to_alloy_proof : bytes → outcome string bytes := fixed_bytes 48.

Record TxEip1559 := mkTx1559 {
  t2_chain_id : Z; t2_nonce : Z; t2_max_priority_fee_per_gas : Z; t2_max_fee_per_gas : Z;
  t2_gas_limit : Z; t2_to : Address; t2_value : Z; t2_input : bytes; t2_access_list : list (Address * list B256) }.
Record TxEip4844 := mkTx4844 {
  t3_chain_id : Z; t3_nonce : Z; t3_max_priority_fee_per_gas : Z; t3_max_fee_per_gas : Z;
  t3_gas_limit : Z; t3_to : Address; t3_value : Z; t3_input : bytes; t3_access_list : list (Address * list B256);
  t3_blob_versioned_hashes : list B256; t3_max_fee_per_blob_gas : Z }.
Record BlobTransactionSidecar := mkTxSidecar {
  ts_blobs : list bytes; ts_commitments : list bytes; ts_proofs : list bytes }.
Inductive TxEnvelope :=
| Eip1559 (tx : TxEip1559) (sig : bytes)
| Eip4844 (tx : TxEip4844) (sidecar : BlobTransactionSidecar) (sig : bytes).

(** [PrivateKeySigner] of [alloy], and the encoding of a signed transaction. *)
Class SignerLib (K : Type) := {
  signer_from_slice : bytes → string + K;
  signer_from_mnemonic : string → option K;
  signer_address : K → Address;
  sign_eip1559 : K → TxEip1559 → string + bytes;
  sign_eip4844 : K → TxEip4844 → string + bytes;
  encoded_2718 : TxEnvelope → bytes }.
Context {K : Type} `{SignerLib K}.

Definition make_eip1559_tx (nonce : Z) (to : Address) (chain_id : Z) : TxEip1559 :=
  mkTx1559 chain_id nonce 1000000000 20000000000 21000 to 100000000000000 [] [].

Definition make_signed_eip1559_tx (signer : K) (nonce : Z) (to : Address) (chain_id : Z)
    : outcome string TxEnvelope :=
  let tx := make_eip1559_tx nonce to chain_id in
  let? signature := of_sum (sign_eip1559 signer tx) in
  Ok (Eip1559 tx signature).

Definition make_eip4844_tx (nonce : Z) (to : Address) (chain_id : Z) (blob_count : nat)
    : outcome string (TxEip4844 * list bytes * list KzgCommitment * list bytes) :=
  if negb ((1 <=? blob_count) && (blob_count <=? 1024))%nat then Err "blob_count must be between 1 and 1024"%string
  else
    let? generated := generate_blobs_with_kzg blob_count in
    let '(blobs, commitments, proofs, versioned_hashes) := generated in
    Ok (mkTx4844 chain_id nonce 1000000000 20000000000 21000 to 100000000000000 [] [] versioned_hashes 20000000000,
        blobs, commitments, proofs).

Definition make_signed_eip4844_tx (signer : K) (nonce : Z) (to : Address) (chain_id : Z) (blob_count : nat)
    : outcome string TxEnvelope :=
  let? made := make_eip4844_tx nonce to chain_id blob_count in
  let '(tx, blobs, commitments, proofs) := made in
  let? signature := of_sum (sign_eip4844 signer tx) in
  let? blobs := omapM convert_to_alloy_blob blobs in
  let? commitments := omapM convert_to_alloy_commitment commitments in
  let? proofs := omapM convert_to_alloy_proof proofs in
  Ok (Eip4844 tx (mkTxSidecar blobs commitments proofs) signature).
End transactions.

(** ** The node's JSON-RPC ([RpcClient]) *)

(** [request.send()], the check of the status and the decoding of the body are
    [reqwest]'s; [value_string] is [serde_json::from_value::<String>]. *)
Record JsonResponseBody (J : Type) := mkBody { jb_error : option (Z * string); jb_result : J }.
Arguments mkBody {J}. Arguments jb_error {J}. Arguments jb_result {J}.
Class SpamHttp (W J : Type) := {
  spam_post : string → JsonRpcRequest J → W → Io W (JsonResponseBody J);
  value_strings : list string → J;
  value_string : J → option string }.

Definition RPC_TIMEOUT : Z := 30000.
Definition hex_digits_value (l : list ascii) : option Z :=
  foldl (λ acc a, a0 ← acc; d ← hex_value a; Some (a0 * 16 + d)) (Some 0) l.
(** [u64::from_str_radix(_, 16)]: digits after an optional plus sign *)
Definition u64_from_hex (s : string) : option Z :=
  let l := match String.list_ascii_of_string s with "+"%char :: l => l | l => l end in
  match l with
  | [] => None
  | _ => z ← hex_digits_value l; if z <? 2^64 then Some z else None
  end.
Definition strip_0x (s : string) : string :=
  match strip_prefix ["0"; "x"]%char (String.list_ascii_of_string s) with
  | Some l => String.string_of_list_ascii l
  | None => s
  end.

Section rpc.
Context {W J : Type} `{Timer W} `{SpamHttp W J}.

Definition rpc_request (url method : string) (params : J) (w : W) : W * (string + J) :=
  then_ (timeout RPC_TIMEOUT (spam_post url (JsonRpcRequest_new method params)) w) (λ body w,
  match jb_error body with
  | Some (code, message) =>
      (w, inl ("Server Error " +:+ pretty code +:+ ": " +:+ message))
  | None => (w, inr (jb_result body))
  end).
Definition rpc_string (url method : string) (params : J) (w : W) : W * (string + string) :=
  then_ (rpc_request url method params w) (λ v w,
  match value_string v with Some s => (w, inr s) | None => (w, inl "invalid type"%string) end).
Definition rpc_u64 (url method : string) (params : J) (w : W) : W * (string + Z) :=
  then_ (rpc_string url method params w) (λ s w,
  match u64_from_hex (strip_0x s) with Some z => (w, inr z) | None => (w, inl "invalid digit"%string) end).
End rpc.

(** ** The sender ([Spammer]) *)

Record Spammer (K : Type) := mkSpammer {
  sp_url : string; sp_chain_id : Z; sp_signer : K; sp_max_num_txs : Z; sp_max_time : Z; sp_max_rate : Z;
  sp_blobs : bool; sp_blobs_per_tx : nat }.
Arguments mkSpammer {K}. Arguments sp_url {K}. Arguments sp_chain_id {K}. Arguments sp_signer {K}.
Arguments sp_max_num_txs {K}. Arguments sp_max_time {K}. Arguments sp_max_rate {K}. Arguments sp_blobs {K}.
Arguments sp_blobs_per_tx {K}.

Definition signer_of_key {K} `{SignerLib K} (pk : string) : outcome string K :=
  let? bytes := match hex_decode (strip_0x pk) with
                | Some b => if (length b =? 32)%nat then Ok b else Err "invalid --private-key (expected 32-byte hex)"%string
                | None => Err "invalid --private-key (expected 32-byte hex)"%string
                end in
  of_sum (signer_from_slice bytes).

Definition spam_signers {K} `{SignerLib K} : outcome string (list K) :=
  omapM (λ m, match signer_from_mnemonic m with Some k => Ok k | None => Panic end) TEST_MNEMONICS.

Definition Spammer_new {K} `{SignerLib K} (url : string) (chain_id max_num_txs max_time max_rate : Z) (blobs : bool)
    (blobs_per_tx signer_index : nat) (private_key : option string) : outcome string (Spammer K) :=
  if blobs && negb ((1 <=? blobs_per_tx) && (blobs_per_tx <=? 1024))%nat
  then Err "blobs_per_tx must be between 1 and 1024"%string
  else
    let? signer := match private_key with
                   | Some pk => signer_of_key pk
                   | None => let? signers := spam_signers in
                             ok_or (signers !! signer_index) "Invalid signer index"%string
                   end in
    Ok (mkSpammer url chain_id signer max_num_txs max_time max_rate blobs blobs_per_tx).

(** An attempt to send: the nonce it used, to whom, and what the tracker is told. *)
Record Sent := mkSent { sn_nonce : Z; sn_to : Address; sn_result : string + Z }.
(** The loop's variables; [pr_log] holds the attempts of each tick, the latest
    first in both lists. *)
Record Progress (W : Type) := mkProgress {
  pr_world : W; pr_nonce : Z; pr_total : Z; pr_log : list (list Sent); pr_reports : list Z }.
Arguments mkProgress {W}. Arguments pr_world {W}. Arguments pr_nonce {W}. Arguments pr_total {W}.
Arguments pr_log {W}. Arguments pr_reports {W}.

(** Whether the tracker has taken the last report, so that the channel has room
    for one. *)
Class Reports (W : Type) := { report_room : W → bool }.

Inductive TxError := AlreadyKnown | NonceBehind | InsufficientFunds | OtherError.
Definition classify (err_msg : string) : TxError :=
  if str_contains "already known" err_msg then AlreadyKnown
  else if str_contains "nonce too low" err_msg || str_contains "replacement transaction underpriced" err_msg
  then NonceBehind
  else if str_contains "insufficient funds" err_msg then InsufficientFunds
  else OtherError.

Section spammer.
Context {W J K : Type} {TM : Timer W} {SH : SpamHttp W J} {SL : SignerLib K} {RP : Reports W}
  {CR : Crypto} {CK : CKzg}.
Local Abbreviation SpamM := (M (Progress W) string).

Definition on_world {A} (op : W → W * A) : SpamM A := λ s,
  let (w, a) := op (pr_world s) in
  (mkProgress w (pr_nonce s) (pr_total s) (pr_log s) (pr_reports s), Ok a).
Definition set_nonce (f : Z → Z) : SpamM unit :=
  modify (λ s, mkProgress (pr_world s) (f (pr_nonce s)) (pr_total s) (pr_log s) (pr_reports s)).
(** A transaction the node has: the next one takes the next nonce. *)
Definition count_sent : SpamM unit :=
  modify (λ s, mkProgress (pr_world s) (add64 (pr_nonce s) 1) (add64 (pr_total s) 1) (pr_log s) (pr_reports s)).
Definition begin_batch : SpamM unit :=
  modify (λ s, mkProgress (pr_world s) (pr_nonce s) (pr_total s) ([] :: pr_log s) (pr_reports s)).
Definition send_result (x : Sent) : SpamM unit :=
  modify (λ s, mkProgress (pr_world s) (pr_nonce s) (pr_total s)
    match pr_log s with b :: log => (x :: b) :: log | [] => [[x]] end (pr_reports s)).

Variable sp : Spammer K.

Definition get_latest_nonce (w : W) : W * (string + Z) :=
  rpc_u64 (sp_url sp) "eth_getTransactionCount"
    (value_strings [hex0x (signer_address (sp_signer sp)); "pending"%string]) w.

Definition resync_nonce : SpamM unit :=
  let* latest := on_world get_latest_nonce in
  match latest with
  | inr latest => set_nonce (λ nonce, Z.max nonce latest)
  | inl _ => ret tt
  end.

Definition exit_due (start_time : Z) (s : Progress W) : bool :=
  ((0 <? sp_max_num_txs sp) && (sp_max_num_txs sp <=? pr_total s)) ||
  ((0 <? sp_max_time sp) && (sp_max_time sp <=? (now_ms (pr_world s) - start_time) / 1000)).

Definition with_last_byte (b : Z) : Address := zeros 19 ++ [b].
Definition make_tx (nonce : Z) (to_address : Address) : outcome string TxEnvelope :=
  if sp_blobs sp
  then make_signed_eip4844_tx (sp_signer sp) nonce to_address (sp_chain_id sp) (sp_blobs_per_tx sp)
  else make_signed_eip1559_tx (sp_signer sp) nonce to_address (sp_chain_id sp).

(** The body of the inner loop. *)
Definition send_one : SpamM unit :=
  let* s := get in
  let to_address := with_last_byte (pr_total s mod 256) in
  let* signed_tx := lift (make_tx (pr_nonce s) to_address) in
  let tx_bytes := encoded_2718 signed_tx in
  let* answer := on_world (rpc_string (sp_url sp) "eth_sendRawTransaction" (value_strings [hex0x tx_bytes])) in
  match answer with
  | inr _ => count_sent ;;; send_result (mkSent (pr_nonce s) to_address (inr (Z.of_nat (length tx_bytes))))
  | inl err_msg =>
    match classify err_msg with
    | AlreadyKnown => count_sent
    | NonceBehind => resync_nonce
    | InsufficientFunds => fail err_msg
    | OtherError => ret tt
    end ;;; send_result (mkSent (pr_nonce s) to_address (inl err_msg))
  end.

(** Each round of the inner loop counts one attempt, so [max_rate] rounds are
    all it can make. *)
Fixpoint send_batch (rounds : nat) (start_time : Z) : SpamM unit :=
  match rounds with
  | O => ret tt
  | S rounds => let* s := get in
              if exit_due start_time s then ret tt else send_one ;;; send_batch rounds start_time
  end.

(** [interval.tick()]: until [due]; the next tick is due a second after it. *)
Definition interval_tick (due : Z) : SpamM unit :=
  on_world (λ w, (if now_ms w <? due then sleep_ms (due - now_ms w) w else w, tt)).

(** A round of the outer loop; [true]: the loop is left. *)
Definition spam_tick (start_time due : Z) : SpamM bool :=
  interval_tick due ;;;
  begin_batch ;;;
  let* interval_start := on_world (λ w, (w, now_ms w)) in
  resync_nonce ;;;
  send_batch (Z.to_nat (sp_max_rate sp)) start_time ;;;
  on_world (λ w, (sleep_ms 20 w, tt)) ;;;
  let* room := on_world (λ w, (w, report_room w)) in
  when (negb room) (fail "no available capacity"%string) ;;;
  modify (λ s, mkProgress (pr_world s) (pr_nonce s) (pr_total s) (pr_log s) (interval_start :: pr_reports s)) ;;;
  let* s := get in
  ret (exit_due start_time s).

(** [fuel] bounds the number of ticks; [false]: still running after them. *)
Fixpoint spam_loop (fuel : nat) (start_time due : Z) : SpamM bool :=
  match fuel with
  | O => ret false
  | S fuel => let* finished := spam_tick start_time due in
              if finished : bool then ret true else spam_loop fuel start_time (due + 1000)
  end.

Definition spammer (fuel : nat) : SpamM bool :=
  let* latest := on_world get_latest_nonce in
  match latest with
  | inl e => fail e
  | inr latest_nonce =>
    set_nonce (λ _, latest_nonce) ;;;
    let* start_time := on_world (λ w, (w, now_ms w)) in
    spam_loop fuel start_time start_time
  end.
End spammer.

(** [SpamCmd::run]: the chain id is given or asked for. *)
Record SpamCmd := mkSpamCmd {
  sc_rpc_url : string; sc_chain_id : option Z; sc_num_txs : Z; sc_rate : Z; sc_time : Z; sc_blobs : bool;
  sc_blobs_per_tx : nat; sc_signer_index : nat; sc_private_key : option string }.
Definition SpamCmd_default : SpamCmd := mkSpamCmd "http://127.0.0.1:8545" None 0 1000 0 false 128 0 None.

Definition SpamCmd_run {W J K : Type} `{Timer W} `{SpamHttp W J} `{SignerLib K} `{Reports W} `{Crypto} `{CKzg}
    (cmd : SpamCmd) (fuel : nat) (w : W) : W * outcome string (list (list Sent) * bool) :=
  let (w, chain_id) := match sc_chain_id cmd with
                       | Some id => (w, inr id)
                       | None => rpc_u64 (sc_rpc_url cmd) "eth_chainId" (value_strings []) w
                       end in
  match chain_id with
  | inl e => (w, Err e)
  | inr chain_id =>
    match Spammer_new (sc_rpc_url cmd) chain_id (sc_num_txs cmd) (sc_time cmd) (sc_rate cmd) (sc_blobs cmd)
            (sc_blobs_per_tx cmd) (sc_signer_index cmd) (sc_private_key cmd) with
    | Ok sp => let (s, r) := spammer sp fuel (mkProgress w 0 0 [] []) in
               (pr_world s, let? finished := r in Ok (pr_log s, finished))
    | Err e => (w, Err e)
    | Panic => (w, Panic)
    end
  end.

(** ** The tracker *)

(** The start time, which is only printed, is left out. *)
Record Stats := mkStats { st_succeed : Z; st_bytes : Z; st_errors : gmap string Z }.
Definition Stats_new : Stats := mkStats 0 0 ∅.
Definition incr_ok (tx_length : Z) (s : Stats) : Stats :=
  mkStats (add64 (st_succeed s) 1) (add64 (st_bytes s) tx_length) (st_errors s).
(** [entry(error).and_modify(+= count).or_insert(count)] *)
Definition add_error (error : string) (count : Z) (m : gmap string Z) : gmap string Z :=
  <[error := match m !! error with Some c => add64 c count | None => count end]> m.
Definition incr_err (error : string) (s : Stats) : Stats :=
  mkStats (st_succeed s) (st_bytes s) (add_error error 1 (st_errors s)).
Definition Stats_add (s other : Stats) : Stats :=
  mkStats (add64 (st_succeed s) (st_succeed other)) (add64 (st_bytes s) (st_bytes other))
    (map_fold add_error (st_errors s) (st_errors other)).
Definition Stats_reset (_ : Stats) : Stats := Stats_new.

(** What is in the three channels, and the tracker's two counters; [tr_done] once
    it has left its loop. *)
Record Tracker := mkTracker {
  tr_results : list (string + Z); tr_reports : nat; tr_finish : bool;
  tr_total : Stats; tr_last : Stats; tr_done : bool }.
Definition count_result (res : string + Z) (s : Stats) : Stats :=
  match res with inr tx_length => incr_ok tx_length s | inl error => incr_err error s end.

(** [tokio::select!] takes any channel that has something; the sender may put
    something in a channel at any time until it has finished, or has failed and
    dropped its ends.  A step is labelled
    with the results it puts. *)
Inductive track_step : Tracker → list (string + Z) → Tracker → Prop :=
| recv_result res rs n f t l :
    track_step (mkTracker (res :: rs) n f t l false) [] (mkTracker rs n f t (count_result res l) false)
| recv_report rs n f t l :
    track_step (mkTracker rs (S n) f t l false) [] (mkTracker rs n f (Stats_add t l) (Stats_reset l) false)
| recv_finish rs n t l :
    track_step (mkTracker rs n true t l false) [] (mkTracker rs n true t l true)
| put_result res rs n t l d :
    track_step (mkTracker rs n false t l d) [res] (mkTracker (rs ++ [res]) n false t l d)
| put_report rs t l d :
    track_step (mkTracker rs 0 false t l d) [] (mkTracker rs 1 false t l d)
| put_finish rs n t l d :
    track_step (mkTracker rs n false t l d) [] (mkTracker rs n true t l d).

Definition tracker_init : Tracker := mkTracker [] 0 false Stats_new Stats_new false.
Inductive track_run : list (string + Z) → Tracker → Prop :=
| track_start : track_run [] tracker_init
| track_next sent t put t' : track_run sent t → track_step t put t' → track_run (sent ++ put) t'.

(** *** [utils genesis] *)

Definition GenesisCmd_run `{WalletLib} {L : ExecutionGenesisLib} {J : GenesisJson L} (now : option Z) (output : Path)
    (chain_id : Z) (fs : Fs) : Fs * outcome string unit :=
  match build_dev_genesis now chain_id with
  | Ok genesis => write_genesis output genesis fs
  | Err e => (fs, Err e)
  | Panic => (fs, Panic)
  end.

(** ** Test blobs and the transactions that carry them *)

Definition BLS_MODULUS : Z := 0x73eda753299d7d483339d80809a1d80553bda402fffe5bfeffffffff00000001.
(** A blob is 4096 field elements, each 32 bytes with the most significant one
    first (EIP-4844, [KZG_ENDIANNESS]). *)
Definition field_element (blob : bytes) (k : nat) : Z := of_be (take 32 (drop (32 * k) blob)).
Definition canonical (blob : bytes) : Prop := Forall (λ k, field_element blob k < BLS_MODULUS) (seq 0 4096).
#[export] Instance canonical_dec (blob : bytes) : Decision (canonical blob).
Proof. unfold canonical. apply _. Defined.

(** A blob has a commitment when its field elements are canonical; it then has a
    proof. *)
Class CKzgLaws (C : CKzg) : Prop := {
  commit_canonical : ∀ b, Z.of_nat (length b) = BYTES_PER_BLOB → canonical b →
    ∃ c p, blob_to_kzg_commitment b = inr c ∧ length c = 48%nat ∧
           compute_blob_kzg_proof b c = inr p ∧ length p = 48%nat;
  commit_not_canonical : ∀ b, ¬ canonical b → ∃ e, blob_to_kzg_commitment b = inl e }.

Lemma length_concat_uniform {A} (n : nat) (l : list (list A)) :
  Forall (λ x, length x = n) l → length (concat l) = (n * length l)%nat.
Proof. induction 1 as [|x l Hx _ IH]; simpl; [lia|]. rewrite length_app, Hx, IH. lia. Qed.

Lemma concat_uniform_slice {A} (n : nat) (l : list (list A)) (k : nat) (x : list A) :
  Forall (λ x, length x = n) l → l !! k = Some x → take n (drop (n * k) (concat l)) = x.
Proof.
  intros Hl. revert k. induction Hl as [|y l Hy _ IH]; intros k Hk; [done|].
  destruct k as [|k]; simpl in *.
  - injection Hk as ->. rewrite Nat.mul_0_r, drop_0. by rewrite take_app_length'.
  - rewrite drop_app_ge by lia. replace (n * S k - length y)%nat with (n * k)%nat by lia. by apply IH.
Qed.

Definition test_data (i : nat) : bytes := concat (test_chunk i <$> seq 0 4096).
Lemma test_chunks_uniform (i : nat) : Forall (λ x, length x = 32%nat) (test_chunk i <$> seq 0 4096).
Proof. apply Forall_fmap, Forall_true. intros k. reflexivity. Qed.
Lemma test_data_length (i : nat) : Z.of_nat (length (test_data i)) = BYTES_PER_BLOB.
Proof.
  unfold test_data. rewrite (length_concat_uniform 32) by apply test_chunks_uniform.
  rewrite length_fmap, length_seq, Nat2Z.inj_mul. reflexivity.
Qed.
Lemma generate_test_blob_Ok (i : nat) : generate_test_blob i = Ok (test_data i).
Proof. unfold generate_test_blob. fold (test_data i). by rewrite test_data_length, Z.eqb_refl. Qed.

Lemma test_data_slice (i k : nat) : (k < 4096)%nat → take 32 (drop (32 * k) (test_data i)) = test_chunk i k.
Proof.
  intros Hk. apply concat_uniform_slice; [apply test_chunks_uniform|].
  rewrite list_lookup_fmap, lookup_seq_lt by done. reflexivity.
Qed.

(** The first byte of a field element decides, since the modulus starts with
    115. *)
Lemma test_chunk_value (i k : nat) :
  let b := (Z.of_nat i mod 256 * 17) mod 256 in
  b * 256^31 ≤ of_be (test_chunk i k) < (b + 1) * 256^31.
Proof.
  intros b. unfold test_chunk. fold b.
  pose proof (Z.mod_pos_bound (Z.of_nat k mod 256 * 31) 256 eq_refl) as H1.
  pose proof (Z.mod_pos_bound (Z.of_nat (i + k) mod 256 * 13) 256 eq_refl) as H2.
  set (b1 := (Z.of_nat k mod 256 * 31) mod 256) in *. set (b2 := (Z.of_nat (i + k) mod 256 * 13) mod 256) in *.
  clearbody b b1 b2. unfold of_be. cbn [app foldl zeros replicate]. lia.
Qed.

Lemma test_blob_canonical (i : nat) : (i < 7)%nat → canonical (test_data i).
Proof.
  intros Hi. unfold canonical. apply Forall_forall. intros k Hk. apply elem_of_seq in Hk.
  unfold field_element. rewrite test_data_slice by lia. destruct (test_chunk_value i k) as [_ Hv].
  rewrite (Z.mod_small (Z.of_nat i)), Z.mod_small in Hv by lia. unfold BLS_MODULUS. lia.
Qed.
Lemma test_blob_7 : ¬ canonical (test_data 7).
Proof.
  unfold canonical. intros Hc. rewrite Forall_forall in Hc. specialize (Hc 0%nat). unfold field_element in Hc.
  rewrite test_data_slice in Hc by lia. pose proof (Hc ltac:(apply elem_of_seq; lia)) as Hv.
  vm_compute in Hv. discriminate Hv.
Qed.
Lemma test_data_inj (i j : nat) : (i < 256)%nat → (j < 256)%nat → test_data i = test_data j → i = j.
Proof.
  intros Hi Hj He. assert (test_chunk i 0 = test_chunk j 0) as Hc.
  { rewrite <-(test_data_slice i 0), <-(test_data_slice j 0) by lia. by rewrite He. }
  injection Hc as Hb _. rewrite (Z.mod_small (Z.of_nat i)), (Z.mod_small (Z.of_nat j)) in Hb by lia.
  apply (f_equal (λ z, (z * 241) mod 256)) in Hb. rewrite !Zmult_mod_idemp_l in Hb.
  rewrite <-!Z.mul_assoc in Hb. change (17 * 241) with 4097 in Hb.
  replace (Z.of_nat i * 4097) with (Z.of_nat i + Z.of_nat i * 16 * 256) in Hb by lia.
  replace (Z.of_nat j * 4097) with (Z.of_nat j + Z.of_nat j * 16 * 256) in Hb by lia.
  rewrite !Z.mod_add, !Z.mod_small in Hb by lia. lia.
Qed.

#[local] Opaque test_data.
Section blob_transactions.
Context {CR : Crypto} {CK : CKzg} {CL : CKzgLaws CK} {K : Type} {SL : SignerLib K}.

Lemma blob_with_kzg_Ok (i : nat) :
  (i < 7)%nat → ∃ c p, blob_with_kzg i = Ok (test_data i, c, p) ∧ length c = 48%nat ∧ length p = 48%nat.
Proof using CL.
  intros Hi. destruct (commit_canonical _ (test_data_length i) (test_blob_canonical i Hi)) as (c & p & Hc & Hlc & Hp & Hlp).
  exists c, p. unfold blob_with_kzg. rewrite generate_test_blob_Ok. simpl. rewrite Hc. simpl. by rewrite Hp.
Qed.

Lemma blobs_made (n from : nat) :
  (from + n ≤ 7)%nat → ∃ made, omapM blob_with_kzg (seq from n) = Ok made ∧
    fst ∘ fst <$> made = test_data <$> seq from n ∧
    Forall (λ b : bytes * KzgCommitment * bytes, length b.1.2 = 48%nat ∧ length b.2 = 48%nat) made.
Proof using CL.
  revert from. induction n as [|n IH]; intros from Hn; [by exists []|].
  destruct (blob_with_kzg_Ok from) as (c & p & Hb & Hc & Hp); [lia|].
  destruct (IH (S from)) as (made & Hm & Hd & Hl); [lia|].
  exists ((test_data from, c, p) :: made). cbn [seq omapM]. rewrite Hb, Hm. cbn [obind].
  split; [reflexivity|]. split; [|constructor; [split; assumption|assumption]].
  cbn [fmap list_fmap]. rewrite <-Hd. reflexivity.
Qed.

Lemma eighth_blob_fails (n from : nat) :
  (from ≤ 7)%nat → (7 < from + n)%nat → ∃ e, omapM blob_with_kzg (seq from n) = Err e.
Proof using CL.
  revert from. induction n as [|n IH]; intros from Hf Hn; [lia|]. cbn [seq omapM].
  destruct (decide (from = 7%nat)) as [->|Hne].
  - destruct (commit_not_canonical _ test_blob_7) as [e He]. exists e.
    unfold blob_with_kzg at 1. rewrite generate_test_blob_Ok. simpl. by rewrite He.
  - destruct (blob_with_kzg_Ok from) as (c & p & Hb & _); [lia|]. destruct (IH (S from)) as [e He]; [lia..|].
    exists e. rewrite Hb. simpl. by rewrite He.
Qed.

Lemma fixed_bytes_all {A} (n : Z) (f : A → bytes) (l : list A) :
  Forall (λ a, Z.of_nat (length (f a)) = n) l → omapM (fixed_bytes n) (f <$> l) = Ok (f <$> l).
Proof.
  induction 1 as [|a l Ha _ IH]; [done|]. cbn [fmap list_fmap omapM]. unfold fixed_bytes at 1.
  rewrite Ha, Z.eqb_refl. simpl. by rewrite IH.
Qed.

(** Blob transactions work up to seven blobs and not beyond.  With one to
    seven blobs the transaction and its sidecar are made: the blobs are pairwise
    distinct and canonical, each with its commitment and proof, and the
    transaction's hashes are those of the commitments in order.  From the eighth
    blob on (17 * 7 = 119 is above the first byte of the field's modulus) every
    request fails, although up to 1024 blobs are accepted as an argument and 128
    is the default. *)
Theorem blob_transactions_up_to_seven (signer : K) (nonce : Z) (to : Address) (chain_id : Z) (n : nat) (sig : bytes) :
  (∀ tx, sign_eip4844 signer tx = inr sig) →
  ((1 ≤ n ≤ 7)%nat → ∃ tx sidecar,
     make_signed_eip4844_tx signer nonce to chain_id n = Ok (Eip4844 tx sidecar sig) ∧
     t3_nonce tx = nonce ∧ ts_blobs sidecar = test_data <$> seq 0 n ∧ NoDup (ts_blobs sidecar) ∧
     Forall canonical (ts_blobs sidecar) ∧
     length (ts_commitments sidecar) = n ∧ length (ts_proofs sidecar) = n ∧
     t3_blob_versioned_hashes tx = versioned_hash <$> ts_commitments sidecar) ∧
  ((7 < n)%nat → ∃ e, make_signed_eip4844_tx signer nonce to chain_id n = Err e).
Proof using CL.
  intros Hsig. unfold make_signed_eip4844_tx, make_eip4844_tx, generate_blobs_with_kzg. split.
  - intros Hn. rewrite (proj2 (Nat.leb_le 1 n)), (proj2 (Nat.leb_le n 1024)) by lia. cbn [negb andb]. destruct (blobs_made n 0) as (made & Hm & Hd & Hl); [lia|].
    rewrite Hm. cbn [obind]. rewrite Hsig. cbn [obind of_sum].
    unfold convert_to_alloy_blob, convert_to_alloy_commitment, convert_to_alloy_proof.
    assert (length made = n) as Hlen by (by rewrite <-(length_fmap (fst ∘ fst) made), Hd, length_fmap, length_seq).
    change ((λ b, b.1.1) <$> made) with (fst ∘ fst <$> made). rewrite Hd, !fixed_bytes_all; cycle 1.
    { eapply Forall_impl; [exact Hl|]. simpl. intros b [_ Hb]. lia. }
    { eapply Forall_impl; [exact Hl|]. simpl. intros b [Hb _]. lia. }
    { apply Forall_true. intros i. apply test_data_length. }
    eexists _, _. split; [reflexivity|]. cbn [t3_nonce ts_blobs ts_commitments ts_proofs t3_blob_versioned_hashes].
    split_and!; try done; [| |by rewrite length_fmap..].
    + apply NoDup_fmap_2_strong; [|apply NoDup_seq]. intros i j Hi Hj. apply elem_of_seq in Hi, Hj.
      apply test_data_inj; lia.
    + apply Forall_fmap, Forall_forall. intros i Hi. apply elem_of_seq in Hi. apply test_blob_canonical. lia.
  - intros Hn. destruct (negb _); [by eexists|]. destruct (eighth_blob_fails n 0) as [e He]; [lia..|].
    exists e. by rewrite He.
Qed.
End blob_transactions.

(** ** The sender stays in its limits and ends *)

(** The node has the transaction of this attempt. *)
Definition accepted (x : Sent) : bool :=
  match sn_result x with
  | inr _ => true
  | inl e => match classify e with AlreadyKnown => true | _ => false end
  end.
(** The nonce used after an attempt: not below it, and above it once the node
    has the transaction. *)
Definition nonce_after (nonce : Z) (x : Sent) : Prop :=
  sn_nonce x ≤ nonce ∧ (accepted x = true → sn_nonce x < nonce).
Definition attempts {W} (s : Progress W) : list Sent := concat (pr_log s).

Class SpamHttpLaws (W J : Type) (TM : Timer W) (SH : SpamHttp W J) : Prop := {
  spam_post_timed : ∀ url req, io_timed (spam_post url req) }.

Section sender.
Context {W J K : Type} {TM : Timer W} {IL : IoLaws W TM} {SH : SpamHttp W J} {HL : SpamHttpLaws W J TM SH}
  {SL : SignerLib K} {RP : Reports W} {CR : Crypto} {CK : CKzg} (sp : Spammer K).

(** Accounts have sent fewer than 2^63 transactions. *)
Hypothesis node_nonces : ∀ w w' latest, get_latest_nonce sp w = (w', inr latest) → 0 ≤ latest < 2^63.

Record spam_inv (s : Progress W) : Prop := {
  si_sorted : StronglySorted (λ x, nonce_after (sn_nonce x)) (attempts s);
  si_below : Forall (nonce_after (pr_nonce s)) (attempts s);
  si_total : pr_total s = Z.of_nat (length (filter (λ x, accepted x = true) (attempts s)));
  si_max : 0 < sp_max_num_txs sp → pr_total s ≤ sp_max_num_txs sp;
  si_nonce : 0 ≤ pr_nonce s < 2^63 + Z.of_nat (length (attempts s)) }.

Lemma rpc_takes (url method : string) (params : J) (w : W) :
  takes RPC_TIMEOUT w (rpc_string url method params w).
Proof using IL HL.
  unfold rpc_string. rewrite <-(Z.add_0_r RPC_TIMEOUT). apply then_takes; [done| |].
  - unfold rpc_request. rewrite <-(Z.add_0_r RPC_TIMEOUT).
    apply then_takes; [done|apply timeout_takes; [done|apply spam_post_timed]|].
    intros body w1. destruct (jb_error body) as [[code message]|]; unfold takes; simpl; lia.
  - intros v w1. destruct (value_string v); unfold takes; simpl; lia.
Qed.
Lemma latest_nonce_takes (w : W) : takes RPC_TIMEOUT w (get_latest_nonce sp w).
Proof using IL HL.
  unfold get_latest_nonce, rpc_u64. rewrite <-(Z.add_0_r RPC_TIMEOUT). apply then_takes; [done|apply rpc_takes|].
  intros s w1. destruct (u64_from_hex _); unfold takes; simpl; lia.
Qed.

(** What a resynchronisation changes. *)
Definition resynced (s s' : Progress W) : Prop :=
  now_ms (pr_world s) ≤ now_ms (pr_world s') ∧ pr_total s' = pr_total s ∧ pr_log s' = pr_log s ∧
  pr_nonce s ≤ pr_nonce s' ∧ (pr_nonce s' = pr_nonce s ∨ 0 ≤ pr_nonce s' < 2^63).

Lemma resync_spec (s : Progress W) : ∃ s', resync_nonce sp s = (s', Ok tt) ∧ resynced s s'.
Proof using IL HL node_nonces.
  unfold resync_nonce, bind, on_world. pose proof (latest_nonce_takes (pr_world s)) as Ht. unfold takes in Ht.
  destruct (get_latest_nonce sp (pr_world s)) as [w [e|latest]] eqn:Hl; cbn [fst] in Ht.
  - eexists. split; [reflexivity|]. unfold resynced. simpl. split_and!; try done; [lia|by left].
  - apply node_nonces in Hl. eexists. split; [reflexivity|]. unfold resynced. simpl. split_and!; try done; lia.
Qed.

Lemma resynced_inv (s s' : Progress W) : resynced s s' → spam_inv s → spam_inv s'.
Proof.
  intros (_ & Ht & Hl & Hn & Hb) [H1 H2 H3 H4 H5].
  split; unfold attempts in *; rewrite ?Hl, ?Ht; try done; [|lia].
  eapply Forall_impl; [exact H2|]. intros x [Hx Hx']. split; [lia|]. intros Ha. specialize (Hx' Ha). lia.
Qed.

(** The state after an attempt has been logged. *)
Definition logged (x : Sent) (s : Progress W) : Progress W :=
  mkProgress (pr_world s) (pr_nonce s) (pr_total s)
    match pr_log s with b :: log => (x :: b) :: log | [] => [[x]] end (pr_reports s).
Lemma attempts_logged (x : Sent) (s : Progress W) : attempts (logged x s) = x :: attempts s.
Proof. unfold attempts, logged. simpl. by destruct (pr_log s). Qed.

(** Logging an attempt made at [s] in a state [s1] whose nonce has moved on as it
    should. *)
Lemma logged_inv (x : Sent) (s s1 : Progress W) :
  spam_inv s → sn_nonce x = pr_nonce s → pr_log s1 = pr_log s → nonce_after (pr_nonce s1) x →
  (0 ≤ pr_nonce s1 ≤ 2^63 + Z.of_nat (length (attempts s))) →
  pr_total s1 = pr_total s + (if accepted x then 1 else 0) →
  (0 < sp_max_num_txs sp → pr_total s < sp_max_num_txs sp) →
  spam_inv (logged x s1).
Proof.
  intros [H1 H2 H3 H4 H5] Hx Hl Ha Hn Ht Hm.
  assert (attempts s1 = attempts s) as Hat by (unfold attempts; by rewrite Hl).
  split; rewrite ?attempts_logged, ?Hat; cbn [logged pr_nonce pr_total].
  - constructor; [done|]. by rewrite Hx.
  - constructor; [done|]. eapply Forall_impl; [exact H2|]. unfold nonce_after in *. intros y [Hy Hy'].
    split; [lia|]. intros Hac. specialize (Hy' Hac). lia.
  - rewrite filter_cons, Ht, H3. destruct (accepted x); [rewrite decide_True by done|rewrite decide_False by done]; simpl length; lia.
  - intros Hpos. specialize (Hm Hpos). destruct (accepted x); lia.
  - simpl length. lia.
Qed.

(** What the body of the inner loop does to a batch that has room. *)
Lemma send_one_spec (s s' : Progress W) (r : outcome string unit) :
  spam_inv s → (0 < sp_max_num_txs sp → pr_total s < sp_max_num_txs sp) →
  Z.of_nat (length (attempts s)) < 2^63 - 1 → send_one sp s = (s', r) →
  spam_inv s' ∧ now_ms (pr_world s) ≤ now_ms (pr_world s') ∧
  (pr_log s' = pr_log s ∨ ∃ x, pr_log s' = pr_log (logged x s)).
Proof using IL HL node_nonces.
  intros Hinv Hmax Hroom. pose proof (si_nonce s Hinv) as Hn. pose proof (si_total s Hinv) as Ht.
  pose proof (length_filter (λ x, accepted x = true) (attempts s)) as Hle.
  unfold send_one, bind at 1, get, bind at 1, lift. destruct (make_tx sp _ _) as [tx|e|]; [|intros [= <- _]; auto with lia..].
  unfold bind at 1, on_world.
  pose proof (rpc_takes (sp_url sp) "eth_sendRawTransaction" (value_strings [hex0x (encoded_2718 tx)]) (pr_world s)) as Htake.
  unfold takes in Htake. destruct (rpc_string _ _ _ _) as [w answer]. cbn [fst] in Htake.
  set (to := with_last_byte _). set (s1 := mkProgress w _ _ _ _).
  assert (spam_inv s1) as Hinv1 by (by destruct Hinv; constructor).
  assert (∀ res, accepted (mkSent (pr_nonce s) to res) = true →
    spam_inv (logged (mkSent (pr_nonce s) to res)
      (mkProgress w (add64 (pr_nonce s) 1) (add64 (pr_total s) 1) (pr_log s) (pr_reports s)))) as Hcount.
  { intros res Hac. apply (logged_inv _ s); cbn [sn_nonce pr_nonce pr_total pr_log]; try done;
      rewrite ?add64_small, ?Hac by lia; try lia. unfold nonce_after. cbn [sn_nonce]. lia. }
  destruct answer as [err|answer].
  - unfold bind at 1. destruct (classify err) eqn:Hcl.
    + intros [= <- _]. split_and!; [|simpl; lia|right; by eexists]. apply Hcount. unfold accepted. simpl. by rewrite Hcl.
    + destruct (resync_spec s1) as (s2 & -> & Hr). intros [= <- _].
      pose proof (resynced_inv _ _ Hr Hinv1) as Hinv2. destruct Hr as (Hw & Htot & Hlog & Hnn & Hb).
      cbn [s1 pr_world pr_log pr_nonce pr_total] in *.
      split_and!; [|simpl; lia|right; exists (mkSent (pr_nonce s) to (inl err)); unfold logged; simpl; by rewrite Hlog].
      apply (logged_inv _ s); try done.
      * unfold nonce_after, accepted. cbn [sn_nonce sn_result]. rewrite Hcl. split; [lia|done].
      * lia.
      * unfold accepted. cbn [sn_result]. rewrite Hcl. lia.
    + intros [= <- _]. split_and!; [done|simpl; lia|by left].
    + intros [= <- _]. split_and!; [|simpl; lia|right; by eexists].
      apply (logged_inv (mkSent (pr_nonce s) to (inl err)) s s1); try done; cbn [sn_nonce s1 pr_nonce pr_total]; [|lia|].
      * unfold nonce_after, accepted. cbn [sn_nonce sn_result]. rewrite Hcl. split; [lia|done].
      * unfold accepted. cbn [sn_result]. rewrite Hcl. lia.
  - intros [= <- _]. split_and!; [|simpl; lia|right; by eexists]. by apply Hcount.
Qed.

Lemma logged_log (x : Sent) (s : Progress W) (b : list Sent) (log : list (list Sent)) :
  pr_log s = b :: log → pr_log (logged x s) = (x :: b) :: log.
Proof. unfold logged. simpl. by intros ->. Qed.

Lemma exit_not_due (start_time : Z) (s : Progress W) :
  exit_due sp start_time s = false → 0 < sp_max_num_txs sp → pr_total s < sp_max_num_txs sp.
Proof. unfold exit_due. intros [Hx _]%orb_false_iff Hp. lia. Qed.

Lemma send_batch_spec (rounds : nat) (start_time : Z) (b : list Sent) (log : list (list Sent))
    (s s' : Progress W) (r : outcome string unit) :
  spam_inv s → pr_log s = b :: log → Z.of_nat (length (attempts s) + rounds) < 2^63 →
  send_batch sp rounds start_time s = (s', r) →
  spam_inv s' ∧ now_ms (pr_world s) ≤ now_ms (pr_world s') ∧
  ∃ b', pr_log s' = b' :: log ∧ (length b' ≤ length b + rounds)%nat.
Proof using IL HL node_nonces.
  revert b s. induction rounds as [|rounds IH]; intros b s Hinv Hlog Hroom; cbn [send_batch].
  { intros [= <- _]. split_and!; [done|lia|]. exists b. split; [done|lia]. }
  unfold bind at 1, get. destruct (exit_due sp start_time s) eqn:Hx.
  { intros [= <- _]. split_and!; [done|lia|]. exists b. split; [done|lia]. }
  unfold bind. destruct (send_one sp s) as [s1 r1] eqn:Hone.
  apply send_one_spec in Hone as (Hinv1 & Hw & Hl); [|done|by apply (exit_not_due start_time)|lia].
  assert (∃ b1, pr_log s1 = b1 :: log ∧ (length b1 ≤ S (length b))%nat ∧
            (length (attempts s1) ≤ S (length (attempts s)))%nat) as (b1 & Hb1 & Hlen & Hatt).
  { destruct Hl as [Hl|[x Hl]].
    - exists b. rewrite Hl. unfold attempts. rewrite Hl. split_and!; [done|lia..].
    - exists (x :: b). unfold attempts. rewrite Hl, (logged_log x s b log Hlog), Hlog. simpl. split_and!; [done|lia..]. }
  destruct r1 as [[]|e|].
  - intros Hrest. apply (IH b1) in Hrest as (Hinv' & Hw' & b' & Hb' & Hl'); [|done..|lia].
    split_and!; [done|lia|]. exists b'. split; [done|lia].
  - intros [= <- _]. split_and!; [done|lia|]. exists b1. split; [done|lia].
  - intros [= <- _]. split_and!; [done|lia|]. exists b1. split; [done|lia].
Qed.

(** A state with the world, nonce and count of another, and more time gone. *)
Lemma spam_inv_world (s : Progress W) (w : W) (reports : list Z) :
  spam_inv s → spam_inv (mkProgress w (pr_nonce s) (pr_total s) (pr_log s) reports).
Proof. by intros []; constructor. Qed.

Lemma spam_tick_spec (start_time due : Z) (s s' : Progress W) (r : outcome string bool) :
  0 ≤ sp_max_rate sp → spam_inv s → Z.of_nat (length (attempts s)) + sp_max_rate sp < 2^63 →
  spam_tick sp start_time due s = (s', r) →
  spam_inv s' ∧ (∃ b, pr_log s' = b :: pr_log s ∧ Z.of_nat (length b) ≤ sp_max_rate sp) ∧
  due ≤ now_ms (pr_world s') ∧ (∀ finished, r = Ok finished → finished = exit_due sp start_time s').
Proof using IL HL node_nonces.
  intros Hrate Hinv Hroom. unfold spam_tick, interval_tick, begin_batch, on_world, modify, get, when, fail, ret.
  unfold bind at 1 2 3. cbn [pr_world pr_nonce pr_total pr_log pr_reports]. unfold bind at 1.
  set (w1 := if now_ms (pr_world s) <? due then sleep_ms (due - now_ms (pr_world s)) (pr_world s) else pr_world s).
  assert (due ≤ now_ms w1) as Hw1.
  { unfold w1. destruct (_ <? due) eqn:E; [rewrite sleep_exact by lia; lia|lia]. }
  set (s1 := mkProgress w1 _ _ _ _).
  assert (spam_inv s1) as Hinv1 by (by destruct Hinv; constructor).
  destruct (resync_spec s1) as (s2 & -> & Hr). pose proof (resynced_inv _ _ Hr Hinv1) as Hinv2.
  destruct Hr as (Hw2 & _ & Hl2 & _). cbn [s1 pr_world pr_log] in Hw2, Hl2.
  unfold bind at 1. destruct (send_batch _ _ _ s2) as [s3 r3] eqn:Hb.
  apply (send_batch_spec _ _ [] (pr_log s)) in Hb as (Hinv3 & Hw3 & b & Hl3 & Hlen); [|done..|]; cycle 1.
  { unfold attempts. rewrite Hl2. simpl. fold (attempts s). lia. }
  simpl length in Hlen. rewrite Nat.add_0_l in Hlen.
  assert (Z.of_nat (length b) ≤ sp_max_rate sp) as Hlen' by lia.
  destruct r3 as [[]|e|]; [|intros [= <- <-]; split_and!; [done|by exists b|lia|done]..].
  unfold bind. cbn [pr_world pr_nonce pr_total pr_log pr_reports].
  pose proof (sleep_exact 20 (pr_world s3) ltac:(lia)) as Hsl.
  destruct (report_room _); simpl; intros [= <- <-]; (split_and!; [by apply spam_inv_world|by exists b|simpl; lia|]).
  - by intros finished [= <-].
  - done.
Qed.

Lemma exit_after (start_time : Z) (s : Progress W) (k : Z) :
  0 < sp_max_time sp → start_time + 1000 * k ≤ now_ms (pr_world s) → sp_max_time sp ≤ k →
  exit_due sp start_time s = true.
Proof.
  intros Ht Hk Hm. unfold exit_due. apply orb_true_iff. right.
  assert (k ≤ (now_ms (pr_world s) - start_time) / 1000) by (apply Z.div_le_lower_bound; lia). lia.
Qed.

Lemma spam_loop_spec (fuel : nat) (start_time k : Z) (s s' : Progress W) (r : outcome string bool) :
  0 ≤ sp_max_rate sp → spam_inv s →
  Z.of_nat (length (attempts s)) + Z.of_nat fuel * sp_max_rate sp < 2^63 →
  spam_loop sp fuel start_time (start_time + 1000 * k) s = (s', r) →
  spam_inv s' ∧
  (∃ batches, pr_log s' = batches ++ pr_log s ∧ Forall (λ b, Z.of_nat (length b) ≤ sp_max_rate sp) batches) ∧
  (0 < sp_max_time sp → k ≤ sp_max_time sp < k + Z.of_nat fuel → r ≠ Ok false).
Proof using IL HL node_nonces.
  intros Hrate. revert k s. induction fuel as [|fuel IH]; intros k s Hinv Hroom; cbn [spam_loop].
  { intros [= <- <-]. split_and!; [done|by exists []|lia]. }
  unfold bind. destruct (spam_tick _ _ _ s) as [s1 r1] eqn:Htick.
  apply spam_tick_spec in Htick as (Hinv1 & (b & Hl & Hb) & Hdue & Hfin); [|done..|lia].
  destruct r1 as [[]|e|]; [| |intros [= <- <-]; (split_and!; [done|by exists [b]; auto|done])..].
  { intros [= <- <-]. split_and!; [done|by exists [b]; auto|done]. }
  replace (start_time + 1000 * k + 1000) with (start_time + 1000 * (k + 1)) by lia.
  intros Hrest. apply IH in Hrest as (Hinv' & (bs & Hbs & Hbl) & Hstop); [|done|]; cycle 1.
  { unfold attempts in *. rewrite Hl. simpl. rewrite length_app. lia. }
  split_and!; [done| |].
  - exists (bs ++ [b]). rewrite Hbs, Hl, <-app_assoc. split; [done|]. apply Forall_app_2; [done|by constructor].
  - intros Hpos Hk. apply Hstop; [done|]. destruct (decide (sp_max_time sp ≤ k)) as [Hd|]; [|lia].
    specialize (Hfin false eq_refl). by rewrite (exit_after start_time s1 k) in Hfin.
Qed.

(** C32: a load test stays in its limits and ends.  In each tick at most
    [max_rate] transactions are attempted, whatever the node answers; the nonces
    of the attempts never go back, and once the node has a transaction its nonce
    is not used again; [txs_sent_total] counts the transactions the node has and
    never exceeds [num_txs]; and with a limit of [time] seconds the sender is
    done, or has failed, after at most [time] + 1 ticks. *)
Theorem load_stays_in_limits (fuel : nat) (w : W) (s : Progress W) (r : outcome string bool) :
  0 ≤ sp_max_rate sp → Z.of_nat fuel * sp_max_rate sp < 2^63 →
  spammer sp fuel (mkProgress w 0 0 [] []) = (s, r) →
  Forall (λ batch, Z.of_nat (length batch) ≤ sp_max_rate sp) (pr_log s) ∧
  StronglySorted (λ later earlier, nonce_after (sn_nonce later) earlier) (attempts s) ∧
  pr_total s = Z.of_nat (length (filter (λ x, accepted x = true) (attempts s))) ∧
  (0 < sp_max_num_txs sp → pr_total s ≤ sp_max_num_txs sp) ∧
  (0 < sp_max_time sp < Z.of_nat fuel → r ≠ Ok false).
Proof using IL HL node_nonces.
  intros Hrate Hroom. unfold spammer, bind at 1, on_world. cbn [pr_world pr_nonce pr_total pr_log pr_reports].
  assert (∀ w' nonce, 0 ≤ nonce < 2^63 → spam_inv (mkProgress w' nonce 0 [] [])) as Hinit.
  { intros w' nonce Hn. split; unfold attempts; simpl; first [done|by constructor|lia]. }
  destruct (get_latest_nonce sp w) as [w1 [e|latest]] eqn:Hl.
  { intros [= <- <-]. destruct (Hinit w1 0) as [H1 _ H3 H4 _]; [lia|]. split_and!; try done. }
  apply node_nonces in Hl. unfold bind, set_nonce, modify. cbn [pr_world pr_nonce pr_total pr_log pr_reports].
  intros Hloop. replace (now_ms w1) with (now_ms w1 + 1000 * 0) in Hloop at 2 by lia.
  apply spam_loop_spec in Hloop as ([H1 _ H3 H4 _] & (bs & Hbs & Hbl) & Hstop); [|done|by apply Hinit|simpl; lia].
  cbn [pr_log] in Hbs. rewrite app_nil_r in Hbs. rewrite Hbs. split_and!; try done. intros Ht. apply Hstop; lia.
Qed.
End sender.

(** ** The tracker's counts *)

Definition succeeded (r : string + Z) : bool := match r with inr _ => true | inl _ => false end.
Definition ok_count (rs : list (string + Z)) : Z := Z.of_nat (length (filter (λ r, succeeded r = true) rs)).
Definition counted (t : Tracker) : Z := st_succeed (tr_total t) + st_succeed (tr_last t) + ok_count (tr_results t).

Lemma wrap64_add_l (a b : Z) : wrap64 (wrap64 a + b) = wrap64 (a + b).
Proof. unfold wrap64. by rewrite Zplus_mod_idemp_l. Qed.

(** Every result the sender reports is in the total, in the last second's
    counter, or still in the channel. *)
Lemma tracker_loses_nothing (sent : list (string + Z)) (t : Tracker) :
  track_run sent t → wrap64 (counted t) = wrap64 (ok_count sent).
Proof.
  induction 1 as [|sent t put t' _ IH Hstep]; [done|].
  assert (∀ r rs, ok_count (rs ++ [r]) = ok_count rs + (if succeeded r then 1 else 0)) as Hsnoc.
  { intros r rs. unfold ok_count. rewrite filter_app, length_app, filter_cons, filter_nil. destruct r; simpl; lia. }
  destruct Hstep; rewrite ?app_nil_r, ?Hsnoc in *; unfold counted in *; simpl in *; try done.
  - rewrite <-IH. unfold ok_count. rewrite filter_cons. destruct res as [e|len]; simpl; [done|].
    unfold add64. rewrite <-Z.add_assoc, (Z.add_comm (st_succeed t)), <-Z.add_assoc.
    rewrite wrap64_add_l. f_equal. lia.
  - rewrite <-IH. unfold add64. rewrite <-Z.add_assoc, wrap64_add_l. f_equal; lia.
  - rewrite Hsnoc, Z.add_assoc, <-wrap64_add_l, IH, wrap64_add_l. done.
Qed.

(** The printed total may miss the last batch: the tracker may take the finish
    signal before the results and the report that precede it. *)
Lemma total_may_miss_results :
  ∃ t, track_run [inr 120] t ∧ tr_done t = true ∧ st_succeed (tr_total t) = 0.
Proof.
  eexists (mkTracker [inr 120] 1 true Stats_new Stats_new true). split; [|done].
  change [inr 120] with ((((([] ++ [inr 120]) ++ []) ++ []) ++ []) : list (string + Z)).
  eapply track_next; [eapply track_next; [eapply track_next; [eapply track_next; [apply track_start|]|]|]|].
  - apply (put_result (inr 120) []).
  - apply put_report.
  - apply put_finish.
  - apply recv_finish.
Qed.

(** ** Concrete inputs *)

Module SpamDemo.
#[local] Existing Instance short_crypto.
(** A KZG library with one commitment, and a signer with one signature. *)
#[local] Instance demo_ckzg : CKzg := {|
  blob_to_kzg_commitment b := if decide (canonical b) then inr (zeros 48) else inl "invalid blob"%string;
  compute_blob_kzg_proof _ _ := inr (zeros 48) |}.
Lemma demo_ckzg_laws : CKzgLaws demo_ckzg.
Proof.
  constructor; intros b Hb; cbn [blob_to_kzg_commitment demo_ckzg].
  - intros Hc. exists (zeros 48), (zeros 48). rewrite decide_True by done. done.
  - eexists. by rewrite decide_False.
Qed.
#[local] Instance demo_signer : SignerLib Z := {|
  signer_from_slice b := inr (of_be b); signer_from_mnemonic _ := Some 0; signer_address k := be_bytes 20 k;
  sign_eip1559 k _ := inr [k]; sign_eip4844 k _ := inr [k]; encoded_2718 _ := [2] |}.

Lemma blob_transactions_up_to_seven_witness :
  (∃ tx sidecar, make_signed_eip4844_tx 7 3 (zeros 20) 1 6 = Ok (Eip4844 tx sidecar [7]) ∧ t3_nonce tx = 3) ∧
  ∃ e, make_signed_eip4844_tx 7 3 (zeros 20) 1 (sc_blobs_per_tx SpamCmd_default) = Err e.
Proof.
  destruct (blob_transactions_up_to_seven (CL := demo_ckzg_laws) 7 3 (zeros 20) 1 6 [7]) as [Hok _]; [done|].
  destruct (blob_transactions_up_to_seven (CL := demo_ckzg_laws) 7 3 (zeros 20) 1 128 [7]) as [_ Herr]; [done|].
  split.
  - destruct Hok as (tx & sidecar & Ht & Hn & _); [lia|]. exists tx, sidecar. split; assumption.
  - apply Herr. lia.
Defined.

(** A node that answers everything with [0x5] in a millisecond. *)
#[local] Instance spam_clock : Timer Z := {| now_ms w := w; sleep_ms d w := w + d; unix_ms w := Some w |}.
Lemma spam_clock_laws : IoLaws Z spam_clock.
Proof. constructor. done. Qed.
#[local] Instance spam_node : SpamHttp Z string := {|
  spam_post _ _ w := mkIo w (Some 1) (inr (mkBody None "0x5"%string));
  value_strings _ := ""%string; value_string j := Some j |}.
Lemma spam_node_laws : SpamHttpLaws Z string spam_clock spam_node.
Proof. constructor. intros url req w. split; [done|]. intros t [= <-]. lia. Qed.
#[local] Instance spam_reports : Reports Z := {| report_room _ := true |}.
Definition demo_spammer : Spammer Z := mkSpammer "http://localhost" 1 0 3 9 2 false 1.

(** Three transactions at two per second: two ticks. *)
Lemma load_stays_in_limits_witness :
  ∃ s, spammer demo_spammer 10 (mkProgress 0 0 0 [] []) = (s, Ok true) ∧ pr_total s = 3 ∧
    (map sn_nonce <$> pr_log s) = [[7]; [6; 5]] ∧
    StronglySorted (λ later earlier, nonce_after (sn_nonce later) earlier) (attempts s).
Proof.
  eexists. split; [vm_compute; reflexivity|]. split; [reflexivity|]. split; [reflexivity|].
  refine (proj1 (proj2 (load_stays_in_limits (IL := spam_clock_laws) (HL := spam_node_laws)
    demo_spammer _ 10 0 _ (Ok true) _ _ _))).
  - intros w w' latest Hl. vm_compute in Hl. injection Hl as _ <-. split; vm_compute; [discriminate|reflexivity].
  - vm_compute. discriminate.
  - vm_compute. reflexivity.
  - vm_compute. reflexivity.
Defined.
End SpamDemo.
