(* ===== verification/Netgen.v ===== *)
(** * The network generator ([infra/gen/netgen/src/main.rs])

    A manifest describes the hosts and nodes of a network.  It is validated, and
    each node gets its ports, the path of its engine socket, its peers and its
    boot nodes.  Reading and writing files, keys and the rendering of YAML and
    JSON are left out. *)
From Stdlib Require Import Ascii.
From stdpp Require Import pretty.
From S2P Require Import Prelude Text.
Open Scope outcome_scope.

(** ** The manifest *)

Record Network := mkNetwork { nw_name : string; nw_chain_id : Z }.
Record ExecutionAlloc := mkAlloc { al_address : string; al_balance_wei : string }.
Record Images := mkImages { im_ultramarine : string; im_load_reth : string }.
Record Host := mkHost { ho_id : string; ho_public_ip : string; ho_ssh_user : string }.
Record Node := mkNode { nn_id : string; nn_host : string; nn_role : string }.
Record Engine := mkEngine { en_mode : string; en_ipc_path_template : string }.
Record ElPorts := mkElPorts { el_http : Z; el_authrpc : option Z; el_p2p : Z; el_metrics : Z }.
Record ClPorts := mkClPorts { cl_p2p : Z; cl_mempool : Z; cl_metrics : Z }.
Record Ports := mkPorts {
  po_allocation : string; po_host_block_stride : option Z; po_el : ElPorts; po_cl : ClPorts }.
Record Archiver := mkArchiver { ar_enabled : bool; ar_provider_url : string; ar_provider_id : string }.
Record Blockscout := mkBlockscout {
  bl_enabled : bool; bl_host : string; bl_rpc_node : string;
  bl_explorer : string; bl_stats : string; bl_rpc : string; bl_ssl : option (bool * string) }.
(** The fields that are read here: of the execution section its alloc, of the sync
    section whether it is enabled; the tuning of the generated configuration
    files is left out. *)
Record Manifest := mkManifest {
  mf_schema_version : Z; mf_network : Network; mf_execution : option (list ExecutionAlloc);
  mf_images : Images; mf_hosts : list Host; mf_nodes : list Node; mf_engine : Engine;
  mf_ports : Ports; mf_sync_enabled : bool; mf_archiver : Archiver; mf_blockscout : option Blockscout }.

#[export] Instance Node_eq_dec : EqDecision Node.
Proof. solve_decision. Defined.

(** ** Validation *)

Abbreviation Res A := (outcome string A) (only parsing).

(** [if b { bail!(e) }] *)
Definition bail_if (b : bool) (e : string) : Res unit := if b then Err e else Ok tt.

Fixpoint check_allocs (l : list ExecutionAlloc) : Res unit :=
  match l with
  | [] => Ok tt
  | a :: l =>
    let? _ := bail_if (negb (str_starts_with "0x" (al_address a)) ||
                       negb (String.length (al_address a) =? 42)%nat)
                "execution.alloc.address must be a 0x-prefixed 20-byte hex address" in
    let? _ := bail_if (is_blank (al_balance_wei a)) "execution.alloc.balance_wei must be non-empty" in
    check_allocs l
  end.

(** The number of nodes per host. *)
Definition count_hosts (l : list Node) : gmap string Z :=
  foldl (λ (m : gmap string Z) n, <[nn_host n := default 0 (m !! nn_host n) + 1]> m) ∅ l.
(** [counts.into_iter().max_by_key(..)], its count *)
Definition max_count (m : gmap string Z) : option Z :=
  foldr (λ c o, Some (match o with Some d => Z.max c d | None => c end)) None (map_to_list m).*2.

Definition stride (m : Manifest) : Z := default 1000 (po_host_block_stride (mf_ports m)).

Definition check_stride (m : Manifest) : Res unit :=
  if bool_decide (po_allocation (mf_ports m) = "host-block"%string) then
    let? _ := bail_if (stride m =? 0) "ports.host_block_stride must be >= 1" in
    bail_if (match max_count (count_hosts (mf_nodes m)) with Some c => stride m <? c | None => false end)
      "ports.host_block_stride is too small"
  else Ok tt.

(** The loop over the hosts: the ids seen, or the first objection. *)
Fixpoint check_hosts (seen : gset string) (l : list Host) : Res (gset string) :=
  match l with
  | [] => Ok seen
  | h :: l =>
    let? _ := bail_if (bool_decide (ho_id h ∈ seen)) "duplicate host id" in
    let? _ := bail_if (is_blank (ho_public_ip h) || is_blank (ho_ssh_user h))
                "host public_ip/ssh_user must be non-empty" in
    check_hosts ({[ho_id h]} ∪ seen) l
  end.

Fixpoint check_nodes (host_ids seen : gset string) (l : list Node) : Res unit :=
  match l with
  | [] => Ok tt
  | n :: l =>
    let? _ := bail_if (bool_decide (nn_id n ∈ seen)) "duplicate node id" in
    let? _ := bail_if (negb (bool_decide (nn_host n ∈ host_ids))) "node references unknown host" in
    let? _ := bail_if (negb (bool_decide (nn_role n ∈ ["validator"; "fullnode"; "rpc"]%string)))
                "node role must be validator|fullnode|rpc" in
    check_nodes host_ids ({[nn_id n]} ∪ seen) l
  end.

Definition check_blockscout (host_ids : gset string) (m : Manifest) : Res unit :=
  match mf_blockscout m with
  | Some b =>
    if bl_enabled b then
      let? _ := bail_if (negb (bool_decide (bl_host b ∈ host_ids))) "blockscout.host not found in hosts" in
      let? _ := bail_if (negb (existsb (λ n, bool_decide (nn_id n = bl_rpc_node b)) (mf_nodes m)))
                  "blockscout.rpc_node not found in nodes" in
      let? _ := bail_if (is_blank (bl_explorer b) || is_blank (bl_stats b) || is_blank (bl_rpc b))
                  "blockscout.domains must include explorer/stats/rpc" in
      bail_if (match bl_ssl b with Some (enabled, email) => enabled && is_blank email | None => false end)
        "blockscout.ssl.email must be set when ssl.enabled=true"
    else Ok tt
  | None => Ok tt
  end.

Definition validators (m : Manifest) : list Node :=
  filter (λ n, nn_role n = "validator"%string) (mf_nodes m).

(** The strict two thirds of Tendermint: losing one host must leave them. *)
Definition check_failure_domains (m : Manifest) (allow_unsafe : bool) : Res unit :=
  let vs := validators m in
  let? _ := bail_if (bool_decide (vs = [])) "at least one validator node is required" in
  let n_total := Z.of_nat (length vs) in
  let max_allowed := Z.max 0 (n_total - 1) / 3 in
  let offenders := filter (λ hc, max_allowed < hc.2) (count_hosts vs) in
  if bool_decide (offenders = ∅) then Ok tt
  else if n_total <? 4 then Ok tt                                        (* a warning *)
  else if negb allow_unsafe then Err "unsafe validator placement across failure domains"%string
  else Ok tt.                                                            (* a warning *)

Definition validate_manifest (m : Manifest) (allow_unsafe_failure_domains : bool) : Res unit :=
  let? _ := bail_if (negb (mf_schema_version m =? 1)) "schema_version must be 1" in
  let? _ := bail_if (is_blank (nw_name (mf_network m))) "network.name must be non-empty" in
  let? _ := bail_if (is_blank (im_ultramarine (mf_images m)) || is_blank (im_load_reth (mf_images m)))
              "images.ultramarine/images.load_reth must be non-empty" in
  let? _ := bail_if (negb (bool_decide (en_mode (mf_engine m) = "ipc"%string)))
              "engine.mode must be 'ipc' (deploys are IPC-only)" in
  let? _ := bail_if (negb (str_contains "{node_id}" (en_ipc_path_template (mf_engine m))))
              "engine.ipc_path_template must contain '{node_id}' placeholder" in
  let? _ := bail_if (negb (mf_sync_enabled m)) "sync.enabled must be true for multi-host networks" in
  let? _ := match mf_execution m with
            | Some alloc =>
              let? _ := bail_if (bool_decide (length alloc = 0%nat))
                          "execution.alloc must be non-empty when execution section is provided" in
              check_allocs alloc
            | None => Ok tt
            end in
  let? _ := bail_if (negb (ar_enabled (mf_archiver m))) "archiver.enabled must be true" in
  let? _ := bail_if (is_blank (ar_provider_url (mf_archiver m)) || is_blank (ar_provider_id (mf_archiver m)))
              "archiver.provider_url/provider_id must be non-empty" in
  let? _ := bail_if (negb (bool_decide (po_allocation (mf_ports m) ∈ ["host-block"; "by-index"]%string)))
              "ports.allocation must be host-block|by-index" in
  let? _ := check_stride m in
  let? host_ids := check_hosts ∅ (mf_hosts m) in
  let? _ := bail_if (bool_decide (length (mf_hosts m) = 0%nat)) "hosts must be non-empty" in
  let? _ := check_nodes host_ids ∅ (mf_nodes m) in
  let? _ := bail_if (bool_decide (mf_nodes m = [])) "nodes must be non-empty" in
  let? _ := check_blockscout host_ids m in
  check_failure_domains m allow_unsafe_failure_domains.

(** ** Ports and paths *)

Definition engine_ipc_path (m : Manifest) (node_id : string) : string :=
  str_replace "{node_id}" node_id (en_ipc_path_template (mf_engine m)).

Definition node_le (a b : Node) : Prop := str_le (nn_id a) (nn_id b).
#[export] Instance node_le_dec : RelDecision node_le.
Proof. intros a b. unfold node_le. apply _. Defined.
(** [sort_by(|a, b| a.id.cmp(&b.id))] *)
Definition sort_nodes (l : list Node) : list Node := merge_sort node_le l.

Definition wrap32 (z : Z) : Z := z mod 2^32.

Definition port_offset_host_block (m : Manifest) (node : Node) : Res Z :=
  let? host_index := ok_or (position (λ h, bool_decide (ho_id h = nn_host node)) (mf_hosts m))
                       "unknown host referenced"%string in
  let same_host := sort_nodes (filter (λ n, nn_host n = nn_host node) (mf_nodes m)) in
  let? local_index := ok_or (position (λ n, bool_decide (nn_id n = nn_id node)) same_host)
                        "node not found in host set"%string in
  let base := wrap32 (wrap32 (Z.of_nat host_index) * stride m) in
  let off := wrap32 (base + wrap32 (Z.of_nat local_index)) in
  ok_or (try_u16 off) "port offset overflow"%string.

Definition port_offset_by_index (m : Manifest) (node : Node) : Res Z :=
  let? idx := ok_or (position (λ n, bool_decide (nn_id n = nn_id node)) (sort_nodes (mf_nodes m)))
                "node not found"%string in
  ok_or (try_u16 (Z.of_nat idx)) "node index overflow"%string.

Record PortsOut := mkPortsOut {
  out_el_http : Z; out_el_authrpc : Z; out_el_p2p : Z; out_el_metrics : Z;
  out_cl_p2p : Z; out_cl_mempool : Z; out_cl_metrics : Z }.

Definition add_port (base off : Z) : Res Z :=
  let v := base + off in if 65535 <? v then Err "port allocation overflow"%string else Ok v.

Definition port_offset (m : Manifest) (node : Node) : Res Z :=
  if bool_decide (po_allocation (mf_ports m) = "host-block"%string) then port_offset_host_block m node
  else if bool_decide (po_allocation (mf_ports m) = "by-index"%string) then port_offset_by_index m node
  else Err "unsupported ports.allocation"%string.

Definition ports_for_node (m : Manifest) (node : Node) : Res PortsOut :=
  let? off := port_offset m node in
  let el := po_el (mf_ports m) in
  let cl := po_cl (mf_ports m) in
  let? http := add_port (el_http el) off in
  let? authrpc := add_port (default 8551 (el_authrpc el)) off in
  let? p2p := add_port (el_p2p el) off in
  let? metrics := add_port (el_metrics el) off in
  let? cp2p := add_port (cl_p2p cl) off in
  let? cmempool := add_port (cl_mempool cl) off in
  let? cmetrics := add_port (cl_metrics cl) off in
  Ok (mkPortsOut http authrpc p2p metrics cp2p cmempool cmetrics).

Definition host_ip (m : Manifest) (host_id : string) : Res string :=
  ok_or (ho_public_ip <$> find_first (λ h, bool_decide (ho_id h = host_id)) (mf_hosts m)) "unknown host id"%string.

(** ** Secrets, peers and boot nodes ([generate]) *)

Record Secrets := mkSecrets { se_schema_version : Z; se_nodes : gmap string string }.

Definition token_of (secrets : option Secrets) (id : string) : string :=
  default EmptyString (trim <$> (secrets ≫= λ s, se_nodes s !! id)).

(** The validators without a bearer token. *)
Definition missing_archiver_tokens (m : Manifest) (secrets : option Secrets) : list string :=
  nn_id <$> filter (λ n, nn_role n = "validator"%string ∧ token_of secrets (nn_id n) = EmptyString) (mf_nodes m).

Definition check_tokens (m : Manifest) (secrets : option Secrets) (allow_missing : bool) : Res unit :=
  let? _ := match secrets with
            | Some s => bail_if (negb (se_schema_version s =? 1)) "secrets schema_version must be 1"
            | None => Ok tt
            end in
  if allow_missing then Ok tt
  else bail_if (negb (bool_decide (missing_archiver_tokens m secrets = [])))
         "missing archiver bearer tokens for validator nodes".

(** The tokens of the environment files, written last. *)
Fixpoint check_env_tokens (secrets : Secrets) (l : list Node) : Res unit :=
  match l with
  | [] => Ok tt
  | n :: l =>
    let? _ := if bool_decide (nn_role n = "validator"%string) then
                let? tok := ok_or (se_nodes secrets !! nn_id n) "missing secrets.nodes"%string in
                bail_if (is_blank tok) "empty archiver token for node"
              else Ok tt in
    check_env_tokens secrets l
  end.

(** Where the other nodes listen for consensus and for the mempool, in the order
    of the manifest. *)
Definition persistent_peers (m : Manifest) (n : Node) : Res (list (string * Z) * list (string * Z)) :=
  let? peers := omapM (λ other,
      let? ports := ports_for_node m other in
      let? ip := host_ip m (nn_host other) in
      Ok ((ip, out_cl_p2p ports), (ip, out_cl_mempool ports)))
    (filter (λ other, nn_id other ≠ nn_id n) (mf_nodes m)) in
  Ok (peers.*1, peers.*2).

Record LockNode := mkLockNode {
  lk_id : string; lk_host : string; lk_role : string; lk_ipc_path : string; lk_ports : PortsOut;
  lk_enode : string; lk_bootnodes : list string }.

Section lock.
(** The public key of a node's execution layer, in hexadecimal. *)
Context (enode_pub_hex : string → Res string).

Definition lock_node (m : Manifest) (n : Node) : Res LockNode :=
  let? ports := ports_for_node m n in
  let? key := enode_pub_hex (nn_id n) in
  let? ip := host_ip m (nn_host n) in
  let enode := ("enode://" +:+ key +:+ "@" +:+ ip +:+ ":" +:+ pretty (out_el_p2p ports))%string in
  Ok (mkLockNode (nn_id n) (nn_host n) (nn_role n) (engine_ipc_path m (nn_id n)) ports enode []).

(** All enodes but the own, or the own when there is no other. *)
Definition set_bootnodes (all : list string) (n : LockNode) : LockNode :=
  let others := filter (λ e, e ≠ lk_enode n) all in
  mkLockNode (lk_id n) (lk_host n) (lk_role n) (lk_ipc_path n) (lk_ports n) (lk_enode n)
    (match others with [] => [lk_enode n] | _ => others end).

Definition lock_nodes (m : Manifest) : Res (list LockNode) :=
  let? l := omapM (lock_node m) (sort_nodes (mf_nodes m)) in
  Ok (set_bootnodes (lk_enode <$> l) <$> l).
End lock.

(** ** What validation gives *)

Lemma bail_if_Ok (b : bool) (e : string) (u : unit) : bail_if b e = Ok u → b = false.
Proof. by destruct b. Qed.

Lemma count_hosts_app (l : list Node) (n : Node) :
  count_hosts (l ++ [n]) = <[nn_host n := default 0 (count_hosts l !! nn_host n) + 1]> (count_hosts l).
Proof. unfold count_hosts. by rewrite foldl_app. Qed.

(** The table of counts is the number of nodes on each host. *)
Lemma count_hosts_lookup (l : list Node) (h : string) :
  default 0 (count_hosts l !! h) = Z.of_nat (length (filter (λ n, nn_host n = h) l)).
Proof.
  induction l as [|n l IH] using rev_ind; [done|]. rewrite count_hosts_app, filter_app, length_app.
  destruct (decide (nn_host n = h)) as [<-|Hne].
  - rewrite lookup_insert_eq, filter_cons_True, filter_nil by done. cbn. rewrite IH. lia.
  - rewrite lookup_insert_ne, filter_cons_False, filter_nil by done. cbn. rewrite IH. lia.
Qed.

Lemma max_count_le (m : gmap string Z) (h : string) (c : Z) :
  m !! h = Some c → ∃ d, max_count m = Some d ∧ c ≤ d.
Proof.
  intros Hc. assert (c ∈ (map_to_list m).*2) as Hin.
  { apply list_elem_of_fmap. exists (h, c). split; [done|]. by apply elem_of_map_to_list. }
  unfold max_count. induction (map_to_list m).*2 as [|x l IH]; [by apply elem_of_nil in Hin|]. cbn.
  destruct (foldr _ None l) as [d|] eqn:Hd; (eexists; split; [done|]).
  - apply elem_of_cons in Hin as [->|Hin]; [lia|]. destruct (IH Hin) as (d' & [= <-] & Hle). lia.
  - apply elem_of_cons in Hin as [->|Hin]; [lia|]. by destruct (IH Hin) as (d' & ? & _).
Qed.

Lemma check_hosts_nodup (l : list Host) : ∀ (seen s : gset string),
  check_hosts seen l = Ok s → NoDup (ho_id <$> l) ∧ (∀ h, h ∈ seen → h ∉ ho_id <$> l) ∧
    s = seen ∪ list_to_set (ho_id <$> l).
Proof.
  induction l as [|h l IH]; intros seen s Hr; cbn in *.
  { injection Hr as <-. split_and!; [constructor|set_solver|set_solver]. }
  apply obind_Ok in Hr as (? & H1%bail_if_Ok & Hr). apply obind_Ok in Hr as (? & _ & Hr).
  apply bool_decide_eq_false in H1. apply IH in Hr as (Hnd & Hseen & ->).
  split_and!; [|set_solver|set_solver]. constructor; [|done]. apply Hseen. set_solver.
Qed.

Lemma check_nodes_spec (hs : gset string) (l : list Node) : ∀ (seen : gset string) (u : unit),
  check_nodes hs seen l = Ok u → NoDup (nn_id <$> l) ∧ (∀ i, i ∈ seen → i ∉ nn_id <$> l) ∧
    Forall (λ n, nn_host n ∈ hs) l.
Proof.
  induction l as [|n l IH]; intros seen u Hr; cbn in *.
  { split_and!; [constructor|set_solver|constructor]. }
  apply obind_Ok in Hr as (? & H1%bail_if_Ok & Hr). apply obind_Ok in Hr as (? & H2%bail_if_Ok & Hr).
  apply obind_Ok in Hr as (? & _ & Hr). apply bool_decide_eq_false in H1.
  apply negb_false_iff, bool_decide_eq_true in H2. apply IH in Hr as (Hnd & Hseen & Hf).
  split_and!; [|set_solver|by constructor]. constructor; [|done]. apply Hseen. set_solver.
Qed.

(** What the port allocation relies on. *)
Record validated (m : Manifest) : Prop := {
  va_template : str_contains "{node_id}" (en_ipc_path_template (mf_engine m)) = true;
  va_stride : po_allocation (mf_ports m) = "host-block"%string →
    ∀ h, Z.of_nat (length (filter (λ n, nn_host n = h) (mf_nodes m))) ≤ stride m;
  va_hosts : NoDup (ho_id <$> mf_hosts m);
  va_nodes : NoDup (nn_id <$> mf_nodes m) }.

Lemma check_stride_spec (m : Manifest) (u : unit) :
  check_stride m = Ok u → 0 ≤ stride m → po_allocation (mf_ports m) = "host-block"%string →
  ∀ h, Z.of_nat (length (filter (λ n, nn_host n = h) (mf_nodes m))) ≤ stride m.
Proof.
  unfold check_stride. intros Hc Hs Ha h. rewrite bool_decide_eq_true_2 in Hc by done.
  apply obind_Ok in Hc as (? & _ & Hc%bail_if_Ok). rewrite <-count_hosts_lookup.
  destruct (count_hosts (mf_nodes m) !! h) as [c|] eqn:Hh; [|done]. cbn.
  destruct (max_count_le _ _ _ Hh) as (d & Hd & Hle). rewrite Hd in Hc. lia.
Qed.

Lemma validate_manifest_spec (m : Manifest) (allow : bool) (u : unit) :
  0 ≤ stride m → validate_manifest m allow = Ok u →
  validated m ∧ check_failure_domains m allow = Ok u.
Proof.
  intros Hs Hv. unfold validate_manifest in Hv.
  do 4 (apply obind_Ok in Hv as (? & _ & Hv)). apply obind_Ok in Hv as (? & Ht%bail_if_Ok & Hv).
  do 5 (apply obind_Ok in Hv as (? & _ & Hv)). apply obind_Ok in Hv as (? & Hst & Hv).
  apply obind_Ok in Hv as (hs & Hh & Hv). apply obind_Ok in Hv as (? & _ & Hv).
  apply obind_Ok in Hv as (? & Hn & Hv). do 2 (apply obind_Ok in Hv as (? & _ & Hv)).
  split; [|done]. apply negb_false_iff in Ht. apply check_hosts_nodup in Hh as [Hh _].
  apply check_nodes_spec in Hn as [Hn _]. split; try done. by eapply check_stride_spec.
Qed.

(** ** Ports do not collide *)

(** The widths of the fields, and few enough hosts for 32 bits. *)
Definition manifest_sized (m : Manifest) : Prop := is_u16 (stride m) ∧ Z.of_nat (length (mf_hosts m)) ≤ 2^16.

Lemma sort_nodes_length (l : list Node) : length (sort_nodes l) = length l.
Proof. apply Permutation_length, merge_sort_Permutation. Qed.

Lemma host_block_offset (m : Manifest) (n : Node) (o : Z) :
  validated m → manifest_sized m → po_allocation (mf_ports m) = "host-block"%string →
  port_offset_host_block m n = Ok o →
  ∃ hi li h n', mf_hosts m !! hi = Some h ∧ ho_id h = nn_host n ∧
    sort_nodes (filter (λ n', nn_host n' = nn_host n) (mf_nodes m)) !! li = Some n' ∧ nn_id n' = nn_id n ∧
    o = Z.of_nat hi * stride m + Z.of_nat li ∧ Z.of_nat li < stride m.
Proof.
  intros V [Hs Hh] Ha. unfold port_offset_host_block. intros (hi & Hhi & Hr)%obind_Ok.
  apply obind_Ok in Hr as (li & Hli & Hr).
  destruct (position _ (mf_hosts m)) as [hi'|] eqn:Hp; [injection Hhi as ->|done].
  destruct (position _ (sort_nodes _)) as [li'|] eqn:Hq in Hli; [injection Hli as ->|done].
  apply position_Some_lookup in Hp as (h & Hlh & Hid & _). apply position_Some_lookup in Hq as (n' & Hln & Hid' & _).
  apply bool_decide_eq_true in Hid, Hid'. exists hi, li, h, n'.
  pose proof (lookup_lt_Some _ _ _ Hlh) as Hlt. pose proof (lookup_lt_Some _ _ _ Hln) as Hlt'.
  rewrite sort_nodes_length in Hlt'. pose proof (va_stride _ V Ha (nn_host n)) as Hle.
  unfold is_u16 in Hs. unfold wrap32 in Hr.
  rewrite (Z.mod_small (Z.of_nat hi)), (Z.mod_small (Z.of_nat li)) in Hr by lia.
  rewrite (Z.mod_small (Z.of_nat hi * stride m)) in Hr by nia. rewrite Z.mod_small in Hr by nia.
  destruct (try_u16 _) as [z|] eqn:Hu; [injection Hr as ->|done]. apply try_u16_Some in Hu as [-> _].
  split_and!; try done; lia.
Qed.

Lemma by_index_offset (m : Manifest) (n : Node) (o : Z) :
  port_offset_by_index m n = Ok o →
  ∃ i n', sort_nodes (mf_nodes m) !! i = Some n' ∧ nn_id n' = nn_id n ∧ o = Z.of_nat i.
Proof.
  unfold port_offset_by_index. intros (i & Hi & Hr)%obind_Ok.
  destruct (position _ _) as [i'|] eqn:Hp in Hi; [injection Hi as ->|done].
  apply position_Some_lookup in Hp as (n' & Hl & Hid & _). apply bool_decide_eq_true in Hid.
  destruct (try_u16 _) as [z|] eqn:Hu; [injection Hr as ->|done]. apply try_u16_Some in Hu as [-> _].
  by exists i, n'.
Qed.

Lemma offsets_distinct (m : Manifest) (n1 n2 : Node) (o : Z) :
  validated m → manifest_sized m → port_offset m n1 = Ok o → port_offset m n2 = Ok o → nn_id n1 = nn_id n2.
Proof.
  intros V Hz. unfold port_offset. destruct (bool_decide (_ = "host-block"%string)) eqn:Ha.
  - apply bool_decide_eq_true in Ha. intros H1 H2.
    apply host_block_offset in H1 as (hi & li & h & n1' & Hh & Hid & Hl & Hn & Ho & Hlt); [|done..].
    apply host_block_offset in H2 as (hi' & li' & h' & n2' & Hh' & Hid' & Hl' & Hn' & Ho' & Hlt'); [|done..].
    destruct (Z.div_mod_unique (stride m) (Z.of_nat hi) (Z.of_nat hi') (Z.of_nat li) (Z.of_nat li'))
      as [<-%Nat2Z.inj <-%Nat2Z.inj]; [lia..|].
    rewrite Hh in Hh'. injection Hh' as <-. rewrite Hid in Hid'. rewrite <-Hid', Hl in Hl'. congruence.
  - clear Ha. destruct (bool_decide _); [|done]. intros H1 H2.
    apply by_index_offset in H1 as (i & n1' & Hl & Hn & ->). apply by_index_offset in H2 as (i' & n2' & Hl' & Hn' & Hi).
    apply Nat2Z.inj in Hi as <-. rewrite Hl in Hl'. congruence.
Qed.

Definition port_list (p : PortsOut) : list Z :=
  [out_el_http p; out_el_authrpc p; out_el_p2p p; out_el_metrics p; out_cl_p2p p; out_cl_mempool p; out_cl_metrics p].
(** The first port of each service. *)
Definition port_bases (m : Manifest) : list Z :=
  let el := po_el (mf_ports m) in let cl := po_cl (mf_ports m) in
  [el_http el; default 8551 (el_authrpc el); el_p2p el; el_metrics el; cl_p2p cl; cl_mempool cl; cl_metrics cl].

Lemma ports_for_node_run (m : Manifest) (n : Node) (p : PortsOut) :
  ports_for_node m n = Ok p → ∃ o, port_offset m n = Ok o ∧ port_list p = (λ b, b + o) <$> port_bases m ∧
    Forall (λ v, v ≤ 65535) (port_list p).
Proof.
  assert (∀ b o v, add_port b o = Ok v → v = b + o ∧ v ≤ 65535) as Hadd.
  { intros b o v. unfold add_port. destruct (65535 <? b + o) eqn:Hb; [done|]. intros [= <-]. lia. }
  unfold ports_for_node. intros (o & Ho & Hr)%obind_Ok.
  do 7 (let v := fresh "v" in let H := fresh "H" in apply obind_Ok in Hr as (v & [-> H]%Hadd & Hr)).
  injection Hr as <-. exists o. split; [done|]. split; [done|]. by repeat constructor.
Qed.

(** ** Socket paths do not collide *)

Lemma strip_prefix_app (p l l' : list ascii) : strip_prefix p l = Some l' → l = p ++ l'.
Proof.
  revert l. induction p as [|a p IH]; intros l Hs; cbn in Hs; [by injection Hs as ->|].
  destruct l as [|b l]; [done|]. case_decide; [|done]. subst. cbn. f_equal. by apply IH.
Qed.

(** How long the result is depends on the pattern and on the length of what is
    put in, with a factor that counts the replacements. *)
Lemma replace_sub_length (fuel : nat) (p l : list ascii) : p ≠ [] → (length l ≤ fuel)%nat →
  ∃ a k, (∀ r, length (replace_sub fuel p r l) = a + k * length r)%nat ∧ (find_sub p l = true → 0 < k)%nat.
Proof.
  intros Hp. revert l. induction fuel as [|fuel IH]; intros l Hl; cbn [replace_sub].
  - destruct l; [|cbn in Hl; lia]. exists 0%nat, 0%nat. split; [intros; lia|].
    by destruct p; [|done].
  - destruct (strip_prefix p l) as [l'|] eqn:Hs.
    + apply strip_prefix_app in Hs as ->. rewrite length_app in Hl.
      destruct (IH l') as (a & k & Hk & _); [destruct p; [done|]; cbn in Hl; lia|].
      exists a, (S k). split; [|lia]. intros r. rewrite length_app, Hk. lia.
    + destruct l as [|c l]; [exists 0%nat, 0%nat; split; [intros; cbn; lia|]; by destruct p; [|done]|].
      cbn in Hl. destruct (IH l) as (a & k & Hk & Hf); [lia|].
      exists (S a), k. split; [intros r; cbn; rewrite Hk; lia|]. cbn [find_sub]. rewrite Hs. exact Hf.
Qed.

Lemma replace_sub_inj (fuel : nat) (p r r' l : list ascii) : p ≠ [] → (length l ≤ fuel)%nat →
  find_sub p l = true → replace_sub fuel p r l = replace_sub fuel p r' l → r = r'.
Proof.
  intros Hp Hl Hf Heq. assert (length r = length r') as Hlen.
  { destruct (replace_sub_length fuel p l Hp Hl) as (a & k & Hk & Hpos). specialize (Hpos Hf).
    apply (f_equal length) in Heq. rewrite !Hk in Heq. nia. }
  revert l Hl Hf Heq. induction fuel as [|fuel IH]; intros l Hl Hf Heq.
  - destruct l; [|cbn in Hl; lia]. by destruct p.
  - cbn [replace_sub] in Heq. destruct (strip_prefix p l) as [l'|] eqn:Hs.
    + by apply app_inj_1 in Heq as [-> _].
    + destruct l as [|c l]; [by destruct p|]. injection Heq as Heq. cbn in Hl. apply (IH l); [lia| |done].
      cbn [find_sub] in Hf. by rewrite Hs in Hf.
Qed.

Lemma list_ascii_inj (s t : string) : String.list_ascii_of_string s = String.list_ascii_of_string t → s = t.
Proof.
  intros Heq. rewrite <-(String.string_of_list_ascii_of_string s), Heq. apply String.string_of_list_ascii_of_string.
Qed.

Lemma str_replace_inj (p r r' t : string) :
  p ≠ EmptyString → str_contains p t = true → str_replace p r t = str_replace p r' t → r = r'.
Proof.
  unfold str_contains, str_replace. intros Hp Hc Heq. apply (f_equal String.list_ascii_of_string) in Heq.
  rewrite !String.list_ascii_of_string_of_list_ascii in Heq. apply list_ascii_inj.
  eapply replace_sub_inj; [|reflexivity|exact Hc|exact Heq]. by destruct p.
Qed.

(** Nodes of a validated manifest do not get in each other's way.  Any two of
    them have different ports for every service, all within 16 bits, and
    different engine sockets, so that they can share a host. *)
Theorem nodes_do_not_collide (m : Manifest) (allow : bool) (n1 n2 : Node) (p1 p2 : PortsOut) :
  manifest_sized m → validate_manifest m allow = Ok tt → nn_id n1 ≠ nn_id n2 →
  ports_for_node m n1 = Ok p1 → ports_for_node m n2 = Ok p2 →
  Forall2 (λ a b, a ≠ b) (port_list p1) (port_list p2) ∧ Forall (λ v, v ≤ 65535) (port_list p1) ∧
  engine_ipc_path m (nn_id n1) ≠ engine_ipc_path m (nn_id n2).
Proof.
  intros Hz Hv Hne H1 H2. pose proof Hz as [[Hs _] _]. apply validate_manifest_spec in Hv as [V _]; [|done].
  apply ports_for_node_run in H1 as (o1 & Ho1 & Hp1 & Hr1). apply ports_for_node_run in H2 as (o2 & Ho2 & Hp2 & _).
  split_and!; [|done|].
  - assert (o1 ≠ o2) by (intros ->; apply Hne; by eapply offsets_distinct). rewrite Hp1, Hp2.
    apply Forall2_fmap, Forall_Forall2_diag, Forall_forall. intros b _. lia.
  - intros Heq. apply Hne. by eapply (str_replace_inj "{node_id}"), Heq; [|apply (va_template _ V)].
Qed.

Lemma filter_complement_length {A} (P : A → Prop) `{∀ x, Decision (P x)} (l : list A) :
  (length (filter P l) + length (filter (λ x, ¬ P x) l) = length l)%nat.
Proof.
  induction l as [|x l IH]; [done|]. rewrite !filter_cons. cbn.
  repeat case_decide; cbn; try tauto; lia.
Qed.

(** The placement of a validated manifest survives the loss of any one host.
    With four validators or more, and without the override, the validators on
    the other hosts are more than two thirds of all. *)
Theorem placement_survives_host_loss (m : Manifest) (host : string) :
  manifest_sized m → validate_manifest m false = Ok tt → (4 ≤ length (validators m))%nat →
  2 * Z.of_nat (length (validators m)) <
  3 * Z.of_nat (length (filter (λ n, nn_host n ≠ host) (validators m))).
Proof.
  intros [[Hs _] _] Hv Hn. apply validate_manifest_spec in Hv as [_ Hd]; [|done].
  unfold check_failure_domains in Hd. apply obind_Ok in Hd as (? & _ & Hd).
  pose proof (filter_complement_length (λ n, nn_host n = host) (validators m)) as Hlen.
  pose proof (count_hosts_lookup (validators m) host) as Hc.
  destruct (bool_decide (filter _ (count_hosts _) = ∅)) eqn:Ho.
  2: { clear Ho. destruct (_ <? 4) eqn:H4; [lia|done]. }
  apply bool_decide_eq_true in Ho. set (n := Z.of_nat (length (validators m))) in *.
  assert (default 0 (count_hosts (validators m) !! host) ≤ Z.max 0 (n - 1) / 3) as Hle.
  { destruct (count_hosts (validators m) !! host) as [c|] eqn:Hh; cbn; [|apply Z.div_pos; lia].
    destruct (Z.le_gt_cases c (Z.max 0 (n - 1) / 3)) as [?|Hgt]; [done|exfalso].
    by apply (map_filter_empty_not_lookup _ _ host c Ho). }
  pose proof (Z.mul_div_le (Z.max 0 (n - 1)) 3 ltac:(lia)). lia.
Qed.

(** ** Concrete inputs *)

Module Demo.
Definition node (i host : string) : Node := mkNode i host "validator".
Definition demo_manifest (allocation : string) (nodes : list Node) : Manifest :=
  mkManifest 1 (mkNetwork "net" 7) None (mkImages "u" "r")
    [mkHost "h1" "10.0.0.1" "root"; mkHost "h2" "10.0.0.2" "root"; mkHost "h3" "10.0.0.3" "root";
     mkHost "h4" "10.0.0.4" "root"] nodes
    (mkEngine "ipc" "/run/{node_id}/engine.ipc")
    (mkPorts allocation (Some 10) (mkElPorts 8545 None 30303 9001) (mkClPorts 27000 28000 29000))
    true (mkArchiver true "https://s3" "s3") None.
Definition four_hosts : Manifest :=
  demo_manifest "host-block" [node "b" "h2"; node "a" "h1"; node "c" "h3"; node "d" "h4"; mkNode "e" "h1" "rpc"].

Lemma nodes_do_not_collide_witness :
  ∃ p1 p2, ports_for_node four_hosts (node "a" "h1") = Ok p1 ∧ ports_for_node four_hosts (mkNode "e" "h1" "rpc") = Ok p2 ∧
    port_list p1 = [8545; 8551; 30303; 9001; 27000; 28000; 29000] ∧ Forall2 (λ a b, a ≠ b) (port_list p1) (port_list p2) ∧
    engine_ipc_path four_hosts "a" ≠ engine_ipc_path four_hosts "e".
Proof.
  eexists _, _. split; [vm_compute; reflexivity|]. split; [vm_compute; reflexivity|]. split; [reflexivity|].
  edestruct (nodes_do_not_collide four_hosts false (node "a" "h1") (mkNode "e" "h1" "rpc")) as (H1 & _ & H3).
  - split; [split; vm_compute; [discriminate|reflexivity]|vm_compute; discriminate].
  - vm_compute. reflexivity.
  - discriminate.
  - vm_compute. reflexivity.
  - vm_compute. reflexivity.
  - split; [exact H1|exact H3].
Defined.

Lemma placement_survives_host_loss_witness :
  2 * Z.of_nat (length (validators four_hosts)) <
  3 * Z.of_nat (length (filter (λ n, nn_host n ≠ "h1"%string) (validators four_hosts))).
Proof.
  apply (placement_survives_host_loss four_hosts "h1").
  - split; [split; vm_compute; [discriminate|reflexivity]|vm_compute; discriminate].
  - vm_compute. reflexivity.
  - vm_compute. lia.
Defined.

(** Two validators of four on one host are refused. *)
Example unsafe_placement_refused :
  validate_manifest (demo_manifest "host-block" [node "a" "h1"; node "b" "h1"; node "c" "h2"; node "d" "h3"]) false =
  Err "unsafe validator placement across failure domains"%string.
Proof. vm_compute. reflexivity. Qed.

(** Ports of different services are not kept apart: with seven nodes on a host,
    the HTTP port of the seventh is the engine port of the first. *)
Example services_may_collide :
  let m := demo_manifest "host-block"
    [mkNode "a" "h1" "rpc"; mkNode "b" "h1" "rpc"; mkNode "c" "h1" "rpc"; mkNode "d" "h1" "rpc"; mkNode "e" "h1" "rpc";
     mkNode "f" "h1" "rpc"; node "g" "h1"] in
  validate_manifest m false = Ok tt ∧
  out_el_http <$> to_option (ports_for_node m (node "g" "h1")) = Some 8551 ∧
  out_el_authrpc <$> to_option (ports_for_node m (mkNode "a" "h1" "rpc")) = Some 8551.
Proof. vm_compute. repeat split. Qed.

(** Allowing missing tokens does not help when a secrets file is given. *)
Example missing_token_refused_late :
  check_tokens four_hosts (Some (mkSecrets 1 ∅)) true = Ok tt ∧
  check_env_tokens (mkSecrets 1 ∅) (sort_nodes (mf_nodes four_hosts)) = Err "missing secrets.nodes"%string.
Proof. vm_compute. repeat split. Qed.

(** Every node boots from the others. *)
Example boot_nodes :
  (λ l : list LockNode, map (λ n, length (lk_bootnodes n)) l) <$> to_option (lock_nodes (λ i, Ok i) four_hosts)
  = Some [4; 4; 4; 4; 4]%nat.
Proof. vm_compute. reflexivity. Qed.
End Demo.
