(* ===== verification/Bundle.v ===== *)
(** * Network bundles ([infra/gen/netgen/src/main.rs])

    The commands of the network generator: it reads a manifest and secrets, checks
    them with [Netgen.v], and writes the execution genesis, keys unless they
    exist, a home directory per node, the lock file with its public part, the
    inventory and the environment files.  The disk is that of [Files.v] with the
    modes of files; every call can fail.  The formats of files, the parsers of
    settings and the keys of the execution layer are parameters.  The constants a
    lock has (versions, the engine policy) are left out.

    The theorems: what a write leaves, whatever fails ([write_atomic_run]); a
    bundle is one network ([bundle_is_one_network]); generating again changes no
    key, no lock entry and no genesis ([regenerated_network_is_the_same]). *)
From Stdlib Require Import Ascii.
From stdpp Require Import pretty.
From S2P Require Import Prelude Text Files Types Votes Archiver Startup Genesis Commands Netgen.
Open Scope monad_scope.

(** ** Files with modes *)

(** [dk_modes] has the modes the program has set; other files have the default of
    the process.  [dk_drawn] counts the keys drawn from the system. *)
Record Disk := mkDisk { dk_fs : Fs; dk_modes : gmap (list string) Z; dk_drawn : nat }.
Abbreviation DkM A := (M Disk string A) (only parsing).

Definition on_fs {A} (c : M Fs string A) : DkM A :=
  zoom dk_fs (λ fs d, mkDisk fs (dk_modes d) (dk_drawn d)) c.
Definition set_mode (path : Path) (mode : option Z) (d : Disk) : Disk :=
  mkDisk (dk_fs d) (partial_alter (λ _, mode) path (dk_modes d)) (dk_drawn d).
Definition dk_files (d : Disk) : gmap (list string) bytes := fs_files (dk_fs d).

(** [opts.open(tmp)]: the mode is that of the options only if the file is new. *)
Definition open_with_mode (path : Path) (mode : option Z) : DkM unit :=
  let* there := on_fs (exists_ path) in
  on_fs (open_truncated path "cannot open file"%string) ;;;
  (if there : bool then ret tt else modify (set_mode path mode)).
Definition set_permissions (path : Path) (mode : Z) : DkM unit :=
  let* f := on_fs fs_call in
  match f with None => modify (set_mode path (Some mode)) | Some _ => fail "cannot set permissions"%string end.
(** [fs::rename]: the file and its mode move. *)
Definition rename (src dst : Path) : DkM unit :=
  let* f := on_fs fs_call in
  match f with
  | Some _ => fail "cannot rename"%string
  | None =>
    let* d := get in
    match dk_files d !! src with
    | None => fail "no such file"%string
    | Some data =>
      modify (λ d, mkDisk (mkFs (<[dst := data]> (delete src (dk_files d))) (fs_faults (dk_fs d)))
        (partial_alter (λ _, dk_modes d !! src) dst (delete src (dk_modes d))) (dk_drawn d))
    end
  end.

(** [with_extension("tmp")] of a file name: what follows the last dot is
    replaced, unless that dot is the first character. *)
Fixpoint file_stem (l : list ascii) : option (list ascii) :=
  match l with
  | [] => None
  | c :: l =>
    match file_stem l with
    | Some s => Some (c :: s)
    | None => if decide (c = "."%char) then Some [] else None
    end
  end.
Definition with_extension_tmp (name : string) : string :=
  let l := String.list_ascii_of_string name in
  match file_stem l with
  | Some (c :: s) => String.string_of_list_ascii (c :: s) +:+ ".tmp"
  | _ => name +:+ ".tmp"
  end.
Definition tmp_path (path : Path) : Path :=
  match last path with Some name => removelast path ++ [with_extension_tmp name] | None => path end.

Definition write_atomic_with_mode (path : Path) (data : bytes) (mode : option Z) : DkM unit :=
  on_fs (create_dir_all "cannot create directory"%string) ;;;
  let tmp := tmp_path path in
  open_with_mode tmp mode ;;;
  on_fs (write_all tmp data "cannot write file"%string) ;;;
  match mode with Some m => set_permissions tmp m | None => ret tt end ;;;
  rename tmp path ;;;
  match mode with Some m => set_permissions path m | None => ret tt end.
Definition write_atomic (path : Path) (data : bytes) : DkM unit := write_atomic_with_mode path data None.

Definition try_exists (path : Path) : DkM bool :=
  let* f := on_fs fs_call in
  match f with None => on_fs (exists_ path) | Some _ => fail "cannot look for file"%string end.
Definition read_to_string (path : Path) : DkM bytes :=
  let* f := on_fs fs_call in
  match f with
  | Some _ => fail "cannot read file"%string
  | None => let* d := get in lift (ok_or (read_file (dk_fs d) path) "no such file"%string)
  end.

(** The bytes of a text. *)
Definition bytes_of_text (s : string) : bytes :=
  (λ a, Z.of_nat (nat_of_ascii a)) <$> String.list_ascii_of_string s.

(** ** Environment files *)

Definition quote : string := String (ascii_of_nat 34) EmptyString.
Definition backslash : string := String (ascii_of_nat 92) EmptyString.
Definition newline : string := String (ascii_of_nat 10) EmptyString.
Definition escape (v : string) : string :=
  str_replace quote (backslash +:+ quote) (str_replace backslash (backslash +:+ backslash) v).
Definition env_line (k v : string) : string := k +:+ "=" +:+ quote +:+ escape v +:+ quote +:+ newline.
Definition env_text (entries : list (string * string)) : string :=
  foldl (λ out kv, out +:+ env_line kv.1 kv.2) EmptyString entries.
Definition write_env_file (path : Path) (entries : list (string * string)) (mode : option Z) : DkM unit :=
  write_atomic_with_mode path (bytes_of_text (env_text entries)) mode.

(** ** The rest of the manifest *)

(** The sections [Netgen.v] leaves out: the tuning of sync for all nodes and for
    those that are no validators, limits of messages, and where metrics are
    served. *)
Record SyncTuning := mkTuning {
  tu_parallel_requests : option Z; tu_request_timeout : option string; tu_max_request_size : option string;
  tu_max_response_size : option string; tu_batch_size : option Z }.
Record Deployment := mkDeployment {
  dp_manifest : Manifest; dp_sync : SyncTuning; dp_fullnode : option SyncTuning;
  dp_pubsub_max_size : option string; dp_rpc_max_size : option string; dp_metrics_bind : string;
  dp_allow_unsafe_failure_domains : bool }.
(** The secrets: tokens of nodes, and the password of the dashboard. *)
Record BundleSecrets := mkBundleSecrets { bs_secrets : Secrets; bs_grafana_admin_password : option string }.

(** ** The configuration of a node *)

Record PeerConfig := mkPeerConfig {
  pc_listen_addr : string; pc_persistent_peers : list string; pc_pubsub_max_size : Z; pc_rpc_max_size : Z }.
Record ValueSync := mkValueSync {
  vsy_enabled : bool; vsy_parallel_requests : Z; vsy_request_timeout : Z; vsy_max_request_size : Z;
  vsy_max_response_size : Z; vsy_batch_size : Z }.
Record HomeConfig := mkHomeConfig {
  hc_moniker : string; hc_metrics_enabled : bool; hc_metrics_addr : string; hc_consensus : PeerConfig;
  hc_mempool : PeerConfig; hc_sync : ValueSync; hc_archiver : ArchiverConfig }.

(** Defaults of the consensus engine, and the parsers of durations, sizes and
    addresses; [sort_addrs] is the order of multiaddresses. *)
Class Settings := {
  default_consensus : PeerConfig; default_mempool : PeerConfig; default_sync : ValueSync;
  parse_duration : string → option Z; parse_size : string → option Z; parse_addr : string → option string;
  sort_addrs : list string → list string }.

Section config.
Context `{Settings} `{AddressLib}.

(** A setting that does not parse leaves the value, with a warning. *)
Definition parsed (parse : string → option Z) (setting : option string) (value : Z) : Z :=
  match setting with Some s => default value (parse s) | None => value end.

Definition apply_tuning (t : SyncTuning) (s : ValueSync) : ValueSync :=
  mkValueSync (vsy_enabled s) (default (vsy_parallel_requests s) (tu_parallel_requests t))
    (parsed parse_duration (tu_request_timeout t) (vsy_request_timeout s))
    (parsed parse_size (tu_max_request_size t) (vsy_max_request_size s))
    (parsed parse_size (tu_max_response_size t) (vsy_max_response_size s))
    (default (vsy_batch_size s) (tu_batch_size t)).

Definition is_validator (n : Netgen.Node) : bool := bool_decide (nn_role n = "validator"%string).

Definition peer_config (d : Deployment) (p : PeerConfig) (addr : string) (peers : list string) : PeerConfig :=
  mkPeerConfig addr (sort_addrs peers) (parsed parse_size (dp_pubsub_max_size d) (pc_pubsub_max_size p))
    (parsed parse_size (dp_rpc_max_size d) (pc_rpc_max_size p)).

Definition sync_config (d : Deployment) (n : Netgen.Node) : ValueSync :=
  let s := default_sync in
  let s := apply_tuning (dp_sync d)
             (mkValueSync true (vsy_parallel_requests s) (vsy_request_timeout s) (vsy_max_request_size s)
                (vsy_max_response_size s) (vsy_batch_size s)) in
  match dp_fullnode d with
  | Some t => if is_validator n then s else apply_tuning t s
  | None => s
  end.

Definition archiver_config (m : Manifest) (n : Netgen.Node) : ArchiverConfig :=
  let a := ArchiverConfig_default in
  mkArchiverConfig (is_validator n) (ar_provider_url (mf_archiver m)) (cf_upload_path a)
    (ar_provider_id (mf_archiver m)) (cf_bearer_token a) (cf_retry_attempts a) (cf_retry_backoff_ms a)
    (cf_max_queue_size a).

Definition home_config (d : Deployment) (n : Netgen.Node) : outcome string HomeConfig :=
  (let m := dp_manifest d in
   let? ports := ports_for_node m n in
   let? addr := ok_or (parse_addr (dp_metrics_bind d +:+ ":" +:+ pretty (out_cl_metrics ports)))
                  "invalid metrics listen addr"%string in
   let? peers := persistent_peers m n in
   let dial (l : list (string * Z)) := (λ p, multiaddr Tcp p.1 p.2) <$> l in
   Ok (mkHomeConfig (nn_id n) true addr
         (peer_config d default_consensus (multiaddr Tcp "0.0.0.0" (out_cl_p2p ports)) (dial peers.1))
         (peer_config d default_mempool (multiaddr Tcp "0.0.0.0" (out_cl_mempool ports)) (dial peers.2))
         (sync_config d n) (archiver_config m n)))%outcome.
End config.

(** ** Keys *)

(** Keys of the execution layer's network ([k256]): valid secrets, secrets drawn
    at random, and the uncompressed public key. *)
Class P2pKeys := {
  p2p_from_slice : bytes → option bytes; p2p_random : nat → bytes; p2p_public : bytes → bytes }.

(** [0o600] *)
Definition MODE_600 : Z := 6 * 8^2.

Definition draw {A} (f : nat → A) : DkM A := λ d,
  (mkDisk (dk_fs d) (dk_modes d) (S (dk_drawn d)), Ok (f (dk_drawn d))).

(** A key that is there is read; otherwise one is drawn and written, for its owner
    only. *)
Definition key_or_new {A} (key_path : Path) (parse : bytes → outcome string A) (generate : nat → A)
    (rendered : A → outcome string bytes) : DkM A :=
  let* there := try_exists key_path in
  if there : bool then
    let* content := read_to_string key_path in lift (parse content)
  else
    let* key := draw generate in
    let* data := lift (rendered key) in
    write_atomic_with_mode key_path data (Some MODE_600) ;;;
    ret key.

(** [s.trim().trim_start_matches("0x")] decoded *)
Definition read_p2p_secret `{P2pKeys} (content : bytes) : outcome string bytes :=
  (let? b := ok_or (hex_decode (trim_start_of [["0"; "x"]%char] (trim (text_of_bytes content)))) "invalid hex"%string in
   ok_or (p2p_from_slice b) "invalid p2p key bytes"%string)%outcome.

Definition p2p_key_path (private_dir : Path) (node_id : string) : Path :=
  join (join (join private_dir "load-reth") "p2p-keys") (node_id +:+ ".key").

(** The part of a public key an enode has. *)
Definition enode_pub `{P2pKeys} (secret : bytes) : outcome string string :=
  match p2p_public secret with
  | 4 :: rest => Ok (hex_encode rest)
  | _ => Err "expected uncompressed pubkey"%string
  end.

Definition ensure_load_reth_p2p_key `{P2pKeys} (private_dir : Path) (node_id : string) : DkM (Path * string) :=
  let key_path := p2p_key_path private_dir node_id in
  let* secret := key_or_new key_path read_p2p_secret p2p_random (λ s, Ok (bytes_of_text (hex_encode s))) in
  set_permissions key_path MODE_600 ;;;
  let* enode_pub_hex := lift (enode_pub secret) in
  ret (key_path, enode_pub_hex).

(** ** What is written *)

Record ArchiverOut := mkArchiverOut {
  ao_enabled : bool; ao_provider_url : string; ao_provider_id : string; ao_bearer_token_present : bool }.
Record LockEntry := mkLockEntry {
  le_node : LockNode; le_images : Images; le_p2p_key_path : string; le_archiver : option ArchiverOut }.
Record Lockfile := mkLockfile {
  lf_network : Network; lf_manifest_path : string; lf_manifest_sha256 : string; lf_metrics_bind : string;
  lf_unsafe_failure_domains_allowed : bool; lf_hosts : list Host; lf_nodes : list LockEntry;
  lf_blockscout : option Blockscout; lf_genesis_path : string; lf_genesis_sha256 : string }.
Record NetworkNode := mkNetworkNode {
  nd_id : string; nd_role : string; nd_host : string; nd_public_ip : string; nd_ports : PortsOut;
  nd_enode : string; nd_bootnodes : list string; nd_archiver : option (bool * string * string) }.
Record NetworkJson := mkNetworkJson {
  nj_network : Network; nj_nodes : list NetworkNode; nj_genesis_path : string; nj_genesis_sha256 : string }.
(** Per host: where to connect, as whom, and the nodes it runs. *)
Record InventoryHost := mkInventoryHost {
  ih_id : string; ih_ansible_host : string; ih_ansible_user : string; ih_loadnet_nodes : list string }.

Class BundleFormats := {
  home_to_toml : HomeConfig → option bytes; lock_to_json : Lockfile → option bytes;
  network_to_json : NetworkJson → option bytes; inventory_to_yaml : list InventoryHost → option bytes }.

Definition render (data : option bytes) : outcome string bytes := ok_or data "cannot render"%string.

Definition host_le (a b : Host) : Prop := str_le (ho_id a) (ho_id b).
#[export] Instance host_le_dec : RelDecision host_le.
Proof. intros a b. unfold host_le. apply _. Defined.
Definition sort_hosts (l : list Host) : list Host := merge_sort host_le l.

(** [render_inventory] *)
Definition render_inventory (l : Lockfile) : list InventoryHost :=
  (λ h, mkInventoryHost (ho_id h) (ho_public_ip h) (ho_ssh_user h)
     (merge_sort str_le (lk_id ∘ le_node <$> filter (λ n, lk_host (le_node n) = ho_id h) (lf_nodes l))))
  <$> lf_hosts l.

(** The addresses of the hosts by id; a later host of an id would win. *)
Definition host_ip_by_id (hosts : list Host) : gmap string string :=
  foldl (λ m h, <[ho_id h := ho_public_ip h]> m) ∅ hosts.
Definition network_node (hosts : list Host) (e : LockEntry) : outcome string NetworkNode :=
  (let n := le_node e in
   let? ip := ok_or (host_ip_by_id hosts !! lk_host n) "lockfile missing host entry"%string in
   Ok (mkNetworkNode (lk_id n) (lk_role n) (lk_host n) ip (lk_ports n) (lk_enode n) (lk_bootnodes n)
         ((λ a, (ao_enabled a, ao_provider_url a, ao_provider_id a)) <$> le_archiver e)))%outcome.
Definition network_json (l : Lockfile) : outcome string NetworkJson :=
  (let? nodes := omapM (network_node (lf_hosts l)) (lf_nodes l) in
   Ok (mkNetworkJson (lf_network l) nodes (lf_genesis_path l) (lf_genesis_sha256 l)))%outcome.

Definition path_text (path : Path) : string := String.concat "/" path.

Definition ultramarine_entries (d : Deployment) (e : LockEntry) : list (string * string) :=
  let n := le_node e in
  [("ULTRAMARINE_NODE_ID", lk_id n);
   ("ULTRAMARINE_HOME_DIR", "bundle/private/ultramarine/homes/" +:+ lk_id n);
   ("ULTRAMARINE_ENGINE_IPC_PATH", lk_ipc_path n);
   ("ULTRAMARINE_ETH1_RPC_URL", "http://127.0.0.1:" +:+ pretty (out_el_http (lk_ports n)));
   ("ULTRAMARINE_METRICS_BIND", dp_metrics_bind d);
   ("ULTRAMARINE_CL_P2P_PORT", pretty (out_cl_p2p (lk_ports n)));
   ("ULTRAMARINE_CL_MEMPOOL_PORT", pretty (out_cl_mempool (lk_ports n)));
   ("ULTRAMARINE_CL_METRICS_PORT", pretty (out_cl_metrics (lk_ports n)));
   ("ULTRAMARINE_IMAGE", im_ultramarine (le_images e));
   ("ULTRAMARINE_UID", "10002"); ("ULTRAMARINE_GID", "10002"); ("RUST_LOG", "info")]%string ++
  (if bool_decide (lk_role n = "validator"%string) then
     [("ULTRAMARINE_ARCHIVER_ENABLED", "true");
      ("ULTRAMARINE_ARCHIVER_PROVIDER_URL", ar_provider_url (mf_archiver (dp_manifest d)));
      ("ULTRAMARINE_ARCHIVER_PROVIDER_ID", ar_provider_id (mf_archiver (dp_manifest d)))]%string
   else []).

Definition load_reth_entries (public_ip genesis_path : string) (e : LockEntry) : list (string * string) :=
  let n := le_node e in
  [("LOAD_RETH_NODE_ID", lk_id n); ("LOAD_RETH_IMAGE", im_load_reth (le_images e));
   ("LOAD_RETH_PUBLIC_IP", public_ip); ("LOAD_RETH_HTTP_PORT", pretty (out_el_http (lk_ports n)));
   ("LOAD_RETH_AUTHRPC_PORT", pretty (out_el_authrpc (lk_ports n)));
   ("LOAD_RETH_P2P_PORT", pretty (out_el_p2p (lk_ports n)));
   ("LOAD_RETH_METRICS_PORT", pretty (out_el_metrics (lk_ports n)));
   ("LOAD_RETH_ENGINE_IPC_PATH", lk_ipc_path n); ("LOAD_RETH_P2P_KEY_PATH", le_p2p_key_path e);
   ("LOAD_RETH_BOOTNODES", String.concat "," (lk_bootnodes n)); ("LOAD_RETH_GENESIS_JSON", genesis_path);
   ("LOAD_RETH_UID", "10001"); ("LOAD_RETH_GID", "10001"); ("RUST_LOG", "info")]%string.

Definition sha256_file `{Crypto} (path : Path) : DkM string :=
  let* content := read_to_string path in ret (hex_encode (sha256 content)).

Section generate.
Context {CR : Crypto} {AL : AddressLib} {RN : Random} {FF : FileFormats} {BF : BundleFormats} {ST : Settings}
  {PK : P2pKeys} {WL : WalletLib} {EL : ExecutionGenesisLib} {GJ : GenesisJson EL}.
Variables (d : Deployment) (out_dir : Path) (now : option Z).
Local Abbreviation m := (dp_manifest d).

Definition public_dir : Path := join (join out_dir "bundle") "public".
Definition private_dir : Path := join (join out_dir "bundle") "private".
Definition env_dir : Path := join private_dir "env".
Definition ultra_homes_dir : Path := join (join private_dir "ultramarine") "homes".
Definition genesis_path : Path := join public_dir "genesis.json".
Definition home_dir (id : string) : Path := join ultra_homes_dir id.
Definition validator_key_path (id : string) : Path := config_path (home_dir id) PRIV_VALIDATOR_KEY_FILE.

(** The execution genesis and its hash. *)
Definition emit_execution_genesis : DkM string :=
  let* genesis := lift match mf_execution m with
    | Some alloc => build_genesis_from_alloc_strings now (nw_chain_id (mf_network m))
                      ((λ a, (al_address a, al_balance_wei a)) <$> alloc)
    | None => build_dev_genesis now (nw_chain_id (mf_network m))
    end in
  on_fs (write_genesis genesis_path genesis) ;;;
  sha256_file genesis_path.

(** The signing key of a node, generated unless it is there. *)
Definition node_key (n : Netgen.Node) : DkM bytes :=
  key_or_new (validator_key_path (nn_id n)) (λ content, ok_or (json_to_key content) "invalid key"%string)
    os_key (λ pk, render (key_to_json pk)).

Fixpoint node_keys (nodes : list Netgen.Node) : DkM (list Validator) :=
  match nodes with
  | [] => ret []
  | n :: nodes =>
    let* pk := node_key n in
    let* validators := node_keys nodes in
    ret (if is_validator n then Validator_new (ed25519_public pk) 1 :: validators else validators)
  end.

Definition emit_home (genesis : ValidatorSet) (n : Netgen.Node) : DkM unit :=
  let* _ := lift (ports_for_node m n) in
  let* data := lift (render (genesis_to_json genesis)) in
  write_atomic (config_path (home_dir (nn_id n)) GENESIS_FILE) data ;;;
  let* cfg := lift (home_config d n) in
  let* data := lift (render (home_to_toml cfg)) in
  write_atomic (config_path (home_dir (nn_id n)) CONFIG_FILE) data.

Definition lock_entry (secrets : option BundleSecrets) (n : Netgen.Node) : DkM LockEntry :=
  let* _ := lift (ports_for_node m n) in
  let* key := ensure_load_reth_p2p_key private_dir (nn_id n) in
  let* node := lift (lock_node (λ _, Ok key.2) m n) in
  ret (mkLockEntry node (mf_images m) (path_text (drop (length out_dir) key.1))
         (if is_validator n
          then Some (mkArchiverOut true (ar_provider_url (mf_archiver m)) (ar_provider_id (mf_archiver m))
                       (bool_decide (is_Some secrets)))
          else None)).

Fixpoint lock_entries (secrets : option BundleSecrets) (nodes : list Netgen.Node) : DkM (list LockEntry) :=
  match nodes with
  | [] => ret []
  | n :: nodes =>
    let* e := lock_entry secrets n in
    let* es := lock_entries secrets nodes in
    ret (e :: es)
  end.
Definition with_bootnodes (l : list LockEntry) : list LockEntry :=
  (λ e, mkLockEntry (set_bootnodes (lk_enode ∘ le_node <$> l) (le_node e)) (le_images e) (le_p2p_key_path e)
          (le_archiver e)) <$> l.

(** The environment files of a node; a validator's token is in a file of its own. *)
Definition emit_token (secrets : option BundleSecrets) (id : string) : DkM unit :=
  match secrets with
  | None => ret tt
  | Some s =>
    let* tok := lift (ok_or (se_nodes (bs_secrets s) !! id) "missing secrets.nodes"%string) in
    if is_blank tok then fail "empty archiver token for node"%string
    else write_env_file (join (join (join private_dir "ultramarine") "secrets") (id +:+ ".env"))
           [("ULTRAMARINE_ARCHIVER_BEARER_TOKEN"%string, trim tok)] (Some MODE_600)
  end.
Definition emit_env (secrets : option BundleSecrets) (genesis_rel : string) (e : LockEntry) : DkM unit :=
  let id := lk_id (le_node e) in
  (if bool_decide (lk_role (le_node e) = "validator"%string) then emit_token secrets id else ret tt) ;;;
  write_env_file (join env_dir ("ultramarine-" +:+ id +:+ ".env")) (ultramarine_entries d e) None ;;;
  let* public_ip := lift (host_ip m (lk_host (le_node e))) in
  write_env_file (join env_dir ("load-reth-" +:+ id +:+ ".env")) (load_reth_entries public_ip genesis_rel e) None.

Definition emit_grafana (secrets : option BundleSecrets) : DkM unit :=
  match secrets ≫= bs_grafana_admin_password with
  | Some pw =>
    if is_blank pw then ret tt
    else write_env_file (join (join private_dir "monitoring") "grafana_admin_password.env")
           [("GRAFANA_ADMIN_PASSWORD"%string, trim pw)] (Some MODE_600)
  | None => ret tt
  end.

Definition emit_lock (secrets : option BundleSecrets) (lock : Lockfile) : DkM unit :=
  let* data := lift (render (lock_to_json lock)) in
  write_atomic (join out_dir "network.lock.json") data ;;;
  let* public := lift (network_json lock) in
  let* data := lift (render (network_to_json public)) in
  write_atomic (join public_dir "network.json") data ;;;
  let* data := lift (render (inventory_to_yaml (render_inventory lock))) in
  write_atomic (join out_dir "inventory.yml") data ;;;
  emit_grafana secrets ;;;
  foreach (lf_nodes lock) (emit_env secrets (lf_genesis_path lock)).

(** What [generate] does with a manifest that was read and checked. *)
Definition emit_bundle (manifest_path manifest_sha : string) (secrets : option BundleSecrets) (allow_unsafe : bool)
    : DkM Lockfile :=
  let* genesis_sha := emit_execution_genesis in
  let* genesis_validators := node_keys (sort_nodes (mf_nodes m)) in
  let* consensus_genesis := lift (ValidatorSet_new genesis_validators) in
  foreach (mf_nodes m) (emit_home consensus_genesis) ;;;
  let* entries := lock_entries secrets (sort_nodes (mf_nodes m)) in
  let lock := mkLockfile (mf_network m) manifest_path manifest_sha (dp_metrics_bind d) allow_unsafe
    (sort_hosts (mf_hosts m)) (with_bootnodes entries) (mf_blockscout m)
    (path_text (drop (length out_dir) genesis_path)) genesis_sha in
  emit_lock secrets lock ;;;
  ret lock.
End generate.

(** ** Inputs *)

(** The parsers of the manifest and of the secrets, and the program that decrypts
    secrets, if it is installed. *)
Class InputFormats := {
  yaml_to_manifest : bytes → option Deployment; yaml_to_secrets : bytes → option BundleSecrets;
  sops : option (Path → option bytes) }.

Section inputs.
Context {CR : Crypto} {AL : AddressLib} {RN : Random} {FF : FileFormats} {BF : BundleFormats} {ST : Settings}
  {PK : P2pKeys} {WL : WalletLib} {EL : ExecutionGenesisLib} {GJ : GenesisJson EL} {IF : InputFormats}.

Definition read_yaml {A} (parse : bytes → option A) (path : Path) : DkM A :=
  let* raw := read_to_string path in lift (ok_or (parse raw) "invalid yaml"%string).

(** Files of this name are decrypted first. *)
Definition is_sops (path : Path) : bool :=
  match last path with
  | Some name => bool_decide (strip_prefix (reverse (String.list_ascii_of_string ".sops.yaml"))
                                (reverse (String.list_ascii_of_string name)) ≠ None)
  | None => false
  end.
Definition read_secrets (path : Path) : DkM BundleSecrets :=
  if is_sops path then
    let* decrypt := lift (ok_or sops "sops is not available"%string) in
    let* raw := lift (ok_or (decrypt path) "sops -d failed"%string) in
    lift (ok_or (yaml_to_secrets raw) "invalid yaml"%string)
  else read_yaml yaml_to_secrets path.

(** The inputs, checked before anything is written. *)
Definition read_inputs (manifest_path : Path) (secrets_path : option Path)
    (allow_missing_archiver_tokens allow_unsafe : bool) : DkM (Deployment * option BundleSecrets * string) :=
  let* d := read_yaml yaml_to_manifest manifest_path in
  lift (validate_manifest (dp_manifest d) (allow_unsafe || dp_allow_unsafe_failure_domains d)) ;;;
  let* secrets := match secrets_path with
                  | Some p => let* s := read_secrets p in ret (Some s)
                  | None => ret None
                  end in
  lift (check_tokens (dp_manifest d) (bs_secrets <$> secrets) allow_missing_archiver_tokens) ;;;
  let* sha := sha256_file manifest_path in
  ret (d, secrets, sha).

(** [generate]: the manifest that was read, and the lock that was written. *)
Definition generate (now : option Z) (manifest_path out_dir : Path) (secrets_path : option Path)
    (allow_missing_archiver_tokens allow_unsafe : bool) : DkM (Deployment * Lockfile) :=
  let* i := read_inputs manifest_path secrets_path allow_missing_archiver_tokens allow_unsafe in
  let d := i.1.1 in
  let* lock := emit_bundle d out_dir now (path_text manifest_path) i.2 i.1.2
                 (allow_unsafe || dp_allow_unsafe_failure_domains d) in
  ret (d, lock).

(** The commands. *)
Inductive Cmd :=
| Validate (manifest : Path) (allow_unsafe_failure_domains : bool)
| Gen (manifest out_dir : Path) (secrets_file : option Path)
    (allow_missing_archiver_tokens allow_unsafe_failure_domains : bool).
Definition netgen_main (now : option Z) (cmd : Cmd) : DkM unit :=
  match cmd with
  | Validate manifest allow_unsafe =>
    let* d := read_yaml yaml_to_manifest manifest in
    lift (validate_manifest (dp_manifest d) (allow_unsafe || dp_allow_unsafe_failure_domains d))
  | Gen manifest out_dir secrets_file missing unsafe => generate now manifest out_dir secrets_file missing unsafe ;;; ret tt
  end.
End inputs.

(** ** Atomic writes *)

(** Only the files of [P] change. *)
Definition dk_touches (P : Path → Prop) (d d' : Disk) : Prop := touches P (dk_fs d) (dk_fs d').
#[export] Instance dk_touches_preorder (P : Path → Prop) : PreOrder (dk_touches P).
Proof.
  unfold dk_touches. split; [by intros d|]. intros a b c Hab Hbc. by transitivity (dk_fs b).
Qed.

(** Each call either works or changes no more than what it had written. *)
Definition same_view (d d' : Disk) : Prop := dk_files d' = dk_files d ∧ dk_modes d' = dk_modes d.

Lemma fs_call_run (d : Disk) : ∃ d' f, on_fs (fs_call (E := string)) d = (d', Ok f) ∧ same_view d d'.
Proof. destruct d as [[fl [|f faults]] modes n]; eexists _, _; (split; [reflexivity|done]). Qed.

Lemma create_dir_run (e : string) (d d' : Disk) (r : outcome string unit) :
  on_fs (create_dir_all e) d = (d', r) → same_view d d'.
Proof. destruct d as [[fl [|[n|] faults]] modes k]; intros [= <- <-]; done. Qed.

Lemma open_run (path : Path) (mode : option Z) (d d' : Disk) (r : outcome string unit) :
  open_with_mode path mode d = (d', r) →
  (r = Ok tt ∧ dk_files d' = <[path := []]> (dk_files d) ∧
   dk_modes d' = if bool_decide (is_Some (dk_files d !! path)) then dk_modes d
                 else partial_alter (λ _, mode) path (dk_modes d)) ∨
  (is_ok r = false ∧ same_view d d').
Proof.
  unfold open_with_mode. intros Hr. apply bind_run in Hr as [(there & d1 & H1 & Hr)|(r0 & H1 & Hno & _)]; [|by injection H1 as <- <-].
  injection H1 as <- <-. destruct d as [[fl [|[n|] faults]] modes k]; unfold dk_files, bind in *; simpl in *;
    destruct (bool_decide _); injection Hr as <- <-; first [by left|by right].
Qed.

Lemma write_run (path : Path) (data : bytes) (e : string) (d d' : Disk) (r : outcome string unit) :
  on_fs (write_all path data e) d = (d', r) →
  dk_modes d' = dk_modes d ∧ ((r = Ok tt ∧ dk_files d' = <[path := data]> (dk_files d)) ∨
    (is_ok r = false ∧ ∃ b, dk_files d' = <[path := b]> (dk_files d))).
Proof.
  destruct d as [[fl [|[n|] faults]] modes k]; intros [= <- <-]; (split; [done|]);
    first [by left|right; split; [done|by eexists]].
Qed.

Lemma set_permissions_run (path : Path) (mode : Z) (d d' : Disk) (r : outcome string unit) :
  set_permissions path mode d = (d', r) →
  dk_files d' = dk_files d ∧ ((r = Ok tt ∧ dk_modes d' = <[path := mode]> (dk_modes d)) ∨
    (is_ok r = false ∧ dk_modes d' = dk_modes d)).
Proof.
  destruct d as [[fl [|[n|] faults]] modes k]; intros [= <- <-]; (split; [done|]); first [by left|by right].
Qed.

Lemma rename_run (src dst : Path) (d d' : Disk) (r : outcome string unit) :
  rename src dst d = (d', r) →
  (r = Ok tt ∧ ∃ data, dk_files d !! src = Some data ∧ dk_files d' = <[dst := data]> (delete src (dk_files d)) ∧
     dk_modes d' = partial_alter (λ _, dk_modes d !! src) dst (delete src (dk_modes d))) ∨
  (is_ok r = false ∧ same_view d d').
Proof.
  unfold rename. destruct (fs_call_run d) as (d1 & f & H1 & Hf & Hm). unfold bind at 1. rewrite H1.
  destruct f as [n|]; [intros [= <- <-]; by right|]. unfold bind, get. destruct (dk_files d1 !! src) as [data|] eqn:Hs.
  - intros [= <- <-]. left. split; [done|]. exists data. unfold dk_files in *. simpl. by rewrite <-Hf, <-Hm.
  - intros [= <- <-]. by right.
Qed.

(** While the temporary file is prepared: nothing else changes, and if it is new
    it has the mode asked for. *)
Definition staged (tmp : Path) (mode : option Z) (d d1 : Disk) : Prop :=
  (∀ p, p ≠ tmp → dk_files d1 !! p = dk_files d !! p ∧ dk_modes d1 !! p = dk_modes d !! p) ∧
  (∀ m, mode = Some m → dk_files d !! tmp = None → is_Some (dk_files d1 !! tmp) → dk_modes d1 !! tmp = Some m).

Lemma staged_same (tmp : Path) (mode : option Z) (d d1 d2 : Disk) :
  staged tmp mode d d1 → same_view d1 d2 → staged tmp mode d d2.
Proof. intros [H1 H2] [Hf Hm]. by split; rewrite ?Hf, ?Hm. Qed.
Lemma staged_refl (tmp : Path) (mode : option Z) (d d1 : Disk) : same_view d d1 → staged tmp mode d d1.
Proof. intros [Hf Hm]. split; rewrite Hf, Hm; [done|]. intros m _ Hn [x Hx]. by rewrite Hn in Hx. Qed.
(** More content in a temporary file that is there. *)
Lemma staged_write (tmp : Path) (mode : option Z) (d d1 d2 : Disk) (b : bytes) :
  staged tmp mode d d1 → is_Some (dk_files d1 !! tmp) → dk_modes d2 = dk_modes d1 →
  dk_files d2 = <[tmp := b]> (dk_files d1) → staged tmp mode d d2.
Proof.
  intros [H1 H2] Hs Hm Hf. split; rewrite Hf, Hm.
  - intros p Hp. rewrite lookup_insert_ne by done. by apply H1.
  - intros m Hmo Hn _. by apply H2.
Qed.

Lemma staged_open (tmp : Path) (mode : option Z) (d d1 d2 : Disk) :
  same_view d d1 → dk_files d2 = <[tmp := []]> (dk_files d1) →
  dk_modes d2 = (if bool_decide (is_Some (dk_files d1 !! tmp)) then dk_modes d1
                 else partial_alter (λ _, mode) tmp (dk_modes d1)) →
  staged tmp mode d d2.
Proof.
  intros [Hf Hm] H1 H2. rewrite Hf, Hm in *. split.
  - intros p Hp. rewrite H1, H2, lookup_insert_ne by done. split; [done|].
    destruct (bool_decide _); [done|]. by rewrite lookup_partial_alter_ne.
  - intros m -> Hn _. rewrite H2, bool_decide_false by (rewrite Hn; by intros []). by rewrite lookup_partial_alter_eq.
Qed.

Lemma staged_perm (tmp : Path) (m : Z) (d d1 d2 : Disk) :
  staged tmp (Some m) d d1 → dk_files d2 = dk_files d1 → dk_modes d2 = <[tmp := m]> (dk_modes d1) →
  staged tmp (Some m) d d2.
Proof.
  intros [H1 H2] Hf Hm. split; rewrite Hf, Hm.
  - intros p Hp. rewrite lookup_insert_ne by done. by apply H1.
  - intros m' [= <-] _ _. by rewrite lookup_insert_eq.
Qed.

(** The temporary file is ready, or the write has failed with nothing but it
    changed; what is left to run is [k]. *)
Lemma stage_run (tmp : Path) (data : bytes) (mode : option Z) (k : DkM unit) (d d' : Disk) (r : outcome string unit) :
  (on_fs (create_dir_all "cannot create directory"%string) ;;;
   open_with_mode tmp mode ;;;
   on_fs (write_all tmp data "cannot write file"%string) ;;;
   match mode with Some m => set_permissions tmp m | None => ret tt end ;;;
   k) d = (d', r) →
  (is_ok r = false ∧ staged tmp mode d d') ∨
  (∃ d1, k d1 = (d', r) ∧ staged tmp mode d d1 ∧ dk_files d1 !! tmp = Some data ∧
     ∀ m, mode = Some m → dk_modes d1 !! tmp = Some m).
Proof.
  intros Hr. apply bind_run in Hr as [([] & d1 & H1 & Hr)|(r0 & H1 & _ & Hn)]; apply create_dir_run in H1; cycle 1.
  { left. split; [done|by apply staged_refl]. }
  apply bind_run in Hr as [([] & d2 & H2 & Hr)|(r0 & H2 & Hn0 & Hn)]; apply open_run in H2 as [(? & Hf2 & Hm2)|[Hno H2]]; try done; cycle 1.
  { by subst r0. }
  { left. split; [done|]. eapply staged_same; [by apply staged_refl|done]. }
  pose proof (staged_open tmp mode d d1 d2 H1 Hf2 Hm2) as Hst2.
  assert (is_Some (dk_files d2 !! tmp)) as Hs2 by (rewrite Hf2, lookup_insert_eq; done).
  apply bind_run in Hr as [([] & d3 & H3 & Hr)|(r0 & H3 & Hn0 & Hn)]; apply write_run in H3 as [Hm3 [(? & Hf3)|(Hno & b & Hf3)]]; try done; cycle 1.
  { by subst r0. }
  { left. split; [done|by eapply staged_write]. }
  assert (staged tmp mode d d3) as Hst3 by (by eapply staged_write).
  assert (dk_files d3 !! tmp = Some data) as Hd3 by (by rewrite Hf3, lookup_insert_eq).
  destruct mode as [m|]; cycle 1.
  { right. exists d3. split_and!; [exact Hr|done|done|by intros m [=]]. }
  apply bind_run in Hr as [([] & d4 & H4 & Hr)|(r0 & H4 & Hn0 & Hn)]; apply set_permissions_run in H4 as [Hf4 [(? & Hm4)|(Hno & Hm4)]]; try done; cycle 1.
  { by subst r0. }
  { left. split; [done|]. by eapply staged_same. }
  right. exists d4. split_and!; [done|by eapply staged_perm|by rewrite Hf4|].
  intros m' [= <-]. by rewrite Hm4, lookup_insert_eq.
Qed.

(** A file written by the generator is never half written, and a secret one
    is never readable by others.  Whatever call fails, the file has its old
    content or all of the new one, and no file but it and its temporary one
    changes.  When the write succeeds the new content is there with its mode and
    the temporary file is gone.  If no temporary file was left behind, neither
    file ever holds new content with another mode than the one asked for. *)
Lemma write_atomic_run (path : Path) (data : bytes) (mode : option Z) (d d' : Disk) (r : outcome string unit) :
  tmp_path path ≠ path → write_atomic_with_mode path data mode d = (d', r) →
  dk_touches (λ p, p = path ∨ p = tmp_path path) d d' ∧
  (dk_files d' !! path = dk_files d !! path ∨ dk_files d' !! path = Some data) ∧
  (r = Ok tt → dk_files d' !! path = Some data ∧ dk_files d' !! tmp_path path = None ∧
     ∀ m, mode = Some m → dk_modes d' !! path = Some m) ∧
  (∀ m, mode = Some m → dk_files d !! tmp_path path = None →
     (is_Some (dk_files d' !! tmp_path path) → dk_modes d' !! tmp_path path = Some m) ∧
     (dk_files d' !! path ≠ dk_files d !! path → dk_modes d' !! path = Some m)).
Proof.
  intros Hne Hr. unfold write_atomic_with_mode in Hr. set (tmp := tmp_path path) in *.
  apply stage_run in Hr as [[Hno [Hs1 Hs2]]|(d1 & Hr & [Hs1 Hs2] & Hdata & Hmode)].
  { split_and!; [|left; by apply Hs1|by intros ->|].
    - intros p Hp. apply Hs1. intros ->. apply Hp. by right.
    - intros m Hm Htmp. split; [by apply Hs2|]. intros Hch. destruct Hch. by apply Hs1. }
  apply bind_run in Hr as [([] & d2 & H2 & Hr)|(r0 & H2 & Hn0 & Hn)]; apply rename_run in H2 as [(? & b & Hb & Hf & Hm)|[Hno [Hf Hm]]]; try done; cycle 1.
  { by subst r0. }
  { split_and!; [|left; rewrite Hf; by apply Hs1|by intros ->|].
    - intros p Hp. unfold dk_files in *. rewrite Hf. apply Hs1. intros ->. apply Hp. by right.
    - intros m Hm' Htmp. rewrite Hf, Hm. split; [by apply Hs2|]. intros Hch. destruct Hch. by apply Hs1. }
  rewrite Hdata in Hb. injection Hb as <-.
  assert (dk_files d' = dk_files d2 ∧ ∀ m, mode = Some m → dk_modes d' !! path = Some m) as [Hf' Hm'].
  { assert (∀ m, mode = Some m → dk_modes d2 !! path = Some m) as Hm2.
    { intros m Hmo. rewrite Hm, lookup_partial_alter_eq. by apply Hmode. }
    destruct mode as [m|]; [|by injection Hr as <- <-].
    apply set_permissions_run in Hr as [Hf2 [(_ & Hm3)|(_ & Hm3)]]; (split; [done|]); rewrite Hm3; [|done].
    intros m' [= <-]. by rewrite lookup_insert_eq. }
  assert (dk_files d' !! path = Some data) as Hpath by (by rewrite Hf', Hf, lookup_insert_eq).
  assert (dk_files d' !! tmp = None) as Htmp.
  { rewrite Hf', Hf, lookup_insert_ne by done. by rewrite lookup_delete_eq. }
  split_and!; [|by right|intros _; split; [done|by split]|].
  - intros p Hp. unfold dk_files in *. rewrite Hf', Hf, lookup_insert_ne, lookup_delete_ne by (intros <-; apply Hp; auto).
    apply Hs1. intros ->. apply Hp. by right.
  - intros m Hmo Hn. split; [rewrite Htmp; by intros []|]. intros _. by apply Hm'.
Qed.

(** ** Names of files *)

Definition ends (e s : string) : Prop := ∃ stem, s = stem +:+ e.
Lemma string_app_length (s t : string) : String.length (s +:+ t) = (String.length s + String.length t)%nat.
Proof. induction s as [|c s IH]; simpl; [done|]. by rewrite IH. Qed.
Lemma string_app_inj (a b c d : string) :
  a +:+ b = c +:+ d → String.length b = String.length d → b = d.
Proof.
  intros He Hl. assert (String.length a = String.length c) as Hac.
  { pose proof (f_equal String.length He) as Hlen. rewrite !string_app_length in Hlen. lia. }
  revert c He Hac. induction a as [|x a IH]; intros [|y c]; simpl; try done. intros [= _ He] [= Hac]. by apply (IH c).
Qed.
Lemma ends_unique (e e' s : string) : ends e s → ends e' s → String.length e = String.length e' → e = e'.
Proof. intros [t ->] [t' Ht] Hl. by apply (string_app_inj t e t' e'). Qed.

Lemma with_extension_tmp_ends (name : string) : ends ".tmp" (with_extension_tmp name).
Proof. unfold with_extension_tmp. destruct (file_stem _) as [[|c l]|]; by eexists. Qed.

Lemma tmp_path_snoc (dir : Path) (name : string) : tmp_path (dir ++ [name]) = dir ++ [with_extension_tmp name].
Proof. unfold tmp_path. by rewrite last_snoc, removelast_last. Qed.
Lemma tmp_path_length (path : Path) : length (tmp_path path) = length path.
Proof.
  induction path as [|name dir _] using rev_ind; [done|]. by rewrite tmp_path_snoc, !length_app.
Qed.

(** The files with keys: the signing key of a node and the key of its execution
    layer. *)
Definition key_name (name : string) : Prop := name = PRIV_VALIDATOR_KEY_FILE ∨ ends ".key" name.
Definition key_file (path : Path) : Prop := ∃ dir name, path = dir ++ [name] ∧ key_name name.

Lemma key_file_snoc (dir : Path) (name : string) : key_file (dir ++ [name]) → key_name name.
Proof. intros (dir' & name' & He & Hk). by apply app_inj_2 in He as [_ [= ->]]. Qed.
Ltac in_list := solve [repeat first [apply list_elem_of_here|apply list_elem_of_further]].

Lemma ends_no_key (e name : string) : ends e name → e ∈ [".tmp"; ".env"; ".yml"; "toml"]%string → ¬ key_name name.
Proof.
  intros He Hin [->|Hk].
  - destruct He as [t Ht]. assert (e = "json"%string) as ->.
    { apply (string_app_inj t e "priv_validator_key." "json"); [by rewrite <-Ht|].
      rewrite list_elem_of_In in Hin. simpl in Hin. by destruct_or?; subst. }
    rewrite list_elem_of_In in Hin. simpl in Hin. by destruct_or?.
  - assert (e = ".key"%string) as ->.
    { apply (ends_unique e ".key" name); [done..|]. rewrite list_elem_of_In in Hin. simpl in Hin. by destruct_or?; subst. }
    rewrite list_elem_of_In in Hin. simpl in Hin. by destruct_or?.
Qed.
Lemma tmp_no_key (dir : Path) (name : string) : ¬ key_file (tmp_path (dir ++ [name])).
Proof.
  rewrite tmp_path_snoc. intros Hk%key_file_snoc. revert Hk. apply (ends_no_key ".tmp"); [apply with_extension_tmp_ends|].
  in_list.
Qed.

(** Names of files whose temporary file has another name. *)
Definition plain_name (name : string) : Prop :=
  ∃ e, ends e name ∧ e ∈ ["json"; "toml"; ".env"; ".yml"; ".key"]%string.
Lemma plain_tmp_ne (dir : Path) (name : string) : plain_name name → tmp_path (dir ++ [name]) ≠ dir ++ [name].
Proof.
  intros (e & He & Hin). rewrite tmp_path_snoc. intros [_ [= Hn]]%app_inj_2; [|done].
  pose proof (with_extension_tmp_ends name) as Ht. rewrite Hn in Ht.
  assert (e = ".tmp"%string) as ->.
  { apply (ends_unique e ".tmp" name); [done..|]. rewrite list_elem_of_In in Hin. simpl in Hin. by destruct_or?; subst. }
  rewrite list_elem_of_In in Hin. simpl in Hin. by destruct_or?.
Qed.
(** A name that ends as given, as [stem +:+ e]. *)
Ltac plain := match goal with
  | |- plain_name (_ +:+ ?e) => exists e; split; [by eexists|in_list]
  end.

(** ** What the steps touch *)

Lemma dk_touches_weaken (P Q : Path → Prop) (d d' : Disk) :
  (∀ p, P p → Q p) → dk_touches P d d' → dk_touches Q d d'.
Proof. intros HPQ Ht p Hp. apply Ht. auto. Qed.

Lemma write_touches (P : Path → Prop) (dir : Path) (name : string) (data : bytes) (mode : option Z) :
  plain_name name → P (dir ++ [name]) → P (tmp_path (dir ++ [name])) →
  steps (dk_touches P) (write_atomic_with_mode (dir ++ [name]) data mode).
Proof.
  intros Hpl H1 H2 d. destruct (write_atomic_with_mode _ _ _ d) as [d' r] eqn:Hr.
  apply write_atomic_run in Hr as [Ht _]; [|by apply plain_tmp_ne].
  eapply dk_touches_weaken; [|exact Ht]. by intros p [->| ->].
Qed.

(** Keys stay as they are. *)
Definition keys_kept (d d' : Disk) : Prop :=
  ∀ path b, key_file path → dk_files d !! path = Some b → dk_files d' !! path = Some b.
#[export] Instance keys_kept_preorder : PreOrder keys_kept.
Proof. split; [by intros d path b|]. intros a b c Hab Hbc path x Hk Hx. eauto. Qed.
Lemma touches_keys_kept (P : Path → Prop) (d d' : Disk) :
  (∀ p, P p → ¬ key_file p) → dk_touches P d d' → keys_kept d d'.
Proof. intros HP Ht path b Hk Hb. unfold dk_files in *. rewrite Ht; [done|]. intros Hp. by apply (HP path). Qed.
Definition same_files (d d' : Disk) : Prop := dk_files d' = dk_files d.
#[export] Instance same_files_preorder : PreOrder same_files.
Proof. split; [by intros d|]. unfold same_files. congruence. Qed.
Lemma same_files_kept (d d' : Disk) : dk_files d' = dk_files d → keys_kept d d'.
Proof. intros Hf path b _ Hb. by rewrite Hf. Qed.

(** A key is written only where there is none. *)
Lemma write_new_key (dir : Path) (name : string) (data : bytes) (mode : option Z) (d d' : Disk) (r : outcome string unit) :
  plain_name name → dk_files d !! (dir ++ [name]) = None →
  write_atomic_with_mode (dir ++ [name]) data mode d = (d', r) →
  keys_kept d d' ∧ (r = Ok tt → dk_files d' !! (dir ++ [name]) = Some data).
Proof.
  intros Hpl Hnone Hr. apply write_atomic_run in Hr as (Ht & _ & Hok & _); [|by apply plain_tmp_ne]. split; [|by apply Hok].
  intros path b Hk Hb. unfold dk_files in *. rewrite Ht; [done|]. intros [->| ->]; [by rewrite Hnone in Hb|].
  by apply tmp_no_key in Hk.
Qed.

Lemma try_exists_run (path : Path) (d d' : Disk) (r : outcome string bool) :
  try_exists path d = (d', r) →
  dk_files d' = dk_files d ∧ (∀ b, r = Ok b → b = bool_decide (is_Some (dk_files d !! path))).
Proof.
  unfold try_exists, bind at 1. destruct (fs_call_run d) as (d1 & f & -> & Hf & Hm).
  destruct f as [n|]; intros [= <- <-]; unfold dk_files in *; simpl; rewrite ?Hf; (split; [done|]); [done|].
  by intros b [= <-].
Qed.
Lemma read_to_string_run (path : Path) (d d' : Disk) (r : outcome string bytes) :
  read_to_string path d = (d', r) →
  dk_files d' = dk_files d ∧ (∀ b, r = Ok b → dk_files d !! path = Some b).
Proof.
  unfold read_to_string, bind at 1. destruct (fs_call_run d) as (d1 & f & -> & Hf & Hm).
  destruct f as [n|]; [by intros [= <- <-]|]. unfold bind, get, lift. intros [= <- <-].
  split; [done|]. unfold read_file, dk_files in *. rewrite Hf. intros b Hb. by destruct (fs_files (dk_fs d) !! path) as [x|]; simplify_eq/=.
Qed.
Lemma read_steps (path : Path) : steps same_files (read_to_string path).
Proof. intros d. destruct (read_to_string path d) as [d' r] eqn:Hr. by apply read_to_string_run in Hr as [Hf _]. Qed.

(** ** Keys are read back *)

(** Secrets drawn are valid, and are bytes. *)
Class P2pLaws (PK : P2pKeys) : Prop := {
  random_valid : ∀ i, p2p_from_slice (p2p_random i) = Some (p2p_random i);
  random_bytes : ∀ i, Forall is_byte (p2p_random i) }.

Lemma text_roundtrip (s : string) : text_of_bytes (bytes_of_text s) = s.
Proof.
  unfold text_of_bytes, bytes_of_text. rewrite <-list_fmap_compose.
  rewrite (list_fmap_ext _ id) by (intros i a _; simpl; by rewrite Nat2Z.id, ascii_nat_embedding).
  by rewrite list_fmap_id, String.string_of_list_ascii_of_string.
Qed.

(** A hexadecimal text has nothing to trim. *)
Definition is_hex (c : ascii) : bool := existsb (λ z, bool_decide (hex_digit z = c)) (seqZ 0 16).
Definition not_hex (ps : list (list ascii)) : bool :=
  forallb (λ p, existsb (λ c, negb (is_hex c)) (take 2 p)) ps.

Lemma hex_digit_is_hex (z : Z) : 0 ≤ z < 16 → is_hex (hex_digit z) = true.
Proof.
  intros Hz. unfold is_hex. apply existsb_exists. exists z.
  split; [apply list_elem_of_In, elem_of_seqZ; lia|by apply bool_decide_eq_true].
Qed.
Lemma hex_encode_chars (b : bytes) :
  Forall is_byte b → Forall (λ c, is_hex c = true) (String.list_ascii_of_string (hex_encode b)) ∧
  length (String.list_ascii_of_string (hex_encode b)) = (2 * length b)%nat.
Proof.
  induction 1 as [|x b Hx _ [IH IHl]]; simpl; [by split|]. unfold is_byte in Hx. split; [|lia].
  pose proof (Z.mod_pos_bound x 16 eq_refl).
  assert (0 ≤ x / 16 < 16) by (split; [apply Z.div_pos; lia|apply Z.div_lt_upper_bound; lia]).
  constructor; [by apply hex_digit_is_hex|]. constructor; [by apply hex_digit_is_hex|done].
Qed.

Lemma strip_prefix_no (p l : list ascii) :
  existsb (λ c, negb (is_hex c)) (take 2 p) = true → Forall (λ c, is_hex c = true) l → length l ≠ 1%nat →
  strip_prefix p l = None.
Proof.
  intros Hp Hl Hlen. destruct p as [|c p]; [done|]. destruct l as [|x [|y l]]; [done|by destruct Hlen|].
  apply Forall_cons in Hl as [Hx Hl]. apply Forall_cons in Hl as [Hy _]. cbn [strip_prefix].
  destruct (decide (c = x)) as [->|]; [|done]. destruct p as [|c' p]; simpl in Hp.
  - by rewrite Hx in Hp.
  - rewrite Hx in Hp. cbn [strip_prefix]. destruct (decide (c' = y)) as [->|]; [|done]. by rewrite Hy in Hp.
Qed.
Lemma strip_any_no (ps : list (list ascii)) (l : list ascii) :
  not_hex ps = true → Forall (λ c, is_hex c = true) l → length l ≠ 1%nat → strip_any ps l = None.
Proof.
  intros Hps Hl Hlen. induction ps as [|p ps IH]; [done|]. simpl in Hps. apply andb_true_iff in Hps as [Hp Hps].
  cbn [strip_any]. rewrite strip_prefix_no by done. by apply IH.
Qed.
Lemma strip_all_no (fuel : nat) (ps : list (list ascii)) (l : list ascii) :
  strip_any ps l = None → strip_all fuel ps l = l.
Proof. destruct fuel as [|fuel]; simpl; [done|]. by intros ->. Qed.

Lemma trim_hex (b : bytes) :
  Forall is_byte b → trim_start_of [["0"; "x"]%char] (trim (hex_encode b)) = hex_encode b.
Proof.
  intros Hb. destruct (hex_encode_chars b Hb) as [Hc Hl]. set (l := String.list_ascii_of_string (hex_encode b)) in *.
  assert (length l ≠ 1%nat) as Hne by lia.
  assert (∀ ps, not_hex ps = true → trim_start_of ps (hex_encode b) = hex_encode b) as Hstart.
  { intros ps Hps. unfold trim_start_of. fold l. rewrite strip_all_no by (by apply strip_any_no).
    apply String.string_of_list_ascii_of_string. }
  unfold trim. rewrite Hstart by (vm_compute; reflexivity). unfold trim_end_of. fold l.
  rewrite strip_all_no.
  - rewrite reverse_involutive. unfold l. rewrite String.string_of_list_ascii_of_string. apply Hstart. vm_compute. reflexivity.
  - apply strip_any_no; [vm_compute; reflexivity|by apply Forall_reverse|by rewrite length_reverse].
Qed.

Section keys.
Context {CR : Crypto} {RN : Random} {FF : FileFormats} {FL : FileFormatLaws FF} {PK : P2pKeys} {PL : P2pLaws PK}.

Lemma random_secret_read (i : nat) : read_p2p_secret (bytes_of_text (hex_encode (p2p_random i))) = Ok (p2p_random i).
Proof using PL.
  unfold read_p2p_secret. pose proof (random_bytes i) as Hb.
  rewrite text_roundtrip, trim_hex, hex_roundtrip by done. simpl. by rewrite random_valid.
Qed.

(** The public key in a node's key file. *)
Definition p2p_identity (d : Disk) (private : Path) (id : string) : outcome string string :=
  (let? content := ok_or (dk_files d !! p2p_key_path private id) "no key"%string in
   let? secret := read_p2p_secret content in enode_pub secret)%outcome.

Lemma p2p_key_file (private : Path) (id : string) : key_file (p2p_key_path private id).
Proof. unfold p2p_key_path, join. eexists _, _. split; [reflexivity|]. right. by eexists. Qed.
Lemma identity_kept (d d' : Disk) (private : Path) (id hex : string) :
  keys_kept d d' → p2p_identity d private id = Ok hex → p2p_identity d' private id = Ok hex.
Proof.
  unfold p2p_identity. intros Hk. destruct (dk_files d !! _) as [b|] eqn:Hb; [|done].
  by rewrite (Hk _ b (p2p_key_file private id) Hb).
Qed.

Lemma key_or_new_run {A} (dir : Path) (name : string) parse (f : nat → A) rendered (d d' : Disk) (r : outcome string A) :
  plain_name name → (∀ i data, rendered (f i) = Ok data → parse data = Ok (f i)) →
  key_or_new (dir ++ [name]) parse f rendered d = (d', r) →
  keys_kept d d' ∧ dk_touches (λ p, p = dir ++ [name] ∨ p = tmp_path (dir ++ [name])) d d' ∧
  (∀ a, r = Ok a → ∃ b, dk_files d' !! (dir ++ [name]) = Some b ∧ parse b = Ok a).
Proof.
  intros Hpl Hlaw Hr. unfold key_or_new in Hr.
  assert (∀ d1, dk_files d1 = dk_files d → keys_kept d d1 ∧
    dk_touches (λ p, p = dir ++ [name] ∨ p = tmp_path (dir ++ [name])) d d1) as Hsame.
  { intros d1 Hf. split; [by apply same_files_kept|]. intros p _. unfold dk_files in Hf. by rewrite Hf. }
  apply bind_run in Hr as [(there & d1 & H1 & Hr)|(r0 & H1 & Hn0 & Hn)]; apply try_exists_run in H1 as [Hf1 Hb]; cycle 1.
  { destruct (Hsame d' Hf1). split_and!; [done..|]. by intros a ->. }
  specialize (Hb there eq_refl). destruct there.
  - apply bind_run in Hr as [(c & d2 & H2 & Hr)|(r0 & H2 & Hn0 & Hn)]; apply read_to_string_run in H2 as [Hf2 Hc].
    + injection Hr as <- <-. destruct (Hsame d2) as [Hk Ht]; [by rewrite Hf2, Hf1|]. split_and!; [done..|].
      intros a Ha. exists c. rewrite Hf2. split; [by apply Hc|done].
    + destruct (Hsame d') as [Hk Ht]; [by rewrite Hf2, Hf1|]. split_and!; [done..|]. by intros a ->.
  - symmetry in Hb. apply bool_decide_eq_false in Hb. apply eq_None_not_Some in Hb.
    unfold bind at 1, draw in Hr. set (d2 := mkDisk _ _ _) in Hr. unfold bind at 1, lift in Hr.
    destruct (rendered (f (dk_drawn d1))) as [data| |] eqn:Hrend;
      [|injection Hr as <- <-; destruct (Hsame d2 Hf1); split_and!; [done..|]; by intros a [=]|
        injection Hr as <- <-; destruct (Hsame d2 Hf1); split_and!; [done..|]; by intros a [=]].
    destruct (Hsame d2 Hf1) as [Hk2 Ht2].
    assert (dk_files d2 !! (dir ++ [name]) = None) as Hnone by (by unfold d2, dk_files in *; simpl; rewrite Hf1).
    assert (∃ r1, write_atomic_with_mode (dir ++ [name]) data (Some MODE_600) d2 = (d', r1) ∧
      (∀ a, r = Ok a → r1 = Ok tt ∧ a = f (dk_drawn d1))) as (r1 & Hw & Hres).
    { apply bind_run in Hr as [([] & d3 & H3 & Hr)|(r0 & H3 & Hn0 & Hn)].
      - injection Hr as <- <-. eexists. split; [exact H3|]. by intros a [= <-].
      - exists r0. split; [done|]. by intros a ->. }
    pose proof (plain_tmp_ne dir name Hpl) as Hne.
    destruct (write_atomic_run _ _ _ _ _ _ Hne Hw) as [Ht _].
    apply write_new_key in Hw as [Hk Hok]; [|done..]. split_and!.
    + by transitivity d2.
    + by transitivity d2.
    + intros a Ha. destruct (Hres a Ha) as [Hr1 ->]. exists data. split; [by apply Hok|by apply Hlaw].
Qed.

Lemma ensure_key_run (private : Path) (id : string) (d d' : Disk) (r : outcome string (Path * string)) :
  ensure_load_reth_p2p_key private id d = (d', r) →
  keys_kept d d' ∧
  dk_touches (λ p, p = p2p_key_path private id ∨ p = tmp_path (p2p_key_path private id)) d d' ∧
  (∀ kp hex, r = Ok (kp, hex) → kp = p2p_key_path private id ∧ p2p_identity d' private id = Ok hex).
Proof using PL.
  intros Hr. unfold ensure_load_reth_p2p_key in Hr.
  assert (∀ d1 r1, key_or_new (p2p_key_path private id) read_p2p_secret p2p_random
      (λ s, Ok (bytes_of_text (hex_encode s))) d = (d1, r1) →
    keys_kept d d1 ∧ dk_touches (λ p, p = p2p_key_path private id ∨ p = tmp_path (p2p_key_path private id)) d d1 ∧
    (∀ a, r1 = Ok a → ∃ b, dk_files d1 !! p2p_key_path private id = Some b ∧ read_p2p_secret b = Ok a)) as Hkey.
  { intros d1 r1. apply key_or_new_run; [plain|]. intros i data [= <-]. apply random_secret_read. }
  apply bind_run in Hr as [(secret & d1 & H1 & Hr)|(r0 & H1 & Hn0 & Hn)]; apply Hkey in H1 as (Hk & Ht & Hb); cycle 1.
  { split_and!; [done..|]. by intros kp hex ->. }
  destruct (Hb secret eq_refl) as (b & Hfb & Hread).
  apply bind_run in Hr as [([] & d2 & H2 & Hr)|(r0 & H2 & Hn0 & Hn)]; apply set_permissions_run in H2 as [Hf2 _].
  - assert (d' = d2) as ->.
    { unfold bind, lift in Hr. by destruct (enode_pub secret); injection Hr as <- _. }
    split_and!; [by transitivity d1; [|by apply same_files_kept]| |].
    + intros p Hp. unfold dk_files in Hf2. rewrite Hf2. by apply Ht.
    + intros kp hex ->. unfold bind, lift in Hr. destruct (enode_pub secret) as [h| |] eqn:He; try done.
      injection Hr as <- <-. split; [done|]. unfold p2p_identity. rewrite Hf2, Hfb. simpl. by rewrite Hread.
  - split_and!; [by transitivity d1; [|by apply same_files_kept]| |by intros kp hex ->].
    intros p Hp. unfold dk_files in Hf2. rewrite Hf2. by apply Ht.
Qed.
End keys.

(** ** What [generate] leaves *)

Lemma ends_json_no_key (name : string) : ends "json" name → name ≠ PRIV_VALIDATOR_KEY_FILE → ¬ key_name name.
Proof. intros He Hne [?|Hk]; [done|]. by pose proof (ends_unique _ _ _ He Hk eq_refl). Qed.

Section bundle.
Context {CR : Crypto} {AL : AddressLib} {RN : Random} {FF : FileFormats} {FL : FileFormatLaws FF} {BF : BundleFormats}
  {ST : Settings} {PK : P2pKeys} {PL : P2pLaws PK} {WL : WalletLib} {EL : ExecutionGenesisLib} {GJ : GenesisJson EL}.
Context (dp : Deployment) (out : Path) (now : option Z).
Local Abbreviation m := (dp_manifest dp).

(** Files that hold no key, and are not in the configuration of a home. *)
Definition elsewhere (p : Path) : Prop := ¬ key_file p ∧ length p ≠ (length out + 7)%nat.
(** Files that hold no key, in the configuration of a home. *)
Definition in_home (id : string) (p : Path) : Prop := ∃ f, p = config_path (home_dir out id) f ∧ ¬ key_name f.

Lemma config_path_length (id f : string) : length (config_path (home_dir out id) f) = (length out + 7)%nat.
Proof. unfold config_path, home_dir, ultra_homes_dir, private_dir, join. rewrite !length_app. cbn [length]. lia. Qed.
Lemma config_path_inj (id id' f f' : string) :
  config_path (home_dir out id) f = config_path (home_dir out id') f' → id = id' ∧ f = f'.
Proof.
  unfold config_path, home_dir, join. rewrite <-!app_assoc. simpl. intros He.
  apply app_inj_2 in He as [_ He]; [|done]. by injection He.
Qed.
Lemma in_home_no_key (id : string) (p : Path) : in_home id p → ¬ key_file p.
Proof. intros (f & -> & Hf) Hk. by apply key_file_snoc in Hk. Qed.

Lemma write_elsewhere (dir : Path) (name : string) (data : bytes) (mode : option Z) :
  plain_name name → ¬ key_name name → length dir ≠ (length out + 6)%nat →
  steps (dk_touches elsewhere) (write_atomic_with_mode (join dir name) data mode).
Proof.
  intros Hpl Hk Hl. apply write_touches; [done|..]; (split; [|rewrite ?tmp_path_length, length_app; simpl; lia]).
  - by intros ?%key_file_snoc.
  - apply tmp_no_key.
Qed.
Lemma env_elsewhere (dir : Path) (stem : string) (entries : list (string * string)) (mode : option Z) :
  length dir ≠ (length out + 6)%nat →
  steps (dk_touches elsewhere) (write_env_file (join dir (stem +:+ ".env")) entries mode).
Proof.
  intros Hl. apply write_elsewhere; [plain| |done].
  apply (ends_no_key ".env"); [by eexists|]. in_list.
Qed.

Lemma lock_file_steps (data : bytes) :
  steps (dk_touches elsewhere) (write_atomic (join out "network.lock.json") data).
Proof.
  assert (ends "json" "network.lock.json") as He by (exists "network.lock."%string; reflexivity).
  unfold write_atomic. apply write_elsewhere.
  - exists "json"%string. split; [exact He|in_list].
  - apply ends_json_no_key; [exact He|discriminate].
  - lia.
Qed.
Lemma network_json_steps (data : bytes) :
  steps (dk_touches elsewhere) (write_atomic (join (public_dir out) "network.json") data).
Proof.
  assert (ends "json" "network.json") as He by (exists "network."%string; reflexivity).
  unfold write_atomic. apply write_elsewhere.
  - exists "json"%string. split; [exact He|in_list].
  - apply ends_json_no_key; [exact He|discriminate].
  - unfold public_dir, join. rewrite !length_app. cbn [length]. lia.
Qed.
Lemma inventory_steps (data : bytes) :
  steps (dk_touches elsewhere) (write_atomic (join out "inventory.yml") data).
Proof.
  assert (ends ".yml" "inventory.yml") as He by (exists "inventory"%string; reflexivity).
  unfold write_atomic. apply write_elsewhere.
  - exists ".yml"%string. split; [exact He|in_list].
  - apply (ends_no_key ".yml"); [exact He|in_list].
  - lia.
Qed.

(** The shape of a run: a step, then the rest. *)
Local Ltac then_ := apply steps_bind; [apply _| |].
Local Ltac lifted x := apply steps_bind; [apply _|apply steps_lift; apply _|intros x].

Lemma emit_token_steps (secrets : option BundleSecrets) (id : string) :
  steps (dk_touches elsewhere) (emit_token out secrets id).
Proof.
  destruct secrets as [s|]; [|apply steps_ret; apply _]. unfold emit_token. lifted tok.
  destruct (is_blank tok); [apply steps_fail; apply _|]. apply env_elsewhere.
  unfold private_dir, join. rewrite !length_app. cbn [length]. lia.
Qed.
Lemma emit_grafana_steps (secrets : option BundleSecrets) : steps (dk_touches elsewhere) (emit_grafana out secrets).
Proof.
  unfold emit_grafana. destruct (secrets ≫= bs_grafana_admin_password) as [pw|]; [|apply steps_ret; apply _].
  destruct (is_blank pw); [apply steps_ret; apply _|]. apply (env_elsewhere _ "grafana_admin_password"%string).
  unfold private_dir, join. rewrite !length_app. cbn [length]. lia.
Qed.
Lemma emit_env_steps (secrets : option BundleSecrets) (rel : string) (e : LockEntry) :
  steps (dk_touches elsewhere) (emit_env dp out secrets rel e).
Proof.
  assert (length (env_dir out) ≠ length out + 6)%nat as Hl.
  { unfold env_dir, private_dir, join. rewrite !length_app. cbn [length]. lia. }
  unfold emit_env. then_; [|intros _].
  { destruct (bool_decide _); [apply emit_token_steps|apply steps_ret; apply _]. }
  then_; [by apply (env_elsewhere _ ("ultramarine-" +:+ _))|intros _].
  lifted ip. by apply (env_elsewhere _ ("load-reth-" +:+ _)).
Qed.
Lemma emit_lock_steps (secrets : option BundleSecrets) (lock : Lockfile) :
  steps (dk_touches elsewhere) (emit_lock dp out secrets lock).
Proof.
  unfold emit_lock. lifted data. then_; [apply lock_file_steps|intros _]. lifted public. lifted data'.
  then_; [apply network_json_steps|intros _]. lifted data''. then_; [apply inventory_steps|intros _].
  then_; [apply emit_grafana_steps|intros _]. apply steps_foreach; [apply _|]. intros e _. apply emit_env_steps.
Qed.
(** *** Signing keys *)

(** The signing key in a node's home. *)
Definition node_ready (d : Disk) (n : Netgen.Node) (key : bytes) : Prop :=
  load_private_key_file (dk_fs d) (validator_key_path out (nn_id n)) = Ok key.

Lemma validator_key_file (id : string) : key_file (validator_key_path out id).
Proof. unfold validator_key_path, config_path, join. eexists _, _. split; [reflexivity|]. by left. Qed.
Lemma node_ready_kept (d d' : Disk) (n : Netgen.Node) (key : bytes) :
  keys_kept d d' → node_ready d n key → node_ready d' n key.
Proof.
  unfold node_ready, load_private_key_file, read_file. intros Hk.
  destruct (fs_files (dk_fs d) !! validator_key_path out (nn_id n)) as [b|] eqn:Hb; [|done].
  pose proof (Hk _ b (validator_key_file (nn_id n)) Hb) as Hb'. unfold dk_files in Hb'. by rewrite Hb'.
Qed.

Lemma node_key_run (n : Netgen.Node) (d d' : Disk) (r : outcome string bytes) :
  node_key out n d = (d', r) → keys_kept d d' ∧ (∀ key, r = Ok key → node_ready d' n key).
Proof using FL.
  intros Hr. unfold node_key in Hr. apply key_or_new_run in Hr as (Hk & _ & Hok).
  - split; [done|]. intros key Hkey. destruct (Hok key Hkey) as (b & Hb & Hp).
    change (fs_files (dk_fs d') !! validator_key_path out (nn_id n) = Some b) in Hb.
    unfold node_ready, load_private_key_file, read_file. rewrite Hb. cbn [ok_or obind].
    by destruct (json_to_key b) as [k|]; [injection Hp as ->|].
  - exists "json"%string. split; [by exists "priv_validator_key."%string|in_list].
  - intros i data Hdata. destruct (key_to_json (os_key i)) as [b|] eqn:Hb; [|done]. injection Hdata as <-.
    by rewrite (key_roundtrip _ _ Hb).
Qed.

(** The validators of the genesis, of the keys of the nodes. *)
Fixpoint genesis_members (nodes : list Netgen.Node) (keys : list bytes) : list Validator :=
  match nodes, keys with
  | n :: nodes, key :: keys =>
    if is_validator n then Validator_new (ed25519_public key) 1 :: genesis_members nodes keys
    else genesis_members nodes keys
  | _, _ => []
  end.

Lemma ready_all_kept (d d' : Disk) (nodes : list Netgen.Node) (keys : list bytes) :
  keys_kept d d' → Forall2 (node_ready d) nodes keys → Forall2 (node_ready d') nodes keys.
Proof. intros Hk Hr. eapply Forall2_impl; [exact Hr|]. intros n key. by apply node_ready_kept. Qed.
Lemma ready_unique (d : Disk) (nodes : list Netgen.Node) (keys keys' : list bytes) :
  Forall2 (node_ready d) nodes keys → Forall2 (node_ready d) nodes keys' → keys = keys'.
Proof.
  intros H. revert keys'. induction H as [|n key nodes keys Hn _ IH]; intros keys'; inversion 1 as [|? key' ? ? Hn']; [done|].
  subst. f_equal; [|by apply IH]. unfold node_ready in *. congruence.
Qed.

Lemma node_keys_run (nodes : list Netgen.Node) : ∀ (d d' : Disk) (r : outcome string (list Validator)),
  node_keys out nodes d = (d', r) →
  keys_kept d d' ∧ (∀ vs, r = Ok vs → ∃ keys, Forall2 (node_ready d') nodes keys ∧ vs = genesis_members nodes keys).
Proof using FL.
  induction nodes as [|n nodes IH]; intros d d' r Hr; cbn [node_keys] in Hr.
  { injection Hr as <- <-. split; [done|]. intros vs [= <-]. by exists []. }
  apply bind_run in Hr as [(key & d1 & H1 & Hr)|(r0 & H1 & Hn0 & Hn)]; apply node_key_run in H1 as [Hk1 Hok1]; cycle 1.
  { split; [done|]. by intros vs ->. }
  apply bind_run in Hr as [(vs & d2 & H2 & Hr)|(r0 & H2 & Hn0 & Hn)]; apply IH in H2 as [Hk2 Hok2]; cycle 1.
  { split; [by transitivity d1|]. by intros vs ->. }
  injection Hr as <- <-. split; [by transitivity d1|]. intros vs' [= <-].
  destruct (Hok2 vs eq_refl) as (keys & Hkeys & ->). exists (key :: keys). split; [|done].
  constructor; [|done]. apply (node_ready_kept d1); [done|]. by apply Hok1.
Qed.

(** *** Homes *)

(** The rest of a home: the genesis of the network, and the node's configuration. *)
Definition home_ready (d : Disk) (genesis : ValidatorSet) (n : Netgen.Node) : Prop :=
  load_genesis (dk_fs d) (config_path (home_dir out (nn_id n)) GENESIS_FILE) = Ok genesis ∧
  ∃ cfg b, home_config dp n = Ok cfg ∧ home_to_toml cfg = Some b ∧
    dk_files d !! config_path (home_dir out (nn_id n)) CONFIG_FILE = Some b.

Lemma in_home_file (id f : string) : ¬ key_name f → in_home id (config_path (home_dir out id) f).
Proof. intros Hf. by exists f. Qed.
Lemma in_home_tmp (id f : string) : in_home id (tmp_path (config_path (home_dir out id) f)).
Proof.
  unfold config_path at 1, join. rewrite tmp_path_snoc. exists (with_extension_tmp f). split; [done|].
  apply (ends_no_key ".tmp"); [apply with_extension_tmp_ends|in_list].
Qed.
Lemma genesis_file_name : plain_name GENESIS_FILE ∧ ¬ key_name GENESIS_FILE.
Proof.
  assert (ends "json" GENESIS_FILE) as He by (exists "genesis."%string; reflexivity).
  split; [exists "json"%string; split; [exact He|in_list]|]. apply ends_json_no_key; [exact He|discriminate].
Qed.
Lemma config_file_name : plain_name CONFIG_FILE ∧ ¬ key_name CONFIG_FILE.
Proof.
  assert (ends "toml" CONFIG_FILE) as He by (exists "config."%string; reflexivity).
  split; [exists "toml"%string; split; [exact He|in_list]|]. apply (ends_no_key "toml"); [exact He|in_list].
Qed.
Lemma write_in_home (id f : string) (data : bytes) :
  plain_name f → ¬ key_name f → steps (dk_touches (in_home id)) (write_atomic (config_path (home_dir out id) f) data).
Proof.
  intros Hp Hk. unfold write_atomic. apply write_touches; [done|by apply in_home_file|apply in_home_tmp].
Qed.

Lemma emit_home_steps (genesis : ValidatorSet) (n : Netgen.Node) :
  steps (dk_touches (in_home (nn_id n))) (emit_home dp out genesis n).
Proof.
  unfold emit_home. lifted ports. lifted data. then_; [by apply write_in_home; apply genesis_file_name|intros _].
  lifted cfg. lifted data'. by apply write_in_home; apply config_file_name.
Qed.

Lemma home_ready_kept (P : Path → Prop) (d d' : Disk) (genesis : ValidatorSet) (n : Netgen.Node) :
  dk_touches P d d' → (∀ f, ¬ P (config_path (home_dir out (nn_id n)) f)) →
  home_ready d genesis n → home_ready d' genesis n.
Proof.
  intros Ht HP [Hg (cfg & b & Hcfg & Hb & Hf)]. split.
  - unfold load_genesis, read_file in *. rewrite Ht; [done|apply HP].
  - exists cfg, b. split_and!; [done..|]. unfold dk_files in *. rewrite Ht; [done|apply HP].
Qed.

(** What a successful write leaves. *)
Lemma write_atomic_Ok (dir : Path) (name : string) (data : bytes) (d d' : Disk) :
  plain_name name → write_atomic (dir ++ [name]) data d = (d', Ok tt) →
  dk_files d' !! (dir ++ [name]) = Some data ∧
  dk_touches (λ p, p = dir ++ [name] ∨ p = tmp_path (dir ++ [name])) d d'.
Proof.
  intros Hp Hw. unfold write_atomic in Hw. apply write_atomic_run in Hw as (Ht & _ & Hok & _); [|by apply plain_tmp_ne].
  split; [by apply Hok|done].
Qed.

Lemma emit_home_Ok (genesis : ValidatorSet) (n : Netgen.Node) (d d' : Disk) :
  emit_home dp out genesis n d = (d', Ok tt) → home_ready d' genesis n.
Proof using FL.
  unfold emit_home. intros (ports & d0 & H0 & Hr)%bind_run_Ok. injection H0 as <- _.
  apply bind_run_Ok in Hr as (bg & d0 & H0 & Hr). injection H0 as <- Hbg.
  apply bind_run_Ok in Hr as ([] & d1 & H1 & Hr). apply bind_run_Ok in Hr as (cfg & d0 & H0 & Hr).
  injection H0 as <- Hcfg. apply bind_run_Ok in Hr as (bc & d0 & H0 & H2). injection H0 as <- Hbc.
  apply write_atomic_Ok in H1 as [Hf1 _]; [|apply genesis_file_name].
  apply write_atomic_Ok in H2 as [Hf2 Ht2]; [|apply config_file_name]. split.
  - unfold load_genesis, read_file.
    change (join (home_dir out (nn_id n)) "config" ++ [GENESIS_FILE])
      with (config_path (home_dir out (nn_id n)) GENESIS_FILE) in Hf1.
    unfold dk_files in Hf1. rewrite Ht2, Hf1.
    + cbn [ok_or obind]. destruct (genesis_to_json genesis) as [b|] eqn:Hb; [|done]. injection Hbg as <-.
      by rewrite (genesis_file_roundtrip _ _ Hb).
    + rewrite tmp_path_snoc. unfold config_path, join. intros [[_ He]%app_inj_2|[_ He]%app_inj_2]; done.
  - exists cfg, bc. split_and!; [done|by destruct (home_to_toml cfg); simplify_eq/=|exact Hf2].
Qed.

Lemma homes_Ok (genesis : ValidatorSet) (nodes : list Netgen.Node) : ∀ d d' : Disk,
  NoDup (nn_id <$> nodes) → foreach nodes (emit_home dp out genesis) d = (d', Ok tt) →
  Forall (home_ready d' genesis) nodes.
Proof using FL.
  induction nodes as [|n nodes IH]; intros d d' Hnd Hr; [constructor|]. cbn [foreach] in Hr.
  apply NoDup_cons in Hnd as [Hin Hnd]. apply bind_run_Ok in Hr as ([] & d1 & H1 & Hr).
  constructor; [|by eapply IH]. apply emit_home_Ok in H1.
  assert (dk_touches (λ p, ∃ n', n' ∈ nodes ∧ in_home (nn_id n') p) d1 d') as Ht.
  { eapply run_steps; [|exact Hr]. apply steps_foreach; [apply _|]. intros n' Hn'.
    eapply steps_weaken; [|apply emit_home_steps]. intros a b. apply dk_touches_weaken. eauto. }
  eapply home_ready_kept; [exact Ht| |exact H1]. intros f (n' & Hn' & f' & He & _).
  apply config_path_inj in He as [He _]. apply Hin. rewrite He. apply list_elem_of_fmap. eauto.
Qed.

(** *** Lock entries *)

(** The entry of a node whose execution layer has the given public key. *)
Definition entry_of (has_secrets : bool) (n : Netgen.Node) (hex : string) : outcome string LockEntry :=
  (let? node := lock_node (λ _, Ok hex) m n in
   Ok (mkLockEntry node (mf_images m) (path_text (drop (length out) (p2p_key_path (private_dir out) (nn_id n))))
         (if is_validator n
          then Some (mkArchiverOut true (ar_provider_url (mf_archiver m)) (ar_provider_id (mf_archiver m))
                       has_secrets)
          else None)))%outcome.
Definition entry_ready (d : Disk) (has_secrets : bool) (n : Netgen.Node) (e : LockEntry) : Prop :=
  ∃ hex, p2p_identity d (private_dir out) (nn_id n) = Ok hex ∧ entry_of has_secrets n hex = Ok e.
(** Files outside the configuration of a home. *)
Definition outside (p : Path) : Prop := length p ≠ (length out + 7)%nat.

Lemma lock_entry_run (secrets : option BundleSecrets) (n : Netgen.Node) (d d' : Disk) (r : outcome string LockEntry) :
  lock_entry dp out secrets n d = (d', r) →
  keys_kept d d' ∧ dk_touches outside d d' ∧ (∀ e, r = Ok e → entry_ready d' (bool_decide (is_Some secrets)) n e).
Proof using PL.
  intros Hr. unfold lock_entry in Hr.
  apply bind_run in Hr as [(ports & d0 & H0 & Hr)|(r0 & H0 & Hn0 & Hn)]; injection H0 as <- _; cycle 1.
  { split_and!; [done..|]. by intros e ->. }
  assert (length (p2p_key_path (private_dir out) (nn_id n)) ≠ length out + 7)%nat as Hl.
  { unfold p2p_key_path, private_dir, join. rewrite !length_app. cbn [length]. lia. }
  assert (∀ d1, dk_touches (λ p, p = p2p_key_path (private_dir out) (nn_id n) ∨
    p = tmp_path (p2p_key_path (private_dir out) (nn_id n))) d d1 → dk_touches outside d d1) as Hout.
  { intros d1. apply dk_touches_weaken. unfold outside. intros p [->| ->]; [|rewrite tmp_path_length]; done. }
  apply bind_run in Hr as [([kp hex] & d1 & H1 & Hr)|(r0 & H1 & Hn0 & Hn)];
    apply ensure_key_run in H1 as (Hk & Ht%Hout & Hok); cycle 1.
  { split_and!; [done..|]. by intros e ->. }
  destruct (Hok kp hex eq_refl) as [-> Hid].
  apply bind_run in Hr as [(node & d2 & H2 & Hr)|(r0 & H2 & Hn0 & Hn)]; injection H2 as <- Hnode; cycle 1.
  { split_and!; [done..|]. by intros e ->. }
  injection Hr as <- <-. split_and!; [done..|]. intros e [= <-]. exists hex. split; [done|].
  unfold entry_of. cbn [snd] in Hnode. by rewrite Hnode.
Qed.

Lemma entry_ready_kept (d d' : Disk) (h : bool) (n : Netgen.Node) (e : LockEntry) :
  keys_kept d d' → entry_ready d h n e → entry_ready d' h n e.
Proof. intros Hk (hex & Hid & He). exists hex. split; [by eapply identity_kept|done]. Qed.
Lemma entries_kept (d d' : Disk) (h : bool) (nodes : list Netgen.Node) (es : list LockEntry) :
  keys_kept d d' → Forall2 (entry_ready d h) nodes es → Forall2 (entry_ready d' h) nodes es.
Proof. intros Hk He. eapply Forall2_impl; [exact He|]. intros n e. by apply entry_ready_kept. Qed.
Lemma entries_unique (d : Disk) (h : bool) (nodes : list Netgen.Node) (es es' : list LockEntry) :
  Forall2 (entry_ready d h) nodes es → Forall2 (entry_ready d h) nodes es' → es = es'.
Proof.
  intros H. revert es'. induction H as [|n e nodes es (hex & Hid & He) _ IH]; intros es'; inversion 1 as [|? e' ? ? Hn]; [done|].
  subst. f_equal; [|by apply IH]. destruct Hn as (hex' & Hid' & He'). congruence.
Qed.

Lemma lock_entries_run (secrets : option BundleSecrets) (nodes : list Netgen.Node) :
  ∀ (d d' : Disk) (r : outcome string (list LockEntry)), lock_entries dp out secrets nodes d = (d', r) →
  keys_kept d d' ∧ dk_touches outside d d' ∧ (∀ es, r = Ok es → Forall2 (entry_ready d' (bool_decide (is_Some secrets))) nodes es).
Proof using PL.
  induction nodes as [|n nodes IH]; intros d d' r Hr; cbn [lock_entries] in Hr.
  { injection Hr as <- <-. split_and!; [done..|]. by intros es [= <-]. }
  apply bind_run in Hr as [(e & d1 & H1 & Hr)|(r0 & H1 & Hn0 & Hn)];
    apply lock_entry_run in H1 as (Hk1 & Ht1 & Hok1); cycle 1.
  { split_and!; [done..|]. by intros es ->. }
  apply bind_run in Hr as [(es & d2 & H2 & Hr)|(r0 & H2 & Hn0 & Hn)]; apply IH in H2 as (Hk2 & Ht2 & Hok2); cycle 1.
  { split_and!; [by transitivity d1..|]. by intros es ->. }
  injection Hr as <- <-. split_and!; [by transitivity d1..|]. intros es' [= <-].
  constructor; [|by apply Hok2]. eapply entry_ready_kept; [exact Hk2|by apply Hok1].
Qed.

(** *** The execution genesis *)

Lemma write_genesis_touches (path : Path) (g : Genesis) : steps (touches (λ p, p = path)) (write_genesis path g).
Proof.
  unfold write_genesis. then_; [|intros _; then_; [|intros _]].
  - intros [fl [|[n|] faults]]; done.
  - intros [fl [|[n|] faults]] p Hp; cbn; by rewrite ?lookup_insert_ne.
  - intros [fl [|[n|] faults]] p Hp; cbn; by rewrite ?lookup_insert_ne.
Qed.
Lemma genesis_path_no_key : ¬ key_file (genesis_path out).
Proof. unfold genesis_path, join. intros Hk%key_file_snoc. revert Hk. apply (genesis_file_name). Qed.
Lemma emit_genesis_steps : steps keys_kept (emit_execution_genesis dp out now).
Proof.
  unfold emit_execution_genesis, sha256_file. lifted g. then_; [|intros _; then_; [|intros b; apply steps_ret; apply _]].
  - apply (steps_zoom _ (touches (λ p, p = genesis_path out))); [apply write_genesis_touches|].
    intros d fs Ht path b Hk Hb. unfold dk_files in *. cbn. rewrite Ht; [done|]. intros ->. by apply genesis_path_no_key.
  - eapply steps_weaken; [|apply read_steps]. intros d d'. apply same_files_kept.
Qed.

(** *** Whole runs *)

Lemma homes_keep_keys (genesis : ValidatorSet) (nodes : list Netgen.Node) :
  steps keys_kept (foreach nodes (emit_home dp out genesis)).
Proof.
  apply steps_foreach; [apply _|]. intros n _. eapply steps_weaken; [|apply emit_home_steps].
  intros d d'. apply touches_keys_kept. apply in_home_no_key.
Qed.
Lemma emit_lock_keeps_keys (secrets : option BundleSecrets) (lock : Lockfile) :
  steps keys_kept (emit_lock dp out secrets lock).
Proof.
  eapply steps_weaken; [|apply emit_lock_steps]. intros d d'. apply touches_keys_kept. by intros p [].
Qed.
Lemma emit_bundle_steps (mp sha : string) (secrets : option BundleSecrets) (unsafe : bool) :
  steps keys_kept (emit_bundle dp out now mp sha secrets unsafe).
Proof using FL PL.
  unfold emit_bundle. then_; [apply emit_genesis_steps|intros gsha]. then_; [|intros vs; lifted genesis].
  { intros d. destruct (node_keys _ _ d) as [d' r] eqn:Hr. by apply node_keys_run in Hr as [Hk _]. }
  then_; [apply homes_keep_keys|intros _]. then_; [|intros es].
  { intros d. destruct (lock_entries _ _ _ _ d) as [d' r] eqn:Hr. by apply lock_entries_run in Hr as [Hk _]. }
  then_; [apply emit_lock_keeps_keys|intros _; apply steps_ret; apply _].
Qed.

(** What a successful run leaves: keys, homes with one genesis of the validators'
    keys, and a lock with the identities of the execution layer. *)
Definition complete (has_secrets : bool) (d : Disk) (lock : Lockfile) : Prop :=
  ∃ keys genesis es, Forall2 (node_ready d) (sort_nodes (mf_nodes m)) keys ∧
    ValidatorSet_new (E := string) (genesis_members (sort_nodes (mf_nodes m)) keys) = Ok genesis ∧
    Forall (home_ready d genesis) (mf_nodes m) ∧
    Forall2 (entry_ready d has_secrets) (sort_nodes (mf_nodes m)) es ∧ lf_nodes lock = with_bootnodes es.

Lemma emit_bundle_Ok (mp sha : string) (secrets : option BundleSecrets) (unsafe : bool) (d d' : Disk) (lock : Lockfile) :
  NoDup (nn_id <$> mf_nodes m) → emit_bundle dp out now mp sha secrets unsafe d = (d', Ok lock) →
  complete (bool_decide (is_Some secrets)) d' lock.
Proof using FL PL.
  intros Hnd Hr. unfold emit_bundle in Hr. apply bind_run_Ok in Hr as (gsha & d1 & H1 & Hr).
  apply bind_run_Ok in Hr as (vs & d2 & H2 & Hr). apply node_keys_run in H2 as [_ Hok2].
  destruct (Hok2 vs eq_refl) as (keys & Hkeys & ->). apply bind_run_Ok in Hr as (genesis & d0 & H0 & Hr).
  injection H0 as <- Hgen. apply bind_run_Ok in Hr as ([] & d3 & H3 & Hr).
  apply bind_run_Ok in Hr as (es & d4 & H4 & Hr). apply bind_run_Ok in Hr as ([] & d5 & H5 & Hr). injection Hr as <- <-.
  pose proof (run_steps _ _ _ _ _ (homes_keep_keys genesis (mf_nodes m)) H3) as Hk3.
  pose proof (run_steps _ _ _ _ _ (emit_lock_keeps_keys _ _) H5) as Hk5.
  pose proof (run_steps _ _ _ _ _ (emit_lock_steps _ _) H5) as Ht5.
  apply lock_entries_run in H4 as (Hk4 & Ht4 & Hok4). apply homes_Ok in H3; [|done].
  exists keys, genesis, es. split_and!; [|done| |by eapply entries_kept, Hok4|done].
  - eapply ready_all_kept; [|exact Hkeys]. transitivity d3; [done|]. by transitivity d4.
  - eapply Forall_impl; [exact H3|]. intros n Hn.
    eapply (home_ready_kept elsewhere); [exact Ht5| |eapply (home_ready_kept outside); [exact Ht4| |exact Hn]].
    + intros f [_ Hl]. by rewrite config_path_length in Hl.
    + intros f Hl. unfold outside in Hl. by rewrite config_path_length in Hl.
Qed.

(** Members of the genesis. *)
Lemma genesis_member (nodes : list Netgen.Node) (keys : list bytes) (i : nat) (n : Netgen.Node) (key : bytes) :
  nodes !! i = Some n → keys !! i = Some key → is_validator n = true →
  Validator_new (ed25519_public key) 1 ∈ genesis_members nodes keys.
Proof.
  revert keys i. induction nodes as [|x nodes IH]; intros [|k keys] [|i] Hn Hk Hv; simplify_eq/=.
  - rewrite Hv. left.
  - destruct (is_validator x); [right|]; by eapply IH.
Qed.
Lemma genesis_power (nodes : list Netgen.Node) (keys : list bytes) (v : Validator) :
  v ∈ genesis_members nodes keys → val_voting_power v = 1.
Proof.
  revert keys. induction nodes as [|x nodes IH]; intros [|k keys]; cbn [genesis_members]; try by intros ?%elem_of_nil.
  destruct (is_validator x); [|apply IH]. intros [->|Hv]%elem_of_cons; [done|by eapply IH].
Qed.
Lemma ValidatorSet_new_elem {E} (l : list Validator) (vs : ValidatorSet) (v : Validator) :
  ValidatorSet_new (E := E) l = Ok vs → v ∈ vs_validators vs ↔ v ∈ l.
Proof.
  unfold ValidatorSet_new, sort_validators. rewrite <-(elem_of_dedup l v). destruct (dedup l) as [|x l'] eqn:Hd; [done|].
  by intros [= <-].
Qed.
End bundle.

(** ** Properties *)

Section properties.
Context {CR : Crypto} {AL : AddressLib} {RN : Random} {FF : FileFormats} {FL : FileFormatLaws FF} {BF : BundleFormats}
  {ST : Settings} {PK : P2pKeys} {PL : P2pLaws PK} {WL : WalletLib} {EL : ExecutionGenesisLib} {GJ : GenesisJson EL}
  {IF : InputFormats}.

Lemma read_yaml_steps {A} (parse : bytes → option A) (path : Path) : steps same_files (read_yaml parse path).
Proof. unfold read_yaml. apply steps_bind; [apply _|apply read_steps|]. intros raw. apply steps_lift; apply _. Qed.
Lemma read_secrets_steps (path : Path) : steps same_files (read_secrets path).
Proof.
  unfold read_secrets. destruct (is_sops path); [|apply read_yaml_steps].
  apply steps_bind; [apply _|apply steps_lift; apply _|intros decrypt].
  apply steps_bind; [apply _|apply steps_lift; apply _|intros raw]. apply steps_lift; apply _.
Qed.
Lemma read_inputs_steps (mp : Path) (sp : option Path) (missing unsafe : bool) :
  steps same_files (read_inputs mp sp missing unsafe).
Proof.
  unfold read_inputs. apply steps_bind; [apply _|apply read_yaml_steps|intros d].
  apply steps_bind; [apply _|apply steps_lift; apply _|intros _]. apply steps_bind; [apply _| |intros secrets].
  { destruct sp as [p|]; [|apply steps_ret; apply _].
    apply steps_bind; [apply _|apply read_secrets_steps|intros s; apply steps_ret; apply _]. }
  apply steps_bind; [apply _|apply steps_lift; apply _|intros _]. unfold sha256_file.
  apply steps_bind; [apply _| |intros sha; apply steps_ret; apply _].
  apply steps_bind; [apply _|apply read_steps|intros b; apply steps_ret; apply _].
Qed.
Lemma read_inputs_Ok (mp : Path) (sp : option Path) (missing unsafe : bool) (d d' : Disk) i :
  read_inputs mp sp missing unsafe d = (d', Ok i) →
  (∃ allow, validate_manifest (dp_manifest i.1.1) allow = Ok tt) ∧ bool_decide (is_Some i.1.2) = bool_decide (is_Some sp).
Proof.
  unfold read_inputs. intros (dp & d1 & _ & Hr)%bind_run_Ok. apply bind_run_Ok in Hr as ([] & d2 & Hv & Hr).
  injection Hv as <- Hv. apply bind_run_Ok in Hr as (secrets & d3 & Hs & Hr). apply bind_run_Ok in Hr as ([] & d4 & _ & Hr).
  apply bind_run_Ok in Hr as (sha & d5 & _ & Hr). injection Hr as <- <-. split; [by eexists|]. cbn.
  destruct sp as [p|]; [|by injection Hs as <- <-]. apply bind_run_Ok in Hs as (x & d6 & _ & Hs). by injection Hs as <- <-.
Qed.

Lemma generate_steps (now : option Z) (mp out : Path) (sp : option Path) (missing unsafe : bool) :
  steps keys_kept (generate now mp out sp missing unsafe).
Proof using FL PL.
  unfold generate. apply steps_bind; [apply _| |intros i].
  { eapply steps_weaken; [|apply read_inputs_steps]. intros d d'. apply same_files_kept. }
  apply steps_bind; [apply _|apply emit_bundle_steps|intros lock; apply steps_ret; apply _].
Qed.
Lemma generate_Ok (now : option Z) (mp out : Path) (sp : option Path) (missing unsafe : bool) (d d' : Disk)
    (dp : Deployment) (lock : Lockfile) :
  0 ≤ stride (dp_manifest dp) → generate now mp out sp missing unsafe d = (d', Ok (dp, lock)) →
  complete dp out (bool_decide (is_Some sp)) d' lock.
Proof using FL PL.
  unfold generate. intros Hs (i & d1 & H1 & Hr)%bind_run_Ok. apply read_inputs_Ok in H1 as [[allow Hv] Hsec].
  apply bind_run_Ok in Hr as (lock' & d2 & H2 & Hr). injection Hr as <- Hd <-. rewrite Hd in *.
  apply validate_manifest_spec in Hv as [V _]; [|done]. rewrite <-Hsec. eapply emit_bundle_Ok; [apply V|exact H2].
Qed.

(** C40: a generated bundle is one network.  After a run that succeeds, the home of
    every node of the manifest loads: its signing key, and the same genesis as
    all others, in which a validator's key has power one; its configuration has
    the node's name and archives exactly when the node is a validator.  The lock
    has an entry for it whose enode has the public key in the node's key file. *)
Theorem bundle_is_one_network (now : option Z) (mp out : Path) (sp : option Path) (missing unsafe : bool) (d d' : Disk)
    (dp : Deployment) (lock : Lockfile) :
  0 ≤ stride (dp_manifest dp) →
  generate now mp out sp missing unsafe d = (d', Ok (dp, lock)) →
  ∃ genesis, ∀ n, n ∈ mf_nodes (dp_manifest dp) →
    let home := home_dir out (nn_id n) in
    (∃ key, load_private_key_file (dk_fs d') (config_path home PRIV_VALIDATOR_KEY_FILE) = Ok key ∧
       (nn_role n = "validator"%string → ∃ v, val_voting_power v = 1 ∧
          get_by_address genesis (Address_from_public_key (ed25519_public key)) = Some v)) ∧
    load_genesis (dk_fs d') (config_path home GENESIS_FILE) = Ok genesis ∧
    (∃ cfg b, home_to_toml cfg = Some b ∧ dk_files d' !! config_path home CONFIG_FILE = Some b ∧
       hc_moniker cfg = nn_id n ∧ cf_enabled (hc_archiver cfg) = is_validator n) ∧
    (∃ e hex rest, e ∈ lf_nodes lock ∧ lk_id (le_node e) = nn_id n ∧
       p2p_identity d' (private_dir out) (nn_id n) = Ok hex ∧ lk_enode (le_node e) = "enode://" +:+ hex +:+ rest).
Proof using FL PL.
  intros Hs Hr. apply generate_Ok in Hr as (keys & genesis & es & Hkeys & Hgen & Hhomes & Hes & Hlock); [|done].
  exists genesis. intros n Hn. cbn zeta.
  assert (n ∈ sort_nodes (mf_nodes (dp_manifest dp))) as Hn'.
  { unfold sort_nodes. by rewrite merge_sort_Permutation. }
  apply list_elem_of_lookup in Hn' as [i Hi]. destruct (Forall2_lookup_l _ _ _ _ _ Hkeys Hi) as (key & Hkey & Hready).
  destruct (Forall2_lookup_l _ _ _ _ _ Hes Hi) as (e & He & hex & Hid & Hentry).
  destruct (proj1 (Forall_forall _ _) Hhomes n Hn) as [Hg (cfg & b & Hcfg & Hb & Hf)]. split_and!; [|done|..].
  - exists key. split; [done|]. intros Hrole. apply (bool_decide_eq_true_2 _) in Hrole.
    pose proof (genesis_member _ _ _ _ _ Hi Hkey Hrole) as Hmem. rewrite <-(ValidatorSet_new_elem _ _ _ Hgen) in Hmem.
    destruct (get_by_address_member _ _ Hmem) as (v & Hv & Hin & _). exists v. split; [|done].
    rewrite (ValidatorSet_new_elem _ _ _ Hgen) in Hin. by eapply genesis_power.
  - exists cfg, b. split_and!; [done..| |]; revert Hcfg; unfold home_config;
      intros (ports & _ & (addr & _ & (peers & _ & Hc)%obind_Ok)%obind_Ok)%obind_Ok; by injection Hc as <-.
  - apply obind_Ok in Hentry as (node & Hnode & Hmk). injection Hmk as <-.
    apply obind_Ok in Hnode as (ports & _ & Hnode). apply obind_Ok in Hnode as (k & Hk & Hnode). injection Hk as ->.
    apply obind_Ok in Hnode as (ip & _ & Hnode). injection Hnode as <-.
    eexists _, k, _. split.
    { rewrite Hlock. unfold with_bootnodes. apply list_elem_of_fmap. eexists. split; [reflexivity|].
      by eapply list_elem_of_lookup_2. }
    split; [reflexivity|]. split; [exact Hid|reflexivity].
Qed.

(** Runs of the generator into a directory, of any manifests and options, that
    succeed or fail at any call; in between other programs may change anything but
    files that hold keys. *)
Inductive reruns (out : Path) : Disk → Disk → Prop :=
| reruns_none (d : Disk) : reruns out d d
| reruns_run now mp sp missing unsafe (d d1 d2 : Disk) (r : outcome string (Deployment * Lockfile)) :
    generate now mp out sp missing unsafe d = (d1, r) → reruns out d1 d2 → reruns out d d2
| reruns_other (d d1 d2 : Disk) : keys_kept d d1 → reruns out d1 d2 → reruns out d d2.

Lemma reruns_keep_keys (out : Path) (d d' : Disk) : reruns out d d' → keys_kept d d'.
Proof using FL PL.
  induction 1 as [d|now mp sp missing unsafe d d1 d2 r Hr _ IH|d d1 d2 Hf _ IH]; [done|..]; (transitivity d1; [|done]); [|done].
  eapply run_steps; [|exact Hr]. apply generate_steps.
Qed.

(** C39: the identity of a network survives its generator.  Once a manifest has been
    generated, then after any runs into the same directory, failed ones and
    those of other manifests included, generating it again gives the lock
    the same nodes, every node the same signing key, and all of them the same
    genesis. *)
Theorem regenerated_network_is_the_same (now now' : option Z) (mp mp' out : Path) (sp sp' : option Path)
    (missing unsafe missing' unsafe' : bool) (d d1 d2 d3 : Disk) (dp : Deployment) (lock lock' : Lockfile) :
  0 ≤ stride (dp_manifest dp) → (is_Some sp ↔ is_Some sp') →
  generate now mp out sp missing unsafe d = (d1, Ok (dp, lock)) → reruns out d1 d2 →
  generate now' mp' out sp' missing' unsafe' d2 = (d3, Ok (dp, lock')) →
  lf_nodes lock' = lf_nodes lock ∧
  ∀ n, n ∈ mf_nodes (dp_manifest dp) →
    let home := home_dir out (nn_id n) in
    load_private_key_file (dk_fs d3) (config_path home PRIV_VALIDATOR_KEY_FILE) =
      load_private_key_file (dk_fs d1) (config_path home PRIV_VALIDATOR_KEY_FILE) ∧
    load_genesis (dk_fs d3) (config_path home GENESIS_FILE) = load_genesis (dk_fs d1) (config_path home GENESIS_FILE).
Proof using FL PL.
  intros Hs Hsp H1 H2%reruns_keep_keys H3.
  assert (keys_kept d1 d3) as Hk.
  { transitivity d2; [done|]. eapply run_steps; [|exact H3]. apply generate_steps. }
  apply generate_Ok in H1 as (keys & genesis & es & Hkeys & Hgen & Hhomes & Hes & Hlock); [|done].
  apply generate_Ok in H3 as (keys' & genesis' & es' & Hkeys' & Hgen' & Hhomes' & Hes' & Hlock'); [|done].
  rewrite <-(bool_decide_ext _ _ Hsp) in Hes'.
  pose proof (ready_all_kept _ _ _ _ _ Hk Hkeys) as Hkeys1. rewrite (ready_unique _ _ _ _ _ Hkeys' Hkeys1) in Hgen'.
  pose proof (entries_kept _ _ _ _ _ _ _ Hk Hes) as Hes1. rewrite (entries_unique _ _ _ _ _ _ _ Hes' Hes1) in Hlock'.
  split; [congruence|]. intros n Hn. cbn zeta. split.
  - assert (n ∈ sort_nodes (mf_nodes (dp_manifest dp))) as Hn'.
    { unfold sort_nodes. by rewrite merge_sort_Permutation. }
    apply list_elem_of_lookup in Hn' as [i Hi]. destruct (Forall2_lookup_l _ _ _ _ _ Hkeys Hi) as (key & _ & Hready).
    pose proof (node_ready_kept _ _ _ _ _ Hk Hready) as Hready'. unfold node_ready, validator_key_path in *. congruence.
  - destruct (proj1 (Forall_forall _ _) Hhomes n Hn) as [Hg _]. destruct (proj1 (Forall_forall _ _) Hhomes' n Hn) as [Hg' _].
    congruence.
Qed.
End properties.

(** ** Concrete inputs *)

Module Demo.
(** Signatures are not used here; hashes are their inputs, to tell them apart. *)
#[local] Instance text_crypto : Crypto := {|
  keccak256 m := take 32 (m ++ zeros 32); sha256 m := m; default_hasher _ := 0;
  ed25519_sign _ _ := []; ed25519_public k := k; ed25519_verify _ _ _ := false;
  hash32_concat _ _ := zeros 32; merkle_hasher _ _ := zeros 32; tree_hash_bytes48 _ := zeros 32;
  beacon_header_tree_hash _ _ _ _ _ := zeros 32; requests_hash _ := zeros 32 |}.
#[local] Instance host_port : AddressLib := {| multiaddr _ host port := (host +:+ ":" +:+ pretty port)%string |}.
#[local] Instance counted_keys : Random := {|
  seeded_key i := [Z.of_nat i]; os_key i := [100 + Z.of_nat i]; gen_range lo _ := lo; choose_multiple l n := take n l |}.
#[local] Instance counted_secrets : P2pKeys := {|
  p2p_from_slice b := if bool_decide (length b = 32%nat) then Some b else None;
  p2p_random i := replicate 32 (Z.of_nat i mod 256); p2p_public s := 4 :: s |}.
#[local] Instance counted_secrets_laws : P2pLaws counted_secrets.
Proof.
  split; intros i.
  - cbn [p2p_from_slice p2p_random counted_secrets]. by rewrite bool_decide_true by apply length_replicate.
  - apply Forall_replicate. pose proof (Z.mod_pos_bound (Z.of_nat i) 256 eq_refl). unfold is_byte. lia.
Qed.

(** Genesis files hold the position of their content among those written here. *)
#[local] Existing Instance Commands.Demo.ValidatorSet_eq_dec.
Definition geneses : list ValidatorSet := [mkValidatorSet [Validator_new [100] 1; Validator_new [101] 1]].
#[local] Instance text_formats : FileFormats := {|
  config_to_toml _ := None; toml_to_config _ := None; genesis_to_json := Commands.Demo.render_in geneses;
  json_to_genesis := Commands.Demo.parse_in geneses; key_to_json k := Some k; json_to_key b := Some b |}.
#[local] Instance text_formats_laws : FileFormatLaws text_formats.
Proof. constructor; [done|exact (Commands.Demo.render_parse geneses)|by intros k b [= ->]]. Qed.
#[local] Instance text_bundle : BundleFormats := {|
  home_to_toml c := Some (bytes_of_text (hc_moniker c)); lock_to_json l := Some [Z.of_nat (length (lf_nodes l))];
  network_to_json _ := Some []; inventory_to_yaml l := Some [Z.of_nat (length l)] |}.
Definition peer_defaults : PeerConfig := mkPeerConfig "127.0.0.1:0" [] 4194304 10485760.
#[local] Instance plain_settings : Settings := {|
  default_consensus := peer_defaults; default_mempool := peer_defaults;
  default_sync := mkValueSync true 5 10000 1048576 10485760 5; parse_duration := parse_uint (2^64);
  parse_size := parse_uint (2^64); parse_addr s := Some s; sort_addrs := merge_sort str_le |}.
#[local] Existing Instance demo_wallet.
#[local] Existing Instance demo_el.
(** The execution genesis is written as its time. *)
#[local] Instance time_json : GenesisJson demo_el := {|
  genesis_to_value g := JObject [("timestamp"%string, JNumber (gn_timestamp g))];
  value_to_text j := match json_get "timestamp" j with Some (JNumber z) => [z] | _ => [] end;
  alloc_read m := (m : @Alloc demo_el) |}.

Definition two_validators : Deployment :=
  mkDeployment (Netgen.Demo.demo_manifest "host-block"
      [Netgen.Demo.node "b" "h2"; Netgen.Demo.node "a" "h1"; mkNode "e" "h1" "rpc"])
    (mkTuning (Some 2) (Some "20000") None (Some "many") None) (Some (mkTuning None None None None (Some 9)))
    None None "127.0.0.1" false.
Definition out : Path := ["net"%string].
Definition manifest : Path := ["m.yml"%string].
#[local] Instance demo_inputs : InputFormats := {|
  yaml_to_manifest _ := Some two_validators; yaml_to_secrets _ := None; sops := None |}.
Definition run_at (now : Z) (d : Disk) : Disk * outcome string (Deployment * Lockfile) :=
  generate (Some now) manifest out None true false d.
Definition demo_disk : Disk := mkDisk (mkFs {[manifest := []]} []) ∅ 0.
Definition first_run : Disk * outcome string (Deployment * Lockfile) := run_at 7 demo_disk.
Definition lock_of (r : Disk * outcome string (Deployment * Lockfile)) : option Lockfile := snd <$> to_option r.2.

Lemma run_split (r : Disk * outcome string (Deployment * Lockfile)) i : r.2 = Ok i → r = (r.1, Ok i).
Proof. destruct r as [d o]. by intros [= ->]. Qed.

Lemma bundle_is_one_network_witness :
  ∃ genesis key v, load_private_key_file (dk_fs first_run.1)
      (config_path (home_dir out "b") PRIV_VALIDATOR_KEY_FILE) = Ok key ∧ key = [101] ∧
    load_genesis (dk_fs first_run.1) (config_path (home_dir out "e") GENESIS_FILE) = Ok genesis ∧
    get_by_address genesis (Address_from_public_key (ed25519_public key)) = Some v ∧ val_voting_power v = 1.
Proof.
  assert (∃ lock, first_run.2 = Ok (two_validators, lock)) as [lock Hok] by (eexists; vm_compute; reflexivity).
  destruct (bundle_is_one_network (Some 7) manifest out None true false demo_disk first_run.1 two_validators lock)
    as (genesis & Hall).
  - vm_compute. discriminate.
  - exact (run_split first_run _ Hok).
  - destruct (Hall (Netgen.Demo.node "b" "h2")) as ((key & Hk & Hv) & _); [left|].
    destruct (Hv eq_refl) as (v & Hp & Hg). destruct (Hall (mkNode "e" "h1" "rpc")) as (_ & He & _); [right; right; left|].
    exists genesis, key, v. split; [exact Hk|]. split; [|split; [exact He|split; [exact Hg|exact Hp]]].
    assert (load_private_key_file (dk_fs first_run.1) (config_path (home_dir out "b") PRIV_VALIDATOR_KEY_FILE) = Ok [101])
      as Hk' by (vm_compute; reflexivity).
    cbn [nn_id Netgen.Demo.node] in Hk. rewrite Hk in Hk'. injection Hk' as ->. reflexivity.
Defined.

(** The same disk, on which some calls of the next run will fail. *)
Definition with_faults (d : Disk) (faults : list (option nat)) : Disk :=
  mkDisk (mkFs (dk_files d) faults) (dk_modes d) (dk_drawn d).
Lemma with_faults_kept (d : Disk) (faults : list (option nat)) : keys_kept d (with_faults d faults).
Proof. by apply same_files_kept. Qed.
(** A second run fails while it writes the genesis of a home; a third one does not. *)
Definition second_faults : list (option nat) := replicate 14 None ++ [Some 0%nat].
Definition second_run : Disk * outcome string (Deployment * Lockfile) := run_at 8 (with_faults first_run.1 second_faults).
Definition third_run : Disk * outcome string (Deployment * Lockfile) := run_at 9 (with_faults second_run.1 []).

Lemma regenerated_network_is_the_same_witness :
  second_run.2 = Err "cannot write file"%string ∧ lf_nodes <$> lock_of third_run = lf_nodes <$> lock_of first_run.
Proof.
  assert (second_run.2 = Err "cannot write file"%string) as Hfail by (vm_compute; reflexivity). split; [exact Hfail|].
  assert (∃ lock, first_run.2 = Ok (two_validators, lock)) as [lock Hok] by (eexists; vm_compute; reflexivity).
  assert (∃ lock, third_run.2 = Ok (two_validators, lock)) as [lock' Hok'] by (eexists; vm_compute; reflexivity).
  unfold lock_of. rewrite Hok, Hok'. cbn. f_equal.
  apply (regenerated_network_is_the_same (Some 7) (Some 9) manifest manifest out None None true false true false
    demo_disk first_run.1 (with_faults second_run.1 []) third_run.1 two_validators lock lock').
  - vm_compute. discriminate.
  - reflexivity.
  - exact (run_split first_run _ Hok).
  - apply (reruns_other out first_run.1 (with_faults first_run.1 second_faults) _ (with_faults_kept _ _)).
    apply (reruns_run out (Some 8) manifest None true false _ second_run.1 _ second_run.2).
    + exact (surjective_pairing second_run).
    + exact (reruns_other out second_run.1 _ _ (with_faults_kept _ _) (reruns_none _ _)).
  - exact (run_split third_run _ Hok').
Defined.

(** The lock depends on when it is written: the execution genesis has the time of
    the run, so that its checksum in the lock differs. *)
Example lock_depends_on_time :
  lf_genesis_sha256 <$> lock_of first_run = Some "07"%string ∧ lf_genesis_sha256 <$> lock_of third_run = Some "09"%string.
Proof. vm_compute. repeat split. Qed.

(** A temporary file that was left behind keeps its mode until it has been
    written: if setting the mode then fails, the secret stays readable to others. *)
Example leftover_temporary_exposes_secret :
  let d := mkDisk (mkFs {[["a.tmp"%string] := []]} [None; None; None; Some 0%nat]) {[["a.tmp"%string] := 6 * 64 + 4 * 8 + 4]} 0 in
  let r := write_atomic_with_mode ["a.key"%string] [42] (Some MODE_600) d in
  r.2 = Err "cannot set permissions"%string ∧ dk_files r.1 !! ["a.tmp"%string] = Some [42] ∧
  dk_modes r.1 !! ["a.tmp"%string] = Some (6 * 64 + 4 * 8 + 4).
Proof. vm_compute. repeat split. Qed.

(** The configuration of a node that is no validator: tuning for all nodes, then
    its own; a size that does not parse leaves the default. *)
Example fullnode_tuning :
  sync_config two_validators (mkNode "e" "h1" "rpc") = mkValueSync true 2 20000 1048576 10485760 9.
Proof. vm_compute. reflexivity. Qed.

Example env_file_escaped :
  env_line "K" ("a" +:+ quote +:+ backslash +:+ "b") =
  "K=" +:+ quote +:+ "a" +:+ backslash +:+ quote +:+ backslash +:+ backslash +:+ "b" +:+ quote +:+ newline.
Proof. vm_compute. reflexivity. Qed.
End Demo.
